(** * Lighthouse audit service: a shallow embedding of [dist/index.js]

    The server is an Express application with three routes of interest:
    [GET /nsa-audit], [GET /reports] and [GET /reports/:filename].  The
    handlers are embedded as functions in a small completion monad over an
    explicit world (file system, console, live Chrome processes, trace of
    externally visible actions).  Everything the platform decides (whether
    Chrome starts, what Lighthouse returns, the clock, I/O faults, the verdict
    of the WHATWG URL parser) is read from an environment record, so the
    theorems hold for every behaviour of the platform.

    Modelling conventions:
    - strings are byte strings (the UTF-8 encoding of the JavaScript string);
    - a finite JavaScript number is carried as its JSON literal, IEEE rounding
      is not modelled;
    - an object is the list of its own enumerable properties in enumeration
      order (integer-like keys are not reordered);
    - paths are POSIX paths;
    - one request runs at a time: interleaving at [await] is not modelled. *)

From Stdlib Require Import String Ascii List ZArith NArith Lia Bool Arith.
From Stdlib Require Import DecimalString.
Import ListNotations.
Set Warnings "-register-all".
Open Scope list_scope.
Open Scope string_scope.

(* ------------------------------------------------------------------ *)
(** ** String built-ins used by the handlers *)

Module Str.

(** [String.prototype.startsWith] *)
Fixpoint startsWith (s pat : string) {struct pat} : bool :=
  match pat with
  | EmptyString => true
  | String a pat' =>
      match s with
      | EmptyString => false
      | String b s' => Ascii.eqb a b && startsWith s' pat'
      end
  end.

(** [String.prototype.endsWith] *)
Fixpoint endsWith (s suffix : string) : bool :=
  (s =? suffix) ||
  match s with
  | EmptyString => false
  | String _ s' => endsWith s' suffix
  end.

Fixpoint drop (n : nat) (s : string) : string :=
  match n, s with
  | O, _ => s
  | S n', String _ s' => drop n' s'
  | S _, EmptyString => EmptyString
  end.

(** [String.prototype.split] with a one-character separator: the result is
    never empty. *)
Fixpoint split (sep : ascii) (s : string) : list string :=
  match s with
  | EmptyString => [EmptyString]
  | String c s' =>
      if Ascii.eqb c sep then EmptyString :: split sep s'
      else match split sep s' with
           | [] => [String c EmptyString]
           | seg :: segs => String c seg :: segs
           end
  end.

(** [Array.prototype.pop] as far as its result goes: the last element. *)
Fixpoint pop {A : Type} (l : list A) : option A :=
  match l with
  | [] => None
  | [x] => Some x
  | _ :: l' => pop l'
  end.

(** [String.prototype.replace] with a string pattern: the first occurrence
    only. *)
Fixpoint replace (pat repl s : string) : string :=
  if startsWith s pat then repl ++ drop (String.length pat) s
  else match s with
       | EmptyString => EmptyString
       | String c s' => String c (replace pat repl s')
       end.

(** [s.replace(/[:.]/g, '-')] *)
Fixpoint replace_colon_dot (s : string) : string :=
  match s with
  | EmptyString => EmptyString
  | String c s' =>
      String (if Ascii.eqb c ":" || Ascii.eqb c "." then "-"%char else c)
             (replace_colon_dot s')
  end.

(** [String.prototype.localeCompare]: negative, zero or positive.  Modelled
    as the comparison of code units, which is what the collation gives on
    the digits-and-capitals alphabet of report timestamps. *)
Definition localeCompare (a b : string) : Z :=
  match String.compare a b with
  | Lt => (-1)%Z
  | Eq => 0%Z
  | Gt => 1%Z
  end.

(** [x || ''] on a possibly undefined string *)
Definition or_empty (o : option string) : string :=
  match o with
  | Some s => s
  | None => EmptyString
  end.

Definition contains_char (c : ascii) (s : string) : bool :=
  existsb (Ascii.eqb c) (list_ascii_of_string s).

End Str.

(** [Array.prototype.sort] with a comparator: a stable sort; an element moves
    in front of another only when the comparator says it is smaller. *)
Module JsArray.

Section Sort.
Context {A : Type} (cmp : A -> A -> Z).

Fixpoint insert (x : A) (l : list A) : list A :=
  match l with
  | [] => [x]
  | y :: l' => if (cmp y x <=? 0)%Z then y :: insert x l' else x :: y :: l'
  end.

Definition sort (l : list A) : list A :=
  fold_left (fun acc x => insert x acc) l [].

End Sort.

End JsArray.

(* ------------------------------------------------------------------ *)
(** ** [path.join] (POSIX) *)

Module Path.

(** [normalizeString]: the stack of segments, innermost first. *)
Fixpoint normalize_segments (allowAboveRoot : bool) (segs : list string)
                            (res : list string) : list string :=
  match segs with
  | [] => res
  | seg :: rest =>
      if (seg =? "") || (seg =? ".") then
        normalize_segments allowAboveRoot rest res
      else if seg =? ".." then
        match res with
        | top :: below =>
            if top =? ".." then
              normalize_segments allowAboveRoot rest
                (if allowAboveRoot then ".." :: res else res)
            else normalize_segments allowAboveRoot rest below
        | [] =>
            normalize_segments allowAboveRoot rest
              (if allowAboveRoot then [".."] else [])
        end
      else normalize_segments allowAboveRoot rest (seg :: res)
  end.

Definition isAbsolute (path : string) : bool :=
  match path with
  | String "/" _ => true
  | _ => false
  end.

Definition normalize (path : string) : string :=
  if path =? "" then "."
  else
    let absolute := isAbsolute path in
    let trailingSeparator := Str.endsWith path "/" in
    let body :=
      String.concat "/"
        (rev (normalize_segments (negb absolute) (Str.split "/" path) [])) in
    if body =? "" then
      if absolute then "/" else if trailingSeparator then "./" else "."
    else
      let body := if trailingSeparator then body ++ "/" else body in
      if absolute then "/" ++ body else body.

Definition join (a b : string) : string :=
  if a =? "" then (if b =? "" then "." else normalize b)
  else if b =? "" then normalize a
  else normalize (a ++ "/" ++ b).

End Path.

(* ------------------------------------------------------------------ *)
(** ** The clock: [new Date().toISOString()] *)

Module Date.
Local Open Scope nat_scope.

Record t := mk {
  year : nat; month : nat; day : nat;
  hour : nat; minute : nat; second : nat; millisecond : nat
}.

Definition valid (d : t) : bool :=
  (year d / 100 <=? 99) && (1 <=? month d) && (month d <=? 12) &&
  (1 <=? day d) && (day d <=? 31) && (hour d <=? 23) &&
  (minute d <=? 59) && (second d <=? 59) && (millisecond d <=? 999).

(** Chronological order of UTC instants: the fields, most significant
    first. *)
Definition key (d : t) : list nat :=
  [year d; month d; day d; hour d; minute d; second d; millisecond d].

Fixpoint lex_lt (a b : list nat) : bool :=
  match a, b with
  | x :: a', y :: b' => (x <? y) || ((x =? y) && lex_lt a' b')
  | [], _ :: _ => true
  | _, [] => false
  end.

Definition before (d1 d2 : t) : bool := lex_lt (key d1) (key d2).

Definition digit (n : nat) : ascii := ascii_of_nat (48 + n mod 10).

Definition pad2 (n : nat) : string :=
  String (digit (n / 10)) (String (digit n) "").
Definition pad3 (n : nat) : string :=
  String (digit (n / 100)) (pad2 n).
Definition pad4 (n : nat) : string :=
  String (digit (n / 1000)) (pad3 n).

Definition toISOString (d : t) : string :=
  (pad4 (year d) ++ "-" ++ pad2 (month d) ++ "-" ++ pad2 (day d) ++ "T" ++
   pad2 (hour d) ++ ":" ++ pad2 (minute d) ++ ":" ++ pad2 (second d) ++ "." ++
   pad3 (millisecond d) ++ "Z")%string.

End Date.

(* ------------------------------------------------------------------ *)
(** ** JavaScript values *)

Module Js.

(** A number: not-a-number, an infinity, or a finite number given by its
    JSON literal. *)
Inductive number :=
| NaN
| Infinity (negative : bool)
| Finite (literal : string).

Inductive value :=
| VUndefined
| VNull
| VBool (b : bool)
| VNum (n : number)
| VStr (s : string)
| VArr (elems : list value)
| VObj (props : list (string * value)).

Definition is_digit (c : ascii) : bool :=
  let n := nat_of_ascii c in (48 <=? n)%nat && (n <=? 57)%nat.

(** Whether a literal denotes zero: every digit of its mantissa is 0. *)
Fixpoint mantissa_zero (s : string) : bool :=
  match s with
  | EmptyString => true
  | String c s' =>
      if Ascii.eqb c "e" || Ascii.eqb c "E" then true
      else if is_digit c && negb (Ascii.eqb c "0") then false
      else mantissa_zero s'
  end.

(** [ToBoolean]: what [!v] and [v || d] test. *)
Definition truthy (v : value) : bool :=
  match v with
  | VUndefined | VNull => false
  | VBool b => b
  | VNum NaN => false
  | VNum (Infinity _) => true
  | VNum (Finite lit) => negb (mantissa_zero lit)
  | VStr s => negb (s =? "")
  | VArr _ | VObj _ => true
  end.

Fixpoint assoc {A : Type} (k : string) (l : list (string * A)) : option A :=
  match l with
  | [] => None
  | (k', x) :: l' => if k' =? k then Some x else assoc k l'
  end.

(** [o[k]] for a property name [k] that no prototype defines; the handlers
    read properties only of values they have tested to be truthy. *)
Definition get (o : value) (k : string) : value :=
  match o with
  | VObj props =>
      match assoc k props with
      | Some x => x
      | None => VUndefined
      end
  | _ => VUndefined
  end.

(** [v || d] *)
Definition or_else (v d : value) : value := if truthy v then v else d.

(** [v.toString()], and [ToString(v)] for the members of an array.  A plain
    object answers [[object Object]] from its prototype unless it has a
    property of its own named [toString]: the query parser of Express makes
    objects from bracketed keys and lets such a key through, and its value,
    being a string, an array or an object, is not a function.  [None] is a
    thrown [TypeError]. *)
Fixpoint toString (v : value) : option string :=
  match v with
  | VUndefined | VNull => None
  | VBool true => Some "true"
  | VBool false => Some "false"
  | VNum NaN => Some "NaN"
  | VNum (Infinity true) => Some "-Infinity"
  | VNum (Infinity false) => Some "Infinity"
  | VNum (Finite lit) => Some lit
  | VStr s => Some s
  | VArr l =>
      option_map (String.concat ",")
        ((fix each (l : list value) : option (list string) :=
            match l with
            | [] => Some []
            | x :: l' =>
                match match x with
                      | VUndefined | VNull => Some ""
                      | _ => toString x
                      end with
                | Some t => option_map (cons t) (each l')
                | None => None
                end
            end) l)
  | VObj props =>
      match assoc "toString" props with
      | Some _ => None
      | None => Some "[object Object]"
      end
  end.

(** The message of that [TypeError], for [url.toString()]. *)
Definition toString_error (v : value) : string :=
  match v with
  | VUndefined => "Cannot read properties of undefined (reading 'toString')"
  | VNull => "Cannot read properties of null (reading 'toString')"
  | VArr _ => "Cannot convert object to primitive value"
  | _ => "url.toString is not a function"
  end.

(** What a [throw] carries: an instance of [Error] or of a subclass of it,
    or any other value.  An instance is given by what [error.message] and
    [error.stack] read and by its own properties, in the order in which
    [Object.getOwnPropertyNames] lists them. *)
Inductive thrown :=
| Error (message stack : string) (own : list (string * value))
| Thrown (v : value).

(** The own properties of what [new Error(message)] makes. *)
Definition plain_own (message stack : string) : list (string * value) :=
  [("stack", VStr stack); ("message", VStr message)].

End Js.

(* ------------------------------------------------------------------ *)
(** ** [JSON.stringify] and [JSON.parse] *)

Module Json.
Import Js.

Definition hex_digit (n : nat) : ascii :=
  if (n <? 10)%nat then ascii_of_nat (48 + n) else ascii_of_nat (87 + n).

Definition dquote : ascii := "034"%char.
Definition backslash : ascii := "092"%char.

(** A two-character escape sequence. *)
Definition esc (c : ascii) : string := String backslash (String c "").

(** [QuoteJSONString], character by character. *)
Definition escape_char (c : ascii) : string :=
  let n := nat_of_ascii c in
  if Ascii.eqb c dquote then esc dquote
  else if Ascii.eqb c backslash then esc backslash
  else if (n =? 8)%nat then esc "b"
  else if (n =? 9)%nat then esc "t"
  else if (n =? 10)%nat then esc "n"
  else if (n =? 12)%nat then esc "f"
  else if (n =? 13)%nat then esc "r"
  else if (n <? 32)%nat then
    esc "u" ++ "00" ++
    String (hex_digit (n / 16)) (String (hex_digit (n mod 16)) "")
  else String c "".

Fixpoint escape (s : string) : string :=
  match s with
  | EmptyString => EmptyString
  | String c s' => escape_char c ++ escape s'
  end.

Definition quote (s : string) : string :=
  String dquote (escape s ++ String dquote "").

(** The line break before an item: nothing when [gap] is empty. *)
Definition newline (gap indent : string) : string :=
  if gap =? "" then "" else String "010" indent.

Definition colon (gap : string) : string :=
  if gap =? "" then ":" else ": ".

(** The text of an array or object from the texts of its items. *)
Definition wrap (opening closing gap stepback indent : string)
                (partial : list string) : string :=
  match partial with
  | [] => opening ++ closing
  | _ =>
      opening ++ newline gap indent ++
      String.concat ("," ++ newline gap indent) partial ++
      newline gap stepback ++ closing
  end.

(** [SerializeJSONProperty]: [None] is the undefined result. *)
Fixpoint serialize (gap indent : string) (v : value) {struct v}
  : option string :=
  match v with
  | VUndefined => None
  | VNull => Some "null"
  | VBool true => Some "true"
  | VBool false => Some "false"
  | VNum (Finite lit) => Some lit
  | VNum _ => Some "null"
  | VStr s => Some (quote s)
  | VArr elems =>
      let stepback := indent in
      let indent := indent ++ gap in
      let partial :=
        map (fun x => match serialize gap indent x with
                      | Some t => t
                      | None => "null"
                      end) elems in
      Some (wrap "[" "]" gap stepback indent partial)
  | VObj props =>
      let stepback := indent in
      let indent := indent ++ gap in
      let partial :=
        (fix members (ps : list (string * value)) : list string :=
           match ps with
           | [] => []
           | (k, x) :: ps' =>
               match serialize gap indent x with
               | Some t => (quote k ++ colon gap ++ t) :: members ps'
               | None => members ps'
               end
           end) props in
      Some (wrap "{" "}" gap stepback indent partial)
  end.

(** [JSON.stringify(v, null, space)] for [space] a number of blanks. *)
Definition blanks (n : nat) : string := string_of_list_ascii (repeat " "%char n).

Definition stringify (v : value) (space : nat) : option string :=
  serialize (blanks space) "" v.

(** The replacer array of [JSON.stringify]: objects at every depth keep the
    listed properties only, in the order of the list. *)
Fixpoint project (allow : list string) (v : value) {struct v} : value :=
  match v with
  | VArr elems => VArr (map (project allow) elems)
  | VObj props =>
      let props' :=
        (fix each (ps : list (string * value)) : list (string * value) :=
           match ps with
           | [] => []
           | (k, x) :: ps' => (k, project allow x) :: each ps'
           end) props in
      VObj (flat_map (fun k => match assoc k props' with
                               | Some x => [(k, x)]
                               | None => []
                               end)
                     (nodup string_dec allow))
  | _ => v
  end.

(** *** The parser *)

Definition is_ws (c : ascii) : bool :=
  let n := nat_of_ascii c in
  ((n =? 32) || (n =? 9) || (n =? 10) || (n =? 13))%nat.

Fixpoint skip_ws (s : string) : string :=
  match s with
  | EmptyString => EmptyString
  | String c s' => if is_ws c then skip_ws s' else s
  end.

(** Numbers: the longest run of number characters must be a literal of the
    JSON grammar: an optional minus sign; a zero, or a non-zero digit and
    further digits; optionally a point and digits; optionally an exponent
    mark, a sign and digits. *)
Definition is_num_char (c : ascii) : bool :=
  is_digit c || Ascii.eqb c "+" || Ascii.eqb c "-" || Ascii.eqb c "." ||
  Ascii.eqb c "e" || Ascii.eqb c "E".

Fixpoint span_num (s : string) : string * string :=
  match s with
  | EmptyString => (EmptyString, EmptyString)
  | String c s' =>
      if is_num_char c then
        let (tok, rest) := span_num s' in (String c tok, rest)
      else (EmptyString, s)
  end.

Fixpoint skip_digits (s : string) : string :=
  match s with
  | EmptyString => EmptyString
  | String c s' => if is_digit c then skip_digits s' else s
  end.

Definition lit_exponent (s : string) : bool :=
  match s with
  | EmptyString => true
  | String c s1 =>
      if Ascii.eqb c "e" || Ascii.eqb c "E" then
        let s2 := match s1 with
                  | String sign t =>
                      if Ascii.eqb sign "+" || Ascii.eqb sign "-" then t else s1
                  | EmptyString => s1
                  end in
        match s2 with
        | String d t => is_digit d && (skip_digits t =? "")
        | EmptyString => false
        end
      else false
  end.

Definition lit_fraction (s : string) : bool :=
  match s with
  | String c s1 =>
      if Ascii.eqb c "." then
        match s1 with
        | String d t => is_digit d && lit_exponent (skip_digits t)
        | EmptyString => false
        end
      else lit_exponent s
  | EmptyString => true
  end.

Definition lit_integer (s : string) : bool :=
  match s with
  | String c s1 =>
      if Ascii.eqb c "0" then lit_fraction s1
      else is_digit c && lit_fraction (skip_digits s1)
  | EmptyString => false
  end.

Definition is_number_literal (s : string) : bool :=
  match s with
  | String c s1 => if Ascii.eqb c "-" then lit_integer s1 else lit_integer s
  | EmptyString => false
  end.

(** Strings.  A four-digit unicode escape yields the UTF-8 bytes of that
    code unit; a surrogate escape is encoded on its own. *)
Definition hex_value (c : ascii) : option nat :=
  let n := nat_of_ascii c in
  if (48 <=? n)%nat && (n <=? 57)%nat then Some (n - 48)%nat
  else if (97 <=? n)%nat && (n <=? 102)%nat then Some (n - 87)%nat
  else if (65 <=? n)%nat && (n <=? 70)%nat then Some (n - 55)%nat
  else None.

Definition hex4 (a b c d : ascii) : option nat :=
  match hex_value a, hex_value b, hex_value c, hex_value d with
  | Some x, Some y, Some z, Some w =>
      Some (((x * 16 + y) * 16 + z) * 16 + w)%nat
  | _, _, _, _ => None
  end.

Definition utf8 (cu : nat) : string :=
  if (cu <? 128)%nat then String (ascii_of_nat cu) ""
  else if (cu <? 2048)%nat then
    String (ascii_of_nat (192 + cu / 64))
      (String (ascii_of_nat (128 + cu mod 64)) "")
  else
    String (ascii_of_nat (224 + cu / 4096))
      (String (ascii_of_nat (128 + (cu / 64) mod 64))
         (String (ascii_of_nat (128 + cu mod 64)) "")).

Definition unescape (e : ascii) : option ascii :=
  if Ascii.eqb e dquote then Some dquote
  else if Ascii.eqb e backslash then Some backslash
  else if Ascii.eqb e "/" then Some "/"%char
  else if Ascii.eqb e "b" then Some "008"%char
  else if Ascii.eqb e "f" then Some "012"%char
  else if Ascii.eqb e "n" then Some "010"%char
  else if Ascii.eqb e "r" then Some "013"%char
  else if Ascii.eqb e "t" then Some "009"%char
  else None.

Definition prepend (t : string) (r : option (string * string))
  : option (string * string) :=
  match r with
  | Some (t', rest) => Some (t ++ t', rest)
  | None => None
  end.

(** The characters of a string after its opening quote, up to and including
    the closing quote. *)
Fixpoint parse_chars (s : string) : option (string * string) :=
  match s with
  | EmptyString => None
  | String c s1 =>
      if Ascii.eqb c dquote then Some (EmptyString, s1)
      else if Ascii.eqb c backslash then
        match s1 with
        | EmptyString => None
        | String e s2 =>
            if Ascii.eqb e "u" then
              match s2 with
              | String h1 (String h2 (String h3 (String h4 s3))) =>
                  match hex4 h1 h2 h3 h4 with
                  | Some cu => prepend (utf8 cu) (parse_chars s3)
                  | None => None
                  end
              | _ => None
              end
            else
              match unescape e with
              | Some ch => prepend (String ch "") (parse_chars s2)
              | None => None
              end
        end
      else if (nat_of_ascii c <? 32)%nat then None
      else prepend (String c "") (parse_chars s1)
  end.

(** Properties in the order of their first occurrence; a repeated name keeps
    its last value. *)
Fixpoint set_prop (k : string) (v : value) (props : list (string * value))
  : list (string * value) :=
  match props with
  | [] => [(k, v)]
  | (k', x) :: ps =>
      if k' =? k then (k, v) :: ps else (k', x) :: set_prop k v ps
  end.

Definition collect (members : list (string * value)) : list (string * value) :=
  fold_left (fun acc m => set_prop (fst m) (snd m) acc) members [].

Fixpoint parse_value (fuel : nat) (s : string) {struct fuel}
  : option (value * string) :=
  match fuel with
  | O => None
  | S fuel' =>
      match s with
      | EmptyString => None
      | String c s1 =>
          if Ascii.eqb c "[" then
            match skip_ws s1 with
            | EmptyString => None
            | String c2 r as s2 =>
                if Ascii.eqb c2 "]" then Some (VArr [], r)
                else match parse_elements fuel' s2 with
                     | Some (vs, r') => Some (VArr vs, r')
                     | None => None
                     end
            end
          else if Ascii.eqb c "{" then
            match skip_ws s1 with
            | EmptyString => None
            | String c2 r as s2 =>
                if Ascii.eqb c2 "}" then Some (VObj [], r)
                else match parse_members fuel' s2 with
                     | Some (ms, r') => Some (VObj (collect ms), r')
                     | None => None
                     end
            end
          else if Ascii.eqb c dquote then
            match parse_chars s1 with
            | Some (t, r) => Some (VStr t, r)
            | None => None
            end
          else if Str.startsWith s "null" then Some (VNull, Str.drop 4 s)
          else if Str.startsWith s "true" then Some (VBool true, Str.drop 4 s)
          else if Str.startsWith s "false" then Some (VBool false, Str.drop 5 s)
          else if Ascii.eqb c "-" || is_digit c then
            let (tok, r) := span_num s in
            if is_number_literal tok then Some (VNum (Finite tok), r)
            else None
          else None
      end
  end
with parse_elements (fuel : nat) (s : string) {struct fuel}
  : option (list value * string) :=
  match fuel with
  | O => None
  | S fuel' =>
      match parse_value fuel' s with
      | None => None
      | Some (v, r) =>
          match skip_ws r with
          | EmptyString => None
          | String c r' =>
              if Ascii.eqb c "," then
                match parse_elements fuel' (skip_ws r') with
                | Some (vs, r'') => Some (v :: vs, r'')
                | None => None
                end
              else if Ascii.eqb c "]" then Some ([v], r')
              else None
          end
      end
  end
with parse_members (fuel : nat) (s : string) {struct fuel}
  : option (list (string * value) * string) :=
  match fuel with
  | O => None
  | S fuel' =>
      match s with
      | EmptyString => None
      | String q s1 =>
          if Ascii.eqb q dquote then
            match parse_chars s1 with
            | None => None
            | Some (k, r0) =>
                match skip_ws r0 with
                | EmptyString => None
                | String c r1 =>
                    if Ascii.eqb c ":" then
                      match parse_value fuel' (skip_ws r1) with
                      | None => None
                      | Some (v, r) =>
                          match skip_ws r with
                          | EmptyString => None
                          | String c' r' =>
                              if Ascii.eqb c' "," then
                                match parse_members fuel' (skip_ws r') with
                                | Some (ms, r'') => Some ((k, v) :: ms, r'')
                                | None => None
                                end
                              else if Ascii.eqb c' "}" then Some ([(k, v)], r')
                              else None
                          end
                      end
                    else None
                end
            end
          else None
      end
  end.

(** *** What survives serialization *)

(** The value that the text of [v] denotes: properties holding [undefined]
    are gone; [undefined] in an array and the numbers that are not finite
    have become [null]. *)
Fixpoint jsonify (v : value) {struct v} : value :=
  match v with
  | VNum (Finite _) => v
  | VNum _ => VNull
  | VArr elems =>
      VArr (map (fun x => match x with
                          | VUndefined => VNull
                          | _ => jsonify x
                          end) elems)
  | VObj props =>
      VObj ((fix each (ps : list (string * value)) : list (string * value) :=
               match ps with
               | [] => []
               | (k, VUndefined) :: ps' => each ps'
               | (k, x) :: ps' => (k, jsonify x) :: each ps'
               end) props)
  | _ => v
  end.

Fixpoint unique (l : list string) : bool :=
  match l with
  | [] => true
  | k :: l' => negb (existsb (String.eqb k) l') && unique l'
  end.

(** Values that JavaScript can hold: finite numbers are number literals and
    the property names of an object are distinct. *)
Fixpoint well_formed (v : value) {struct v} : bool :=
  match v with
  | VNum (Finite lit) => is_number_literal lit
  | VArr elems => forallb well_formed elems
  | VObj props =>
      unique (map fst props) &&
      (fix each (ps : list (string * value)) : bool :=
         match ps with
         | [] => true
         | (_, x) :: ps' => well_formed x && each ps'
         end) props
  | _ => true
  end.

(** JSON data: nothing in it that serialization drops or rewrites. *)
Fixpoint json_data (v : value) {struct v} : bool :=
  match v with
  | VUndefined => false
  | VNum (Finite _) => true
  | VNum _ => false
  | VArr elems => forallb json_data elems
  | VObj props =>
      (fix each (ps : list (string * value)) : bool :=
         match ps with
         | [] => true
         | (_, x) :: ps' => json_data x && each ps'
         end) props
  | _ => true
  end.

(** The number of values in a value, a bound on the depth of the parse. *)
Fixpoint size (v : value) {struct v} : nat :=
  match v with
  | VArr elems => S (fold_right (fun x n => S (size x + n)) O elems)
  | VObj props =>
      S ((fix each (ps : list (string * value)) : nat :=
            match ps with
            | [] => O
            | (_, x) :: ps' => S (size x + each ps')
            end) props)
  | _ => 1%nat
  end.

(** [JSON.parse]: [None] is a thrown [SyntaxError]. *)
Definition parse (text : string) : option value :=
  match parse_value (S (String.length text)) (skip_ws text) with
  | Some (v, r) => if skip_ws r =? "" then Some v else None
  | None => None
  end.

End Json.

(* ------------------------------------------------------------------ *)
(** ** Texts and values: notions for the round trip *)

Module JsonText.
Import Js Json.

(** Strings of blanks and line breaks are skipped. *)
Fixpoint all_ws (s : string) : bool :=
  match s with
  | EmptyString => true
  | String c s' => is_ws c && all_ws s'
  end.

Fixpoint all_num (s : string) : bool :=
  match s with
  | EmptyString => true
  | String c s' => is_num_char c && all_num s'
  end.

(** What may follow a number: anything but a number character. *)
Definition boundary (rest : string) : bool :=
  match rest with
  | EmptyString => true
  | String c _ => negb (is_num_char c)
  end.

Definition num_start (c : ascii) : bool := Ascii.eqb c "-" || is_digit c.

(** The nested recursions, by name. *)
Definition elems_text (gap indent : string) (elems : list value) : list string :=
  map (fun x => match serialize gap indent x with
                | Some t => t
                | None => "null"
                end) elems.

Definition members_text (gap indent : string) : list (string * value) -> list string :=
  fix members (ps : list (string * value)) : list string :=
    match ps with
    | [] => []
    | (k, x) :: ps' =>
        match serialize gap indent x with
        | Some t => (quote k ++ colon gap ++ t) :: members ps'
        | None => members ps'
        end
    end.

Definition props_wf : list (string * value) -> bool :=
  fix each (ps : list (string * value)) : bool :=
    match ps with
    | [] => true
    | (_, x) :: ps' => well_formed x && each ps'
    end.

Definition props_data : list (string * value) -> bool :=
  fix each (ps : list (string * value)) : bool :=
    match ps with
    | [] => true
    | (_, x) :: ps' => json_data x && each ps'
    end.

Definition props_size : list (string * value) -> nat :=
  fix each (ps : list (string * value)) : nat :=
    match ps with
    | [] => O
    | (_, x) :: ps' => S (size x + each ps')
    end.

Definition elems_size (elems : list value) : nat :=
  fold_right (fun x n => S (size x + n)) O elems.

(** A value text starts with a character that is neither blank nor a closing
    bracket. *)
Definition starts_value (t : string) : bool :=
  match t with
  | EmptyString => false
  | String c _ =>
      negb (is_ws c) && negb (Ascii.eqb c "]") && negb (Ascii.eqb c "}") &&
      negb (Ascii.eqb c ",")
  end.

Definition round_trips (v : value) : Prop :=
  forall gap indent t rest fuel,
    all_ws gap = true -> all_ws indent = true ->
    well_formed v = true -> json_data v = true ->
    serialize gap indent v = Some t ->
    (size v <= fuel)%nat -> boundary rest = true ->
    parse_value fuel (t ++ rest) = Some (v, rest).

Definition jsonify_elem (x : value) : value :=
  match x with
  | VUndefined => VNull
  | _ => jsonify x
  end.

Definition jsonify_props : list (string * value) -> list (string * value) :=
  fix each (ps : list (string * value)) : list (string * value) :=
    match ps with
    | [] => []
    | (k, VUndefined) :: ps' => each ps'
    | (k, x) :: ps' => (k, jsonify x) :: each ps'
    end.

End JsonText.

(* ------------------------------------------------------------------ *)
(** ** [decodeURIComponent] *)

Module Uri.

Inductive item :=
| Raw (c : ascii)
| Enc (byte : nat).

(** Percent triplets become bytes; [None] when a percent sign is not followed
    by two hexadecimal digits. *)
Fixpoint unescape (s : string) : option (list item) :=
  match s with
  | EmptyString => Some []
  | String c s1 =>
      if Ascii.eqb c "%" then
        match s1 with
        | String h1 (String h2 s2) =>
            match Json.hex_value h1, Json.hex_value h2, unescape s2 with
            | Some x, Some y, Some items => Some (Enc (16 * x + y) :: items)
            | _, _, _ => None
            end
        | _ => None
        end
      else match unescape s1 with
           | Some items => Some (Raw c :: items)
           | None => None
           end
  end.

Definition between (lo x hi : nat) : bool := ((lo <=? x) && (x <=? hi))%nat.

Definition continuation (b : nat) : bool := between 128 b 191.

(** The well-formed two-, three- and four-byte sequences of UTF-8. *)
Definition valid2 (b0 b1 : nat) : bool :=
  between 194 b0 223 && continuation b1.

Definition valid3 (b0 b1 b2 : nat) : bool :=
  between 224 b0 239 && continuation b2 &&
  (if (b0 =? 224)%nat then between 160 b1 191
   else if (b0 =? 237)%nat then between 128 b1 159
   else continuation b1).

Definition valid4 (b0 b1 b2 b3 : nat) : bool :=
  between 240 b0 244 && continuation b2 && continuation b3 &&
  (if (b0 =? 240)%nat then between 144 b1 191
   else if (b0 =? 244)%nat then between 128 b1 143
   else continuation b1).

Definition bytes (l : list nat) : string :=
  string_of_list_ascii (map ascii_of_nat l).

Definition emit (t : string) (r : option string) : option string :=
  match r with
  | Some t' => Some (t ++ t')
  | None => None
  end.

(** An escaped byte below 128 is a character; any other must start a
    well-formed UTF-8 sequence of escaped bytes. *)
Fixpoint assemble (items : list item) : option string :=
  match items with
  | [] => Some EmptyString
  | Raw c :: rest => emit (String c "") (assemble rest)
  | Enc b0 :: rest =>
      if (b0 <? 128)%nat then emit (bytes [b0]) (assemble rest)
      else if between 192 b0 223 then
        match rest with
        | Enc b1 :: rest' =>
            if valid2 b0 b1 then emit (bytes [b0; b1]) (assemble rest')
            else None
        | _ => None
        end
      else if between 224 b0 239 then
        match rest with
        | Enc b1 :: Enc b2 :: rest' =>
            if valid3 b0 b1 b2 then emit (bytes [b0; b1; b2]) (assemble rest')
            else None
        | _ => None
        end
      else if between 240 b0 247 then
        match rest with
        | Enc b1 :: Enc b2 :: Enc b3 :: rest' =>
            if valid4 b0 b1 b2 b3
            then emit (bytes [b0; b1; b2; b3]) (assemble rest')
            else None
        | _ => None
        end
      else None
  end.

(** [None] is a thrown [URIError]. *)
Definition decodeURIComponent (s : string) : option string :=
  match unescape s with
  | Some items => assemble items
  | None => None
  end.

End Uri.

(* ------------------------------------------------------------------ *)
(** ** The file system *)

Module Fs.

Inductive node :=
| File (content : string)
| Dir.

(** Absolute path to node, in directory order; the root always exists. *)
Definition t := list (string * node).

Inductive op := OpMkdir | OpWrite | OpRead | OpReaddir.

(** The error codes of the failures that the state of the store decides,
    with their numbers (on Linux) and descriptions as libuv has them. *)
Inductive errno := ENOENT | EEXIST | ENOTDIR | EISDIR.

Definition code_of (c : errno) : string :=
  match c with
  | ENOENT => "ENOENT"
  | EEXIST => "EEXIST"
  | ENOTDIR => "ENOTDIR"
  | EISDIR => "EISDIR"
  end.

Definition number_of (c : errno) : string :=
  match c with
  | ENOENT => "-2"
  | EEXIST => "-17"
  | ENOTDIR => "-20"
  | EISDIR => "-21"
  end.

Definition description_of (c : errno) : string :=
  match c with
  | ENOENT => "no such file or directory"
  | EEXIST => "file already exists"
  | ENOTDIR => "not a directory"
  | EISDIR => "illegal operation on a directory"
  end.

(** [code: description, syscall 'path'] *)
Definition message_of (c : errno) (syscall : string) (path : option string)
  : string :=
  code_of c ++ ": " ++ description_of c ++ ", " ++ syscall ++
  match path with
  | Some p => " '" ++ p ++ "'"
  | None => ""
  end.

Definition has_trailing_slash (path : string) : bool :=
  negb (path =? "/") && Str.endsWith path "/".

Fixpoint strip_trailing_slash (path : string) : string :=
  match path with
  | EmptyString => EmptyString
  | String c rest =>
      if rest =? "/" then String c "" else String c (strip_trailing_slash rest)
  end.

(** What a path names: a trailing slash names a directory only. *)
Definition resolve (fs : t) (path : string) : option node :=
  if path =? "/" then Some Dir
  else if has_trailing_slash path then
    match Js.assoc (strip_trailing_slash path) fs with
    | Some Dir => Some Dir
    | _ => None
    end
  else Js.assoc path fs.

(** [path.dirname] of an absolute normalized path *)
Definition dirname (path : string) : string :=
  match rev (Str.split "/" path) with
  | _ :: (_ :: _ :: _) as up => String.concat "/" (rev up)
  | _ => "/"
  end.

Fixpoint set_file (path content : string) (fs : t) : t :=
  match fs with
  | [] => [(path, File content)]
  | (p, n) :: fs' =>
      if p =? path then (p, File content) :: fs'
      else (p, n) :: set_file path content fs'
  end.

(** The name of [path] when it is an entry of directory [dir]. *)
Fixpoint strip_prefix (pre s : string) : option string :=
  match pre, s with
  | EmptyString, _ => Some s
  | String a pre', String b s' =>
      if Ascii.eqb a b then strip_prefix pre' s' else None
  | String _ _, EmptyString => None
  end.

Definition entry_name (dir path : string) : option string :=
  match strip_prefix (if dir =? "/" then dir else dir ++ "/") path with
  | Some name =>
      if (name =? "") || Str.contains_char "/" name then None else Some name
  | None => None
  end.

Fixpoint entries (dir : string) (fs : t) : list string :=
  match fs with
  | [] => []
  | (p, _) :: fs' =>
      match entry_name dir p with
      | Some name => name :: entries dir fs'
      | None => entries dir fs'
      end
  end.

(** The proper ancestors of a path below the root, outermost first, and the
    path itself. *)
Fixpoint prefixes (acc : string) (segs : list string) : list string :=
  match segs with
  | [] => []
  | seg :: segs' =>
      if seg =? "" then prefixes acc segs'
      else let here := acc ++ "/" ++ seg in here :: prefixes here segs'
  end.

(** [mkdir -p]: [None] when a file is in the way. *)
Fixpoint make_dirs (dirs : list string) (fs : t) : option t :=
  match dirs with
  | [] => Some fs
  | d :: dirs' =>
      match Js.assoc d fs with
      | Some Dir => make_dirs dirs' fs
      | Some (File _) => None
      | None => make_dirs dirs' (fs ++ [(d, Dir)])%list
      end
  end.

End Fs.

(* ------------------------------------------------------------------ *)
(** ** The world and the completion monad *)

Module Eff.
Import Js.

Record response := mkResponse { status : nat; body : value }.

Inductive level := Log | Err.

(** Actions visible outside the process, oldest first in a trace. *)
Inductive event :=
| EvLaunch (port : N)
| EvWait (ms : N)
| EvAudit (url : string) (port : N)
| EvMkdir (path : string)
| EvWrite (path : string)
| EvRespond (r : response)
| EvKill (port : N).

Record world := mkWorld {
  fs : Fs.t;
  console : list (level * string * option thrown);
  chrome : list N;
  clock_reads : nat;
  sent : option response;
  trace : list event
}.

Inductive outcome (A : Type) :=
| Ok (a : A)
| Raise (e : thrown).
Arguments Ok {A} a.
Arguments Raise {A} e.

(** What the platform decides.  [io_fault] is the refusal of a call of [fs]
    before it has touched the store (for a write: of the opening of the
    file).  [write_fault path data] is the failure of the writing itself,
    once the file at [path] has been opened, and so made or emptied: after
    how many bytes of [data] it stops, and with what error. *)
Record env := mkEnv {
  cwd : string;
  URL_ok : string -> bool;
  launch_result : outcome N;
  lighthouse_result : string -> N -> value -> outcome value;
  kill_result : N -> option thrown;
  clock : nat -> Date.t;
  io_fault : Fs.op -> string -> option thrown;
  write_fault : string -> string -> option (nat * thrown);
  stack_of : string -> string
}.

(** How a statement list ends: normally, by [return], or by [throw]. *)
Inductive completion (A : Type) :=
| Normal (a : A)
| Return
| Throw (e : thrown).
Arguments Normal {A} a.
Arguments Return {A}.
Arguments Throw {A} e.

Definition M (A : Type) : Type := world -> completion A * world.

Definition ret {A : Type} (a : A) : M A := fun w => (Normal a, w).

Definition bind {A B : Type} (m : M A) (k : A -> M B) : M B :=
  fun w =>
    match m w with
    | (Normal a, w') => k a w'
    | (Return, w') => (Return, w')
    | (Throw e, w') => (Throw e, w')
    end.

Definition throw {A : Type} (e : thrown) : M A := fun w => (Throw e, w).

Definition return_ {A : Type} : M A := fun w => (Return, w).

(** [try { body } catch (e) { handler }] *)
Definition try_catch {A : Type} (body : M A) (handler : thrown -> M A) : M A :=
  fun w =>
    match body w with
    | (Throw e, w') => handler e w'
    | r => r
    end.

(** [try { body } finally { cleanup }]: the completion of the body stands
    unless the cleanup itself returns or throws. *)
Definition finally {A : Type} (body : M A) (cleanup : M unit) : M A :=
  fun w =>
    match body w with
    | (c, w') =>
        match cleanup w' with
        | (Normal _, w'') => (c, w'')
        | (Return, w'') => (Return, w'')
        | (Throw e, w'') => (Throw e, w'')
        end
    end.

Definition when (b : bool) (m : M unit) : M unit := if b then m else ret tt.

Fixpoint for_each {A : Type} (l : list A) (f : A -> M unit) : M unit :=
  match l with
  | [] => ret tt
  | x :: l' => bind (f x) (fun _ => for_each l' f)
  end.

Definition lift {A : Type} (o : outcome A) : M A :=
  match o with
  | Ok a => ret a
  | Raise e => throw e
  end.

Definition modify (f : world -> world) : M unit := fun w => (Normal tt, f w).

Definition emit (e : event) : M unit :=
  modify (fun w => mkWorld (fs w) (console w) (chrome w) (clock_reads w)
                           (sent w) (trace w ++ [e])).

Definition console_log (text : string) : M unit :=
  modify (fun w => mkWorld (fs w) (console w ++ [(Log, text, None)])
                           (chrome w) (clock_reads w) (sent w) (trace w)).

Definition console_error (text : string) (e : option thrown) : M unit :=
  modify (fun w => mkWorld (fs w) (console w ++ [(Err, text, e)])
                           (chrome w) (clock_reads w) (sent w) (trace w)).

Definition set_fs (fs' : Fs.t) : M unit :=
  modify (fun w => mkWorld fs' (console w) (chrome w) (clock_reads w)
                           (sent w) (trace w)).

Definition get_fs : M Fs.t := fun w => (Normal (fs w), w).

(** [new Error(message)] *)
Definition new_Error (E : env) (message : string) : thrown :=
  Error message (stack_of E message) (plain_own message (stack_of E message)).

(** The error of a failed call of [fs]: an [Error] with the properties
    [errno], [code], [syscall] and, when the call names one, [path]. *)
Definition fs_error (E : env) (c : Fs.errno) (syscall : string)
                    (path : option string) : thrown :=
  let message := Fs.message_of c syscall path in
  Error message (stack_of E message)
    (plain_own message (stack_of E message) ++
     [("errno", VNum (Finite (Fs.number_of c)));
      ("code", VStr (Fs.code_of c));
      ("syscall", VStr syscall)] ++
     match path with
     | Some p => [("path", VStr p)]
     | None => []
     end).

(** [new Date()] *)
Definition now (E : env) : M Date.t :=
  fun w => (Normal (clock E (clock_reads w)),
            mkWorld (fs w) (console w) (chrome w) (S (clock_reads w))
                    (sent w) (trace w)).

(** *** [fs] *)

Definition existsSync (path : string) : M bool :=
  bind get_fs (fun fs =>
  ret (match Fs.resolve fs path with Some _ => true | None => false end)).

Definition faulty (E : env) (o : Fs.op) (path : string) : M unit :=
  match io_fault E o path with
  | Some e => throw e
  | None => ret tt
  end.

(** [mkdirSync(path, { recursive: true })]: a regular file at the path
    itself is [EEXIST], one above it [ENOTDIR]. *)
Definition mkdirSync (E : env) (path : string) : M unit :=
  bind (faulty E Fs.OpMkdir path) (fun _ =>
  bind get_fs (fun fs =>
  match Fs.make_dirs (Fs.prefixes "" (Str.split "/" path)) fs with
  | Some fs' => bind (set_fs fs') (fun _ => emit (EvMkdir path))
  | None =>
      throw (fs_error E
               (match Fs.resolve fs path with
                | Some (Fs.File _) => Fs.EEXIST
                | _ => Fs.ENOTDIR
                end) "mkdir" (Some path))
  end)).

(** [writeFileSync(path, data)]: the file is opened for writing, which makes
    it or empties it, and then the data is written.  A failure of the
    opening leaves the store as it was; a failure of the writing leaves the
    file with the bytes written so far.  [EvWrite] is the write that has
    completed. *)
Definition writeFileSync (E : env) (path data : string) : M unit :=
  bind (faulty E Fs.OpWrite path) (fun _ =>
  bind get_fs (fun fs =>
  match Fs.resolve fs path with
  | Some Fs.Dir => throw (fs_error E Fs.EISDIR "open" (Some path))
  | _ =>
      if Fs.has_trailing_slash path then
        match Fs.resolve fs (Fs.dirname (Fs.strip_trailing_slash path)) with
        | Some Fs.Dir => throw (fs_error E Fs.EISDIR "open" (Some path))
        | Some (Fs.File _) => throw (fs_error E Fs.ENOTDIR "open" (Some path))
        | None => throw (fs_error E Fs.ENOENT "open" (Some path))
        end
      else
        match Fs.resolve fs (Fs.dirname path) with
        | Some Fs.Dir =>
            match write_fault E path data with
            | Some (written, e) =>
                bind (set_fs (Fs.set_file path (substring 0 written data) fs))
                     (fun _ => throw e)
            | None =>
                bind (set_fs (Fs.set_file path data fs)) (fun _ =>
                emit (EvWrite path))
            end
        | Some (Fs.File _) => throw (fs_error E Fs.ENOTDIR "open" (Some path))
        | None => throw (fs_error E Fs.ENOENT "open" (Some path))
        end
  end)).

(** [readFileSync(path, 'utf8')] *)
Definition readFileSync (E : env) (path : string) : M string :=
  bind (faulty E Fs.OpRead path) (fun _ =>
  bind get_fs (fun fs =>
  match Fs.resolve fs path with
  | Some (Fs.File content) => ret content
  | Some Fs.Dir => throw (fs_error E Fs.EISDIR "read" None)
  | None => throw (fs_error E Fs.ENOENT "open" (Some path))
  end)).

Definition readdirSync (E : env) (path : string) : M (list string) :=
  bind (faulty E Fs.OpReaddir path) (fun _ =>
  bind get_fs (fun fs =>
  match Fs.resolve fs path with
  | Some Fs.Dir => ret (Fs.entries (Fs.strip_trailing_slash path) fs)
  | Some (Fs.File _) => throw (fs_error E Fs.ENOTDIR "scandir" (Some path))
  | None => throw (fs_error E Fs.ENOENT "scandir" (Some path))
  end)).

(** *** Express: [res.status(code).json(body)] sends the response; a second
    send on the same response object throws. *)
Definition res_status_json (E : env) (code : nat) (b : value) : M unit :=
  fun w =>
    match sent w with
    | Some _ =>
        (Throw (new_Error E "Cannot set headers after they are sent to the client"), w)
    | None =>
        let r := mkResponse code b in
        (Normal tt,
         mkWorld (fs w) (console w) (chrome w) (clock_reads w) (Some r)
                 (trace w ++ [EvRespond r]))
    end.

Definition res_json (E : env) (b : value) : M unit := res_status_json E 200 b.

(** *** chrome-launcher and lighthouse *)

Definition launch (E : env) : M N :=
  bind (lift (launch_result E)) (fun port =>
  bind (modify (fun w => mkWorld (fs w) (console w) (port :: chrome w)
                                 (clock_reads w) (sent w) (trace w))) (fun _ =>
  bind (emit (EvLaunch port)) (fun _ => ret port))).

(** [chrome.kill()]: the call is an event whether or not it succeeds. *)
Definition kill (E : env) (port : N) : M unit :=
  bind (emit (EvKill port)) (fun _ =>
  match kill_result E port with
  | Some e => throw e
  | None =>
      modify (fun w => mkWorld (fs w) (console w)
                               (remove N.eq_dec port (chrome w))
                               (clock_reads w) (sent w) (trace w))
  end).

Definition lighthouse (E : env) (url : string) (port : N) (locale : value)
  : M value :=
  bind (emit (EvAudit url port)) (fun _ =>
  lift (lighthouse_result E url port locale)).

(** [await new Promise(resolve => setTimeout(resolve, ms))] *)
Definition sleep (ms : N) : M unit := emit (EvWait ms).

End Eff.

(* ------------------------------------------------------------------ *)
(** ** The routes *)

Module Server.
Import Js Eff.

Notation "x <- m ;; k" := (bind m (fun x => k))
  (at level 61, m at next level, right associativity).
Notation "m ;; k" := (bind m (fun _ => k))
  (at level 61, right associativity).

Record request := mkRequest {
  query_url : value;
  query_locale : value
}.

(** [const reportsDir = join(process.cwd(), 'reports')] *)
Definition reportsDir (E : env) : string := Path.join (cwd E) "reports".

Definition requiredProperties : list string :=
  ["finalUrl"; "fetchTime"; "categories"; "audits"].

(** [error instanceof Error ? error.message : fallback] *)
Definition message_or (error : thrown) (fallback : string) : string :=
  match error with
  | Error message _ _ => message
  | Thrown _ => fallback
  end.

Definition string_of_nat (n : nat) : string :=
  NilEmpty.string_of_uint (Nat.to_uint n).

(** [Object.getOwnPropertyNames] *)
Definition getOwnPropertyNames (v : value) : list string :=
  match v with
  | VObj props => map fst props
  | VArr elems => (map string_of_nat (seq 0 (length elems)) ++ ["length"])%list
  | _ => []
  end.

Definition undefined_or_string (o : option string) : value :=
  match o with
  | Some t => VStr t
  | None => VUndefined
  end.

(** [error && typeof error === 'object'
      ? JSON.stringify(error, Object.getOwnPropertyNames(error)) : error] *)
Definition error_details (error : thrown) : value :=
  match error with
  | Error _ _ own =>
      undefined_or_string
        (Json.stringify (Json.project (getOwnPropertyNames (VObj own)) (VObj own)) 0)
  | Thrown (VObj _ as v) | Thrown (VArr _ as v) =>
      undefined_or_string
        (Json.stringify (Json.project (getOwnPropertyNames v) v) 0)
  | Thrown v => v
  end.

(** [error instanceof Error ? error.stack : undefined] *)
Definition error_stack (error : thrown) : value :=
  match error with
  | Error _ stack _ => VStr stack
  | Thrown _ => VUndefined
  end.

Definition missing_url_message : string :=
  "URL is required as a query parameter. Example: /nsa-audit?url=https://example.com".

Definition invalid_url_message : string :=
  "Invalid URL format. Please provide a valid URL starting with http:// or https://".

(** [url.toString()], [decodeURIComponent] and [new URL] as statements. *)
Definition url_toString (E : env) (url : value) : M string :=
  match toString url with
  | Some text => ret text
  | None => throw (new_Error E (toString_error url))
  end.

Definition decodeURIComponent (E : env) (s : string) : M string :=
  match Uri.decodeURIComponent s with
  | Some d => ret d
  | None => throw (new_Error E "URI malformed")
  end.

Definition new_URL (E : env) (s : string) : M unit :=
  if URL_ok E s then ret tt else throw (new_Error E "Invalid URL").

(** Lines 137-153: the shape of what lighthouse returned. *)
Definition validate (E : env) (results : value) : M unit :=
  when (negb (truthy results))
    (console_error "Lighthouse returned null results object" None ;;
     throw (new_Error E "Lighthouse returned null results object")) ;;
  when (negb (truthy (get results "lhr")))
    (console_error "Lighthouse results missing lhr property" None ;;
     throw (new_Error E "Lighthouse results missing lhr property")) ;;
  for_each requiredProperties (fun prop =>
    when (negb (truthy (get (get results "lhr") prop)))
      (console_error ("Lighthouse results missing required property: " ++ prop) None ;;
       throw (new_Error E ("Lighthouse results missing required property: " ++ prop)))).

(** Lines 161-176: the report file. *)
Definition save (E : env) (timestamp : string) (lhr : value) : M unit :=
  let reportPath :=
    Path.join (reportsDir E) ("lighthouse-report-" ++ timestamp ++ ".json") in
  exists_ <- existsSync (reportsDir E) ;;
  when (negb exists_) (mkdirSync E (reportsDir E)) ;;
  try_catch
    (match Json.stringify lhr 2 with
     | Some text => writeFileSync E reportPath text
     | None => throw (new_Error E "The data argument must be of type string")
     end ;;
     console_log "Report saved successfully to:")
    (fun writeError =>
       console_error "Error saving report:" (Some writeError) ;;
       throw (new_Error E ("Failed to save report: " ++
                           message_or writeError "Unknown error"))).

(** Lines 131-186: the body of the inner [try]. *)
Definition audit (E : env) (decodedUrl : string) (locale : value) (port : N)
  : M unit :=
  sleep 10000 ;;
  console_log "Starting Lighthouse audit..." ;;
  results <- lighthouse E decodedUrl port locale ;;
  console_log "Lighthouse audit completed" ;;
  validate E results ;;
  console_log "Lighthouse results validation passed" ;;
  console_log "Results structure:" ;;
  date <- now E ;;
  let timestamp := Str.replace_colon_dot (Date.toISOString date) in
  save E timestamp (get results "lhr") ;;
  date' <- now E ;;
  res_json E
    (VObj [("success", VBool true);
           ("url", VStr decodedUrl);
           ("timestamp", VStr (Date.toISOString date'));
           ("locale", locale);
           ("lighthouseResult", get results "lhr");
           ("reportPath", VStr ("/reports/lighthouse-report-" ++ timestamp ++ ".json"))]).

(** Lines 187-196: the inner [catch]. *)
Definition audit_failed (E : env) (error : thrown) : M unit :=
  console_error "Lighthouse audit failed:" (Some error) ;;
  res_status_json E 500
    (VObj [("success", VBool false);
           ("error", VStr (message_or error "Unknown error occurred"));
           ("details", error_details error)]) ;;
  return_.

(** Lines 197-206: the [finally] block. *)
Definition release (E : env) (port : N) : M unit :=
  try_catch
    (kill E port ;;
     console_log "Chrome process terminated")
    (fun killError => console_error "Error killing Chrome:" (Some killError)).

(** Lines 40-216: [app.get('/nsa-audit', async (req, res) => ...)] *)
Definition nsa_audit (E : env) (req : request) : M unit :=
  try_catch
    (let url := query_url req in
     let locale := or_else (query_locale req) (VStr "en") in
     console_log "Request query:" ;;
     console_log "Raw URL from query:" ;;
     when (negb (truthy url))
       (res_status_json E 400 (VObj [("error", VStr missing_url_message)]) ;;
        return_) ;;
     text <- url_toString E url ;;
     decodedUrl <- decodeURIComponent E text ;;
     console_log "Decoded URL:" ;;
     try_catch
       (new_URL E decodedUrl)
       (fun _ =>
          res_status_json E 400 (VObj [("error", VStr invalid_url_message)]) ;;
          return_) ;;
     port <- launch E ;;
     console_log "Chrome launched successfully on port:" ;;
     console_log "Starting Lighthouse audit with options:" ;;
     finally
       (try_catch (audit E decodedUrl locale port) (audit_failed E))
       (release E port))
    (fun error =>
       console_error "Lighthouse audit failed:" (Some error) ;;
       res_status_json E 500
         (VObj [("success", VBool false);
                ("error", VStr (message_or error "Unknown error occurred"));
                ("details", error_stack error)])).

(** The comparator of the report list: lines 511-516. *)
Definition time_of (file : string) : string :=
  Str.or_empty
    (option_map (Str.replace ".json" "") (Str.pop (Str.split "-" file))).

Definition newest_first (a b : string) : Z :=
  let timeA := time_of a in
  let timeB := time_of b in
  Str.localeCompare timeB timeA.

(** Lines 502-524: [app.get('/reports', ...)] *)
Definition list_reports (E : env) : M unit :=
  try_catch
    (exists_ <- existsSync (reportsDir E) ;;
     when (negb exists_) (mkdirSync E (reportsDir E)) ;;
     names <- readdirSync E (reportsDir E) ;;
     let files :=
       JsArray.sort newest_first
         (filter (fun file => Str.endsWith file ".json") names) in
     console_log "Found reports:" ;;
     res_json E (VArr (map VStr files)))
    (fun error =>
       console_error "Error listing reports:" (Some error) ;;
       res_status_json E 500 (VObj [("error", VStr "Failed to list reports")])).

Definition JSON_parse (E : env) (text : string) : M value :=
  match Json.parse text with
  | Some v => ret v
  | None => throw (new_Error E "Unexpected token in JSON")
  end.

(** Lines 526-542: [app.get('/reports/:filename', ...)] *)
Definition get_report (E : env) (filename : string) : M unit :=
  try_catch
    (let reportPath := Path.join (reportsDir E) filename in
     console_log "Reading report:" ;;
     exists_ <- existsSync reportPath ;;
     when (negb exists_)
       (console_error "Report not found:" None ;;
        res_status_json E 404 (VObj [("error", VStr "Report not found")]) ;;
        return_) ;;
     text <- readFileSync E reportPath ;;
     report <- JSON_parse E text ;;
     console_log "Report loaded successfully" ;;
     res_json E report)
    (fun error =>
       console_error "Error reading report:" (Some error) ;;
       res_status_json E 500 (VObj [("error", VStr "Failed to read report")])).

(** A request arrives with a response object of its own. *)
Definition fresh (w : world) : world :=
  mkWorld (fs w) (console w) (chrome w) (clock_reads w) None (trace w).

Definition serve (handler : M unit) (w : world) : completion unit * world :=
  handler (fresh w).

(** The response a request got, and the actions it added to the trace. *)
Definition answer (handler : M unit) (w : world) : option response :=
  sent (snd (serve handler w)).

Definition actions (handler : M unit) (w : world) : list event :=
  skipn (length (trace w)) (trace (snd (serve handler w))).

End Server.

(* ------------------------------------------------------------------ *)
(** ** Vocabulary of the specification *)

Module Spec.
Import Js Eff Server.

(** The message of the error that [validate] throws, if any. *)
Definition verdict (results : value) : option string :=
  if negb (truthy results) then Some "Lighthouse returned null results object"
  else if negb (truthy (get results "lhr")) then
    Some "Lighthouse results missing lhr property"
  else
    match find (fun prop => negb (truthy (get (get results "lhr") prop)))
               requiredProperties with
    | Some prop => Some ("Lighthouse results missing required property: " ++ prop)
    | None => None
    end.

(** Actions of an audit between the launch and the response. *)
Definition internal (e : event) : bool :=
  match e with
  | EvWait _ | EvAudit _ _ | EvMkdir _ | EvWrite _ => true
  | _ => false
  end.

Definition is_write (e : event) : bool :=
  match e with
  | EvWrite _ => true
  | _ => false
  end.

(** Whether a kill occurs in the trace before the first response. *)
Fixpoint killed_before_response (tr : list event) : bool :=
  match tr with
  | [] => false
  | EvKill _ :: _ => true
  | EvRespond _ :: _ => false
  | _ :: tr' => killed_before_response tr'
  end.

(** The same platform with another fate for [chrome.kill()], or with another
    result of lighthouse. *)
Definition with_kill (E : env) (k : N -> option thrown) : env :=
  mkEnv (cwd E) (URL_ok E) (launch_result E) (lighthouse_result E) k
        (clock E) (io_fault E) (write_fault E) (stack_of E).

Definition returning (E : env) (results : value) : env :=
  mkEnv (cwd E) (URL_ok E) (launch_result E) (fun _ _ _ => Ok results)
        (kill_result E) (clock E) (io_fault E) (write_fault E) (stack_of E).

(** [delete o[k]] *)
Definition delete (k : string) (o : value) : value :=
  match o with
  | VObj props => VObj (filter (fun p => negb (fst p =? k)) props)
  | _ => o
  end.

(** The lighthouse result with property [k] of its inner report removed. *)
Definition without (k : string) (results : value) : value :=
  match results with
  | VObj props =>
      VObj (Json.set_prop "lhr" (delete k (get results "lhr")) props)
  | _ => results
  end.

(** [decodeURIComponent(url.toString())] when neither call throws. *)
Definition decoded_url (url : value) : option string :=
  match toString url with
  | Some text => Uri.decodeURIComponent text
  | None => None
  end.

(** A request gets as far as the browser launch: the url is present, decodes
    to [decoded], and that parses as a URL. *)
Definition reaches_launch (E : env) (req : request) (decoded : string) : Prop :=
  truthy (query_url req) = true /\
  decoded_url (query_url req) = Some decoded /\
  URL_ok E decoded = true.

Definition locale_of (req : request) : value :=
  or_else (query_locale req) (VStr "en").

(** ... and as far as the result of lighthouse. *)
Definition reaches_result (E : env) (req : request) (decoded : string)
                          (port : N) (results : value) : Prop :=
  reaches_launch E req decoded /\
  launch_result E = Ok port /\
  lighthouse_result E decoded port (locale_of req) = Ok results.




(** The write of the text of a report fails: the platform refuses to open
    the file, or the writing stops short. *)
Definition write_fails (E : env) (path : string) (lhr : value) (e : thrown)
  : Prop :=
  io_fault E Fs.OpWrite path = Some e \/
  exists text written,
    Json.stringify lhr 2 = Some text /\
    write_fault E path text = Some (written, e).




(** The name and the path of the report saved at a given instant. *)
Definition timestamp_of (d : Date.t) : string :=
  Str.replace_colon_dot (Date.toISOString d).

Definition report_name (d : Date.t) : string :=
  "lighthouse-report-" ++ timestamp_of d ++ ".json".

Definition report_path (E : env) (timestamp : string) : string :=
  Path.join (reportsDir E) ("lighthouse-report-" ++ timestamp ++ ".json").

(** The parts of the audit route, by name. *)
Definition outer_catch (E : env) (error : thrown) : M unit :=
  bind (console_error "Lighthouse audit failed:" (Some error)) (fun _ =>
  res_status_json E 500
    (VObj [("success", VBool false);
           ("error", VStr (message_or error "Unknown error occurred"));
           ("details", error_stack error)])).

Definition guarded (E : env) (decoded : string) (locale : value) (port : N)
  : M unit :=
  finally (try_catch (audit E decoded locale port) (audit_failed E))
          (release E port).

(** The world when Chrome has just been launched for a request. *)
Definition launched_world (w : world) (port : N) : world :=
  mkWorld (fs w)
    (console w ++ [(Log, "Request query:", None);
                   (Log, "Raw URL from query:", None);
                   (Log, "Decoded URL:", None);
                   (Log, "Chrome launched successfully on port:", None);
                   (Log, "Starting Lighthouse audit with options:", None)])
    (port :: chrome w) (clock_reads w) None (trace w ++ [EvLaunch port]).

(** The responses of the two catch blocks. *)
Definition failed_response (error : thrown) : response :=
  mkResponse 500
    (VObj [("success", VBool false);
           ("error", VStr (message_or error "Unknown error occurred"));
           ("details", error_details error)]).

Definition crashed_response (error : thrown) : response :=
  mkResponse 500
    (VObj [("success", VBool false);
           ("error", VStr (message_or error "Unknown error occurred"));
           ("details", error_stack error)]).

(** The world when lighthouse has returned and validation has rejected the
    result with [message]. *)
Definition rejected_world (w : world) (decoded : string) (port : N)
                          (message : string) : world :=
  mkWorld (fs w)
    (console w ++ [(Log, "Request query:", None);
                   (Log, "Raw URL from query:", None);
                   (Log, "Decoded URL:", None);
                   (Log, "Chrome launched successfully on port:", None);
                   (Log, "Starting Lighthouse audit with options:", None);
                   (Log, "Starting Lighthouse audit...", None);
                   (Log, "Lighthouse audit completed", None);
                   (Err, message, None)])
    (port :: chrome w) (clock_reads w) None
    (trace w ++ [EvLaunch port; EvWait 10000; EvAudit decoded port]).

(** The live Chrome processes after [chrome.kill()]. *)
Definition chrome_after (E : env) (port : N) (live : list N) : list N :=
  match kill_result E port with
  | Some _ => live
  | None => remove N.eq_dec port live
  end.

Definition kill_line (E : env) (port : N) : level * string * option thrown :=
  match kill_result E port with
  | Some e => (Err, "Error killing Chrome:", Some e)
  | None => (Log, "Chrome process terminated", None)
  end.

Fixpoint count_kills (tr : list event) : nat :=
  match tr with
  | [] => O
  | EvKill _ :: tr' => S (count_kills tr')
  | _ :: tr' => count_kills tr'
  end.

Definition launches (tr : list event) : bool :=
  existsb (fun e => match e with EvLaunch _ => true | _ => false end) tr.

(** The path of the report that an audit starting in world [w] writes. *)
Definition report_path_at (E : env) (w : world) : string :=
  report_path E (timestamp_of (clock E (clock_reads w))).

(** The first required property of the inner report that is absent. *)
Definition lacks_required (lhr : value) : Prop :=
  exists prop, In prop requiredProperties /\ get lhr prop = VUndefined.

(** The two ways a report cannot be served, with the status and the message
    of the answer. *)
Inductive unavailable (fs : Fs.t) (path : string) : nat -> string -> Prop :=
| report_missing :
    Fs.resolve fs path = None ->
    unavailable fs path 404 "Report not found"
| report_corrupt text :
    Fs.resolve fs path = Some (Fs.File text) ->
    Json.parse text = None ->
    unavailable fs path 500 "Failed to read report".

(** Readings of the claims that the code does not satisfy. *)

(** The session is killed exactly once, and before the response is sent. *)
Definition killed_once_before_response : Prop :=
  forall E req w decoded port,
    reaches_launch E req decoded ->
    launch_result E = Ok port ->
    count_kills (actions (nsa_audit E req) w) = 1%nat /\
    killed_before_response (actions (nsa_audit E req) w) = true.


End Spec.

(* ------------------------------------------------------------------ *)
(** ** A concrete platform, store and requests *)

Module Scenario.
Import Js Eff Server Spec.

Definition lhr : value :=
  VObj [("finalUrl", VStr "https://example.com/");
        ("fetchTime", VStr "2024-01-15T10:30:45.123Z");
        ("categories",
         VObj [("performance", VObj [("score", VNum (Finite "0.98"))]);
               ("seo", VObj [("score", VNum (Finite "1"))])]);
        ("audits",
         VObj [("first-contentful-paint",
                VObj [("score", VNull); ("numericValue", VNum (Finite "812.5"));
                      ("items", VArr [VBool true; VStr "a"])])])].

(** A URL parser that accepts what starts with http:// or https://. *)
Definition url_ok (s : string) : bool :=
  Str.startsWith s "http://" || Str.startsWith s "https://".

Definition t1 : Date.t := Date.mk 2024 1 15 10 0 0 500.
Definition t2 : Date.t := Date.mk 2024 1 15 10 0 1 100.
Definition t3 : Date.t := Date.mk 2024 1 15 10 0 2 300.

(** An audit reads the clock twice. *)
Definition wall_clock (n : nat) : Date.t :=
  match Nat.div n 2 with
  | O => t1
  | S O => t2
  | _ => t3
  end.

Definition platform : env :=
  mkEnv "/srv/app" url_ok (Ok 9222%N)
        (fun _ _ _ => Ok (VObj [("lhr", lhr)]))
        (fun _ => None) wall_clock (fun _ _ => None) (fun _ _ => None)
        (fun message => "Error: " ++ message).

Definition package : value :=
  VObj [("name", VStr "lighthouse-api"); ("version", VStr "1.0.0")].

Definition package_text : string :=
  match Json.stringify package 2 with
  | Some text => text
  | None => ""
  end.

Definition store : Fs.t :=
  [("/srv", Fs.Dir); ("/srv/app", Fs.Dir);
   ("/srv/app/package.json", Fs.File package_text)].

Definition world0 : world := mkWorld store [] [] 0 None [].

(** A store that holds a file which is not JSON. *)
Definition broken_store : Fs.t :=
  [("/srv", Fs.Dir); ("/srv/app", Fs.Dir);
   ("/srv/app/reports", Fs.Dir);
   ("/srv/app/reports/broken.json", Fs.File "{ not json")].

Definition broken_world : world := mkWorld broken_store [] [] 0 None [].

Definition audit_request : request :=
  mkRequest (VStr "https%3A%2F%2Fexample.com") VUndefined.


Definition bad_escape : request := mkRequest (VStr "%E0") VUndefined.


(** The store after three audits, at [t1], [t2] and [t3]. *)
Definition after (n : nat) : world :=
  Nat.iter n (fun w => snd (serve (nsa_audit platform audit_request) w)) world0.

(** Platforms that differ from [platform] in one fate. *)
Definition kill_fails : env :=
  with_kill platform
    (fun _ => Some (Error "kill ESRCH" "Error: kill ESRCH"
                          (plain_own "kill ESRCH" "Error: kill ESRCH"))).


(** The error of a write on a full disk. *)
Definition no_space : thrown :=
  Error "ENOSPC: no space left on device, write"
        "Error: ENOSPC: no space left on device, write"
        (plain_own "ENOSPC: no space left on device, write"
                   "Error: ENOSPC: no space left on device, write" ++
         [("errno", VNum (Finite "-28")); ("code", VStr "ENOSPC");
          ("syscall", VStr "write")]).

(** A read-only store: no file can be opened for writing. *)
Definition read_only : env :=
  mkEnv "/srv/app" url_ok (Ok 9222%N)
        (fun _ _ _ => Ok (VObj [("lhr", lhr)]))
        (fun _ => None) wall_clock
        (fun o path =>
           match o with
           | Fs.OpWrite =>
               Some (Error ("EROFS: read-only file system, open '" ++ path ++ "'")
                           "Error: EROFS"
                           (plain_own
                              ("EROFS: read-only file system, open '" ++ path ++ "'")
                              "Error: EROFS" ++
                            [("errno", VNum (Finite "-30")); ("code", VStr "EROFS");
                             ("syscall", VStr "open"); ("path", VStr path)]))
           | _ => None
           end)
        (fun _ _ => None)
        (fun message => "Error: " ++ message).

(** A full disk: files are made, and the writing stops after 64 bytes. *)
Definition disk_full : env :=
  mkEnv "/srv/app" url_ok (Ok 9222%N)
        (fun _ _ _ => Ok (VObj [("lhr", lhr)]))
        (fun _ => None) wall_clock (fun _ _ => None)
        (fun _ _ => Some (64%nat, no_space))
        (fun message => "Error: " ++ message).

(** Inner reports with a required field present but falsy. *)
Definition empty_fetchTime : value :=
  VObj [("lhr", VObj [("finalUrl", VStr "https://example.com/");
                      ("fetchTime", VStr "");
                      ("categories", VObj []);
                      ("audits", VObj [])])].

Definition null_categories : value :=
  VObj [("lhr", VObj [("finalUrl", VStr "https://example.com/");
                      ("fetchTime", VStr "2024-01-15T10:30:45.123Z");
                      ("categories", VNull);
                      ("audits", VObj [])])].

Definition no_categories : value :=
  VObj [("lhr", VObj [("finalUrl", VStr "https://example.com/");
                      ("fetchTime", VStr "2024-01-15T10:30:45.123Z");
                      ("audits", VObj [])])].

End Scenario.

(* ------------------------------------------------------------------ *)
(** ** File names and canonical paths *)

Module Names.

(** A path segment that [path.normalize] keeps as it is: not empty, without
    a separator, and neither [.] nor [..]. *)
Definition proper (seg : string) : bool :=
  negb (seg =? "") && negb (seg =? ".") && negb (seg =? "..") &&
  negb (Str.contains_char "/" seg).

(** The absolute path made of the given segments. *)
Definition absolute (segs : list string) : string :=
  "/" ++ String.concat "/" segs.

(** A relative name that climbs from directory [dir] to the root, with one
    [..] for every separator of [dir] and one more, and then descends along
    [target]. *)
Definition climbing (dir : string) (target : list string) : string :=
  String.concat "/" (repeat ".." (length (Str.split "/" dir)) ++ target).

(** The directories that [mkdir -p path] visits: the ancestors of the path
    below the root, outermost first, and the path itself. *)
Definition chain (path : string) : list string :=
  Fs.prefixes "" (Str.split "/" path).

(** No regular file sits at the path or above it. *)
Definition unobstructed (fs : Fs.t) (path : string) : bool :=
  forallb (fun d => match Js.assoc d fs with
                    | Some (Fs.File _) => false
                    | _ => true
                    end) (chain path).

End Names.

(* ------------------------------------------------------------------ *)
(** ** Notions for the properties of the routes *)

Module Cover.
Import Js Eff Server Spec Names.

(** The reports directory is in place, or [mkdir -p] can make it. *)
Definition directory_available (E : env) (fs : Fs.t) : bool :=
  match Fs.resolve fs (reportsDir E) with
  | Some Fs.Dir => true
  | Some (Fs.File _) => false
  | None =>
      unobstructed fs (reportsDir E) &&
      match io_fault E Fs.OpMkdir (reportsDir E) with
      | None => true
      | Some _ => false
      end
  end.

(** The writing of the text of an inner report to an opened file does not
    stop short. *)
Definition written_in_full (E : env) (path : string) (lhr : value) : bool :=
  match Json.stringify lhr 2 with
  | Some text =>
      match write_fault E path text with
      | None => true
      | Some _ => false
      end
  | None => true
  end.

(** What making the directory adds to the trace. *)
Definition mkdir_actions (E : env) (fs : Fs.t) : list event :=
  match Fs.resolve fs (reportsDir E) with
  | Some _ => []
  | None => [EvMkdir (reportsDir E)]
  end.

(** The responses in a trace, oldest first. *)
Fixpoint responses (tr : list event) : list response :=
  match tr with
  | [] => []
  | EvRespond r :: tr' => r :: responses tr'
  | _ :: tr' => responses tr'
  end.

(** The directories of a store, as entries. *)
Definition directories (paths : list string) : Fs.t :=
  map (fun d => (d, Fs.Dir)) paths.

(** Text on which [localeCompare] is the comparison of code units: decimal
    digits and capital letters only. *)
Definition is_capital (c : ascii) : bool :=
  let n := nat_of_ascii c in (65 <=? n)%nat && (n <=? 90)%nat.

Definition collates_by_code_unit (s : string) : bool :=
  forallb (fun c => is_digit c || is_capital c) (list_ascii_of_string s).

(** A value that [JSON.stringify] writes as it is, whatever the replacer
    array: null, a boolean, a finite number or a string. *)
Definition scalar (v : value) : bool :=
  match v with
  | VNull | VBool _ | VNum (Finite _) | VStr _ => true
  | _ => false
  end.

(** A thrown value that is neither an object nor an array. *)
Definition primitive (v : value) : bool :=
  match v with
  | VObj _ | VArr _ => false
  | _ => true
  end.

End Cover.

(* ------------------------------------------------------------------ *)
(** ** Start-up: lines 9-14 of [dist/index.js] *)

Module Boot.
Import Js Eff Server.

(** The white space that [parseInt] skips at the start of its argument
    (WhiteSpace and LineTerminator of ECMAScript), in UTF-8. *)
Definition space1 (a : ascii) : bool :=
  let x := nat_of_ascii a in
  ((x =? 9) || (x =? 10) || (x =? 11) || (x =? 12) || (x =? 13) || (x =? 32))%nat.

Definition space2 (a b : ascii) : bool :=
  ((nat_of_ascii a =? 194) && (nat_of_ascii b =? 160))%nat.

Definition space3 (a b c : ascii) : bool :=
  let x := nat_of_ascii a in
  let y := nat_of_ascii b in
  let z := nat_of_ascii c in
  (((x =? 225) && (y =? 154) && (z =? 128)) ||
   ((x =? 226) && (y =? 128) &&
    (((128 <=? z) && (z <=? 138)) || (z =? 168) || (z =? 169) || (z =? 175))) ||
   ((x =? 226) && (y =? 129) && (z =? 159)) ||
   ((x =? 227) && (y =? 128) && (z =? 128)) ||
   ((x =? 239) && (y =? 187) && (z =? 191)))%nat.

Fixpoint trim_start (s : string) : string :=
  match s with
  | String a s1 =>
      if space1 a then trim_start s1
      else
        match s1 with
        | String b s2 =>
            if space2 a b then trim_start s2
            else
              match s2 with
              | String c s3 => if space3 a b c then trim_start s3 else s
              | EmptyString => s
              end
        | EmptyString => s
        end
  | EmptyString => s
  end.

Definition digit_value (c : ascii) : option N :=
  if is_digit c then Some (N_of_ascii c - 48)%N else None.

(** The value of the longest prefix of decimal digits; [acc] is [None] until
    a digit has been read. *)
Fixpoint leading_digits (s : string) (acc : option N) : option N :=
  match s with
  | String c s' =>
      match digit_value c with
      | Some v =>
          leading_digits s'
            (Some (10 * match acc with Some a => a | None => 0 end + v)%N)
      | None => acc
      end
  | EmptyString => acc
  end.

(** What [parseInt] returns: a Number that is not-a-number, an infinity, or
    an integer with its sign (zero has one). *)
Inductive number :=
| NaN
| Infinite (negative : bool)
| Integer (negative : bool) (magnitude : N).

(** The integer that a Number holds for a natural number: the number itself
    up to 53 bits, beyond that the nearest multiple of the power of two that
    leaves 53 bits, a tie going to the even one.  [None]: the result is
    2^1024 or more, which a Number holds as Infinity. *)
Definition nearest_double (n : N) : option N :=
  let bits := N.size n in
  if (bits <=? 53)%N then Some n
  else
    let shift := (bits - 53)%N in
    let kept := N.shiftr n shift in
    let dropped := N.land n (N.ones shift) in
    let half := N.shiftl 1 (shift - 1) in
    let rounded :=
      if (half <? dropped)%N || ((dropped =? half)%N && N.odd kept)
      then (kept + 1)%N else kept in
    let result := N.shiftl rounded shift in
    if (N.size result <=? 1024)%N then Some result else None.

Definition to_number (negative : bool) (digits : option N) : number :=
  match digits with
  | None => NaN
  | Some n =>
      match nearest_double n with
      | Some m => Integer negative m
      | None => Infinite negative
      end
  end.

(** [parseInt(s, 10)] *)
Definition parseInt (s : string) : number :=
  match trim_start s with
  | String "-" t => to_number true (leading_digits t None)
  | String "+" t => to_number false (leading_digits t None)
  | t => to_number false (leading_digits t None)
  end.

(** [const port = parseInt(process.env.PORT || '3400', 10)] *)
Definition port (PORT : option string) : number :=
  parseInt (match PORT with
            | Some s => if s =? "" then "3400" else s
            | None => "3400"
            end).

(** [mkdirSync(path)], not recursive, for a path without a trailing slash. *)
Definition mkdirSync_single (E : env) (path : string) : M unit :=
  bind (faulty E Fs.OpMkdir path) (fun _ =>
  bind get_fs (fun fs =>
  match Fs.resolve fs path with
  | Some _ => throw (fs_error E Fs.EEXIST "mkdir" (Some path))
  | None =>
      match Fs.resolve fs (Fs.dirname path) with
      | Some Fs.Dir =>
          bind (set_fs (fs ++ [(path, Fs.Dir)])%list) (fun _ => emit (EvMkdir path))
      | Some (Fs.File _) => throw (fs_error E Fs.ENOTDIR "mkdir" (Some path))
      | None => throw (fs_error E Fs.ENOENT "mkdir" (Some path))
      end
  end)).

(** Lines 11-14: the reports directory is made when the module loads. *)
Definition ensure_reports (E : env) : M unit :=
  bind (existsSync (reportsDir E)) (fun exists_ =>
  when (negb exists_) (mkdirSync_single E (reportsDir E))).

End Boot.

(* ------------------------------------------------------------------ *)
(** ** The test harness: [findAvailablePort] and [waitForServer] *)

Module Harness.
Import Js Eff Server.

(** What [server.listen(port)] comes to: the callback runs and
    [server.address().port] is read, or an [error] event with a code. *)
Inductive listening :=
| Listening (port : nat)
| Refused (code : string) (err : thrown).

(** [findAvailablePort(startPort)]: one step of fuel for each port tried;
    [None] when the fuel runs out. *)
Fixpoint findAvailablePort (listen : nat -> listening) (fuel startPort : nat)
  : option (outcome nat) :=
  match fuel with
  | O => None
  | S fuel' =>
      match listen startPort with
      | Listening port => Some (Ok port)
      | Refused code err =>
          if code =? "EADDRINUSE"
          then findAvailablePort listen fuel' (startPort + 1)%nat
          else Some (Raise err)
      end
  end.

(** The harness as [waitForServer] sees it: how many requests it has made
    and how long it has slept, in milliseconds. *)
Record progress := mkProgress { fetches : nat; slept : N }.

(** [response.ok] *)
Definition ok (r : response) : bool :=
  ((200 <=? status r) && (status r <=? 299))%nat.

Definition health_url (port : nat) : string :=
  "http://localhost:" ++ string_of_nat port ++ "/health".

(** The [for] loop of [waitForServer], by the attempts that remain
    ([maxAttempts - attempt]).  The n-th [fetch] of the run is answered by
    [fetch url n]. *)
Fixpoint attempts (fetch : string -> nat -> outcome response) (url : string)
                  (remaining : nat) (p : progress) : bool * progress :=
  match remaining with
  | O => (false, p)
  | S remaining' =>
      let asked := mkProgress (S (fetches p)) (slept p) in
      let later := mkProgress (S (fetches p)) (slept p + 1000)%N in
      match fetch url (fetches p) with
      | Ok r =>
          if ok r then (true, asked)
          else attempts fetch url remaining' later
      | Raise _ => attempts fetch url remaining' later
      end
  end.

(** [maxAttempts = 30] when the caller gives none. *)
Definition attempts_allowed (maxAttempts : option nat) : nat :=
  match maxAttempts with
  | Some n => n
  | None => 30
  end.

Definition waitForServer (fetch : string -> nat -> outcome response)
                         (port : nat) (maxAttempts : option nat)
  : bool * progress :=
  attempts fetch (health_url port) (attempts_allowed maxAttempts)
           (mkProgress 0 0%N).

(** Whether the n-th request of a run is answered with a 2xx status. *)
Definition answered (fetch : string -> nat -> outcome response) (url : string)
                    (n : nat) : bool :=
  match fetch url n with
  | Ok r => ok r
  | Raise _ => false
  end.

End Harness.

(* ------------------------------------------------------------------ *)
(** ** More stores and platforms to run the routes on *)

Module Cases.
Import Js Eff Server Spec Scenario.

(** The text of the inner report of [Scenario], as it is saved. *)
Definition lhr_text : string :=
  match Json.stringify lhr 2 with
  | Some text => text
  | None => ""
  end.

(** A store in which a regular file has the name of the reports directory. *)
Definition file_in_place : Fs.t :=
  [("/srv", Fs.Dir); ("/srv/app", Fs.Dir);
   ("/srv/app/reports", Fs.File "not a directory")].

Definition blocked_world : world := mkWorld file_in_place [] [] 0 None [].

(** A store with a directory inside the reports directory, and a file that
    is no report. *)
Definition nested_store : Fs.t :=
  [("/srv", Fs.Dir); ("/srv/app", Fs.Dir);
   ("/srv/app/reports", Fs.Dir);
   ("/srv/app/reports/old.json", Fs.Dir);
   ("/srv/app/reports/notes.txt", Fs.File "to do")].

Definition nested_world : world := mkWorld nested_store [] [] 0 None [].

(** A platform on which lighthouse throws a string. *)
Definition throws_text : env :=
  mkEnv "/srv/app" url_ok (Ok 9222%N)
        (fun _ _ _ => Raise (Thrown (VStr "navigation timed out")))
        (fun _ => None) wall_clock (fun _ _ => None) (fun _ _ => None)
        (fun message => "Error: " ++ message).

(** A platform on which Chrome does not start, and one on which lighthouse
    throws an [Error]. *)
Definition no_chrome : env :=
  mkEnv "/srv/app" url_ok
        (Raise (Error "connect ECONNREFUSED 127.0.0.1:9222"
                      "Error: connect ECONNREFUSED 127.0.0.1:9222"
                      (plain_own "connect ECONNREFUSED 127.0.0.1:9222"
                                 "Error: connect ECONNREFUSED 127.0.0.1:9222")))
        (fun _ _ _ => Ok (VObj [("lhr", lhr)]))
        (fun _ => None) wall_clock (fun _ _ => None) (fun _ _ => None)
        (fun message => "Error: " ++ message).

Definition protocol_timeout : thrown :=
  Error "PROTOCOL_TIMEOUT" "LighthouseError: PROTOCOL_TIMEOUT"
        (plain_own "PROTOCOL_TIMEOUT" "LighthouseError: PROTOCOL_TIMEOUT" ++
         [("name", VStr "LighthouseError"); ("code", VStr "PROTOCOL_TIMEOUT");
          ("friendlyMessage", VStr "Waiting for DevTools protocol response has exceeded the allotted time.");
          ("lhrRuntimeError", VBool true)]).

Definition throws_error : env :=
  mkEnv "/srv/app" url_ok (Ok 9222%N)
        (fun _ _ _ => Raise protocol_timeout)
        (fun _ => None) wall_clock (fun _ _ => None) (fun _ _ => None)
        (fun message => "Error: " ++ message).

(** A request for a URL that needs no decoding. *)
Definition plain_request : request :=
  mkRequest (VStr "https://example.com/") (VStr "de").

(** A platform whose clock stands still. *)
Definition frozen : env :=
  mkEnv "/srv/app" url_ok (Ok 9222%N)
        (fun _ _ _ => Ok (VObj [("lhr", lhr)]))
        (fun _ => None) (fun _ => t1) (fun _ _ => None) (fun _ _ => None)
        (fun message => "Error: " ++ message).

(** Ports 3400 and 3401 are taken, 3402 is free; above 3402 binding is not
    permitted. *)
Definition two_taken (port : nat) : Harness.listening :=
  if (port <? 3402)%nat then
    Harness.Refused "EADDRINUSE"
      (Error "listen EADDRINUSE" "Error: listen EADDRINUSE"
             (plain_own "listen EADDRINUSE" "Error: listen EADDRINUSE"))
  else if (port =? 3402)%nat then Harness.Listening port
  else Harness.Refused "EACCES"
         (Error "listen EACCES" "Error: listen EACCES"
                (plain_own "listen EACCES" "Error: listen EACCES")).

Definition fetch_failed : thrown :=
  Error "fetch failed" "TypeError: fetch failed"
        (plain_own "fetch failed" "TypeError: fetch failed").

(** A server that refuses connections twice and then answers 200. *)
Definition third_time (url : string) (n : nat) : outcome response :=
  match n with
  | O | S O => Raise fetch_failed
  | _ => Ok (mkResponse 200 (VObj [("status", VStr "ok")]))
  end.

(** A server that never comes up. *)
Definition never_up (url : string) (n : nat) : outcome response :=
  Raise fetch_failed.

End Cases.

(* ------------------------------------------------------------------ *)
(** * Facts *)

(** ** The built-ins on examples *)

Example split_example :
  Str.split "-" "a-b--c" = ["a"; "b"; ""; "c"].
Proof. reflexivity. Qed.

Example join_example1 : Path.join "/srv/app" "reports" = "/srv/app/reports".
Proof. reflexivity. Qed.

Example join_example2 :
  Path.join "/srv/app/reports" "../package.json" = "/srv/app/package.json".
Proof. reflexivity. Qed.

Example join_example3 : Path.join "/srv/app/reports" "a/./b/" = "/srv/app/reports/a/b/".
Proof. reflexivity. Qed.

Example join_example4 : Path.join "a" "../../b" = "../b".
Proof. reflexivity. Qed.

Example iso_example :
  Str.replace_colon_dot (Date.toISOString (Date.mk 2024 1 15 10 30 45 123))
  = "2024-01-15T10-30-45-123Z".
Proof. reflexivity. Qed.

Example sort_example :
  JsArray.sort Str.localeCompare ["b"; "a"; "c"] = ["a"; "b"; "c"].
Proof. reflexivity. Qed.

Example decode_example1 :
  Uri.decodeURIComponent "https%3A%2F%2Fexample.com%2Fa%20b" =
  Some "https://example.com/a b".
Proof. reflexivity. Qed.

Example decode_example2 :
  Uri.decodeURIComponent "%E0" = None /\ Uri.decodeURIComponent "100%" = None /\
  Uri.decodeURIComponent "%C0%80" = None.
Proof. repeat split. Qed.

Example truthy_example :
  map Js.truthy [Js.VStr ""; Js.VNull; Js.VNum (Js.Finite "0");
                 Js.VNum (Js.Finite "-0.0e3"); Js.VNum Js.NaN;
                 Js.VObj []; Js.VStr "0"; Js.VNum (Js.Finite "0.5")] =
  [false; false; false; false; false; true; true; true].
Proof. reflexivity. Qed.

Example parse_example1 :
  Json.parse " [1, -2.5e+3 , null] " =
  Some (Js.VArr [Js.VNum (Js.Finite "1"); Js.VNum (Js.Finite "-2.5e+3"); Js.VNull]).
Proof. reflexivity. Qed.

Example parse_example2 :
  Json.parse "[1,]" = None /\ Json.parse "01" = None /\ Json.parse "{ not json" = None /\
  Json.parse "" = None /\ Json.parse "1.e3" = None /\ Json.parse "nul" = None.
Proof. repeat split. Qed.

Example stringify_example :
  Json.stringify (Js.VArr [Js.VUndefined; Js.VNum Js.NaN;
                           Js.VObj [("a", Js.VUndefined)]; Js.VArr []]) 0 =
  Some "[null,null,{},[]]".
Proof. reflexivity. Qed.

Example time_of_example :
  Server.time_of "lighthouse-report-2024-01-15T10-30-45-123Z.json" = "123Z".
Proof. reflexivity. Qed.

Example valid_example :
  Date.valid Scenario.t1 = true /\ Date.valid Scenario.t2 = true /\
  Date.valid Scenario.t3 = true.
Proof. repeat split. Qed.

(* ------------------------------------------------------------------ *)
(** ** Strings *)

Module StrFacts.

Lemma append_assoc (a b c : string) : (a ++ b) ++ c = a ++ (b ++ c).
Proof. induction a as [|x a IH]; simpl; [reflexivity | now rewrite IH]. Qed.

Lemma append_nil_r (a : string) : a ++ "" = a.
Proof. induction a as [|x a IH]; simpl; [reflexivity | now rewrite IH]. Qed.

Lemma length_append (a b : string) :
  String.length (a ++ b) = (String.length a + String.length b)%nat.
Proof. induction a as [|x a IH]; simpl; [reflexivity | now rewrite IH]. Qed.

End StrFacts.

Module JsonFacts.
Import Js Json JsonText StrFacts.

Lemma skip_ws_app (a s : string) : all_ws a = true -> skip_ws (a ++ s) = skip_ws s.
Proof.
  induction a as [|c a IH]; simpl; [reflexivity|].
  intros H. apply andb_true_iff in H as [Hc Ha]. rewrite Hc. auto.
Qed.

Lemma all_ws_app (a b : string) :
  all_ws a = true -> all_ws b = true -> all_ws (a ++ b) = true.
Proof.
  induction a as [|c a IH]; simpl; [auto|].
  intros H Hb. apply andb_true_iff in H as [Hc Ha]. rewrite Hc. simpl. auto.
Qed.

Lemma all_ws_newline (gap indent : string) :
  all_ws indent = true -> all_ws (newline gap indent) = true.
Proof.
  intros H. unfold newline. destruct (gap =? ""); simpl; auto.
Qed.

Lemma all_ws_blanks (n : nat) : all_ws (blanks n) = true.
Proof. induction n; simpl; auto. Qed.

(** *** Strings *)

Lemma prepend_cons (c : ascii) (r : option (string * string)) (t rest : string) :
  r = Some (t, rest) -> prepend (String c "") r = Some (String c t, rest).
Proof. intros ->. reflexivity. Qed.

Lemma parse_chars_escape (s rest : string) :
  parse_chars (escape s ++ String dquote rest) = Some (s, rest).
Proof.
  induction s as [|c s IH].
  - reflexivity.
  - simpl escape. rewrite append_assoc.
    remember (escape s ++ String dquote rest) as tail eqn:Etail. clear Etail.
    destruct c as [[] [] [] [] [] [] [] []];
      (cbv - [parse_chars append prepend hex4 utf8];
       cbn - [prepend hex4 utf8];
       rewrite IH; reflexivity).
Qed.

(** *** Numbers *)

Lemma span_num_app (lit rest : string) :
  all_num lit = true -> boundary rest = true ->
  span_num (lit ++ rest) = (lit, rest).
Proof.
  intros Hl Hr. induction lit as [|c lit IH]; simpl in *.
  - destruct rest as [|c rest]; simpl in *; [reflexivity|].
    apply negb_true_iff in Hr. now rewrite Hr.
  - apply andb_true_iff in Hl as [Hc Hl]. rewrite Hc, (IH Hl). reflexivity.
Qed.

Lemma digit_num_char (c : ascii) : is_digit c = true -> is_num_char c = true.
Proof. intros H. unfold is_num_char. now rewrite H. Qed.

Lemma skip_digits_all_num (s : string) :
  all_num (skip_digits s) = true -> all_num s = true.
Proof.
  induction s as [|c s IH]; simpl; [auto|].
  destruct (is_digit c) eqn:Hd.
  - intros H. rewrite (digit_num_char _ Hd). simpl. auto.
  - simpl. auto.
Qed.

Lemma skip_digits_nil_all_num (s : string) :
  skip_digits s = "" -> all_num s = true.
Proof. intros H. apply skip_digits_all_num. now rewrite H. Qed.

Lemma lit_exponent_all_num (s : string) :
  lit_exponent s = true -> all_num s = true.
Proof.
  destruct s as [|c s1]; simpl; [auto|].
  destruct (Ascii.eqb c "e" || Ascii.eqb c "E") eqn:He; [|discriminate].
  assert (Hc : is_num_char c = true).
  { unfold is_num_char. apply orb_true_iff in He as [H|H]; rewrite H;
      rewrite ?orb_true_r; reflexivity. }
  rewrite Hc. simpl.
  assert (Hd : forall d t, is_digit d && (skip_digits t =? "") = true ->
                           all_num (String d t) = true).
  { intros d t H. apply andb_true_iff in H as [H1 H2].
    apply String.eqb_eq in H2. simpl.
    rewrite (digit_num_char _ H1), (skip_digits_nil_all_num _ H2). reflexivity. }
  destruct s1 as [|sign t]; [discriminate|].
  destruct (Ascii.eqb sign "+" || Ascii.eqb sign "-") eqn:Hs.
  - destruct t as [|d t']; [discriminate|]. intros H.
    change (is_num_char sign && all_num (String d t') = true).
    rewrite (Hd _ _ H), andb_true_r.
    unfold is_num_char. apply orb_true_iff in Hs as [H'|H']; rewrite H';
      rewrite ?orb_true_r; reflexivity.
  - apply Hd.
Qed.

Lemma lit_fraction_all_num (s : string) :
  lit_fraction s = true -> all_num s = true.
Proof.
  destruct s as [|c s1]; [reflexivity|]. unfold lit_fraction.
  destruct (Ascii.eqb c ".") eqn:Hc.
  - destruct s1 as [|d t]; [discriminate|]. intros H.
    apply andb_true_iff in H as [H1 H2].
    apply lit_exponent_all_num, skip_digits_all_num in H2.
    simpl. rewrite (digit_num_char _ H1), H2.
    unfold is_num_char. rewrite Hc, ?orb_true_r. reflexivity.
  - apply lit_exponent_all_num.
Qed.

Lemma lit_integer_all_num (s : string) :
  lit_integer s = true -> all_num s = true.
Proof.
  destruct s as [|c s1]; [discriminate|]. unfold lit_integer.
  destruct (Ascii.eqb c "0") eqn:Hc.
  - intros H. apply lit_fraction_all_num in H. simpl. rewrite H.
    apply Ascii.eqb_eq in Hc. subst c. reflexivity.
  - intros H. apply andb_true_iff in H as [H1 H2].
    apply lit_fraction_all_num, skip_digits_all_num in H2.
    simpl. now rewrite (digit_num_char _ H1), H2.
Qed.

Lemma literal_all_num (lit : string) :
  is_number_literal lit = true -> all_num lit = true.
Proof.
  destruct lit as [|c s1]; [discriminate|]. unfold is_number_literal.
  destruct (Ascii.eqb c "-") eqn:Hc.
  - intros H. apply lit_integer_all_num in H. simpl. rewrite H.
    apply Ascii.eqb_eq in Hc. subst c. reflexivity.
  - apply lit_integer_all_num.
Qed.

Lemma literal_start (lit : string) :
  is_number_literal lit = true ->
  exists c t, lit = String c t /\ num_start c = true.
Proof.
  destruct lit as [|c s1]; [discriminate|]. intros H.
  exists c, s1. split; [reflexivity|]. unfold num_start.
  unfold is_number_literal in H.
  destruct (Ascii.eqb c "-"); [reflexivity|]. simpl.
  unfold lit_integer in H. destruct (Ascii.eqb c "0") eqn:Hc.
  - apply Ascii.eqb_eq in Hc. subst c. reflexivity.
  - now apply andb_true_iff in H as [H _].
Qed.

Lemma parse_value_number (fuel : nat) (c : ascii) (s : string) :
  num_start c = true ->
  parse_value (S fuel) (String c s) =
  let (tok, r) := span_num (String c s) in
  if is_number_literal tok then Some (VNum (Finite tok), r) else None.
Proof.
  intros H.
  destruct c as [[] [] [] [] [] [] [] []]; try discriminate H; reflexivity.
Qed.

Lemma parse_literal (fuel : nat) (lit rest : string) :
  is_number_literal lit = true -> boundary rest = true ->
  parse_value (S fuel) (lit ++ rest) = Some (VNum (Finite lit), rest).
Proof.
  intros Hl Hr. destruct (literal_start _ Hl) as (c & t & -> & Hc).
  change (String c t ++ rest) with (String c (t ++ rest)).
  rewrite (parse_value_number _ _ _ Hc).
  change (String c (t ++ rest)) with (String c t ++ rest).
  rewrite (span_num_app _ _ (literal_all_num _ Hl) Hr). now rewrite Hl.
Qed.

(** *** Values *)

Lemma value_induction (P : value -> Prop) :
  P VUndefined -> P VNull -> (forall b, P (VBool b)) ->
  (forall n, P (VNum n)) -> (forall s, P (VStr s)) ->
  (forall elems, Forall P elems -> P (VArr elems)) ->
  (forall props, Forall (fun p => P (snd p)) props -> P (VObj props)) ->
  forall v, P v.
Proof.
  intros Hu Hn Hb Hm Hs Ha Ho. fix IH 1.
  intros [| |b|n|s|elems|props];
    [exact Hu | exact Hn | apply Hb | apply Hm | apply Hs | | ].
  - apply Ha. induction elems as [|x elems IHl]; constructor; [apply IH | exact IHl].
  - apply Ho. induction props as [|[k x] props IHl]; constructor; [apply IH | exact IHl].
Qed.

Lemma serialize_arr gap indent elems :
  serialize gap indent (VArr elems) =
  Some (wrap "[" "]" gap indent (indent ++ gap) (elems_text gap (indent ++ gap) elems)).
Proof. reflexivity. Qed.

Lemma serialize_obj gap indent props :
  serialize gap indent (VObj props) =
  Some (wrap "{" "}" gap indent (indent ++ gap) (members_text gap (indent ++ gap) props)).
Proof. reflexivity. Qed.

Lemma well_formed_obj props :
  well_formed (VObj props) = unique (map fst props) && props_wf props.
Proof. reflexivity. Qed.

Lemma json_data_obj props : json_data (VObj props) = props_data props.
Proof. reflexivity. Qed.

Lemma size_obj props : size (VObj props) = S (props_size props).
Proof. reflexivity. Qed.

Lemma size_arr elems : size (VArr elems) = S (elems_size elems).
Proof. reflexivity. Qed.

Lemma num_start_starts c t : num_start c = true -> starts_value (String c t) = true.
Proof.
  intros H. destruct c as [[] [] [] [] [] [] [] []]; try discriminate H; reflexivity.
Qed.

Lemma wrap_starts o c gap stepback indent partial :
  starts_value (String o "") = true ->
  starts_value (wrap (String o "") c gap stepback indent partial) = true.
Proof. intros H. unfold wrap. destruct partial; exact H. Qed.

Lemma serialize_starts gap indent v t :
  well_formed v = true -> serialize gap indent v = Some t ->
  starts_value t = true.
Proof.
  destruct v as [| |[]|[| |lit]|s|elems|props]; simpl serialize; intros Hw H;
    try discriminate H; try (injection H as <-; reflexivity).
  - injection H as <-. simpl in Hw.
    destruct (literal_start _ Hw) as (c & t' & -> & Hc). now apply num_start_starts.
  - injection H as <-. now apply wrap_starts.
  - injection H as <-. now apply wrap_starts.
Qed.

Lemma skip_ws_starts (a b : string) :
  starts_value a = true -> skip_ws (a ++ b) = a ++ b.
Proof.
  destruct a as [|c a]; [discriminate|]. simpl.
  destruct (is_ws c); [discriminate | reflexivity].
Qed.

Lemma parse_elements_step f s :
  parse_elements (S f) s =
  match parse_value f s with
  | None => None
  | Some (v, r) =>
      match skip_ws r with
      | EmptyString => None
      | String c r' =>
          if Ascii.eqb c "," then
            match parse_elements f (skip_ws r') with
            | Some (vs, r'') => Some (v :: vs, r'')
            | None => None
            end
          else if Ascii.eqb c "]" then Some ([v], r')
          else None
      end
  end.
Proof. reflexivity. Qed.

Lemma json_data_serializes gap indent v :
  json_data v = true -> exists t, serialize gap indent v = Some t.
Proof.
  destruct v as [| |[]|[| |lit]|s|elems|props]; simpl; intros H;
    try discriminate H; eexists; reflexivity.
Qed.

Lemma boundary_newline gap indent c s :
  boundary (String c s) = true ->
  boundary (newline gap indent ++ String c s) = true.
Proof. unfold newline. destruct (gap =? ""); auto. Qed.

Lemma elems_text_starts gap indent x l :
  well_formed x = true -> json_data x = true ->
  starts_value (String.concat (String "," (newline gap indent))
                              (elems_text gap indent (x :: l))) = true.
Proof.
  intros Hw Hd. destruct (json_data_serializes gap indent x Hd) as [tx Hx].
  pose proof (serialize_starts _ _ _ _ Hw Hx) as Hs.
  simpl. rewrite Hx. destruct tx as [|c tx]; [discriminate|].
  destruct (elems_text gap indent l); exact Hs.
Qed.

Lemma parse_elements_text gap indent stepback :
  all_ws gap = true -> all_ws indent = true -> all_ws stepback = true ->
  forall l, l <> [] -> Forall round_trips l ->
  forallb well_formed l = true -> forallb json_data l = true ->
  forall rest fuel, (elems_size l <= fuel)%nat ->
  parse_elements fuel
    (String.concat (String "," (newline gap indent)) (elems_text gap indent l) ++
     newline gap stepback ++ String "]" rest) = Some (l, rest).
Proof.
  intros Hg Hi Hb l. induction l as [|x l IH]; [congruence|].
  intros _ HF Hw Hd rest fuel Hf.
  apply Forall_cons_iff in HF as [Hx HF].
  simpl in Hw, Hd. apply andb_true_iff in Hw as [Hwx Hw].
  apply andb_true_iff in Hd as [Hdx Hd].
  destruct (json_data_serializes gap indent x Hdx) as [tx Etx].
  destruct fuel as [|f]; [simpl in Hf; lia|]. simpl in Hf.
  rewrite parse_elements_step.
  destruct l as [|y l'].
  - simpl. rewrite Etx.
    rewrite (Hx gap indent tx _ f Hg Hi Hwx Hdx Etx); [|lia|].
    + rewrite (skip_ws_app _ _ (all_ws_newline gap _ Hb)). reflexivity.
    + now apply boundary_newline.
  - change (elems_text gap indent (x :: y :: l'))
      with ((match serialize gap indent x with Some t => t | None => "null" end)
              :: elems_text gap indent (y :: l')).
    rewrite Etx.
    change (String.concat (String "," (newline gap indent))
              (tx :: elems_text gap indent (y :: l')))
      with (tx ++ String "," (newline gap indent) ++
            String.concat (String "," (newline gap indent))
                          (elems_text gap indent (y :: l'))).
    rewrite !append_assoc.
    rewrite (Hx gap indent tx _ f Hg Hi Hwx Hdx Etx); [|lia|reflexivity].
    cbn [append skip_ws]. change (is_ws ",") with false. cbv iota.
    change (Ascii.eqb "," ",") with true. cbv iota.
    rewrite (skip_ws_app _ _ (all_ws_newline gap _ Hi)).
    rewrite skip_ws_starts.
    2:{ simpl in Hw, Hd. apply andb_true_iff in Hw as [Hwy _].
        apply andb_true_iff in Hd as [Hdy _]. now apply elems_text_starts. }
    rewrite (IH ltac:(discriminate) HF Hw Hd rest f); [reflexivity|].
    unfold elems_size in *. simpl in *. lia.
Qed.

Lemma parse_value_arr f s1 :
  starts_value (skip_ws s1) = true ->
  parse_value (S f) (String "[" s1) =
  match parse_elements f (skip_ws s1) with
  | Some (vs, r') => Some (VArr vs, r')
  | None => None
  end.
Proof.
  intros H.
  change (parse_value (S f) (String "[" s1)) with
    (match skip_ws s1 with
     | EmptyString => None
     | String c2 r =>
         if Ascii.eqb c2 "]" then Some (VArr [], r)
         else match parse_elements f (String c2 r) with
              | Some (vs, r') => Some (VArr vs, r')
              | None => None
              end
     end).
  destruct (skip_ws s1) as [|c2 r]; [discriminate|].
  simpl in H. destruct (Ascii.eqb c2 "]"); [|reflexivity].
  rewrite andb_false_r in H. discriminate.
Qed.

Lemma parse_value_obj f s1 :
  starts_value (skip_ws s1) = true ->
  parse_value (S f) (String "{" s1) =
  match parse_members f (skip_ws s1) with
  | Some (ms, r') => Some (VObj (collect ms), r')
  | None => None
  end.
Proof.
  intros H.
  change (parse_value (S f) (String "{" s1)) with
    (match skip_ws s1 with
     | EmptyString => None
     | String c2 r =>
         if Ascii.eqb c2 "}" then Some (VObj [], r)
         else match parse_members f (String c2 r) with
              | Some (ms, r') => Some (VObj (collect ms), r')
              | None => None
              end
     end).
  destruct (skip_ws s1) as [|c2 r]; [discriminate|].
  simpl in H. destruct (Ascii.eqb c2 "}"); [|reflexivity].
  rewrite andb_false_r in H. discriminate.
Qed.

Lemma parse_value_str f s1 :
  parse_value (S f) (String dquote s1) =
  match parse_chars s1 with
  | Some (t, r) => Some (VStr t, r)
  | None => None
  end.
Proof. reflexivity. Qed.

Lemma parse_members_step f s1 :
  parse_members (S f) (String dquote s1) =
  match parse_chars s1 with
  | None => None
  | Some (k, r0) =>
      match skip_ws r0 with
      | EmptyString => None
      | String c r1 =>
          if Ascii.eqb c ":" then
            match parse_value f (skip_ws r1) with
            | None => None
            | Some (v, r) =>
                match skip_ws r with
                | EmptyString => None
                | String c' r' =>
                    if Ascii.eqb c' "," then
                      match parse_members f (skip_ws r') with
                      | Some (ms, r'') => Some ((k, v) :: ms, r'')
                      | None => None
                      end
                    else if Ascii.eqb c' "}" then Some ([(k, v)], r')
                    else None
                end
            end
          else None
      end
  end.
Proof. reflexivity. Qed.

Lemma skip_colon gap s :
  skip_ws (colon gap ++ s) = String ":" (if gap =? "" then s else String " " s).
Proof. unfold colon. destruct (gap =? ""); reflexivity. Qed.

Lemma skip_after_colon gap s :
  skip_ws (if gap =? "" then s else String " " s) = skip_ws s.
Proof. destruct (gap =? ""); reflexivity. Qed.

Lemma members_text_starts gap indent k x ps :
  json_data x = true ->
  starts_value (String.concat (String "," (newline gap indent))
                              (members_text gap indent ((k, x) :: ps))) = true.
Proof.
  intros Hd. destruct (json_data_serializes gap indent x Hd) as [tx Hx].
  simpl. rewrite Hx. destruct (members_text gap indent ps); reflexivity.
Qed.

Lemma parse_members_text gap indent stepback :
  all_ws gap = true -> all_ws indent = true -> all_ws stepback = true ->
  forall ps, ps <> [] -> Forall (fun p => round_trips (snd p)) ps ->
  props_wf ps = true -> props_data ps = true ->
  forall rest fuel, (props_size ps <= fuel)%nat ->
  parse_members fuel
    (String.concat (String "," (newline gap indent)) (members_text gap indent ps) ++
     newline gap stepback ++ String "}" rest) = Some (ps, rest).
Proof.
  intros Hg Hi Hb ps. induction ps as [|[k x] ps IH]; [congruence|].
  intros _ HF Hw Hd rest fuel Hf.
  apply Forall_cons_iff in HF as [Hx HF]. simpl in Hx.
  simpl in Hw, Hd. apply andb_true_iff in Hw as [Hwx Hw].
  apply andb_true_iff in Hd as [Hdx Hd].
  destruct (json_data_serializes gap indent x Hdx) as [tx Etx].
  destruct fuel as [|f]; [simpl in Hf; lia|]. simpl in Hf.
  destruct ps as [|[k' y] ps'].
  - simpl members_text. rewrite Etx. simpl String.concat.
    unfold quote. cbn [append]. rewrite ?append_assoc. cbn [append].
    rewrite ?append_assoc.
    rewrite parse_members_step, parse_chars_escape, skip_colon.
    change (Ascii.eqb ":" ":") with true. cbv iota.
    rewrite skip_after_colon.
    rewrite (skip_ws_starts _ _ (serialize_starts _ _ _ _ Hwx Etx)).
    rewrite (Hx gap indent tx _ f Hg Hi Hwx Hdx Etx); [|lia|].
    + rewrite (skip_ws_app _ _ (all_ws_newline gap _ Hb)). reflexivity.
    + now apply boundary_newline.
  - change (members_text gap indent ((k, x) :: (k', y) :: ps'))
      with (match serialize gap indent x with
            | Some t => (quote k ++ colon gap ++ t) :: members_text gap indent ((k', y) :: ps')
            | None => members_text gap indent ((k', y) :: ps')
            end).
    rewrite Etx.
    assert (Hne : exists m ms, members_text gap indent ((k', y) :: ps') = m :: ms).
    { simpl in Hd. apply andb_true_iff in Hd as [Hdy _].
      destruct (json_data_serializes gap indent y Hdy) as [ty Ety].
      simpl. rewrite Ety. eauto. }
    destruct Hne as (m & ms & Em).
    change (String.concat (String "," (newline gap indent))
              ((quote k ++ colon gap ++ tx) :: members_text gap indent ((k', y) :: ps')))
      with (match members_text gap indent ((k', y) :: ps') with
            | [] => quote k ++ colon gap ++ tx
            | _ :: _ => (quote k ++ colon gap ++ tx) ++ String "," (newline gap indent) ++
                 String.concat (String "," (newline gap indent))
                               (members_text gap indent ((k', y) :: ps'))
            end).
    rewrite Em at 1. cbv iota.
    unfold quote. cbn [append]. rewrite ?append_assoc. cbn [append].
    rewrite ?append_assoc.
    rewrite parse_members_step, parse_chars_escape, skip_colon.
    change (Ascii.eqb ":" ":") with true. cbv iota.
    rewrite skip_after_colon.
    rewrite (skip_ws_starts _ _ (serialize_starts _ _ _ _ Hwx Etx)).
    rewrite (Hx gap indent tx _ f Hg Hi Hwx Hdx Etx); [|lia|reflexivity].
    cbn [skip_ws]. change (is_ws ",") with false. cbv iota.
    change (Ascii.eqb "," ",") with true. cbv iota.
    rewrite (skip_ws_app _ _ (all_ws_newline gap _ Hi)).
    rewrite skip_ws_starts.
    2:{ simpl in Hd. apply andb_true_iff in Hd as [Hdy _].
        now apply members_text_starts. }
    rewrite (IH ltac:(discriminate) HF Hw Hd rest f); [reflexivity|].
    simpl in *. lia.
Qed.

(** Distinct names are collected as they come. *)
Lemma set_prop_fresh k v acc :
  existsb (String.eqb k) (map fst acc) = false ->
  set_prop k v acc = (acc ++ [(k, v)])%list.
Proof.
  induction acc as [|[k' x] acc IH]; simpl; [reflexivity|].
  intros H. apply orb_false_iff in H as [H1 H2].
  rewrite String.eqb_sym, H1, (IH H2). reflexivity.
Qed.

Lemma collect_unique_from ms : forall acc,
  unique (map fst acc ++ map fst ms)%list = true ->
  fold_left (fun a m => set_prop (fst m) (snd m) a) ms acc = (acc ++ ms)%list.
Proof.
  induction ms as [|[k v] ms IH]; intros acc H; simpl.
  - now rewrite app_nil_r.
  - rewrite set_prop_fresh.
    + rewrite IH.
      * now rewrite <- app_assoc.
      * rewrite map_app. simpl. now rewrite <- app_assoc.
    + simpl in H. clear IH. induction acc as [|[k' x] acc IHa]; [reflexivity|].
      simpl in *. apply andb_true_iff in H as [H1 H2].
      rewrite (IHa H2), orb_false_r.
      apply negb_true_iff in H1. rewrite existsb_app in H1.
      apply orb_false_iff in H1 as [_ H1]. simpl in H1.
      apply orb_false_iff in H1 as [H1 _]. now rewrite String.eqb_sym.
Qed.

Lemma collect_unique ms : unique (map fst ms) = true -> collect ms = ms.
Proof. intros H. unfold collect. now rewrite collect_unique_from. Qed.

Lemma forallb_Forall {A} (f : A -> bool) l :
  forallb f l = true -> Forall (fun x => f x = true) l.
Proof. intros H. apply Forall_forall. now apply forallb_forall. Qed.

Lemma wrap_cons o c gap stepback indent p ps :
  wrap o c gap stepback indent (p :: ps) =
  o ++ newline gap indent ++
  String.concat (String "," (newline gap indent)) (p :: ps) ++
  newline gap stepback ++ c.
Proof. reflexivity. Qed.

(** The text of a value parses back to the value. *)
Theorem serialize_round_trips : forall v, round_trips v.
Proof.
  induction v as [| |b|n|s|elems IH|props IH] using value_induction;
    intros gap indent t rest fuel Hg Hi Hw Hd Ht Hf Hr;
    (destruct fuel as [|f]; [simpl in Hf; lia|]).
  - discriminate.
  - injection Ht as <-. reflexivity.
  - destruct b; injection Ht as <-; reflexivity.
  - destruct n as [| |lit]; try discriminate.
    injection Ht as <-. now apply parse_literal.
  - injection Ht as <-. unfold quote. cbn [append].
    rewrite parse_value_str, append_assoc. cbn [append].
    now rewrite parse_chars_escape.
  - rewrite serialize_arr in Ht. injection Ht as <-.
    destruct elems as [|x l]; [reflexivity|].
    assert (Hi' : all_ws (indent ++ gap) = true) by now apply all_ws_app.
    simpl in Hw, Hd.
    assert (Hs : starts_value
                   (String.concat (String "," (newline gap (indent ++ gap)))
                      (elems_text gap (indent ++ gap) (x :: l))) = true).
    { apply andb_true_iff in Hw as [Hwx _]. apply andb_true_iff in Hd as [Hdx _].
      now apply elems_text_starts. }
    change (elems_text gap (indent ++ gap) (x :: l))
      with ((match serialize gap (indent ++ gap) x with Some t => t | None => "null" end)
              :: elems_text gap (indent ++ gap) l).
    rewrite wrap_cons. cbn [append]. rewrite ?append_assoc. cbn [append].
    change ((match serialize gap (indent ++ gap) x with Some t => t | None => "null" end)
              :: elems_text gap (indent ++ gap) l)
      with (elems_text gap (indent ++ gap) (x :: l)).
    rewrite parse_value_arr;
      rewrite (skip_ws_app _ _ (all_ws_newline gap _ Hi')), skip_ws_starts by exact Hs;
      [|destruct (String.concat _ _); [discriminate | exact Hs]].
    rewrite (parse_elements_text gap (indent ++ gap) indent Hg Hi' Hi (x :: l));
      try reflexivity; try discriminate; try assumption.
    rewrite size_arr in Hf. lia.
  - rewrite serialize_obj in Ht. injection Ht as <-.
    destruct props as [|[k x] ps]; [reflexivity|].
    assert (Hi' : all_ws (indent ++ gap) = true) by now apply all_ws_app.
    rewrite well_formed_obj in Hw. apply andb_true_iff in Hw as [Hu Hw].
    rewrite json_data_obj in Hd.
    assert (Hs : starts_value
                   (String.concat (String "," (newline gap (indent ++ gap)))
                      (members_text gap (indent ++ gap) ((k, x) :: ps))) = true).
    { simpl in Hd. apply andb_true_iff in Hd as [Hdx _].
      now apply members_text_starts. }
    destruct (members_text gap (indent ++ gap) ((k, x) :: ps)) as [|m ms] eqn:Em;
      [discriminate|].
    rewrite wrap_cons. cbn [append]. rewrite ?append_assoc. cbn [append].
    rewrite <- Em.
    rewrite parse_value_obj;
      rewrite (skip_ws_app _ _ (all_ws_newline gap _ Hi')), skip_ws_starts
        by (rewrite Em; exact Hs);
      [|rewrite Em; destruct (String.concat _ _); [discriminate | exact Hs]].
    rewrite (parse_members_text gap (indent ++ gap) indent Hg Hi' Hi ((k, x) :: ps));
      try discriminate; try assumption.
    + now rewrite (collect_unique _ Hu).
    + rewrite size_obj in Hf. fold (props_size ((k, x) :: ps)). lia.
Qed.

(** *** What survives serialization *)

Lemma value_eq_undefined (x : value) : x = VUndefined \/ x <> VUndefined.
Proof. destruct x; (now left) || (right; discriminate). Qed.

Lemma jsonify_arr elems : jsonify (VArr elems) = VArr (map jsonify_elem elems).
Proof. reflexivity. Qed.

Lemma jsonify_obj props : jsonify (VObj props) = VObj (jsonify_props props).
Proof. reflexivity. Qed.

Lemma jsonify_props_cons k x ps :
  x <> VUndefined ->
  jsonify_props ((k, x) :: ps) = (k, jsonify x) :: jsonify_props ps.
Proof. destruct x; try reflexivity. congruence. Qed.

Lemma serialize_jsonify : forall v gap indent,
  serialize gap indent (jsonify v) = serialize gap indent v.
Proof.
  induction v as [| |b|n|s|elems IH|props IH] using value_induction;
    intros gap indent; try reflexivity.
  - destruct n; reflexivity.
  - rewrite jsonify_arr, !serialize_arr. do 2 f_equal.
    induction IH as [|x l Hx _ IHl]; [reflexivity|].
    simpl. rewrite IHl. f_equal.
    destruct x; try reflexivity; unfold jsonify_elem; now rewrite Hx.
  - rewrite jsonify_obj, !serialize_obj. do 2 f_equal.
    induction IH as [|[k x] ps Hx _ IHps]; [reflexivity|].
    simpl in Hx.
    destruct (value_eq_undefined x) as [->|Hn].
    + simpl. exact IHps.
    + rewrite (jsonify_props_cons _ _ _ Hn).
      change (members_text gap (indent ++ gap) ((k, jsonify x) :: jsonify_props ps))
        with (match serialize gap (indent ++ gap) (jsonify x) with
              | Some t => (quote k ++ colon gap ++ t)
                            :: members_text gap (indent ++ gap) (jsonify_props ps)
              | None => members_text gap (indent ++ gap) (jsonify_props ps)
              end).
      rewrite Hx, IHps. reflexivity.
Qed.

Lemma jsonify_props_names k ps :
  existsb (String.eqb k) (map fst (jsonify_props ps)) = true ->
  existsb (String.eqb k) (map fst ps) = true.
Proof.
  induction ps as [|[k' x] ps IH]; [auto|].
  destruct (value_eq_undefined x) as [->|Hn].
  - simpl. intros H. rewrite (IH H). apply orb_true_r.
  - rewrite (jsonify_props_cons _ _ _ Hn). simpl. intros H.
    apply orb_true_iff in H as [H|H]; [now rewrite H|].
    rewrite (IH H). apply orb_true_r.
Qed.

Lemma jsonify_props_unique ps :
  unique (map fst ps) = true -> unique (map fst (jsonify_props ps)) = true.
Proof.
  induction ps as [|[k x] ps IH]; [auto|]. intros H. simpl in H.
  apply andb_true_iff in H as [H1 H2].
  destruct (value_eq_undefined x) as [->|Hn]; [now apply IH|].
  rewrite (jsonify_props_cons _ _ _ Hn). simpl. rewrite (IH H2), andb_true_r.
  apply negb_true_iff. apply negb_true_iff in H1.
  destruct (existsb (String.eqb k) (map fst (jsonify_props ps))) eqn:E; [|reflexivity].
  apply jsonify_props_names in E. congruence.
Qed.

Lemma jsonify_well_formed : forall v,
  well_formed v = true -> well_formed (jsonify v) = true.
Proof.
  induction v as [| |b|n|s|elems IH|props IH] using value_induction;
    intros Hw; try reflexivity.
  - destruct n; auto.
  - rewrite jsonify_arr. simpl in *.
    induction IH as [|x l Hx _ IHl]; [reflexivity|].
    simpl in *. apply andb_true_iff in Hw as [Hwx Hw].
    rewrite (IHl Hw), andb_true_r.
    destruct x; try reflexivity; unfold jsonify_elem; now apply Hx.
  - rewrite jsonify_obj, well_formed_obj in *.
    apply andb_true_iff in Hw as [Hu Hw].
    rewrite (jsonify_props_unique _ Hu). simpl.
    clear Hu. induction IH as [|[k x] ps Hx _ IHps]; [reflexivity|].
    simpl in Hw, Hx. apply andb_true_iff in Hw as [Hwx Hw].
    destruct (value_eq_undefined x) as [->|Hn]; [now apply IHps|].
    rewrite (jsonify_props_cons _ _ _ Hn). simpl.
    now rewrite (Hx Hwx), (IHps Hw).
Qed.

Lemma jsonify_json_data : forall v,
  v <> VUndefined -> json_data (jsonify v) = true.
Proof.
  induction v as [| |b|n|s|elems IH|props IH] using value_induction;
    intros Hn; try reflexivity.
  - congruence.
  - destruct n; reflexivity.
  - rewrite jsonify_arr. simpl. clear Hn.
    induction IH as [|x l Hx _ IHl]; [reflexivity|].
    simpl. rewrite IHl, andb_true_r.
    destruct (value_eq_undefined x) as [->|Hnx]; [reflexivity|].
    destruct x; try reflexivity; try congruence; unfold jsonify_elem;
      now apply Hx.
  - rewrite jsonify_obj, json_data_obj. clear Hn.
    induction IH as [|[k x] ps Hx _ IHps]; [reflexivity|].
    simpl in Hx.
    destruct (value_eq_undefined x) as [->|Hnx]; [exact IHps|].
    rewrite (jsonify_props_cons _ _ _ Hnx). simpl.
    now rewrite (Hx Hnx), IHps.
Qed.

Lemma jsonify_data : forall v, json_data v = true -> jsonify v = v.
Proof.
  induction v as [| |b|n|s|elems IH|props IH] using value_induction;
    intros Hd; try reflexivity.
  - destruct n; try discriminate; reflexivity.
  - rewrite jsonify_arr. f_equal. simpl in Hd.
    induction IH as [|x l Hx _ IHl]; [reflexivity|].
    simpl in *. apply andb_true_iff in Hd as [Hdx Hd].
    rewrite (IHl Hd). f_equal.
    destruct x; try reflexivity; try discriminate; unfold jsonify_elem;
      now apply Hx.
  - rewrite jsonify_obj. f_equal. rewrite json_data_obj in Hd.
    induction IH as [|[k x] ps Hx _ IHps]; [reflexivity|].
    simpl in Hx, Hd. apply andb_true_iff in Hd as [Hdx Hd].
    rewrite jsonify_props_cons by (intros ->; discriminate).
    now rewrite (Hx Hdx), (IHps Hd).
Qed.

(** *** The text is long enough to serve as fuel *)

Lemma concat_length_elems gap indent sep l :
  Forall (fun x => forall gap indent t,
            well_formed x = true -> json_data x = true ->
            serialize gap indent x = Some t ->
            (size x <= String.length t)%nat) l ->
  forallb well_formed l = true -> forallb json_data l = true ->
  (elems_size l <=
   String.length (String.concat (String "," sep) (elems_text gap indent l)) + 1)%nat.
Proof.
  intros HF. induction HF as [|x l Hx _ IHl]; intros Hw Hd; [simpl; lia|].
  simpl in Hw, Hd. apply andb_true_iff in Hw as [Hwx Hw].
  apply andb_true_iff in Hd as [Hdx Hd]. specialize (IHl Hw Hd).
  destruct (json_data_serializes gap indent x Hdx) as [tx Etx].
  specialize (Hx gap indent tx Hwx Hdx Etx).
  change (elems_text gap indent (x :: l))
    with ((match serialize gap indent x with Some t => t | None => "null" end)
            :: elems_text gap indent l).
  rewrite Etx. unfold elems_size in *. simpl fold_right.
  destruct (elems_text gap indent l) as [|m ms] eqn:Em.
  - destruct l; [|discriminate]. simpl. lia.
  - change (String.concat (String "," sep) (tx :: m :: ms))
      with (tx ++ String "," sep ++ String.concat (String "," sep) (m :: ms)).
    rewrite !length_append. simpl String.length at 2. lia.
Qed.

Lemma concat_length_members gap indent sep ps :
  Forall (fun p => forall gap indent t,
            well_formed (snd p) = true -> json_data (snd p) = true ->
            serialize gap indent (snd p) = Some t ->
            (size (snd p) <= String.length t)%nat) ps ->
  props_wf ps = true -> props_data ps = true ->
  (props_size ps <=
   String.length (String.concat (String "," sep) (members_text gap indent ps)) + 1)%nat.
Proof.
  intros HF. induction HF as [|[k x] ps Hx _ IHps]; intros Hw Hd; [simpl; lia|].
  simpl in Hw, Hd, Hx. apply andb_true_iff in Hw as [Hwx Hw].
  apply andb_true_iff in Hd as [Hdx Hd]. specialize (IHps Hw Hd).
  destruct (json_data_serializes gap indent x Hdx) as [tx Etx].
  specialize (Hx gap indent tx Hwx Hdx Etx).
  change (members_text gap indent ((k, x) :: ps))
    with (match serialize gap indent x with
          | Some t => (quote k ++ colon gap ++ t) :: members_text gap indent ps
          | None => members_text gap indent ps
          end).
  rewrite Etx. change (props_size ((k, x) :: ps)) with (S (size x + props_size ps)).
  assert (Hm : (String.length tx + 2 <= String.length (quote k ++ colon gap ++ tx))%nat).
  { unfold quote. simpl. rewrite !length_append. simpl. lia. }
  destruct (members_text gap indent ps) as [|m ms] eqn:Em.
  - assert (props_size ps = 0)%nat.
    { destruct ps as [|[k' y] ps']; [reflexivity|]. exfalso.
      simpl in Hd. apply andb_true_iff in Hd as [Hdy _].
      destruct (json_data_serializes gap indent y Hdy) as [ty Ety].
      simpl in Em. rewrite Ety in Em. discriminate. }
    cbn [String.concat]. lia.
  - change (String.concat (String "," sep) ((quote k ++ colon gap ++ tx) :: m :: ms))
      with ((quote k ++ colon gap ++ tx) ++ String "," sep ++
            String.concat (String "," sep) (m :: ms)).
    rewrite (length_append (quote k ++ colon gap ++ tx)).
    rewrite (length_append (String "," sep)). simpl String.length at 2. lia.
Qed.

Lemma wrap_length o c gap stepback indent partial :
  (String.length (String.concat (String "," (newline gap indent)) partial) + 2
   <= String.length (wrap (String o "") (String c "") gap stepback indent partial))%nat.
Proof.
  unfold wrap. destruct partial as [|p ps]; [simpl; lia|].
  change ("," ++ newline gap indent) with (String "," (newline gap indent)).
  cbn [append String.length]. rewrite !length_append. simpl String.length. lia.
Qed.

Lemma size_le_length : forall v gap indent t,
  well_formed v = true -> json_data v = true ->
  serialize gap indent v = Some t ->
  (size v <= String.length t)%nat.
Proof.
  induction v as [| |b|n|s|elems IH|props IH] using value_induction;
    intros gap indent t Hw Hd Ht.
  - discriminate.
  - injection Ht as <-. simpl. lia.
  - destruct b; injection Ht as <-; simpl; lia.
  - destruct n as [| |lit]; try discriminate. injection Ht as <-.
    destruct (literal_start _ Hw) as (c & t' & -> & _). simpl. lia.
  - injection Ht as <-. simpl. lia.
  - rewrite serialize_arr in Ht. injection Ht as <-. rewrite size_arr.
    pose proof (wrap_length "[" "]" gap indent (indent ++ gap)
                  (elems_text gap (indent ++ gap) elems)).
    pose proof (concat_length_elems gap (indent ++ gap)
                  (newline gap (indent ++ gap)) elems IH Hw Hd). lia.
  - rewrite serialize_obj in Ht. injection Ht as <-. rewrite size_obj.
    rewrite json_data_obj in Hd. rewrite well_formed_obj in Hw.
    apply andb_true_iff in Hw as [_ Hw].
    pose proof (wrap_length "{" "}" gap indent (indent ++ gap)
                  (members_text gap (indent ++ gap) props)).
    pose proof (concat_length_members gap (indent ++ gap)
                  (newline gap (indent ++ gap)) props IH Hw Hd). lia.
Qed.

(** [JSON.parse(JSON.stringify(v, null, space))] is the JSON projection of
    [v]; it is [v] itself when [v] is JSON data. *)
Theorem parse_stringify (v : value) (space : nat) (text : string) :
  well_formed v = true ->
  stringify v space = Some text ->
  parse text = Some (jsonify v).
Proof.
  intros Hw Ht. unfold stringify in Ht.
  assert (Hn : v <> VUndefined) by (intros ->; discriminate).
  rewrite <- serialize_jsonify in Ht.
  pose proof (jsonify_well_formed _ Hw) as Hw'.
  pose proof (jsonify_json_data _ Hn) as Hd'.
  pose proof (size_le_length _ _ _ _ Hw' Hd' Ht) as Hs.
  pose proof (serialize_starts _ _ _ _ Hw' Ht) as Hst.
  unfold parse.
  rewrite <- (append_nil_r text) at 2. rewrite skip_ws_starts by exact Hst.
  rewrite (serialize_round_trips (jsonify v) (blanks space) "" text "");
    auto using all_ws_blanks.
Qed.

Corollary parse_stringify_data (v : value) (space : nat) (text : string) :
  well_formed v = true -> json_data v = true ->
  stringify v space = Some text ->
  parse text = Some v.
Proof.
  intros Hw Hd Ht. rewrite (parse_stringify v space text Hw Ht).
  now rewrite jsonify_data.
Qed.

End JsonFacts.

(* ------------------------------------------------------------------ *)
(** ** The routes *)

Module ServerFacts.
Import Js Eff Server Spec.
Local Open Scope list_scope.

#[local] Arguments Path.join : simpl never.
#[local] Arguments Date.toISOString : simpl never.
#[local] Arguments Str.replace_colon_dot : simpl never.
#[local] Arguments Json.stringify : simpl never.
#[local] Arguments Json.parse : simpl never.
#[local] Arguments Uri.decodeURIComponent : simpl never.
#[local] Arguments Fs.resolve : simpl never.
#[local] Arguments Fs.make_dirs : simpl never.
#[local] Arguments Fs.set_file : simpl never.
#[local] Arguments Fs.dirname : simpl never.
#[local] Arguments Fs.has_trailing_slash : simpl never.
#[local] Arguments String.append : simpl never.
#[local] Arguments toString : simpl never.
#[local] Arguments truthy : simpl never.
#[local] Arguments audit : simpl never.
#[local] Arguments audit_failed : simpl never.
#[local] Arguments release : simpl never.
#[local] Arguments save : simpl never.
#[local] Arguments validate : simpl never.
#[local] Arguments outer_catch : simpl never.

Lemma missing_url E req w :
  truthy (query_url req) = false ->
  serve (nsa_audit E req) w =
  (Return,
   mkWorld (fs w)
     (console w ++ [(Log, "Request query:", None); (Log, "Raw URL from query:", None)])
     (chrome w) (clock_reads w)
     (Some (mkResponse 400 (VObj [("error", VStr missing_url_message)])))
     (trace w ++ [EvRespond (mkResponse 400 (VObj [("error", VStr missing_url_message)]))])).
Proof.
  intros H. unfold serve, nsa_audit, try_catch, bind, when. simpl.
  rewrite H. simpl. rewrite <- app_assoc. reflexivity.
Qed.

Lemma assoc_set_file path text fs :
  assoc path (Fs.set_file path text fs) = Some (Fs.File text).
Proof.
  unfold Fs.set_file.
  induction fs as [|[p n] fs IH]; simpl.
  - now rewrite String.eqb_refl.
  - destruct (p =? path) eqn:E; simpl; rewrite E; [reflexivity | exact IH].
Qed.

Lemma resolve_set_file path text fs :
  Fs.has_trailing_slash path = false ->
  Fs.resolve fs path <> Some Fs.Dir ->
  Fs.resolve (Fs.set_file path text fs) path = Some (Fs.File text).
Proof.
  unfold Fs.resolve. intros Ht Hd. rewrite Ht in *.
  destruct (path =? "/"); [congruence|]. apply assoc_set_file.
Qed.

Ltac break_in H :=
  repeat match type of H with
  | context [match ?x with _ => _ end] =>
      lazymatch x with
      | context [match _ with _ => _ end] => fail
      | _ => destruct x eqn:?; simpl in H
      end
  end.

Ltac trace_extension :=
  first
    [ exists []; rewrite app_nil_r; repeat split; auto; discriminate
    | eexists; rewrite <- ?app_assoc; split; [reflexivity|];
      repeat split; auto; discriminate ].

Lemma save_spec E timestamp lhr w c w' :
  save E timestamp lhr w = (c, w') ->
  sent w' = sent w /\ chrome w' = chrome w /\ clock_reads w' = clock_reads w /\
  (exists acts, trace w' = trace w ++ acts /\ forallb internal acts = true /\
                (existsb is_write acts = true -> c = Normal tt)) /\
  match c with
  | Normal _ =>
      exists text, Json.stringify lhr 2 = Some text /\
                   Fs.resolve (fs w') (report_path E timestamp) = Some (Fs.File text)
  | Throw _ => True
  | Return => False
  end.
Proof.
  unfold save, report_path, bind, try_catch, when, existsSync, mkdirSync,
    writeFileSync, faulty, get_fs, set_fs, emit, modify, console_log,
    console_error, throw, ret, bind.
  set (path := Path.join (reportsDir E) ("lighthouse-report-" ++ timestamp ++ ".json")%string).
  simpl. intros H. break_in H; injection H as <- <-; simpl;
    (split; [reflexivity|]); (split; [reflexivity|]); (split; [reflexivity|]);
    (split; [trace_extension|]); auto.
  all: eexists; split; [reflexivity|]; apply resolve_set_file; auto; congruence.
Qed.

Lemma validate_spec E results w :
  validate E results w =
  match verdict results with
  | None => (Normal tt, w)
  | Some message =>
      (Throw (new_Error E message),
       mkWorld (fs w) (console w ++ [(Err, message, None)]) (chrome w)
               (clock_reads w) (sent w) (trace w))
  end.
Proof.
  unfold validate, verdict, requiredProperties, for_each, when, bind,
    console_error, modify, throw, ret.
  destruct (truthy results); simpl; [|reflexivity].
  destruct (truthy (get results "lhr")); simpl; [|reflexivity].
  destruct (truthy (get (get results "lhr") "finalUrl")); simpl; [|reflexivity].
  destruct (truthy (get (get results "lhr") "fetchTime")); simpl; [|reflexivity].
  destruct (truthy (get (get results "lhr") "categories")); simpl; [|reflexivity].
  destruct (truthy (get (get results "lhr") "audits")); simpl; reflexivity.
Qed.

Lemma release_spec E port w :
  exists w', release E port w = (Normal tt, w') /\
    fs w' = fs w /\ sent w' = sent w /\ clock_reads w' = clock_reads w /\
    trace w' = trace w ++ [EvKill port] /\
    console w' = console w ++ [kill_line E port] /\
    chrome w' = match kill_result E port with
                | Some _ => chrome w
                | None => remove N.eq_dec port (chrome w)
                end.
Proof.
  unfold release, kill, kill_line, try_catch, bind, emit, modify, console_log,
    console_error, throw. simpl.
  destruct (kill_result E port); simpl; eexists; split; try reflexivity;
    simpl; repeat split; reflexivity.
Qed.

(** The audit proper: what it leaves behind, by the way it ends. *)
Lemma audit_spec E decoded locale port w c w' :
  sent w = None ->
  audit E decoded locale port w = (c, w') ->
  chrome w' = chrome w /\
  exists acts, forallb internal acts = true /\
    match c with
    | Normal _ =>
        exists body, get body "success" = VBool true /\
          sent w' = Some (mkResponse 200 body) /\
          trace w' = trace w ++ acts ++ [EvRespond (mkResponse 200 body)]
    | Throw _ =>
        sent w' = None /\ trace w' = trace w ++ acts /\
        existsb is_write acts = false
    | Return => False
    end.
Proof.
  intros Hs. unfold audit, bind, sleep, lighthouse, emit, modify, console_log,
    lift, now, res_json, res_status_json, throw, ret. simpl.
  destruct (lighthouse_result E decoded port locale) as [results|e]; simpl.
  - rewrite validate_spec. destruct (verdict results) as [message|]; simpl.
    + intros H; injection H as <- <-; simpl. split; [reflexivity|].
      exists [EvWait 10000; EvAudit decoded port]. rewrite <- app_assoc. auto.
    + match goal with
      | |- context [save ?E ?t ?l ?w0] => destruct (save E t l w0) as [c1 w1] eqn:Es
      end.
      apply save_spec in Es. simpl in Es.
      destruct Es as (E1 & E2 & E3 & (acts & E4 & E5 & E7) & E6).
      rewrite <- !app_assoc in E4. simpl in E4.
      destruct c1 as [[]| |e]; simpl.
      * rewrite E1, Hs. intros H; injection H as <- <-; simpl.
        split; [exact E2|].
        exists (EvWait 10000 :: EvAudit decoded port :: acts).
        split; [exact E5|]. eexists. split; [|split; [reflexivity|]].
        -- reflexivity.
        -- rewrite E4. simpl. now rewrite <- !app_assoc.
      * contradiction.
      * intros H; injection H as <- <-. split; [exact E2|].
        exists (EvWait 10000 :: EvAudit decoded port :: acts).
        split; [exact E5|]. split; [now rewrite E1|].
        split; [rewrite E4; reflexivity|]. simpl.
        destruct (existsb is_write acts); [|reflexivity].
        discriminate (E7 eq_refl).
  - intros H; injection H as <- <-; simpl. split; [reflexivity|].
    exists [EvWait 10000; EvAudit decoded port]. rewrite <- app_assoc. auto.
Qed.

(** *** The route up to the launch *)

Lemma decoded_url_some url decoded :
  decoded_url url = Some decoded ->
  exists text, toString url = Some text /\ Uri.decodeURIComponent text = Some decoded.
Proof.
  unfold decoded_url. destruct (toString url) as [text|]; [|discriminate].
  intros H. now exists text.
Qed.

Lemma unconvertible_url E req w :
  truthy (query_url req) = true ->
  toString (query_url req) = None ->
  serve (nsa_audit E req) w =
  (Normal tt,
   mkWorld (fs w)
     (console w ++ [(Log, "Request query:", None); (Log, "Raw URL from query:", None);
                    (Err, "Lighthouse audit failed:",
                     Some (new_Error E (toString_error (query_url req))))])
     (chrome w) (clock_reads w)
     (Some (crashed_response (new_Error E (toString_error (query_url req)))))
     (trace w ++ [EvRespond (crashed_response
                               (new_Error E (toString_error (query_url req))))])).
Proof.
  intros H1 H2. unfold serve, nsa_audit, try_catch, bind, when, url_toString.
  simpl. rewrite H1, H2. simpl. rewrite <- !app_assoc. reflexivity.
Qed.

Lemma undecodable_url E req w text :
  truthy (query_url req) = true ->
  toString (query_url req) = Some text ->
  Uri.decodeURIComponent text = None ->
  serve (nsa_audit E req) w =
  (Normal tt,
   mkWorld (fs w)
     (console w ++ [(Log, "Request query:", None); (Log, "Raw URL from query:", None);
                    (Err, "Lighthouse audit failed:", Some (new_Error E "URI malformed"))])
     (chrome w) (clock_reads w)
     (Some (crashed_response (new_Error E "URI malformed")))
     (trace w ++ [EvRespond (crashed_response (new_Error E "URI malformed"))])).
Proof.
  intros H1 H2 H3.
  unfold serve, nsa_audit, try_catch, bind, when, url_toString, decodeURIComponent.
  simpl. rewrite H1, H2. simpl. rewrite H3. simpl. rewrite <- !app_assoc.
  reflexivity.
Qed.

Lemma invalid_url E req w decoded :
  truthy (query_url req) = true ->
  decoded_url (query_url req) = Some decoded ->
  URL_ok E decoded = false ->
  serve (nsa_audit E req) w =
  (Return,
   mkWorld (fs w)
     (console w ++ [(Log, "Request query:", None); (Log, "Raw URL from query:", None);
                    (Log, "Decoded URL:", None)])
     (chrome w) (clock_reads w)
     (Some (mkResponse 400 (VObj [("error", VStr invalid_url_message)])))
     (trace w ++ [EvRespond (mkResponse 400 (VObj [("error", VStr invalid_url_message)]))])).
Proof.
  intros H1 H2 H3. destruct (decoded_url_some _ _ H2) as (text & Ht & Hd).
  unfold serve, nsa_audit, try_catch, bind, when, url_toString,
    decodeURIComponent, new_URL.
  simpl. rewrite H1, Ht. simpl. rewrite Hd. simpl. rewrite H3. simpl.
  rewrite <- !app_assoc. reflexivity.
Qed.

Lemma launch_failed E req w decoded e :
  reaches_launch E req decoded ->
  launch_result E = Raise e ->
  serve (nsa_audit E req) w =
  (Normal tt,
   mkWorld (fs w)
     (console w ++ [(Log, "Request query:", None); (Log, "Raw URL from query:", None);
                    (Log, "Decoded URL:", None);
                    (Err, "Lighthouse audit failed:", Some e)])
     (chrome w) (clock_reads w)
     (Some (crashed_response e))
     (trace w ++ [EvRespond (crashed_response e)])).
Proof.
  intros (H1 & H2 & H3) H4. destruct (decoded_url_some _ _ H2) as (text & Ht & Hd).
  unfold serve, nsa_audit, try_catch, bind, when, url_toString,
    decodeURIComponent, new_URL, launch.
  simpl. rewrite H1, Ht. simpl. rewrite Hd. simpl. rewrite H3, H4. simpl.
  rewrite <- !app_assoc. reflexivity.
Qed.

Lemma serve_launched E req w decoded port :
  reaches_launch E req decoded ->
  launch_result E = Ok port ->
  serve (nsa_audit E req) w =
  try_catch (guarded E decoded (locale_of req) port) (outer_catch E)
            (launched_world w port).
Proof.
  intros (H1 & H2 & H3) H4. destruct (decoded_url_some _ _ H2) as (text & Ht & Hd).
  unfold serve, nsa_audit, guarded, outer_catch, launched_world, locale_of,
    try_catch, finally, bind, when, url_toString, decodeURIComponent, new_URL,
    launch, lift, console_log, console_error, modify, emit, ret.
  simpl. rewrite H1, Ht. simpl. rewrite Hd. simpl. rewrite H3, H4. simpl.
  rewrite <- !app_assoc. reflexivity.
Qed.

(** *** From the launch to the end *)

Lemma guarded_normal E decoded locale port w1 w2 :
  audit E decoded locale port w1 = (Normal tt, w2) ->
  exists w3,
    try_catch (guarded E decoded locale port) (outer_catch E) w1 = (Normal tt, w3) /\
    fs w3 = fs w2 /\ sent w3 = sent w2 /\
    trace w3 = trace w2 ++ [EvKill port] /\
    console w3 = console w2 ++ [kill_line E port] /\
    chrome w3 = chrome_after E port (chrome w2).
Proof.
  intros H. unfold guarded, try_catch, finally. rewrite H.
  destruct (release_spec E port w2) as (w3 & Hr & H1 & H2 & H3 & H4 & H5 & H6).
  rewrite Hr. exists w3. repeat split; assumption.
Qed.

Lemma guarded_throw E decoded locale port w1 w2 e :
  audit E decoded locale port w1 = (Throw e, w2) ->
  sent w2 = None ->
  exists w3,
    try_catch (guarded E decoded locale port) (outer_catch E) w1 = (Return, w3) /\
    fs w3 = fs w2 /\ sent w3 = Some (failed_response e) /\
    trace w3 = trace w2 ++ [EvRespond (failed_response e); EvKill port] /\
    console w3 = console w2 ++ [(Err, "Lighthouse audit failed:", Some e);
                                kill_line E port] /\
    chrome w3 = chrome_after E port (chrome w2).
Proof.
  intros H Hs. unfold guarded, try_catch, finally. rewrite H.
  unfold audit_failed, bind, console_error, modify, res_status_json, return_.
  simpl. rewrite Hs.
  match goal with
  | |- context [release E port ?w0] =>
      destruct (release_spec E port w0) as (w3 & Hr & H1 & H2 & H3 & H4 & H5 & H6)
  end.
  rewrite Hr. exists w3. simpl in *.
  rewrite <- app_assoc in H4, H5. repeat split; assumption.
Qed.

Lemma skipn_trace {A} (l acts : list A) : skipn (length l) (l ++ acts) = acts.
Proof. induction l; simpl; auto. Qed.

Lemma audit_with_kill E k : audit (with_kill E k) = audit E.
Proof. reflexivity. Qed.

Lemma reaches_with_kill E k req decoded :
  reaches_launch E req decoded -> reaches_launch (with_kill E k) req decoded.
Proof. intros H. exact H. Qed.

(** The run of a request that launched Chrome. *)
Lemma launched_run E req w decoded port :
  reaches_launch E req decoded ->
  launch_result E = Ok port ->
  exists c w' acts r,
    serve (nsa_audit E req) w = (c, w') /\
    (forall e, c <> Throw e) /\
    sent w' = Some r /\
    trace w' = trace w ++ EvLaunch port :: acts ++ [EvRespond r; EvKill port] /\
    forallb internal acts = true /\
    ((exists body, r = mkResponse 200 body /\ get body "success" = VBool true) \/
     (exists e, r = failed_response e /\ existsb is_write acts = false)) /\
    In (kill_line E port) (console w') /\
    chrome w' = chrome_after E port (port :: chrome w) /\
    (forall k, exists w'',
        snd (serve (nsa_audit (with_kill E k) req) w) = w'' /\
        sent w'' = Some r /\ fs w'' = fs w' /\ trace w'' = trace w').
Proof.
  intros Hr Hl.
  rewrite (serve_launched E req w decoded port Hr Hl).
  destruct (audit E decoded (locale_of req) port (launched_world w port))
    as [c2 w2] eqn:Ea.
  destruct (audit_spec E decoded (locale_of req) port (launched_world w port)
              c2 w2 eq_refl Ea) as (Hc & acts & Hi & Hcase).
  destruct c2 as [[]| |e].
  - destruct Hcase as (body & Hb & Hs & Ht).
    destruct (guarded_normal _ _ _ _ _ _ Ea) as (w3 & Hg & G1 & G2 & G3 & G4 & G5).
    exists (Normal tt), w3, acts, (mkResponse 200 body). rewrite Hg.
    split; [reflexivity|]. split; [discriminate|]. split; [congruence|].
    split; [rewrite G3, Ht; simpl; rewrite <- !app_assoc; reflexivity|].
    split; [exact Hi|]. split; [left; eauto|].
    split; [rewrite G4; apply in_or_app; right; left; reflexivity|].
    split; [rewrite G5, Hc; reflexivity|].
    intros k. eexists. split; [reflexivity|].
    rewrite (serve_launched (with_kill E k) req w decoded port Hr Hl).
    assert (Ea' : audit (with_kill E k) decoded (locale_of req) port
                    (launched_world w port) = (Normal tt, w2)) by exact Ea.
    destruct (guarded_normal _ _ _ _ _ _ Ea') as (w4 & Hg' & K1 & K2 & K3 & _).
    rewrite Hg'. simpl. repeat split; congruence.
  - contradiction.
  - destruct Hcase as (Hs & Ht & Hw).
    destruct (guarded_throw _ _ _ _ _ _ _ Ea Hs) as (w3 & Hg & G1 & G2 & G3 & G4 & G5).
    exists Return, w3, acts, (failed_response e). rewrite Hg.
    split; [reflexivity|]. split; [discriminate|]. split; [exact G2|].
    split; [rewrite G3, Ht; simpl; rewrite <- !app_assoc; reflexivity|].
    split; [exact Hi|]. split; [right; eauto|].
    split; [rewrite G4; apply in_or_app; right; right; left; reflexivity|].
    split; [rewrite G5, Hc; reflexivity|].
    intros k. eexists. split; [reflexivity|].
    rewrite (serve_launched (with_kill E k) req w decoded port Hr Hl).
    assert (Ea' : audit (with_kill E k) decoded (locale_of req) port
                    (launched_world w port) = (Throw e, w2)) by exact Ea.
    destruct (guarded_throw _ _ _ _ _ _ _ Ea' Hs) as (w4 & Hg' & K1 & K2 & K3 & _).
    rewrite Hg'. simpl. repeat split; congruence.
Qed.

(** *** Scoring failures *)

Lemma audit_failed_spec E e w :
  sent w = None ->
  audit_failed E e w =
  (Return,
   mkWorld (fs w) (console w ++ [(Err, "Lighthouse audit failed:", Some e)])
           (chrome w) (clock_reads w) (Some (failed_response e))
           (trace w ++ [EvRespond (failed_response e)])).
Proof.
  intros Hs. unfold audit_failed, bind, console_error, modify, res_status_json,
    return_, failed_response. cbn [fs console chrome clock_reads sent trace].
  rewrite Hs. reflexivity.
Qed.

Lemma audit_rejected E decoded locale port w results message :
  lighthouse_result E decoded port locale = Ok results ->
  verdict results = Some message ->
  audit E decoded locale port w =
  (Throw (new_Error E message),
   mkWorld (fs w)
     (console w ++ [(Log, "Starting Lighthouse audit...", None);
                    (Log, "Lighthouse audit completed", None);
                    (Err, message, None)])
     (chrome w) (clock_reads w) (sent w)
     (trace w ++ [EvWait 10000; EvAudit decoded port])).
Proof.
  intros Hl Hv. unfold audit, bind, sleep, lighthouse, emit, modify,
    console_log, lift, ret. simpl. rewrite Hl. simpl.
  rewrite validate_spec, Hv. simpl. rewrite <- !app_assoc. reflexivity.
Qed.

Lemma audit_engine_fault E decoded locale port w e :
  lighthouse_result E decoded port locale = Raise e ->
  audit E decoded locale port w =
  (Throw e,
   mkWorld (fs w)
     (console w ++ [(Log, "Starting Lighthouse audit...", None)])
     (chrome w) (clock_reads w) (sent w)
     (trace w ++ [EvWait 10000; EvAudit decoded port])).
Proof.
  intros Hl. unfold audit, bind, sleep, lighthouse, emit, modify,
    console_log, lift, throw. simpl. rewrite Hl. simpl.
  rewrite <- !app_assoc. reflexivity.
Qed.

Lemma scoring_failure_serve E req w decoded port results message :
  reaches_result E req decoded port results ->
  verdict results = Some message ->
  serve (nsa_audit E req) w =
  finally (audit_failed E (new_Error E message)) (release E port)
          (rejected_world w decoded port message).
Proof.
  intros (Hr & Hl & Hh) Hv. rewrite (serve_launched E req w decoded port Hr Hl).
  unfold guarded, try_catch at 1. unfold finally at 1, try_catch at 1.
  rewrite (audit_rejected _ _ _ _ _ _ _ Hh Hv).
  unfold launched_world, rejected_world, finally.
  cbn [fs console chrome clock_reads sent trace].
  rewrite <- !app_assoc. cbn [app].
  rewrite audit_failed_spec by reflexivity.
  match goal with
  | |- context [release E port ?w0] =>
      destruct (release_spec E port w0) as (w3 & Hrel & _)
  end.
  rewrite Hrel. reflexivity.
Qed.

Lemma scoring_failure_run E req w decoded port results message :
  reaches_result E req decoded port results ->
  verdict results = Some message ->
  exists w',
    serve (nsa_audit E req) w = (Return, w') /\
    fs w' = fs w /\
    sent w' = Some (failed_response (new_Error E message)) /\
    trace w' = trace w ++ [EvLaunch port; EvWait 10000; EvAudit decoded port;
                           EvRespond (failed_response (new_Error E message));
                           EvKill port].
Proof.
  intros Hr Hv. rewrite (scoring_failure_serve _ _ _ _ _ _ _ Hr Hv).
  unfold finally. rewrite audit_failed_spec by reflexivity.
  match goal with
  | |- context [release E port ?w0] =>
      destruct (release_spec E port w0) as (w3 & Hrel & H1 & H2 & _ & H4 & _)
  end.
  rewrite Hrel. exists w3. split; [reflexivity|].
  unfold rejected_world in *. cbn [fs console chrome clock_reads sent trace] in *.
  rewrite <- !app_assoc in H4. repeat split; assumption.
Qed.

(** *** The report route *)

Lemma get_report_missing E w name :
  Fs.resolve (fs w) (Path.join (reportsDir E) name) = None ->
  answer (get_report E name) w =
  Some (mkResponse 404 (VObj [("error", VStr "Report not found")])).
Proof.
  intros H. unfold answer, serve, get_report, try_catch, bind, when, existsSync,
    get_fs, ret, console_log, console_error, modify, res_status_json, return_,
    fresh.
  simpl. rewrite H. reflexivity.
Qed.

Lemma get_report_corrupt E w name text :
  Fs.resolve (fs w) (Path.join (reportsDir E) name) = Some (Fs.File text) ->
  Json.parse text = None ->
  answer (get_report E name) w =
  Some (mkResponse 500 (VObj [("error", VStr "Failed to read report")])).
Proof.
  intros H Hp. unfold answer, serve, get_report, existsSync,
    readFileSync, faulty, JSON_parse, get_fs, console_log,
    console_error, modify, res_json, res_status_json, return_, fresh,
    try_catch, when, ret, throw, bind.
  simpl. rewrite H. simpl.
  destruct (io_fault E Fs.OpRead (Path.join (reportsDir E) name)); simpl;
    rewrite ?H; simpl; rewrite ?Hp; reflexivity.
Qed.

Lemma get_report_found E w name text v :
  Fs.resolve (fs w) (Path.join (reportsDir E) name) = Some (Fs.File text) ->
  io_fault E Fs.OpRead (Path.join (reportsDir E) name) = None ->
  Json.parse text = Some v ->
  answer (get_report E name) w = Some (mkResponse 200 v).
Proof.
  intros H Hf Hp. unfold answer, serve, get_report, existsSync,
    readFileSync, faulty, JSON_parse, get_fs, console_log,
    console_error, modify, res_json, res_status_json, return_, fresh,
    try_catch, when, ret, throw, bind.
  simpl. rewrite H. simpl. rewrite Hf. simpl. rewrite ?H. simpl.
  rewrite Hp. reflexivity.
Qed.

Lemma serve_launched_answer E req w decoded port :
  reaches_launch E req decoded ->
  launch_result E = Ok port ->
  answer (nsa_audit E req) w =
  sent (snd (try_catch (guarded E decoded (locale_of req) port) (outer_catch E)
                       (launched_world w port))).
Proof.
  intros Hr Hl. unfold answer. now rewrite (serve_launched E req w decoded port Hr Hl).
Qed.

Lemma audit_engine_run E decoded locale port w e :
  lighthouse_result E decoded port locale = Raise e ->
  sent w = None ->
  exists w3,
    try_catch (guarded E decoded locale port) (outer_catch E) w = (Return, w3) /\
    sent w3 = Some (failed_response e).
Proof.
  intros Hl Hs.
  destruct (guarded_throw E decoded locale port w _ e
              (audit_engine_fault E decoded locale port w e Hl) Hs)
    as (w3 & Hg & _ & H2 & _).
  exists w3. split; assumption.
Qed.

(** *** Persistence *)

Lemma save_write_fault E timestamp lhr w c w' e :
  write_fails E (report_path E timestamp) lhr e ->
  save E timestamp lhr w = (c, w') ->
  exists e', c = Throw e'.
Proof.
  unfold write_fails, save, report_path, existsSync, mkdirSync,
    writeFileSync, faulty, get_fs, set_fs, emit, modify, console_log,
    console_error, try_catch, when, throw, ret, bind.
  set (path := Path.join (reportsDir E) ("lighthouse-report-" ++ timestamp ++ ".json")%string).
  intros [Hf|(text & written & Htext & Hf)]; simpl.
  - rewrite Hf. intros H. break_in H; injection H as <- <-; eauto.
  - rewrite Htext, Hf. intros H. break_in H; injection H as <- <-; eauto.
Qed.

Lemma audit_unsaved E decoded locale port w results e c w' :
  lighthouse_result E decoded port locale = Ok results ->
  verdict results = None ->
  write_fails E (report_path_at E w) (get results "lhr") e ->
  audit E decoded locale port w = (c, w') ->
  exists e', c = Throw e'.
Proof.
  intros Hl Hv Hf. unfold audit, sleep, lighthouse, emit, modify, console_log,
    lift, now, res_json, res_status_json, throw, ret, bind. simpl.
  rewrite Hl. simpl. rewrite validate_spec, Hv. simpl.
  match goal with
  | |- context [save ?E ?t ?l ?w0] => destruct (save E t l w0) as [c1 w1] eqn:Es
  end.
  apply (save_write_fault _ _ _ _ _ _ e) in Es; [|exact Hf].
  destruct Es as [e' ->]. intros H; injection H as <- <-. eauto.
Qed.

(** A successful audit has written the text of the inner report and answers
    with that report and the name of the file. *)
Lemma audit_saved E decoded locale port w w' :
  sent w = None ->
  audit E decoded locale port w = (Normal tt, w') ->
  exists results stamp text,
    let timestamp := timestamp_of (clock E (clock_reads w)) in
    sent w' =
      Some (mkResponse 200
              (VObj [("success", VBool true);
                     ("url", VStr decoded);
                     ("timestamp", VStr stamp);
                     ("locale", locale);
                     ("lighthouseResult", get results "lhr");
                     ("reportPath",
                      VStr ("/reports/lighthouse-report-" ++ timestamp ++ ".json")%string)])) /\
    Json.stringify (get results "lhr") 2 = Some text /\
    Fs.resolve (fs w') (report_path E timestamp) = Some (Fs.File text).
Proof.
  intros Hs. unfold audit, sleep, lighthouse, emit, modify, console_log,
    lift, now, res_json, res_status_json, throw, ret, bind. simpl.
  destruct (lighthouse_result E decoded port locale) as [results|e]; simpl;
    [|discriminate].
  rewrite validate_spec. destruct (verdict results); simpl; [discriminate|].
  match goal with
  | |- context [save ?E ?t ?l ?w0] => destruct (save E t l w0) as [c1 w1] eqn:Es
  end.
  apply save_spec in Es. simpl in Es.
  destruct Es as (E1 & E2 & E3 & _ & E6).
  destruct c1 as [[]| |e]; simpl; try discriminate.
  rewrite E1, Hs. intros H; injection H as <-.
  destruct E6 as (text & Ht & Hf).
  exists results. eexists. exists text. simpl. split; [reflexivity|]. split; assumption.
Qed.

(** *** Validation *)

Lemma verdict_lacking results :
  truthy results = false \/ get results "lhr" = VUndefined \/
  lacks_required (get results "lhr") ->
  exists message, verdict results = Some message.
Proof.
  unfold verdict. intros [H|[H|(prop & Hin & H)]].
  - rewrite H. eexists; reflexivity.
  - destruct (truthy results); cbn [negb]; [|eexists; reflexivity]. rewrite H.
    eexists; reflexivity.
  - destruct (truthy results); cbn [negb]; [|eexists; reflexivity].
    destruct (truthy (get results "lhr")); cbn [negb]; [|eexists; reflexivity].
    destruct (find (fun q => negb (truthy (get (get results "lhr") q)))
                   requiredProperties) as [p|] eqn:Ef; [eexists; reflexivity|].
    exfalso. pose proof (find_none _ _ Ef prop Hin) as Hn.
    simpl in Hn. rewrite H in Hn. discriminate.
Qed.

Lemma verdict_falsy results prop :
  In prop requiredProperties ->
  truthy (get (get results "lhr") prop) = false ->
  exists message, verdict results = Some message.
Proof.
  unfold verdict. intros Hin H.
  destruct (truthy results); cbn [negb]; [|eexists; reflexivity].
  destruct (truthy (get results "lhr")); cbn [negb]; [|eexists; reflexivity].
  destruct (find (fun q => negb (truthy (get (get results "lhr") q)))
                 requiredProperties) as [p|] eqn:Ef; [eexists; reflexivity|].
  exfalso. pose proof (find_none _ _ Ef prop Hin) as Hn.
  simpl in Hn. rewrite H in Hn. discriminate.
Qed.

Lemma assoc_set_prop {k : string} {v : value} props :
  assoc k (Json.set_prop k v props) = Some v.
Proof.
  induction props as [|[k' x] props IH]; simpl.
  - now rewrite String.eqb_refl.
  - destruct (k' =? k)%string eqn:Ek; simpl.
    + now rewrite String.eqb_refl.
    + now rewrite Ek.
Qed.

Lemma assoc_filter_same k (props : list (string * value)) :
  assoc k (filter (fun p => negb (fst p =? k)%string) props) = None.
Proof.
  induction props as [|[k' x] props IH]; simpl; [reflexivity|].
  destruct (k' =? k)%string eqn:Ek; simpl; [exact IH|]. now rewrite Ek.
Qed.

Lemma assoc_filter_other k q (props : list (string * value)) :
  q <> k ->
  assoc q (filter (fun p => negb (fst p =? k)%string) props) = assoc q props.
Proof.
  intros Hne. induction props as [|[k' x] props IH]; simpl; [reflexivity|].
  destruct (k' =? k)%string eqn:Ek; simpl.
  - apply String.eqb_eq in Ek. subst k'.
    destruct (k =? q)%string eqn:Eq; [|exact IH].
    apply String.eqb_eq in Eq. congruence.
  - now rewrite IH.
Qed.

Lemma truthy_delete k lhr q :
  truthy (get lhr k) = false ->
  truthy (get (delete k lhr) q) = truthy (get lhr q).
Proof.
  intros H. destruct lhr; try reflexivity. simpl.
  destruct (String.eqb_spec q k) as [->|Hne].
  - rewrite assoc_filter_same. simpl in H. now rewrite H.
  - now rewrite assoc_filter_other.
Qed.

Lemma verdict_without results prop :
  truthy (get (get results "lhr") prop) = false ->
  verdict (without prop results) = verdict results.
Proof.
  intros H. destruct results as [| |b|n|s|elems|props]; try reflexivity.
  unfold verdict.
  assert (Hg : get (without prop (VObj props)) "lhr"
               = delete prop (get (VObj props) "lhr")).
  { unfold without. unfold get at 1. now rewrite assoc_set_prop. }
  rewrite Hg.
  set (lhr := get (VObj props) "lhr") in *.
  change (truthy (without prop (VObj props))) with true.
  change (truthy (VObj props)) with true. cbn [negb].
  assert (Ht : truthy (delete prop lhr) = truthy lhr)
    by (destruct lhr; reflexivity).
  rewrite Ht. destruct (truthy lhr); cbn [negb]; [|reflexivity].
  unfold requiredProperties. cbn [find].
  rewrite !(truthy_delete _ _ _ H). reflexivity.
Qed.

End ServerFacts.

(* ------------------------------------------------------------------ *)
(** ** The list of reports *)

Module ListFacts.
Import Js Eff Server Spec StrFacts.
Local Open Scope list_scope.

(** *** The report list *)

Lemma list_reports_answer E w :
  Fs.resolve (fs w) (reportsDir E) = Some Fs.Dir ->
  io_fault E Fs.OpReaddir (reportsDir E) = None ->
  answer (list_reports E) w =
  Some (mkResponse 200
          (VArr (map VStr
             (JsArray.sort newest_first
                (filter (fun file => Str.endsWith file ".json")
                        (Fs.entries (Fs.strip_trailing_slash (reportsDir E)) (fs w))))))).
Proof.
  intros Hd Hf. unfold answer, serve, list_reports, existsSync, readdirSync,
    mkdirSync, faulty, get_fs, console_log, console_error, modify, res_json,
    res_status_json, fresh, try_catch, when, ret, throw, bind.
  simpl. rewrite Hd. simpl. rewrite Hf. simpl. rewrite ?Hd. reflexivity.
Qed.

Lemma split_nonempty sep s : Str.split sep s <> [].
Proof.
  destruct s as [|c s]; simpl; [discriminate|].
  destruct (Ascii.eqb c sep); [discriminate|].
  destruct (Str.split sep s); discriminate.
Qed.

Lemma pop_cons {A} (x : A) l : l <> [] -> Str.pop (x :: l) = Str.pop l.
Proof. destruct l; [congruence | reflexivity]. Qed.

Lemma split_plain sep s :
  Str.contains_char sep s = false -> Str.split sep s = [s].
Proof.
  unfold Str.contains_char. induction s as [|c s IH]; [reflexivity|].
  simpl. intros H. apply orb_false_iff in H as [Hc Hs].
  rewrite Ascii.eqb_sym, Hc, (IH Hs). reflexivity.
Qed.

(** The last segment of a split is what follows the last separator. *)
Lemma pop_split_last sep x last :
  Str.contains_char sep last = false ->
  Str.pop (Str.split sep (x ++ String sep last)%string) = Some last.
Proof.
  intros Hl. induction x as [|c x IH].
  - simpl. rewrite Ascii.eqb_refl, (split_plain _ _ Hl). reflexivity.
  - change (String c x ++ String sep last)%string
      with (String c (x ++ String sep last)%string).
    assert (H2 : exists a b l, Str.split sep (x ++ String sep last)%string = a :: b :: l).
    { clear IH. induction x as [|c' x IHx].
      - simpl. rewrite Ascii.eqb_refl, (split_plain _ _ Hl). eauto.
      - change (String c' x ++ String sep last)%string
          with (String c' (x ++ String sep last)%string).
        destruct IHx as (a & b & l & E). simpl. rewrite E.
        destruct (Ascii.eqb c' sep); eauto. }
    destruct H2 as (a & b & l & E). simpl. rewrite E in *.
    destruct (Ascii.eqb c sep); exact IH.
Qed.

Lemma digit_cases n :
  In (Date.digit n) ["0"; "1"; "2"; "3"; "4"; "5"; "6"; "7"; "8"; "9"]%char.
Proof.
  unfold Date.digit. pose proof (Nat.mod_upper_bound n 10 ltac:(lia)) as H.
  destruct (n mod 10) as [|[|[|[|[|[|[|[|[|[|m]]]]]]]]]]; simpl; auto 12. lia.
Qed.

Lemma replace_colon_dot_app a b :
  Str.replace_colon_dot (a ++ b)%string =
  (Str.replace_colon_dot a ++ Str.replace_colon_dot b)%string.
Proof.
  induction a as [|c a IH]; simpl; [reflexivity | now rewrite IH].
Qed.

Lemma digit_plain n :
  Ascii.eqb (Date.digit n) ":" = false /\ Ascii.eqb (Date.digit n) "." = false /\
  Ascii.eqb "-" (Date.digit n) = false /\ Ascii.eqb "." (Date.digit n) = false.
Proof.
  pose proof (digit_cases n) as H. simpl in H.
  repeat (destruct H as [<-|H]; [repeat split|]). contradiction.
Qed.

(** The three digits of a millisecond field. *)
Lemma pad3_digits n :
  exists a b c, Date.pad3 n = String a (String b (String c "")) /\
    (Ascii.eqb a ":" = false /\ Ascii.eqb a "." = false /\
     Ascii.eqb "-" a = false /\ Ascii.eqb "." a = false) /\
    (Ascii.eqb b ":" = false /\ Ascii.eqb b "." = false /\
     Ascii.eqb "-" b = false /\ Ascii.eqb "." b = false) /\
    (Ascii.eqb c ":" = false /\ Ascii.eqb c "." = false /\
     Ascii.eqb "-" c = false /\ Ascii.eqb "." c = false).
Proof.
  exists (Date.digit (n / 100)), (Date.digit (n / 10)), (Date.digit n).
  split; [reflexivity|]. repeat apply conj; apply digit_plain.
Qed.

(** Of a report name the comparator of the list sees the milliseconds only. *)
Lemma time_of_report_name d :
  time_of (report_name d) = (Date.pad3 (Date.millisecond d) ++ "Z")%string.
Proof.
  unfold time_of.
  destruct (pad3_digits (Date.millisecond d))
    as (a & b & c & Hms & (Ha1 & Ha2 & Ha3 & Ha4) & (Hb1 & Hb2 & Hb3 & Hb4) &
        (Hc1 & Hc2 & Hc3 & Hc4)).
  assert (Hn : exists x, report_name d =
             (x ++ String "-" (String a (String b (String c "Z.json"))))%string).
  { unfold report_name, timestamp_of, Date.toISOString.
    rewrite !replace_colon_dot_app, Hms.
    exists ("lighthouse-report-" ++
            Str.replace_colon_dot (Date.pad4 (Date.year d)) ++ "-" ++
            Str.replace_colon_dot (Date.pad2 (Date.month d)) ++ "-" ++
            Str.replace_colon_dot (Date.pad2 (Date.day d)) ++ "T" ++
            Str.replace_colon_dot (Date.pad2 (Date.hour d)) ++ "-" ++
            Str.replace_colon_dot (Date.pad2 (Date.minute d)) ++ "-" ++
            Str.replace_colon_dot (Date.pad2 (Date.second d)))%string.
    rewrite !append_assoc.
    cbn [Str.replace_colon_dot]. rewrite Ha1, Ha2, Hb1, Hb2, Hc1, Hc2.
    reflexivity. }
  destruct Hn as [x ->]. rewrite Hms.
  assert (Hp : Str.contains_char "-" (String a (String b (String c "Z.json"))) = false).
  { unfold Str.contains_char. cbn [existsb list_ascii_of_string].
    rewrite Ha3, Hb3, Hc3. reflexivity. }
  rewrite (pop_split_last "-" x _ Hp).
  cbn [option_map Str.or_empty Str.replace Str.startsWith].
  rewrite Ha4. cbn [andb]. rewrite Hb4. cbn [andb]. rewrite Hc4. reflexivity.
Qed.

End ListFacts.

(* ------------------------------------------------------------------ *)
(** ** Paths and the file system *)

Module PathFacts.
Import Js Names StrFacts.
Local Open Scope list_scope.

(** *** Splitting and joining at a separator *)

Lemma split_not_nil sep s : Str.split sep s <> [].
Proof.
  destruct s as [|c s]; simpl; [discriminate|].
  destruct (Ascii.eqb c sep); [discriminate|].
  destruct (Str.split sep s); discriminate.
Qed.

Lemma split_app sep a b :
  Str.split sep (a ++ String sep b)%string = Str.split sep a ++ Str.split sep b.
Proof.
  induction a as [|c a IH].
  - simpl. now rewrite Ascii.eqb_refl.
  - change (String c a ++ String sep b)%string
      with (String c (a ++ String sep b)%string).
    cbn [Str.split]. rewrite IH.
    destruct (Ascii.eqb c sep); [reflexivity|].
    destruct (Str.split sep a) as [|seg segs] eqn:Hs; [|reflexivity].
    now apply split_not_nil in Hs.
Qed.

Lemma split_without sep s :
  Str.contains_char sep s = false -> Str.split sep s = [s].
Proof.
  unfold Str.contains_char. induction s as [|c s IH]; [reflexivity|].
  simpl. intros H. apply orb_false_iff in H as [Hc Hs].
  rewrite Ascii.eqb_sym, Hc, (IH Hs). reflexivity.
Qed.

Lemma contains_char_app c a b :
  Str.contains_char c (a ++ b)%string =
  Str.contains_char c a || Str.contains_char c b.
Proof.
  unfold Str.contains_char. induction a as [|x a IH]; [reflexivity|].
  simpl. now rewrite IH, orb_assoc.
Qed.

Lemma split_segments sep s :
  Forall (fun seg => Str.contains_char sep seg = false) (Str.split sep s).
Proof.
  induction s as [|c s IH]; simpl.
  - constructor; [reflexivity | constructor].
  - destruct (Ascii.eqb c sep) eqn:Hc.
    + constructor; [reflexivity | exact IH].
    + destruct (Str.split sep s) as [|seg segs].
      * constructor; [|constructor]. unfold Str.contains_char. simpl.
        now rewrite Ascii.eqb_sym, Hc.
      * inversion IH as [|? ? H1 H2]; subst. constructor; [|exact H2].
        unfold Str.contains_char in *. simpl.
        now rewrite Ascii.eqb_sym, Hc, H1.
Qed.

Lemma concat_cons sep x l :
  l <> [] -> String.concat sep (x :: l) = (x ++ sep ++ String.concat sep l)%string.
Proof. destruct l; [congruence | reflexivity]. Qed.

(** [join] after [split] gives the string back. *)
Lemma concat_split sep s :
  String.concat (String sep "") (Str.split sep s) = s.
Proof.
  induction s as [|c s IH]; [reflexivity|].
  cbn [Str.split]. pose proof (split_not_nil sep s) as Hn.
  destruct (Ascii.eqb c sep) eqn:Hc.
  - apply Ascii.eqb_eq in Hc. subst c.
    rewrite concat_cons, IH by assumption. reflexivity.
  - destruct (Str.split sep s) as [|seg segs] eqn:Hs; [congruence|].
    destruct segs as [|seg' segs].
    + simpl in *. now rewrite IH.
    + rewrite concat_cons by discriminate.
      rewrite concat_cons in IH by discriminate.
      rewrite <- IH. reflexivity.
Qed.

Lemma concat_snoc sep l x :
  l <> [] ->
  String.concat sep (l ++ [x]) = (String.concat sep l ++ sep ++ x)%string.
Proof.
  induction l as [|a l IH]; [congruence|]. intros _.
  destruct l as [|b l].
  - reflexivity.
  - change ((a :: b :: l) ++ [x]) with (a :: (b :: l) ++ [x]).
    change (String.concat sep (a :: (b :: l) ++ [x]))
      with (a ++ sep ++ String.concat sep ((b :: l) ++ [x]))%string.
    rewrite IH by discriminate.
    change (String.concat sep (a :: b :: l))
      with (a ++ sep ++ String.concat sep (b :: l))%string.
    now rewrite !append_assoc.
Qed.

(** [split] after [join], for segments without the separator. *)
Lemma split_concat sep segs :
  segs <> [] ->
  Forall (fun seg => Str.contains_char sep seg = false) segs ->
  Str.split sep (String.concat (String sep "") segs) = segs.
Proof.
  induction segs as [|a l IH]; [congruence|]. intros _ Hall.
  inversion Hall as [|? ? Ha Hl]; subst.
  destruct l as [|b l].
  - simpl. now apply split_without.
  - change (String.concat (String sep "") (a :: b :: l))
      with (a ++ String sep (String.concat (String sep "") (b :: l)))%string.
    rewrite split_app, (split_without _ _ Ha), IH by (discriminate || assumption).
    reflexivity.
Qed.

(** *** [path.normalize] and [path.join] on canonical absolute paths *)

Lemma normalize_segments_app above s1 s2 res :
  Path.normalize_segments above (s1 ++ s2) res =
  Path.normalize_segments above s2 (Path.normalize_segments above s1 res).
Proof.
  revert res. induction s1 as [|seg s1 IH]; intros res; [reflexivity|].
  cbn [app Path.normalize_segments].
  destruct ((seg =? "") || (seg =? "."))%string; [apply IH|].
  destruct (seg =? "..")%string; [|apply IH].
  destruct res as [|top below]; [apply IH|].
  destruct (top =? "..")%string; apply IH.
Qed.

Lemma proper_inv seg :
  proper seg = true ->
  (seg =? "")%string = false /\ (seg =? ".")%string = false /\
  (seg =? "..")%string = false /\ Str.contains_char "/" seg = false.
Proof.
  unfold proper. intros H.
  repeat (apply andb_true_iff in H as [H ?]).
  repeat split; now apply negb_true_iff.
Qed.

Lemma normalize_segments_proper above segs res :
  forallb proper segs = true ->
  Path.normalize_segments above segs res = rev segs ++ res.
Proof.
  revert res. induction segs as [|seg segs IH]; intros res H; [reflexivity|].
  cbn [forallb] in H. apply andb_true_iff in H as [Hs Hl].
  destruct (proper_inv _ Hs) as (H1 & H2 & H3 & _).
  cbn [Path.normalize_segments]. rewrite H1, H2, H3. cbn [orb].
  rewrite (IH _ Hl). cbn [rev]. now rewrite <- app_assoc.
Qed.

(** Below the root nothing but proper segments is ever kept. *)
Lemma normalize_segments_keeps segs res :
  Forall (fun seg => Str.contains_char "/" seg = false) segs ->
  forallb proper res = true ->
  forallb proper (Path.normalize_segments false segs res) = true.
Proof.
  revert res. induction segs as [|seg segs IH]; intros res Hs Hr; [exact Hr|].
  inversion Hs as [|? ? Hseg Hrest]; subst.
  cbn [Path.normalize_segments].
  destruct (seg =? "")%string eqn:H1; [now apply IH|].
  destruct (seg =? ".")%string eqn:H2; [now apply IH|]. cbn [orb].
  destruct (seg =? "..")%string eqn:H3.
  - destruct res as [|top below]; [now apply IH|].
    cbn [forallb] in Hr. apply andb_true_iff in Hr as [Ht Hb].
    destruct (proper_inv _ Ht) as (_ & _ & -> & _). now apply IH.
  - apply IH; [assumption|]. cbn [forallb]. rewrite Hr, andb_true_r.
    unfold proper. now rewrite H1, H2, H3, Hseg.
Qed.

Lemma endsWith_app_slash a b :
  b <> ""%string -> Str.endsWith (a ++ b) "/" = Str.endsWith b "/".
Proof.
  intros Hb. induction a as [|c a IH]; [reflexivity|].
  change (String c a ++ b)%string with (String c (a ++ b)%string).
  cbn [Str.endsWith]. rewrite IH.
  destruct (a ++ b)%string eqn:Hab.
  - destruct a; [simpl in Hab; congruence | discriminate].
  - replace (String c (String a0 s) =? "/")%string with false; [reflexivity|].
    symmetry. apply String.eqb_neq. destruct s; discriminate.
Qed.

Lemma endsWith_without s :
  Str.contains_char "/" s = false -> Str.endsWith s "/" = false.
Proof.
  unfold Str.contains_char. induction s as [|c s IH]; [reflexivity|].
  cbn [list_ascii_of_string existsb Str.endsWith]. intros H.
  apply orb_false_iff in H as [Hc Hs].
  rewrite (IH Hs), orb_false_r. apply String.eqb_neq. intros Heq.
  injection Heq as -> _. discriminate.
Qed.

Lemma concat_proper_nonempty segs :
  segs <> [] -> forallb proper segs = true ->
  String.concat "/" segs <> ""%string.
Proof.
  destruct segs as [|a l]; [congruence|]. intros _ H.
  cbn [forallb] in H. apply andb_true_iff in H as [Ha _].
  destruct (proper_inv _ Ha) as (H1 & _). apply String.eqb_neq in H1.
  destruct a; [congruence|]. destruct l; discriminate.
Qed.

Lemma forallb_proper_without segs :
  forallb proper segs = true ->
  Forall (fun seg => Str.contains_char "/" seg = false) segs.
Proof.
  induction segs as [|a l IH]; [constructor|]. cbn [forallb]. intros H.
  apply andb_true_iff in H as [Ha Hl]. constructor; [|now apply IH].
  now destruct (proper_inv _ Ha) as (_ & _ & _ & ?).
Qed.

Lemma split_absolute segs :
  segs <> [] -> forallb proper segs = true ->
  Str.split "/" (absolute segs) = ""%string :: segs.
Proof.
  intros Hn Hp. unfold absolute.
  change ("/" ++ String.concat "/" segs)%string
    with ("" ++ String "/" (String.concat "/" segs))%string.
  rewrite split_app, split_concat by auto using forallb_proper_without.
  reflexivity.
Qed.

Lemma endsWith_absolute segs :
  segs <> [] -> forallb proper segs = true ->
  Str.endsWith (absolute segs) "/" = false.
Proof.
  intros Hn Hp. destruct (exists_last Hn) as (l & x & ->).
  rewrite forallb_app in Hp. apply andb_true_iff in Hp as [_ Hx].
  cbn [forallb] in Hx. rewrite andb_true_r in Hx.
  destruct (proper_inv _ Hx) as (H1 & _ & _ & H4). apply String.eqb_neq in H1.
  unfold absolute. destruct l as [|a l].
  - change ("/" ++ String.concat "/" ([] ++ [x]))%string with ("/" ++ x)%string.
    rewrite endsWith_app_slash by assumption. now apply endsWith_without.
  - rewrite concat_snoc by discriminate.
    rewrite <- !append_assoc, endsWith_app_slash by assumption.
    now apply endsWith_without.
Qed.

(** A canonical absolute path is a fixed point of [normalize]. *)
Lemma normalize_absolute segs :
  segs <> [] -> forallb proper segs = true ->
  Path.normalize (absolute segs) = absolute segs.
Proof.
  intros Hn Hp. unfold Path.normalize.
  rewrite split_absolute, endsWith_absolute by assumption.
  cbn [Path.normalize_segments String.eqb orb].
  rewrite normalize_segments_proper, app_nil_r, rev_involutive by assumption.
  change (absolute segs =? "")%string with false.
  change (Path.isAbsolute (absolute segs)) with true. cbn [negb].
  destruct (String.concat "/" segs =? "")%string eqn:He; [|reflexivity].
  apply String.eqb_eq in He. now apply concat_proper_nonempty in He.
Qed.

Lemma absolute_snoc segs name :
  segs <> [] ->
  absolute (segs ++ [name]) = (absolute segs ++ "/" ++ name)%string.
Proof.
  intros Hn. unfold absolute. rewrite concat_snoc by assumption.
  now rewrite !append_assoc.
Qed.

(** Joining a proper name to a canonical directory appends it. *)
Lemma join_proper segs name :
  segs <> [] -> forallb proper segs = true -> proper name = true ->
  Path.join (absolute segs) name = (absolute segs ++ "/" ++ name)%string.
Proof.
  intros Hn Hp Hname. unfold Path.join.
  destruct (proper_inv _ Hname) as (-> & _).
  change (absolute segs =? "")%string with false. cbn [negb].
  rewrite <- absolute_snoc by assumption.
  apply normalize_absolute.
  - destruct segs; discriminate.
  - rewrite forallb_app, Hp. cbn [forallb]. now rewrite Hname.
Qed.

(** Whatever the absolute working directory, [reportsDir] is canonical and
    its last segment is [reports]. *)
Lemma join_reports cwd :
  Path.isAbsolute cwd = true ->
  exists segs, forallb proper segs = true /\
    Path.join cwd "reports" = absolute (segs ++ ["reports"%string]).
Proof.
  intros Habs.
  exists (rev (Path.normalize_segments false (Str.split "/" cwd) [])).
  assert (Hk : forallb proper (Path.normalize_segments false (Str.split "/" cwd) []) = true)
    by (apply normalize_segments_keeps; [apply split_segments | reflexivity]).
  split.
  { rewrite forallb_forall in *. intros x Hx. apply Hk. now apply in_rev. }
  destruct cwd as [|c cwd]; [discriminate|].
  unfold Path.join.
  change (String c cwd =? "")%string with false.
  change ("reports" =? "")%string with false. cbn [negb].
  unfold Path.normalize.
  change (String c cwd ++ "/" ++ "reports")%string
    with (String c (cwd ++ String "/" "reports"))%string.
  change (String c (cwd ++ String "/" "reports") =? "")%string with false.
  change (Path.isAbsolute (String c (cwd ++ String "/" "reports")))
    with (Path.isAbsolute (String c cwd)).
  rewrite Habs. cbn [negb].
  change (String c (cwd ++ String "/" "reports"))%string
    with (String c cwd ++ String "/" "reports")%string.
  rewrite split_app, normalize_segments_app.
  change (String c cwd ++ String "/" "reports")%string
    with (String c cwd ++ "/reports")%string.
  rewrite endsWith_app_slash by discriminate.
  change (Str.endsWith "/reports" "/") with false.
  set (stack := Path.normalize_segments false (Str.split "/" (String c cwd)) []) in *.
  change (Str.split "/" "reports") with ["reports"%string].
  change (Path.normalize_segments false ["reports"%string] stack)
    with ("reports"%string :: stack).
  cbn [rev].
  destruct (String.concat "/" (rev stack ++ ["reports"%string]) =? "")%string eqn:He;
    [|reflexivity].
  apply String.eqb_eq in He. apply concat_proper_nonempty in He; [contradiction| |].
  - destruct (rev stack); discriminate.
  - rewrite forallb_app. rewrite forallb_forall in *. apply andb_true_iff.
    split; [|reflexivity]. apply forallb_forall. intros x Hx. apply Hk.
    now apply in_rev.
Qed.

(** For any working directory at all, [reportsDir] ends in [reports]. *)
Lemma join_reports_suffix cwd :
  exists pre, Path.join cwd "reports" = (pre ++ "reports")%string.
Proof.
  unfold Path.join. destruct cwd as [|c cwd]; [now exists ""%string|].
  change (String c cwd =? "")%string with false.
  change ("reports" =? "")%string with false. cbn [negb].
  unfold Path.normalize.
  change (String c cwd ++ "/" ++ "reports")%string
    with (String c (cwd ++ String "/" "reports"))%string.
  change (String c (cwd ++ String "/" "reports") =? "")%string with false.
  change (String c (cwd ++ String "/" "reports"))%string
    with (String c cwd ++ String "/" "reports")%string.
  rewrite split_app, normalize_segments_app.
  change (String c cwd ++ String "/" "reports")%string
    with (String c cwd ++ "/reports")%string.
  rewrite endsWith_app_slash by discriminate.
  change (Str.endsWith "/reports" "/") with false.
  set (above := negb (Path.isAbsolute (String c cwd ++ "/reports"))).
  set (stack := Path.normalize_segments above (Str.split "/" (String c cwd)) []).
  change (Str.split "/" "reports") with ["reports"%string].
  change (Path.normalize_segments above ["reports"%string] stack)
    with ("reports"%string :: stack).
  cbn [rev].
  assert (Hb : exists pre, String.concat "/" (rev stack ++ ["reports"%string]) =
                           (pre ++ "reports")%string).
  { destruct (rev stack) as [|a l] eqn:Hr; [now exists ""%string|].
    rewrite concat_snoc by discriminate.
    exists (String.concat "/" (a :: l) ++ "/")%string. now rewrite !append_assoc. }
  destruct Hb as (pre & ->).
  destruct (pre ++ "reports" =? "")%string eqn:He.
  { apply String.eqb_eq in He. destruct pre; discriminate. }
  destruct (Path.isAbsolute _).
  - exists ("/" ++ pre)%string. now rewrite !append_assoc.
  - now exists pre.
Qed.

(** *** Names with parent segments *)

Lemma concat_app sep a b :
  a <> [] -> b <> [] ->
  String.concat sep (a ++ b) =
  (String.concat sep a ++ sep ++ String.concat sep b)%string.
Proof.
  intros Ha Hb. induction a as [|x a IH]; [congruence|].
  destruct a as [|y a].
  - cbn [app]. now rewrite concat_cons.
  - change ((x :: y :: a) ++ b) with (x :: ((y :: a) ++ b)).
    rewrite concat_cons by discriminate. rewrite IH by discriminate.
    rewrite (concat_cons sep x (y :: a)) by discriminate.
    now rewrite !append_assoc.
Qed.

Lemma normalize_segments_climb k res :
  forallb proper res = true ->
  Path.normalize_segments false (repeat ".."%string k) res = skipn k res.
Proof.
  revert res. induction k as [|k IH]; intros res Hr; [reflexivity|].
  cbn [repeat Path.normalize_segments String.eqb Ascii.eqb Bool.eqb orb].
  destruct res as [|top below]; [rewrite IH by reflexivity; now destruct k|].
  cbn [forallb] in Hr. apply andb_true_iff in Hr as [Ht Hb].
  destruct (proper_inv _ Ht) as (_ & _ & -> & _). cbn [skipn]. now apply IH.
Qed.

Lemma repeat_without k :
  Forall (fun seg => Str.contains_char "/" seg = false) (repeat ".."%string k).
Proof. induction k; constructor; [reflexivity | assumption]. Qed.

(** Joined to a canonical directory, a name that climbs at least as many
    levels as the directory is deep and then descends along proper segments
    names the absolute path of those segments. *)
Lemma join_climb dir target k :
  dir <> [] -> forallb proper dir = true ->
  target <> [] -> forallb proper target = true ->
  length dir <= k ->
  Path.join (absolute dir) (String.concat "/" (repeat ".."%string k ++ target)) =
  absolute target.
Proof.
  intros Hd Hpd Ht Hpt Hk.
  assert (Hk0 : k <> 0%nat) by (destruct dir; [congruence | cbn in Hk; lia]).
  assert (Hrep : repeat ".."%string k <> []) by (destruct k; [congruence | discriminate]).
  assert (Hrest : repeat ".."%string k ++ target <> [])
    by (destruct (repeat ".."%string k); [congruence | discriminate]).
  assert (Hall : dir ++ repeat ".."%string k ++ target <> [])
    by (destruct dir; [congruence | discriminate]).
  assert (Hwo : Forall (fun seg => Str.contains_char "/" seg = false)
                       (dir ++ repeat ".."%string k ++ target)).
  { apply Forall_app. split; [now apply forallb_proper_without|].
    apply Forall_app. split; [apply repeat_without | now apply forallb_proper_without]. }
  assert (Hname : String.concat "/" (repeat ".."%string k ++ target) <> ""%string).
  { destruct k as [|k]; [congruence|]. cbn [repeat app].
    rewrite concat_cons by (destruct (repeat ".."%string k); [assumption | discriminate]).
    discriminate. }
  unfold Path.join.
  change (absolute dir =? "")%string with false.
  apply String.eqb_neq in Hname. rewrite Hname. cbn [negb].
  assert (Hpath : (absolute dir ++ "/" ++
                   String.concat "/" (repeat ".."%string k ++ target))%string =
                  absolute (dir ++ repeat ".."%string k ++ target)).
  { unfold absolute. rewrite (concat_app "/" dir) by assumption.
    now rewrite !append_assoc. }
  rewrite Hpath. unfold Path.normalize.
  change (absolute (dir ++ repeat ".."%string k ++ target) =? "")%string with false.
  change (Path.isAbsolute (absolute (dir ++ repeat ".."%string k ++ target))) with true.
  cbn [negb].
  assert (Hsplit : Str.split "/" (absolute (dir ++ repeat ".."%string k ++ target)) =
                   ""%string :: dir ++ repeat ".."%string k ++ target).
  { unfold absolute.
    change ("/" ++ String.concat "/" (dir ++ repeat ".."%string k ++ target))%string
      with ("" ++ String "/" (String.concat "/" (dir ++ repeat ".."%string k ++ target)))%string.
    rewrite split_app, split_concat by assumption. reflexivity. }
  assert (Hend : Str.endsWith (absolute (dir ++ repeat ".."%string k ++ target)) "/" = false).
  { unfold absolute. rewrite app_assoc.
    rewrite (concat_app "/" (dir ++ repeat ".."%string k) target)
      by (assumption || (destruct dir; [congruence | discriminate])).
    rewrite <- !append_assoc.
    rewrite endsWith_app_slash by (now apply concat_proper_nonempty).
    pose proof (endsWith_absolute target Ht Hpt) as He. unfold absolute in He.
    rewrite endsWith_app_slash in He by (now apply concat_proper_nonempty).
    exact He. }
  rewrite Hsplit, Hend.
  cbn [Path.normalize_segments String.eqb orb].
  rewrite !normalize_segments_app.
  rewrite (normalize_segments_proper false dir []) by assumption.
  rewrite app_nil_r, normalize_segments_climb
    by (rewrite forallb_forall in *; intros x Hx; apply Hpd; now apply in_rev).
  rewrite skipn_all2 by (rewrite length_rev; exact Hk).
  rewrite normalize_segments_proper, app_nil_r, rev_involutive by assumption.
  destruct (String.concat "/" target =? "")%string eqn:He; [|reflexivity].
  apply String.eqb_eq in He. now apply concat_proper_nonempty in He.
Qed.

Lemma climbing_segments dir target :
  dir <> [] -> forallb proper dir = true ->
  forallb proper target = true ->
  Str.split "/" (climbing (absolute dir) target) =
  repeat ".."%string (S (length dir)) ++ target.
Proof.
  intros Hd Hpd Hpt. unfold climbing.
  rewrite split_absolute by assumption. cbn [length].
  apply split_concat; [discriminate|].
  apply Forall_app. split; [apply repeat_without | now apply forallb_proper_without].
Qed.

(** *** The parent of a path, and trailing slashes *)

Lemma dirname_absolute segs name :
  segs <> [] -> forallb proper segs = true -> proper name = true ->
  Fs.dirname (absolute segs ++ "/" ++ name) = absolute segs.
Proof.
  intros Hn Hp Hname. rewrite <- absolute_snoc by assumption.
  unfold Fs.dirname. rewrite split_absolute.
  - change (""%string :: segs ++ [name]) with ((""%string :: segs) ++ [name]).
    rewrite rev_app_distr. cbn [rev app].
    destruct (exists_last Hn) as (l & x & ->).
    rewrite rev_app_distr. cbn [rev app].
    change ((x :: rev l) ++ [""%string]) with (x :: (rev l ++ [""%string])).
    destruct (rev l ++ [""%string]) as [|y r] eqn:Hr.
    { destruct (rev l); discriminate. }
    rewrite <- Hr.
    change (x :: rev l ++ [""%string]) with ([x] ++ rev l ++ [""%string]).
    rewrite !rev_app_distr, rev_involutive. cbn [rev app].
    unfold absolute. rewrite concat_cons; [reflexivity|].
    destruct l; discriminate.
  - destruct segs; discriminate.
  - rewrite forallb_app, Hp. cbn [forallb]. now rewrite Hname.
Qed.

Lemma has_trailing_slash_absolute segs :
  segs <> [] -> forallb proper segs = true ->
  Fs.has_trailing_slash (absolute segs) = false.
Proof.
  intros Hn Hp. unfold Fs.has_trailing_slash.
  rewrite endsWith_absolute by assumption. apply andb_false_r.
Qed.

Lemma strip_trailing_slash_id s :
  Str.endsWith s "/" = false -> Fs.strip_trailing_slash s = s.
Proof.
  induction s as [|c s IH]; [reflexivity|].
  cbn [Str.endsWith Fs.strip_trailing_slash]. intros H.
  apply orb_false_iff in H as [H1 H2].
  destruct (s =? "/")%string eqn:Hs.
  - apply String.eqb_eq in Hs. subst s. discriminate.
  - now rewrite IH.
Qed.

Lemma resolve_absolute fs segs :
  segs <> [] -> forallb proper segs = true ->
  Fs.resolve fs (absolute segs) = assoc (absolute segs) fs.
Proof.
  intros Hn Hp. unfold Fs.resolve.
  rewrite has_trailing_slash_absolute by assumption.
  destruct (absolute segs =? "/")%string eqn:He; [|reflexivity].
  apply String.eqb_eq in He. unfold absolute in He.
  injection He as He. now apply concat_proper_nonempty in He.
Qed.

Lemma absolute_inj a b :
  a <> [] -> b <> [] -> forallb proper a = true -> forallb proper b = true ->
  absolute a = absolute b -> a = b.
Proof.
  intros Ha Hb Hpa Hpb He. apply (f_equal (Str.split "/")) in He.
  rewrite !split_absolute in He by assumption. now injection He.
Qed.

(** *** [mkdir -p] *)

Lemma prefixes_proper acc segs d :
  forallb proper segs = true -> In d (Fs.prefixes acc segs) ->
  exists l1 l2, segs = l1 ++ l2 /\ l1 <> [] /\
    d = (acc ++ "/" ++ String.concat "/" l1)%string.
Proof.
  revert acc. induction segs as [|seg rest IH]; intros acc Hp Hin; [contradiction|].
  cbn [forallb] in Hp. apply andb_true_iff in Hp as [Hs Hr].
  destruct (proper_inv _ Hs) as (H1 & _).
  cbn [Fs.prefixes] in Hin. rewrite H1 in Hin. destruct Hin as [<-|Hin].
  - exists [seg], rest. repeat split; discriminate || reflexivity.
  - destruct (IH _ Hr Hin) as (l1 & l2 & -> & Hn & ->).
    exists (seg :: l1), l2. repeat split; [discriminate|].
    rewrite concat_cons by assumption. now rewrite !append_assoc.
Qed.

Lemma prefixes_last acc segs :
  segs <> [] -> forallb proper segs = true ->
  In (acc ++ "/" ++ String.concat "/" segs)%string (Fs.prefixes acc segs).
Proof.
  revert acc. induction segs as [|seg rest IH]; intros acc Hn Hp; [congruence|].
  cbn [forallb] in Hp. apply andb_true_iff in Hp as [Hs Hr].
  destruct (proper_inv _ Hs) as (H1 & _).
  cbn [Fs.prefixes]. rewrite H1. destruct rest as [|seg' rest].
  - left. reflexivity.
  - right. rewrite concat_cons by discriminate.
    specialize (IH (acc ++ "/" ++ seg)%string ltac:(discriminate) Hr).
    now rewrite !append_assoc in *.
Qed.

Lemma chain_absolute segs d :
  segs <> [] -> forallb proper segs = true ->
  In d (chain (absolute segs)) ->
  exists l1 l2, segs = l1 ++ l2 /\ l1 <> [] /\ d = absolute l1.
Proof.
  intros Hn Hp Hin. unfold chain in Hin. rewrite split_absolute in Hin by assumption.
  cbn [Fs.prefixes String.eqb] in Hin. now apply prefixes_proper in Hin.
Qed.

Lemma chain_self segs :
  segs <> [] -> forallb proper segs = true ->
  In (absolute segs) (chain (absolute segs)).
Proof.
  intros Hn Hp. unfold chain. rewrite split_absolute by assumption.
  cbn [Fs.prefixes String.eqb]. now apply (prefixes_last "").
Qed.

Lemma assoc_app {A} k (l1 l2 : list (string * A)) :
  assoc k (l1 ++ l2) = match assoc k l1 with
                       | Some x => Some x
                       | None => assoc k l2
                       end.
Proof.
  induction l1 as [|[k' x] l1 IH]; [reflexivity|].
  cbn [app assoc]. destruct (k' =? k)%string; [reflexivity | exact IH].
Qed.

(** [mkdir -p] only appends directories, all of them from its chain, and
    leaves every directory of the chain in place. *)
Lemma make_dirs_appends dirs fs fs' :
  Fs.make_dirs dirs fs = Some fs' ->
  exists added, fs' = fs ++ map (fun d => (d, Fs.Dir)) added /\
    incl added dirs /\
    forall d, In d dirs -> assoc d fs' = Some Fs.Dir.
Proof.
  revert fs. induction dirs as [|d dirs IH]; intros fs H.
  - injection H as <-. exists []. rewrite app_nil_r.
    repeat split; [apply incl_refl | contradiction].
  - cbn [Fs.make_dirs] in H. destruct (assoc d fs) as [[c|]|] eqn:Hd; [discriminate| |].
    + destruct (IH _ H) as (added & -> & Hi & Hall).
      exists added. split; [reflexivity|]. split; [now apply incl_tl|].
      intros x [<-|Hx]; [|now apply Hall].
      now rewrite assoc_app, Hd.
    + destruct (IH _ H) as (added & -> & Hi & Hall).
      exists (d :: added). split; [now rewrite <- app_assoc|].
      split; [now apply incl_cons; [left | apply incl_tl]|].
      intros x [<-|Hx]; [|now apply Hall].
      rewrite !assoc_app, Hd. cbn [app assoc]. now rewrite String.eqb_refl.
Qed.

Lemma make_dirs_unobstructed dirs fs :
  forallb (fun d => match assoc d fs with
                    | Some (Fs.File _) => false
                    | _ => true
                    end) dirs = true ->
  exists fs', Fs.make_dirs dirs fs = Some fs'.
Proof.
  revert fs. induction dirs as [|d dirs IH]; intros fs H; [now exists fs|].
  cbn [forallb] in H. apply andb_true_iff in H as [Hd Hr].
  cbn [Fs.make_dirs]. destruct (assoc d fs) as [[c|]|] eqn:Ha; [discriminate| |].
  - now apply IH.
  - apply IH. rewrite forallb_forall in *. intros x Hx. specialize (Hr x Hx).
    rewrite assoc_app. destruct (assoc x fs) as [[c|]|]; [discriminate|reflexivity|].
    cbn [assoc]. destruct (d =? x)%string; reflexivity.
Qed.

(** *** Directory entries *)

Lemma strip_prefix_some pre s r :
  Fs.strip_prefix pre s = Some r -> s = (pre ++ r)%string.
Proof.
  revert s. induction pre as [|a pre IH]; intros s H.
  - simpl in H. now injection H as ->.
  - destruct s as [|b s]; [discriminate|]. cbn [Fs.strip_prefix] in H.
    destruct (Ascii.eqb a b) eqn:Hab; [|discriminate].
    apply Ascii.eqb_eq in Hab. subst b. cbn [append]. f_equal. now apply IH.
Qed.

Lemma strip_prefix_app pre r : Fs.strip_prefix pre (pre ++ r) = Some r.
Proof.
  induction pre as [|a pre IH]; [reflexivity|].
  cbn [append Fs.strip_prefix]. now rewrite Ascii.eqb_refl.
Qed.

Lemma entry_name_some dir path name :
  (dir =? "/")%string = false ->
  Fs.entry_name dir path = Some name ->
  path = (dir ++ "/" ++ name)%string /\ name <> ""%string /\
  Str.contains_char "/" name = false.
Proof.
  intros Hd. unfold Fs.entry_name. rewrite Hd.
  destruct (Fs.strip_prefix (dir ++ "/") path) as [r|] eqn:Hs; [|discriminate].
  destruct (r =? "")%string eqn:Hr; [discriminate|]. cbn [orb].
  destruct (Str.contains_char "/" r) eqn:Hc; [discriminate|].
  intros H. injection H as <-. apply strip_prefix_some in Hs.
  rewrite append_assoc in Hs. repeat split; [assumption| |assumption].
  now apply String.eqb_neq.
Qed.

Lemma entry_name_child dir name :
  (dir =? "/")%string = false -> name <> ""%string ->
  Str.contains_char "/" name = false ->
  Fs.entry_name dir (dir ++ "/" ++ name) = Some name.
Proof.
  intros Hd Hn Hc. unfold Fs.entry_name. rewrite Hd.
  rewrite <- append_assoc, strip_prefix_app, Hc.
  apply String.eqb_neq in Hn. now rewrite Hn.
Qed.

Lemma entries_app dir a b :
  Fs.entries dir (a ++ b) = Fs.entries dir a ++ Fs.entries dir b.
Proof.
  induction a as [|[p n] a IH]; [reflexivity|].
  cbn [app Fs.entries]. destruct (Fs.entry_name dir p); [|exact IH].
  now rewrite IH.
Qed.


Lemma entries_in dir fs name node :
  (dir =? "/")%string = false -> name <> ""%string ->
  Str.contains_char "/" name = false ->
  assoc (dir ++ "/" ++ name)%string fs = Some node ->
  In name (Fs.entries dir fs).
Proof.
  intros Hd Hn Hc. induction fs as [|[p n] fs IH]; [discriminate|].
  cbn [Fs.entries assoc]. destruct (p =? dir ++ "/" ++ name)%string eqn:Hp.
  - apply String.eqb_eq in Hp. subst p. intros _.
    rewrite entry_name_child by assumption. now left.
  - intros H. specialize (IH H). destruct (Fs.entry_name dir p); [now right | exact IH].
Qed.

(** *** A directory made by [mkdir -p] starts empty *)

Lemma chain_not_below segs d name :
  segs <> [] -> forallb proper segs = true ->
  In d (chain (absolute segs)) ->
  Str.contains_char "/" name = false ->
  d <> (absolute segs ++ "/" ++ name)%string.
Proof.
  intros Hn Hp Hin Hc He.
  destruct (chain_absolute _ _ Hn Hp Hin) as (l1 & l2 & Hsegs & Hl1 & ->).
  assert (Hp1 : forallb proper l1 = true).
  { rewrite Hsegs, forallb_app in Hp. now apply andb_true_iff in Hp as [? _]. }
  apply (f_equal (Str.split "/")) in He.
  change (absolute segs ++ "/" ++ name)%string
    with (absolute segs ++ String "/" name)%string in He.
  rewrite split_app, !split_absolute, (split_without _ _ Hc) in He by assumption.
  injection He as He. apply (f_equal (@length _)) in He.
  rewrite Hsegs, !length_app in He. cbn in He. lia.
Qed.

Lemma assoc_dirs_none path (added : list string) :
  ~ In path added -> assoc path (map (fun d => (d, Fs.Dir)) added) = None.
Proof.
  induction added as [|d l IH]; [reflexivity|]. intros Hn.
  cbn [map assoc]. destruct (d =? path)%string eqn:Hd.
  - apply String.eqb_eq in Hd. subst. exfalso. apply Hn. now left.
  - apply IH. intros H. apply Hn. now right.
Qed.

Lemma entries_dirs_none dir (added : list string) :
  (forall d, In d added -> Fs.entry_name dir d = None) ->
  Fs.entries dir (map (fun d => (d, Fs.Dir)) added) = [].
Proof.
  induction added as [|d l IH]; [reflexivity|]. intros H.
  cbn [map Fs.entries]. rewrite (H d (or_introl eq_refl)).
  apply IH. intros x Hx. apply H. now right.
Qed.

Lemma make_dirs_fresh segs fs fs' :
  segs <> [] -> forallb proper segs = true ->
  Fs.make_dirs (chain (absolute segs)) fs = Some fs' ->
  assoc (absolute segs) fs' = Some Fs.Dir /\
  Fs.entries (absolute segs) fs' = Fs.entries (absolute segs) fs /\
  (forall name, Str.contains_char "/" name = false ->
     assoc (absolute segs ++ "/" ++ name)%string fs' =
     assoc (absolute segs ++ "/" ++ name)%string fs) /\
  exists added, fs' = fs ++ map (fun d => (d, Fs.Dir)) added /\
                incl added (chain (absolute segs)).
Proof.
  intros Hn Hp Hmk.
  destruct (make_dirs_appends _ _ _ Hmk) as (added & -> & Hi & Hall).
  assert (Hroot : (absolute segs =? "/")%string = false).
  { apply String.eqb_neq. unfold absolute. intros H. injection H as H.
    now apply concat_proper_nonempty in H. }
  split; [apply Hall; now apply chain_self|].
  split.
  { rewrite entries_app, entries_dirs_none; [apply app_nil_r|].
    intros d Hd. destruct (Fs.entry_name (absolute segs) d) as [name|] eqn:He;
      [|reflexivity].
    destruct (entry_name_some _ _ _ Hroot He) as (Hpath & _ & Hc).
    exfalso. now apply (chain_not_below segs d name Hn Hp (Hi d Hd) Hc). }
  split; [|eauto].
  intros name Hc. rewrite assoc_app.
  destruct (assoc _ fs); [reflexivity|].
  apply assoc_dirs_none. intros Hin.
  now apply (chain_not_below segs _ name Hn Hp (Hi _ Hin) Hc).
Qed.

End PathFacts.

(* ------------------------------------------------------------------ *)
(** ** The claims *)

Module Claims.
Import Js Eff Server Spec Scenario Names JsonText JsonFacts ServerFacts ListFacts PathFacts.
Local Open Scope list_scope.

#[local] Arguments Path.join : simpl never.
#[local] Arguments Date.toISOString : simpl never.
#[local] Arguments Str.replace_colon_dot : simpl never.
#[local] Arguments Json.stringify : simpl never.
#[local] Arguments Json.parse : simpl never.
#[local] Arguments Uri.decodeURIComponent : simpl never.
#[local] Arguments Fs.resolve : simpl never.
#[local] Arguments Fs.make_dirs : simpl never.
#[local] Arguments Fs.set_file : simpl never.
#[local] Arguments Fs.dirname : simpl never.
#[local] Arguments Fs.has_trailing_slash : simpl never.
#[local] Arguments String.append : simpl never.
#[local] Arguments toString : simpl never.
#[local] Arguments truthy : simpl never.
#[local] Arguments audit : simpl never.
#[local] Arguments audit_failed : simpl never.
#[local] Arguments release : simpl never.
#[local] Arguments save : simpl never.
#[local] Arguments validate : simpl never.
#[local] Arguments outer_catch : simpl never.

Lemma actions_of handler w w' c acts :
  serve handler w = (c, w') -> trace w' = trace w ++ acts ->
  actions handler w = acts.
Proof.
  intros Hs Ht. unfold actions. rewrite Hs. simpl. rewrite Ht.
  apply skipn_trace.
Qed.

Lemma answer_of handler w w' c :
  serve handler w = (c, w') -> answer handler w = sent w'.
Proof. intros Hs. unfold answer. now rewrite Hs. Qed.

Lemma count_kills_app a b : count_kills (a ++ b) = (count_kills a + count_kills b)%nat.
Proof.
  induction a as [|e a IH]; [reflexivity|]. destruct e; simpl; rewrite IH; reflexivity.
Qed.

Lemma count_kills_internal acts : forallb internal acts = true -> count_kills acts = 0%nat.
Proof.
  induction acts as [|e acts IH]; [reflexivity|]. simpl. intros H.
  apply andb_true_iff in H as [He H]. destruct e; try discriminate; auto.
Qed.

(** C1, as amended.  For every /nsa-audit request that reaches the browser
    launch, on every exit path: the actions of the request are the launch,
    then audit and store actions, then the response, then one kill of that
    session; the kill is the last action and follows the response.  The
    handler does not end by a throw, the outcome of the kill is on the
    console, and the response and the store are the same whatever the kill
    does. *)
Theorem C1_killed_once_after_the_response E req w decoded port :
  reaches_launch E req decoded ->
  launch_result E = Ok port ->
  exists acts r,
    actions (nsa_audit E req) w = EvLaunch port :: acts ++ [EvRespond r; EvKill port] /\
    forallb internal acts = true /\
    count_kills (actions (nsa_audit E req) w) = 1%nat /\
    answer (nsa_audit E req) w = Some r /\
    (forall e, fst (serve (nsa_audit E req) w) <> Throw e) /\
    (forall e, kill_result E port = Some e ->
               In (Err, "Error killing Chrome:", Some e)
                  (console (snd (serve (nsa_audit E req) w)))) /\
    (forall k, answer (nsa_audit (with_kill E k) req) w = Some r /\
               fs (snd (serve (nsa_audit (with_kill E k) req) w)) =
               fs (snd (serve (nsa_audit E req) w))).
Proof.
  intros Hr Hl.
  destruct (launched_run E req w decoded port Hr Hl)
    as (c & w' & acts & r & Hs & Hc & Hsent & Ht & Hi & _ & Hk & _ & Hind).
  exists acts, r.
  assert (Ha : actions (nsa_audit E req) w =
               EvLaunch port :: acts ++ [EvRespond r; EvKill port])
    by exact (actions_of _ _ _ _ _ Hs Ht).
  split; [exact Ha|]. split; [exact Hi|].
  split.
  { rewrite Ha. simpl. rewrite count_kills_app, (count_kills_internal _ Hi).
    reflexivity. }
  split; [rewrite (answer_of _ _ _ _ Hs); exact Hsent|].
  rewrite Hs. simpl. split; [exact Hc|].
  split; [intros e He; unfold kill_line in Hk; rewrite He in Hk; exact Hk|].
  intros k. destruct (Hind k) as (w'' & Hw & H1 & H2 & _).
  unfold answer. rewrite Hw. split; assumption.
Qed.

Lemma scenario_reaches_launch :
  reaches_launch platform audit_request "https://example.com".
Proof. repeat split. Qed.

Lemma C1_killed_once_after_the_response_witness :
  reaches_launch platform audit_request "https://example.com" /\
  launch_result platform = Ok 9222%N /\
  exists acts r,
    actions (nsa_audit platform audit_request) world0 =
      EvLaunch 9222 :: acts ++ [EvRespond r; EvKill 9222] /\
    forallb internal acts = true /\
    count_kills (actions (nsa_audit platform audit_request) world0) = 1%nat /\
    answer (nsa_audit platform audit_request) world0 = Some r /\
    (forall e, fst (serve (nsa_audit platform audit_request) world0) <> Throw e) /\
    (forall e, kill_result platform 9222 = Some e ->
               In (Err, "Error killing Chrome:", Some e)
                  (console (snd (serve (nsa_audit platform audit_request) world0)))) /\
    (forall k, answer (nsa_audit (with_kill platform k) audit_request) world0 = Some r /\
               fs (snd (serve (nsa_audit (with_kill platform k) audit_request) world0)) =
               fs (snd (serve (nsa_audit platform audit_request) world0))).
Proof.
  split; [exact scenario_reaches_launch|]. split; [reflexivity|].
  apply (C1_killed_once_after_the_response platform audit_request world0
           "https://example.com" 9222%N scenario_reaches_launch eq_refl).
Defined.

(** C1 as stated fails: in a successful audit the response is sent before
    Chrome is killed. *)
Lemma C1_kill_is_not_before_the_response : ~ killed_once_before_response.
Proof.
  intros H.
  destruct (H platform audit_request world0 "https://example.com" 9222%N
              scenario_reaches_launch eq_refl) as [_ K].
  vm_compute in K. discriminate.
Qed.












(** C4, at the failing input.  A url whose percent-escapes do not decode,
    such as [%E0], is answered 500 by the outer catch, whatever the platform;
    no browser is launched. *)
Theorem C4_undecodable_url_is_answered_500 E w locale :
  Uri.decodeURIComponent "%E0" = None /\
  answer (nsa_audit E (mkRequest (VStr "%E0") locale)) w =
    Some (mkResponse 500
            (VObj [("success", VBool false);
                   ("error", VStr "URI malformed");
                   ("details", VStr (stack_of E "URI malformed"))])) /\
  actions (nsa_audit E (mkRequest (VStr "%E0") locale)) w =
    [EvRespond (crashed_response (new_Error E "URI malformed"))].
Proof.
  assert (Hs := undecodable_url E (mkRequest (VStr "%E0") locale) w "%E0"
                  eq_refl eq_refl eq_refl).
  split; [reflexivity|]. split.
  - unfold answer. rewrite Hs. reflexivity.
  - exact (actions_of _ _ _ _ _ Hs eq_refl).
Qed.

(** Bad input never launches a browser: a missing url, one that cannot be
    read as text or does not decode, and one that decodes to something that
    is not a URL. *)
Lemma bad_input_never_launches E req w :
  truthy (query_url req) = false \/
  decoded_url (query_url req) = None \/
  (exists decoded,
      decoded_url (query_url req) = Some decoded /\
      URL_ok E decoded = false) ->
  launches (actions (nsa_audit E req) w) = false /\
  chrome (snd (serve (nsa_audit E req) w)) = chrome w /\
  fs (snd (serve (nsa_audit E req) w)) = fs w.
Proof.
  destruct (truthy (query_url req)) eqn:Ht.
  - intros [H|[H|(decoded & H1 & H2)]]; [discriminate| |].
    + unfold decoded_url in H.
      destruct (toString (query_url req)) as [text|] eqn:Hx.
      * assert (Hs := undecodable_url E req w text Ht Hx H).
        rewrite (actions_of _ _ _ _ _ Hs eq_refl), Hs. auto.
      * assert (Hs := unconvertible_url E req w Ht Hx).
        rewrite (actions_of _ _ _ _ _ Hs eq_refl), Hs. auto.
    + assert (Hs := invalid_url E req w decoded Ht H1 H2).
      rewrite (actions_of _ _ _ _ _ Hs eq_refl), Hs. auto.
  - intros _. assert (Hs := missing_url E req w Ht).
    rewrite (actions_of _ _ _ _ _ Hs eq_refl), Hs. auto.
Qed.

(** C5.  When lighthouse returns a result that is null or undefined, or
    that has no inner report, or whose inner report lacks one of finalUrl,
    fetchTime, categories and audits, the request is answered 500 with
    [success: false] and the message of the validation error; the store is
    unchanged and no file is written. *)
Theorem C5_incomplete_result_is_a_scoring_error E req w decoded port results :
  reaches_result E req decoded port results ->
  truthy results = false \/ get results "lhr" = VUndefined \/
  lacks_required (get results "lhr") ->
  exists r message,
    answer (nsa_audit E req) w = Some r /\
    status r = 500%nat /\
    get (body r) "success" = VBool false /\
    get (body r) "error" = VStr message /\
    verdict results = Some message /\
    fs (snd (serve (nsa_audit E req) w)) = fs w /\
    existsb is_write (actions (nsa_audit E req) w) = false.
Proof.
  intros Hr Hbad. destruct (verdict_lacking results Hbad) as [message Hv].
  destruct (scoring_failure_run E req w decoded port results message Hr Hv)
    as (w' & Hs & Hfs & Hsent & Ht).
  exists (failed_response (new_Error E message)), message.
  rewrite (answer_of _ _ _ _ Hs), (actions_of _ _ _ _ _ Hs Ht), Hs.
  repeat split; auto.
Qed.

Lemma scenario_reaches_result results :
  reaches_result (returning platform results) audit_request "https://example.com"
                 9222%N results.
Proof. repeat split. Qed.

Lemma C5_incomplete_result_is_a_scoring_error_witness :
  reaches_result (returning platform no_categories) audit_request
                 "https://example.com" 9222%N no_categories /\
  lacks_required (get no_categories "lhr") /\
  exists r message,
    answer (nsa_audit (returning platform no_categories) audit_request) world0 = Some r /\
    status r = 500%nat /\
    get (body r) "success" = VBool false /\
    get (body r) "error" = VStr message /\
    verdict no_categories = Some message /\
    fs (snd (serve (nsa_audit (returning platform no_categories) audit_request) world0))
      = fs world0 /\
    existsb is_write (actions (nsa_audit (returning platform no_categories) audit_request) world0)
      = false.
Proof.
  assert (Hl : lacks_required (get no_categories "lhr")).
  { exists "categories". split; [simpl; auto|reflexivity]. }
  split; [apply scenario_reaches_result|]. split; [exact Hl|].
  apply (C5_incomplete_result_is_a_scoring_error
           (returning platform no_categories) audit_request world0
           "https://example.com" 9222%N no_categories
           (scenario_reaches_result no_categories)).
  right. right. exact Hl.
Defined.

(** C8.  When the result of lighthouse validates but the write of the report
    file fails, whether the platform refuses to open the file or the writing
    stops short, the request fails end to end: the answer is 500 with
    [success: false], no write completes, and the Chrome session is killed,
    once, as the last action. *)
Theorem C8_failed_write_fails_the_request E req w decoded port results e :
  reaches_result E req decoded port results ->
  verdict results = None ->
  write_fails E (report_path_at E w) (get results "lhr") e ->
  exists r acts,
    answer (nsa_audit E req) w = Some r /\
    status r = 500%nat /\
    get (body r) "success" = VBool false /\
    actions (nsa_audit E req) w =
      EvLaunch port :: acts ++ [EvRespond r; EvKill port] /\
    forallb internal acts = true /\
    existsb is_write acts = false /\
    chrome (snd (serve (nsa_audit E req) w)) =
      chrome_after E port (port :: chrome w).
Proof.
  intros (Hr & Hl & Hh) Hv Hf.
  destruct (launched_run E req w decoded port Hr Hl)
    as (c & w' & acts & r & Hs & _ & Hsent & Ht & Hi & Hshape & _ & Hk & _).
  exists r, acts.
  rewrite (answer_of _ _ _ _ Hs), (actions_of _ _ _ _ _ Hs Ht), Hs.
  assert (Hfail : exists e', r = failed_response e' /\ existsb is_write acts = false).
  { destruct Hshape as [(body & -> & _)|Hx]; [|exact Hx]. exfalso.
    rewrite (serve_launched E req w decoded port Hr Hl) in Hs.
    destruct (audit E decoded (locale_of req) port (launched_world w port))
      as [c2 w2] eqn:Ea.
    destruct (audit_unsaved E decoded (locale_of req) port (launched_world w port)
                results e c2 w2 Hh Hv Hf Ea) as [e' ->].
    destruct (audit_spec E decoded (locale_of req) port (launched_world w port)
                _ w2 eq_refl Ea) as (_ & acts' & _ & Hs2 & _).
    destruct (guarded_throw _ _ _ _ _ _ _ Ea Hs2) as (w3 & Hg & _ & G2 & _).
    rewrite Hg in Hs. injection Hs as _ <-. rewrite G2 in Hsent.
    discriminate. }
  destruct Hfail as (e' & -> & Hw). auto 10.
Qed.

Lemma C8_failed_write_fails_the_request_witness :
  reaches_result disk_full audit_request "https://example.com" 9222%N (VObj [("lhr", lhr)]) /\
  verdict (VObj [("lhr", lhr)]) = None /\
  write_fails disk_full (report_path_at disk_full world0)
              (get (VObj [("lhr", lhr)]) "lhr") no_space /\
  exists r acts,
    answer (nsa_audit disk_full audit_request) world0 = Some r /\
    status r = 500%nat /\
    get (body r) "success" = VBool false /\
    actions (nsa_audit disk_full audit_request) world0 =
      EvLaunch 9222 :: acts ++ [EvRespond r; EvKill 9222] /\
    forallb internal acts = true /\
    existsb is_write acts = false /\
    chrome (snd (serve (nsa_audit disk_full audit_request) world0)) =
      chrome_after disk_full 9222 (9222%N :: chrome world0).
Proof.
  assert (Hr : reaches_result disk_full audit_request "https://example.com" 9222%N
                 (VObj [("lhr", lhr)])) by (repeat split).
  assert (Hw : write_fails disk_full (report_path_at disk_full world0)
                           (get (VObj [("lhr", lhr)]) "lhr") no_space).
  { right. do 2 eexists. split; reflexivity. }
  split; [exact Hr|]. split; [reflexivity|]. split; [exact Hw|].
  apply (C8_failed_write_fails_the_request disk_full audit_request world0
           "https://example.com" 9222%N (VObj [("lhr", lhr)]) no_space
           Hr eq_refl Hw).
Defined.

(** C9.  A required field of the inner report that is present but falsy is
    treated exactly as an absent one: with [fetchTime] the empty string or
    [categories] null, say, the run of the request is the run it would be
    with that field deleted; it is answered 500 with [success: false] and
    the validation message, and the store is unchanged. *)
Theorem C9_falsy_field_counts_as_missing E req w decoded port results prop :
  reaches_launch E req decoded ->
  launch_result E = Ok port ->
  In prop requiredProperties ->
  truthy (get (get results "lhr") prop) = false ->
  serve (nsa_audit (returning E results) req) w =
    serve (nsa_audit (returning E (without prop results)) req) w /\
  exists r message,
    answer (nsa_audit (returning E results) req) w = Some r /\
    status r = 500%nat /\
    get (body r) "success" = VBool false /\
    get (body r) "error" = VStr message /\
    verdict results = Some message /\
    fs (snd (serve (nsa_audit (returning E results) req) w)) = fs w /\
    existsb is_write (actions (nsa_audit (returning E results) req) w) = false.
Proof.
  intros Hr Hl Hin Hf.
  destruct (verdict_falsy results prop Hin Hf) as [message Hv].
  assert (Hv' : verdict (without prop results) = Some message)
    by (rewrite verdict_without; assumption).
  assert (R1 : reaches_result (returning E results) req decoded port results)
    by (split; [exact Hr|split; [exact Hl|reflexivity]]).
  assert (R2 : reaches_result (returning E (without prop results)) req decoded port
                 (without prop results))
    by (split; [exact Hr|split; [exact Hl|reflexivity]]).
  split.
  - rewrite (scoring_failure_serve _ _ _ _ _ _ _ R1 Hv).
    rewrite (scoring_failure_serve _ _ _ _ _ _ _ R2 Hv'). reflexivity.
  - destruct (scoring_failure_run _ req w decoded port results message R1 Hv)
      as (w' & Hs & Hfs & Hsent & Ht).
    exists (failed_response (new_Error E message)), message.
    rewrite (answer_of _ _ _ _ Hs), (actions_of _ _ _ _ _ Hs Ht), Hs.
    repeat split; auto.
Qed.

Lemma C9_falsy_field_counts_as_missing_witness :
  (reaches_launch platform audit_request "https://example.com" /\
   launch_result platform = Ok 9222%N /\
   In "fetchTime" requiredProperties /\
   truthy (get (get empty_fetchTime "lhr") "fetchTime") = false /\
   In "categories" requiredProperties /\
   truthy (get (get null_categories "lhr") "categories") = false) /\
  (serve (nsa_audit (returning platform empty_fetchTime) audit_request) world0 =
     serve (nsa_audit (returning platform (without "fetchTime" empty_fetchTime)) audit_request) world0 /\
   exists r message,
     answer (nsa_audit (returning platform empty_fetchTime) audit_request) world0 = Some r /\
     status r = 500%nat /\
     get (body r) "success" = VBool false /\
     get (body r) "error" = VStr message /\
     verdict empty_fetchTime = Some message /\
     fs (snd (serve (nsa_audit (returning platform empty_fetchTime) audit_request) world0)) = fs world0 /\
     existsb is_write (actions (nsa_audit (returning platform empty_fetchTime) audit_request) world0) = false) /\
  (serve (nsa_audit (returning platform null_categories) audit_request) world0 =
     serve (nsa_audit (returning platform (without "categories" null_categories)) audit_request) world0 /\
   exists r message,
     answer (nsa_audit (returning platform null_categories) audit_request) world0 = Some r /\
     status r = 500%nat /\
     get (body r) "success" = VBool false /\
     get (body r) "error" = VStr message /\
     verdict null_categories = Some message /\
     fs (snd (serve (nsa_audit (returning platform null_categories) audit_request) world0)) = fs world0 /\
     existsb is_write (actions (nsa_audit (returning platform null_categories) audit_request) world0) = false).
Proof.
  assert (I1 : In "fetchTime" requiredProperties) by (simpl; auto).
  assert (I2 : In "categories" requiredProperties) by (simpl; auto).
  split; [repeat split; auto|]. split.
  - apply (C9_falsy_field_counts_as_missing platform audit_request world0
             "https://example.com" 9222%N empty_fetchTime "fetchTime"
             scenario_reaches_launch eq_refl I1 eq_refl).
  - apply (C9_falsy_field_counts_as_missing platform audit_request world0
             "https://example.com" 9222%N null_categories "categories"
             scenario_reaches_launch eq_refl I2 eq_refl).
Defined.

(** A success answer comes from an audit that has written its report. *)
Lemma successful_audit E req w r :
  answer (nsa_audit E req) w = Some r ->
  get (body r) "success" = VBool true ->
  exists decoded stamp lhr text,
    body r =
      VObj [("success", VBool true);
            ("url", VStr decoded);
            ("timestamp", VStr stamp);
            ("locale", locale_of req);
            ("lighthouseResult", lhr);
            ("reportPath",
             VStr ("/reports/lighthouse-report-" ++
                   timestamp_of (clock E (clock_reads w)) ++ ".json")%string)] /\
    Json.stringify lhr 2 = Some text /\
    Fs.resolve (fs (snd (serve (nsa_audit E req) w)))
               (report_path E (timestamp_of (clock E (clock_reads w))))
      = Some (Fs.File text).
Proof.
  intros Ha Hb.
  destruct (truthy (query_url req)) eqn:Ht.
  2:{ unfold answer in Ha. rewrite (missing_url E req w Ht) in Ha.
      injection Ha as <-. discriminate Hb. }
  destruct (decoded_url (query_url req)) as [decoded|] eqn:Hd.
  2:{ unfold answer in Ha. unfold decoded_url in Hd.
      destruct (toString (query_url req)) as [raw|] eqn:Hx.
      - rewrite (undecodable_url E req w raw Ht Hx Hd) in Ha.
        injection Ha as <-. discriminate Hb.
      - rewrite (unconvertible_url E req w Ht Hx) in Ha.
        injection Ha as <-. discriminate Hb. }
  destruct (URL_ok E decoded) eqn:Hu.
  2:{ unfold answer in Ha. rewrite (invalid_url E req w decoded Ht Hd Hu) in Ha.
      injection Ha as <-. discriminate Hb. }
  assert (Hr : reaches_launch E req decoded) by (repeat split; assumption).
  destruct (launch_result E) as [port|e] eqn:Hl.
  2:{ unfold answer in Ha. rewrite (launch_failed E req w decoded e Hr Hl) in Ha.
      injection Ha as <-. discriminate Hb. }
  unfold answer in Ha. rewrite (serve_launched E req w decoded port Hr Hl) in *.
  destruct (audit E decoded (locale_of req) port (launched_world w port))
    as [c2 w2] eqn:Ea.
  destruct (audit_spec E decoded (locale_of req) port (launched_world w port)
              c2 w2 eq_refl Ea) as (_ & acts & _ & Hcase).
  destruct c2 as [[]| |e].
  - destruct (audit_saved E decoded (locale_of req) port (launched_world w port)
                w2 eq_refl Ea) as (results & stamp & text & Hs & Hx & Hf).
    destruct (guarded_normal _ _ _ _ _ _ Ea) as (w3 & Hg & G1 & G2 & _).
    rewrite Hg in *. simpl in Ha |- *. rewrite G2, Hs in Ha. injection Ha as <-.
    exists decoded, stamp, (get results "lhr"), text.
    split; [reflexivity|]. split; [exact Hx|]. rewrite G1. exact Hf.
  - contradiction.
  - destruct Hcase as (Hs & _).
    destruct (guarded_throw _ _ _ _ _ _ _ Ea Hs) as (w3 & Hg & _ & G2 & _).
    rewrite Hg in Ha. simpl in Ha. rewrite G2 in Ha. injection Ha as <-.
    discriminate Hb.
Qed.

(** C6.  After an audit that answered success, getting the report under the
    name that the answer gives returns what was saved: the file holds the
    text of the whole inner report, and the answer to the get is 200 with
    the value that text denotes.  That value serializes to the same bytes as
    the report, and is the report itself when the report is JSON data. *)
Theorem C6_saved_report_is_returned_unchanged E E2 req w r name :
  answer (nsa_audit E req) w = Some r ->
  get (body r) "success" = VBool true ->
  get (body r) "reportPath" = VStr ("/reports/" ++ name)%string ->
  Json.well_formed (get (body r) "lighthouseResult") = true ->
  cwd E2 = cwd E ->
  io_fault E2 Fs.OpRead (Path.join (reportsDir E2) name) = None ->
  (exists text,
      Json.stringify (get (body r) "lighthouseResult") 2 = Some text /\
      Fs.resolve (fs (snd (serve (nsa_audit E req) w)))
                 (Path.join (reportsDir E2) name) = Some (Fs.File text)) /\
  answer (get_report E2 name) (snd (serve (nsa_audit E req) w)) =
    Some (mkResponse 200 (Json.jsonify (get (body r) "lighthouseResult"))) /\
  Json.stringify (Json.jsonify (get (body r) "lighthouseResult")) 0 =
    Json.stringify (get (body r) "lighthouseResult") 0 /\
  (Json.json_data (get (body r) "lighthouseResult") = true ->
   answer (get_report E2 name) (snd (serve (nsa_audit E req) w)) =
     Some (mkResponse 200 (get (body r) "lighthouseResult"))).
Proof.
  intros Ha Hb Hp Hw Hc Hf.
  destruct (successful_audit E req w r Ha Hb)
    as (decoded & stamp & lhr & text & Hbody & Ht & Hfile).
  rewrite Hbody in Hp, Hw |- *.
  change (get (VObj _) "lighthouseResult") with lhr in Hw |- *.
  assert (Hname : name = ("lighthouse-report-" ++
                          timestamp_of (clock E (clock_reads w)) ++ ".json")%string).
  { simpl in Hp. injection Hp as Hp. symmetry. exact Hp. }
  assert (Hpath : Path.join (reportsDir E2) name =
                  report_path E (timestamp_of (clock E (clock_reads w)))).
  { unfold report_path, reportsDir. now rewrite Hc, Hname. }
  rewrite Hpath in *.
  assert (Hget : answer (get_report E2 name) (snd (serve (nsa_audit E req) w)) =
                 Some (mkResponse 200 (Json.jsonify lhr))).
  { apply (get_report_found E2 _ name text); rewrite ?Hpath; auto.
    exact (parse_stringify lhr 2 text Hw Ht). }
  split; [eauto|]. split; [exact Hget|]. split.
  - unfold Json.stringify. apply serialize_jsonify.
  - intros Hd. rewrite Hget. now rewrite (jsonify_data lhr Hd).
Qed.

Lemma C6_saved_report_is_returned_unchanged_witness :
  let r := mkResponse 200
             (VObj [("success", VBool true);
                    ("url", VStr "https://example.com");
                    ("timestamp", VStr "2024-01-15T10:00:00.500Z");
                    ("locale", VStr "en");
                    ("lighthouseResult", lhr);
                    ("reportPath", VStr ("/reports/" ++ report_name t1)%string)]) in
  (answer (nsa_audit platform audit_request) world0 = Some r /\
   get (body r) "success" = VBool true /\
   get (body r) "reportPath" = VStr ("/reports/" ++ report_name t1)%string /\
   Json.well_formed (get (body r) "lighthouseResult") = true /\
   cwd platform = cwd platform /\
   io_fault platform Fs.OpRead (Path.join (reportsDir platform) (report_name t1)) = None) /\
  ((exists text,
       Json.stringify (get (body r) "lighthouseResult") 2 = Some text /\
       Fs.resolve (fs (snd (serve (nsa_audit platform audit_request) world0)))
                  (Path.join (reportsDir platform) (report_name t1)) = Some (Fs.File text)) /\
   answer (get_report platform (report_name t1))
          (snd (serve (nsa_audit platform audit_request) world0)) =
     Some (mkResponse 200 (Json.jsonify (get (body r) "lighthouseResult"))) /\
   Json.stringify (Json.jsonify (get (body r) "lighthouseResult")) 0 =
     Json.stringify (get (body r) "lighthouseResult") 0 /\
   (Json.json_data (get (body r) "lighthouseResult") = true ->
    answer (get_report platform (report_name t1))
           (snd (serve (nsa_audit platform audit_request) world0)) =
      Some (mkResponse 200 (get (body r) "lighthouseResult")))).
Proof.
  intros r.
  assert (Ha : answer (nsa_audit platform audit_request) world0 = Some r)
    by (vm_compute; reflexivity).
  split; [repeat split; exact Ha|].
  apply (C6_saved_report_is_returned_unchanged platform platform audit_request world0 r
           (report_name t1) Ha eq_refl eq_refl eq_refl eq_refl eq_refl).
Defined.

(** C7.  Getting a report fails in two distinct ways: 404 with the body
    [{error: Report not found}] when the name resolves to nothing, and 500
    when it resolves to a file whose content is not JSON. *)
Theorem C7_get_tells_missing_from_corrupt E w name code message :
  unavailable (fs w) (Path.join (reportsDir E) name) code message ->
  answer (get_report E name) w =
    Some (mkResponse code (VObj [("error", VStr message)])).
Proof.
  intros [H|text H Hp].
  - exact (get_report_missing E w name H).
  - exact (get_report_corrupt E w name text H Hp).
Qed.

Lemma C7_get_tells_missing_from_corrupt_witness :
  (unavailable (fs broken_world) (Path.join (reportsDir platform) "nothing.json")
               404 "Report not found" /\
   answer (get_report platform "nothing.json") broken_world =
     Some (mkResponse 404 (VObj [("error", VStr "Report not found")]))) /\
  (unavailable (fs broken_world) (Path.join (reportsDir platform) "broken.json")
               500 "Failed to read report" /\
   answer (get_report platform "broken.json") broken_world =
     Some (mkResponse 500 (VObj [("error", VStr "Failed to read report")]))).
Proof.
  assert (H1 : unavailable (fs broken_world)
                 (Path.join (reportsDir platform) "nothing.json")
                 404 "Report not found")
    by (apply report_missing; reflexivity).
  assert (H2 : unavailable (fs broken_world)
                 (Path.join (reportsDir platform) "broken.json")
                 500 "Failed to read report")
    by (apply (report_corrupt _ _ "{ not json"); reflexivity).
  split; (split; [assumption|]).
  - exact (C7_get_tells_missing_from_corrupt platform broken_world "nothing.json"
             404 "Report not found" H1).
  - exact (C7_get_tells_missing_from_corrupt platform broken_world "broken.json"
             500 "Failed to read report" H2).
Defined.

(** C10.  The name is joined to the store directory and whatever file the
    joined path names is read, with no check that the path stays inside the
    directory.  So every regular file of the store that holds JSON, wherever
    it lies, can be fetched: with an absolute working directory, for the
    canonical absolute path of the file there is a name of parent-directory
    segments followed by that path whose join is the path, and the answer to
    it is 200 with the content of the file, not 404. *)
Theorem C10_get_reads_outside_the_store E w target text v :
  Path.isAbsolute (cwd E) = true ->
  target <> [] ->
  forallb proper target = true ->
  Fs.resolve (fs w) (absolute target) = Some (Fs.File text) ->
  io_fault E Fs.OpRead (absolute target) = None ->
  Json.parse text = Some v ->
  let name := climbing (reportsDir E) target in
  In ".." (Str.split "/" name) /\
  Path.join (reportsDir E) name = absolute target /\
  answer (get_report E name) w = Some (mkResponse 200 v) /\
  answer (get_report E name) w <>
    Some (mkResponse 404 (VObj [("error", VStr "Report not found")])).
Proof.
  intros Habs Ht Hp Hfile Hread Hparse. cbv zeta.
  destruct (join_reports (cwd E) Habs) as (segs & Hsegs & Hdir).
  fold (reportsDir E) in Hdir.
  assert (Hne : segs ++ ["reports"%string] <> []) by (destruct segs; discriminate).
  assert (Hpd : forallb proper (segs ++ ["reports"%string]) = true)
    by (rewrite forallb_app, Hsegs; reflexivity).
  assert (Hjoin : Path.join (reportsDir E) (climbing (reportsDir E) target) =
                  absolute target).
  { rewrite Hdir. unfold climbing. rewrite split_absolute by assumption.
    apply join_climb; try assumption. cbn [length]. lia. }
  assert (Ha : answer (get_report E (climbing (reportsDir E) target)) w =
               Some (mkResponse 200 v)).
  { apply (get_report_found E w _ text); rewrite ?Hjoin; assumption. }
  split.
  { rewrite Hdir, climbing_segments by assumption. cbn [repeat app]. now left. }
  split; [exact Hjoin|]. split; [exact Ha|].
  rewrite Ha. discriminate.
Qed.

Lemma C10_get_reads_outside_the_store_witness :
  (Path.isAbsolute (cwd platform) = true /\
   ["srv"; "app"; "package.json"] <> @nil string /\
   forallb proper ["srv"; "app"; "package.json"] = true /\
   Fs.resolve (fs world0) (absolute ["srv"; "app"; "package.json"]) =
     Some (Fs.File package_text) /\
   io_fault platform Fs.OpRead (absolute ["srv"; "app"; "package.json"]) = None /\
   Json.parse package_text = Some package) /\
  climbing (reportsDir platform) ["srv"; "app"; "package.json"] =
    "../../../../srv/app/package.json" /\
  Str.startsWith (absolute ["srv"; "app"; "package.json"]) (reportsDir platform) = false /\
  In ".." (Str.split "/" "../../../../srv/app/package.json") /\
  Path.join (reportsDir platform) "../../../../srv/app/package.json" =
    absolute ["srv"; "app"; "package.json"] /\
  answer (get_report platform "../../../../srv/app/package.json") world0 =
    Some (mkResponse 200 package) /\
  answer (get_report platform "../../../../srv/app/package.json") world0 <>
    Some (mkResponse 404 (VObj [("error", VStr "Report not found")])).
Proof.
  assert (Hp : Json.parse package_text = Some package) by (vm_compute; reflexivity).
  assert (Hn : ["srv"; "app"; "package.json"] <> @nil string) by discriminate.
  split; [repeat split; try reflexivity; assumption|].
  split; [reflexivity|]. split; [reflexivity|].
  exact (C10_get_reads_outside_the_store platform world0
           ["srv"; "app"; "package.json"] package_text package
           eq_refl Hn eq_refl eq_refl eq_refl Hp).
Defined.

(** C2, at the failing input.  With three reports saved at t1 before t2
    before t3 whose millisecond fields are 500, 100 and 300, the list is
    [t1, t3, t2]: the comparator looks only at the text after the last
    hyphen of the name, which for every report name is the millisecond
    field followed by Z.  (An empty store lists as the empty array.) *)
Theorem C2_list_orders_by_milliseconds_only :
  (forall d, time_of (report_name d) =
             (Date.pad3 (Date.millisecond d) ++ "Z")%string) /\
  Date.before t1 t2 = true /\ Date.before t2 t3 = true /\
  Fs.entries (reportsDir platform) (fs (after 3)) = map report_name [t1; t2; t3] /\
  answer (list_reports platform) (after 3) =
    Some (mkResponse 200 (VArr [VStr (report_name t1);
                                VStr (report_name t3);
                                VStr (report_name t2)])) /\
  answer (list_reports platform) (after 3) <>
    Some (mkResponse 200 (VArr [VStr (report_name t3);
                                VStr (report_name t2);
                                VStr (report_name t1)])) /\
  answer (list_reports platform) world0 = Some (mkResponse 200 (VArr [])).
Proof.
  split; [exact time_of_report_name|].
  split; [reflexivity|]. split; [reflexivity|].
  split; [vm_compute; reflexivity|].
  assert (Ha : answer (list_reports platform) (after 3) =
               Some (mkResponse 200 (VArr [VStr (report_name t1);
                                           VStr (report_name t3);
                                           VStr (report_name t2)])))
    by (vm_compute; reflexivity).
  split; [exact Ha|]. split; [|vm_compute; reflexivity].
  rewrite Ha. vm_compute. discriminate.
Qed.

End Claims.

(* ------------------------------------------------------------------ *)
(** * The code around the claims *)

From Stdlib Require Import Sorting.Sorted Sorting.Permutation DecimalNat.

(* ------------------------------------------------------------------ *)
(** ** Sorting *)

Module SortFacts.
Import Js Server.
Local Open Scope list_scope.

(** *** [Array.prototype.sort] *)

Section Comparator.
Context {A : Type} (cmp : A -> A -> Z).

Lemma insert_permutation x l : Permutation (JsArray.insert cmp x l) (x :: l).
Proof.
  induction l as [|y l IH]; [apply Permutation_refl|].
  cbn [JsArray.insert]. destruct (cmp y x <=? 0)%Z; [|apply Permutation_refl].
  eapply Permutation_trans; [apply perm_skip, IH | apply perm_swap].
Qed.

Lemma fold_insert_permutation l acc :
  Permutation (fold_left (fun acc x => JsArray.insert cmp x acc) l acc) (acc ++ l).
Proof.
  revert acc. induction l as [|x l IH]; intros acc.
  - rewrite app_nil_r. apply Permutation_refl.
  - cbn [fold_left]. eapply Permutation_trans; [apply IH|].
    eapply Permutation_trans;
      [apply Permutation_app_tail, insert_permutation|].
    cbn [app]. apply Permutation_middle.
Qed.

(** Sorting keeps every element, each as often as it occurs. *)
Lemma sort_permutation l : Permutation (JsArray.sort cmp l) l.
Proof. apply (fold_insert_permutation l []). Qed.

Hypothesis cmp_total : forall a b, (cmp a b <= 0)%Z \/ (cmp b a <= 0)%Z.
Hypothesis cmp_trans :
  forall a b c, (cmp a b <= 0)%Z -> (cmp b c <= 0)%Z -> (cmp a c <= 0)%Z.

Lemma insert_sorted x l :
  StronglySorted (fun a b => (cmp a b <= 0)%Z) l ->
  StronglySorted (fun a b => (cmp a b <= 0)%Z) (JsArray.insert cmp x l).
Proof.
  induction 1 as [|y l Hs IH Hy]; [repeat constructor|].
  cbn [JsArray.insert]. destruct (cmp y x <=? 0)%Z eqn:Hc.
  - apply Z.leb_le in Hc. constructor; [exact IH|].
    rewrite Forall_forall in *. intros z Hz.
    apply (Permutation_in _ (insert_permutation x l)) in Hz.
    destruct Hz as [<-|Hz]; [assumption | now apply Hy].
  - apply Z.leb_gt in Hc.
    assert (Hxy : (cmp x y <= 0)%Z) by (destruct (cmp_total x y); [assumption | lia]).
    constructor; [now constructor|]. constructor; [assumption|].
    rewrite Forall_forall in *. intros z Hz. eauto.
Qed.

Lemma fold_insert_sorted l acc :
  StronglySorted (fun a b => (cmp a b <= 0)%Z) acc ->
  StronglySorted (fun a b => (cmp a b <= 0)%Z)
    (fold_left (fun acc x => JsArray.insert cmp x acc) l acc).
Proof.
  revert acc. induction l as [|x l IH]; intros acc H; [exact H|].
  cbn [fold_left]. now apply IH, insert_sorted.
Qed.

(** With a comparator that is total and transitive, no element of the
    result is followed by one that the comparator puts before it. *)
Lemma sort_sorted l :
  StronglySorted (fun a b => (cmp a b <= 0)%Z) (JsArray.sort cmp l).
Proof. apply fold_insert_sorted. constructor. Qed.

(** Stability: elements that the comparator does not tell apart keep the
    order they came in. *)
Variable same : A -> bool.
Hypothesis same_tied :
  forall a b, same a = true -> same b = true -> (cmp a b <= 0)%Z /\ (cmp b a <= 0)%Z.

Lemma insert_stable x l :
  StronglySorted (fun a b => (cmp a b <= 0)%Z) l ->
  filter same (JsArray.insert cmp x l) = filter same l ++ filter same [x].
Proof.
  induction 1 as [|y l Hs IH Hy]; [cbn; now rewrite app_nil_r || reflexivity|].
  cbn [JsArray.insert]. destruct (cmp y x <=? 0)%Z eqn:Hc.
  - cbn [filter] in *. rewrite IH. destruct (same y); reflexivity.
  - apply Z.leb_gt in Hc. cbn [filter]. destruct (same x) eqn:Hx.
    + assert (Hnone : forall z, In z (y :: l) -> same z = false).
      { intros z Hz. destruct (same z) eqn:Hsz; [|reflexivity].
        destruct (same_tied _ _ Hsz Hx) as [Hzx _].
        destruct Hz as [<-|Hz]; [lia|].
        rewrite Forall_forall in Hy. specialize (Hy z Hz).
        pose proof (cmp_trans _ _ _ Hy Hzx). lia. }
      assert (Hf : filter same (y :: l) = []).
      { clear - Hnone. induction (y :: l) as [|z r IHr]; [reflexivity|].
        cbn [filter]. rewrite (Hnone z (or_introl eq_refl)).
        apply IHr. intros ? ?. apply Hnone. now right. }
      cbn [filter] in Hf. rewrite Hf. reflexivity.
    + now rewrite app_nil_r.
Qed.

Lemma fold_insert_stable l acc :
  StronglySorted (fun a b => (cmp a b <= 0)%Z) acc ->
  filter same (fold_left (fun acc x => JsArray.insert cmp x acc) l acc) =
  filter same acc ++ filter same l.
Proof.
  revert acc. induction l as [|x l IH]; intros acc H.
  - cbn. now rewrite app_nil_r.
  - cbn [fold_left]. rewrite IH by now apply insert_sorted.
    rewrite insert_stable by assumption. rewrite <- app_assoc.
    cbn [filter]. destruct (same x); reflexivity.
Qed.

Lemma sort_stable l : filter same (JsArray.sort cmp l) = filter same l.
Proof. apply (fold_insert_stable l []). constructor. Qed.

End Comparator.

(** *** The order of code units *)

Lemma ascii_compare_trans x y z :
  Ascii.compare x y = Lt -> Ascii.compare y z = Lt -> Ascii.compare x z = Lt.
Proof.
  unfold Ascii.compare. rewrite !N.compare_lt_iff. lia.
Qed.

Lemma compare_le_trans a b c :
  (a ?= b)%string <> Gt -> (b ?= c)%string <> Gt -> (a ?= c)%string <> Gt.
Proof.
  revert b c. induction a as [|x a IH]; intros [|y b] [|z c]; cbn [String.compare];
    try congruence.
  destruct (Ascii.compare x y) eqn:Hxy; [|
    destruct (Ascii.compare y z) eqn:Hyz; [| |congruence] |congruence].
  - apply Ascii.compare_eq_iff in Hxy. subst y.
    destruct (Ascii.compare x z); [apply IH | congruence | congruence].
  - apply Ascii.compare_eq_iff in Hyz. subst z. rewrite Hxy. congruence.
  - rewrite (ascii_compare_trans _ _ _ Hxy Hyz). congruence.
Qed.

Lemma compare_refl a : (a ?= a)%string = Eq.
Proof.
  induction a as [|x a IH]; [reflexivity|]. cbn [String.compare].
  replace (Ascii.compare x x) with Eq; [exact IH|].
  symmetry. unfold Ascii.compare. apply N.compare_refl.
Qed.

Lemma localeCompare_le a b :
  (Str.localeCompare a b <= 0)%Z <-> (a ?= b)%string <> Gt.
Proof.
  unfold Str.localeCompare. destruct (a ?= b)%string; split; intros; try lia; congruence.
Qed.

(** The comparator of the report list is total and transitive. *)
Lemma newest_first_total a b :
  (newest_first a b <= 0)%Z \/ (newest_first b a <= 0)%Z.
Proof.
  unfold newest_first. rewrite !localeCompare_le.
  rewrite (String.compare_antisym (time_of a) (time_of b)).
  destruct (time_of b ?= time_of a)%string; cbn; auto; (left + right); congruence.
Qed.

Lemma newest_first_trans a b c :
  (newest_first a b <= 0)%Z -> (newest_first b c <= 0)%Z ->
  (newest_first a c <= 0)%Z.
Proof.
  unfold newest_first. rewrite !localeCompare_le. intros H1 H2.
  eapply compare_le_trans; eassumption.
Qed.

Lemma newest_first_tied k a b :
  (time_of a =? k)%string = true -> (time_of b =? k)%string = true ->
  (newest_first a b <= 0)%Z /\ (newest_first b a <= 0)%Z.
Proof.
  intros Ha Hb. apply String.eqb_eq in Ha, Hb. unfold newest_first.
  rewrite Ha, Hb, !localeCompare_le, compare_refl. split; congruence.
Qed.

Lemma sorted_weaken {A} (R R' : A -> A -> Prop) l :
  (forall a b, R a b -> R' a b) -> StronglySorted R l -> StronglySorted R' l.
Proof.
  intros Himp. induction 1 as [|x l Hs IH Hx]; constructor; [assumption|].
  rewrite Forall_forall in *. auto.
Qed.

(** The list is in descending order of what the comparator reads. *)
Lemma newest_first_sorted l :
  StronglySorted (fun a b => (time_of b ?= time_of a)%string <> Gt)
                 (JsArray.sort newest_first l).
Proof.
  eapply sorted_weaken;
    [|apply (sort_sorted newest_first newest_first_total newest_first_trans)].
  intros a b Hab. unfold newest_first in Hab. now apply localeCompare_le.
Qed.

End SortFacts.

(* ------------------------------------------------------------------ *)
(** ** The report routes *)

Module ReportFacts.
Import Js Eff Server Spec Names Scenario StrFacts PathFacts SortFacts ServerFacts ListFacts.
Local Open Scope list_scope.

Lemma reportsDir_plain E :
  Str.endsWith (reportsDir E) "/" = false /\ (reportsDir E =? "/")%string = false.
Proof.
  unfold reportsDir. destruct (join_reports_suffix (cwd E)) as (pre & ->).
  split.
  - now rewrite endsWith_app_slash by discriminate.
  - apply String.eqb_neq. intros H. apply (f_equal String.length) in H.
    rewrite length_append in H. cbn in H. lia.
Qed.

Lemma reportsDir_resolve E fs :
  Fs.resolve fs (reportsDir E) = assoc (reportsDir E) fs.
Proof.
  destruct (reportsDir_plain E) as [H1 H2]. unfold Fs.resolve, Fs.has_trailing_slash.
  now rewrite H1, H2, andb_false_r.
Qed.

(** The names that [GET /reports] is about: the entries of the reports
    directory that end in [.json]. *)
Lemma list_reports_run E w :
  Fs.resolve (fs w) (reportsDir E) = Some Fs.Dir ->
  io_fault E Fs.OpReaddir (reportsDir E) = None ->
  let r := mkResponse 200
             (VArr (map VStr
                (JsArray.sort newest_first
                   (filter (fun file => Str.endsWith file ".json")
                           (Fs.entries (reportsDir E) (fs w)))))) in
  serve (list_reports E) w =
  (Normal tt,
   mkWorld (fs w) (console w ++ [(Log, "Found reports:", None)]) (chrome w)
           (clock_reads w) (Some r) (trace w ++ [EvRespond r])).
Proof.
  intros Hd Hf. destruct (reportsDir_plain E) as [Hs _].
  unfold serve, list_reports, existsSync, readdirSync,
    mkdirSync, faulty, get_fs, console_log, console_error, modify, res_json,
    res_status_json, fresh, try_catch, when, ret, throw, bind.
  simpl. rewrite Hd. simpl. rewrite Hf. simpl. rewrite ?Hd.
  rewrite (strip_trailing_slash_id _ Hs). reflexivity.
Qed.

Ltac finish_list H :=
  do 2 eexists; split; [reflexivity|];
  cbn [fs console chrome clock_reads sent trace];
  split; [reflexivity|]; split; [reflexivity|]; split; [reflexivity|];
  split; [first [exact H | apply H]|];
  split;
  [ first [left; reflexivity | right; rewrite <- ?app_assoc; reflexivity]
  | first [left; reflexivity | right; split; [reflexivity | assumption]] ].

Lemma list_reports_cases E w :
  exists w' r,
    serve (list_reports E) w = (Normal tt, w') /\
    chrome w' = chrome w /\ clock_reads w' = clock_reads w /\
    sent w' = Some r /\
    (exists added, fs w' = fs w ++ map (fun d => (d, Fs.Dir)) added /\
                   incl added (chain (reportsDir E))) /\
    (trace w' = trace w ++ [EvRespond r] \/
     trace w' = trace w ++ [EvMkdir (reportsDir E); EvRespond r]) /\
    (r = mkResponse 500 (VObj [("error", VStr "Failed to list reports")]) \/
     r = mkResponse 200
           (VArr (map VStr
              (JsArray.sort newest_first
                 (filter (fun file => Str.endsWith file ".json")
                         (Fs.entries (reportsDir E) (fs w')))))) /\
     Fs.resolve (fs w') (reportsDir E) = Some Fs.Dir).
Proof.
  destruct (reportsDir_plain E) as [Hplain _].
  assert (Hnil : forall fs : Fs.t, exists added : list string,
             fs = fs ++ map (fun d => (d, Fs.Dir)) added /\
             incl added (chain (reportsDir E))).
  { intros fs0. exists []. split; [now rewrite app_nil_r | intros ? []]. }
  unfold serve, list_reports, existsSync, readdirSync,
    mkdirSync, faulty, get_fs, set_fs, emit, console_log, console_error, modify,
    res_json, res_status_json, fresh, try_catch, when, ret, throw, bind.
  cbn [fs console chrome clock_reads sent trace fst snd].
  rewrite (strip_trailing_slash_id _ Hplain).
  destruct (Fs.resolve (fs w) (reportsDir E)) as [node|] eqn:Hd; cbn [negb].
  - destruct (io_fault E Fs.OpReaddir (reportsDir E)) eqn:Hf;
      cbn [fs console chrome clock_reads sent trace fst snd];
      [|rewrite Hd; destruct node;
        cbn [fs console chrome clock_reads sent trace fst snd]];
      finish_list Hnil.
  - destruct (io_fault E Fs.OpMkdir (reportsDir E)) eqn:Hm;
      cbn [fs console chrome clock_reads sent trace fst snd];
      [finish_list Hnil|].
    fold (chain (reportsDir E)).
    destruct (Fs.make_dirs (chain (reportsDir E)) (fs w)) as [fs'|] eqn:Hmk;
      cbn [fs console chrome clock_reads sent trace fst snd];
      [|finish_list Hnil].
    destruct (make_dirs_appends _ _ _ Hmk) as (added & -> & Hi & _).
    assert (Hadd : exists added0 : list string,
               fs w ++ map (fun d => (d, Fs.Dir)) added =
               fs w ++ map (fun d => (d, Fs.Dir)) added0 /\
               incl added0 (chain (reportsDir E))) by eauto.
    destruct (io_fault E Fs.OpReaddir (reportsDir E)) eqn:Hf;
      cbn [fs console chrome clock_reads sent trace fst snd];
      [finish_list Hadd|].
    destruct (Fs.resolve (fs w ++ _) (reportsDir E)) as [[c|]|] eqn:Hd';
      cbn [fs console chrome clock_reads sent trace fst snd];
      finish_list Hadd.
Qed.

(** [GET /reports] when the directory is not there yet. *)
Lemma list_reports_makes_directory E w :
  Path.isAbsolute (cwd E) = true ->
  Fs.resolve (fs w) (reportsDir E) = None ->
  unobstructed (fs w) (reportsDir E) = true ->
  io_fault E Fs.OpMkdir (reportsDir E) = None ->
  io_fault E Fs.OpReaddir (reportsDir E) = None ->
  exists fs',
    let r := mkResponse 200
               (VArr (map VStr
                  (JsArray.sort newest_first
                     (filter (fun file => Str.endsWith file ".json")
                             (Fs.entries (reportsDir E) (fs w)))))) in
    serve (list_reports E) w =
    (Normal tt,
     mkWorld fs' (console w ++ [(Log, "Found reports:", None)]) (chrome w)
             (clock_reads w) (Some r)
             (trace w ++ [EvMkdir (reportsDir E); EvRespond r])) /\
    Fs.resolve fs' (reportsDir E) = Some Fs.Dir /\
    exists added, fs' = fs w ++ map (fun d => (d, Fs.Dir)) added /\
                  incl added (chain (reportsDir E)).
Proof.
  intros Habs Hd Hu Hm Hf.
  destruct (reportsDir_plain E) as [Hplain _].
  destruct (join_reports _ Habs) as (segs & Hp & Hdir).
  fold (reportsDir E) in Hdir.
  assert (Hn : segs ++ ["reports"%string] <> []) by (destruct segs; discriminate).
  assert (Hp' : forallb proper (segs ++ ["reports"%string]) = true)
    by (rewrite forallb_app, Hp; reflexivity).
  destruct (make_dirs_unobstructed _ _ Hu) as (fs' & Hmk).
  pose proof Hmk as Hmk'. rewrite Hdir in Hmk'.
  destruct (make_dirs_fresh _ _ _ Hn Hp' Hmk') as (Ha & He & _ & Hadd).
  rewrite <- Hdir in Ha, He, Hadd.
  exists fs'. cbv zeta.
  assert (Hr : Fs.resolve fs' (reportsDir E) = Some Fs.Dir)
    by now rewrite reportsDir_resolve.
  split; [|split; assumption].
  unfold serve, list_reports, existsSync, readdirSync,
    mkdirSync, faulty, get_fs, set_fs, emit, console_log, console_error, modify,
    res_json, res_status_json, fresh, try_catch, when, ret, throw, bind.
  cbn [fs console chrome clock_reads sent trace fst snd].
  rewrite (strip_trailing_slash_id _ Hplain), Hd. cbn [negb]. rewrite Hm.
  cbn [fs console chrome clock_reads sent trace fst snd].
  fold (chain (reportsDir E)). rewrite Hmk.
  cbn [fs console chrome clock_reads sent trace fst snd]. rewrite Hf.
  cbn [fs console chrome clock_reads sent trace fst snd]. rewrite Hr.
  cbn [fs console chrome clock_reads sent trace fst snd]. rewrite He.
  now rewrite <- app_assoc.
Qed.

(** [GET /reports] when something other than a directory has the name. *)
Lemma list_reports_not_a_directory E w text :
  Fs.resolve (fs w) (reportsDir E) = Some (Fs.File text) ->
  exists e,
    let r := mkResponse 500 (VObj [("error", VStr "Failed to list reports")]) in
    serve (list_reports E) w =
    (Normal tt,
     mkWorld (fs w) (console w ++ [(Err, "Error listing reports:", Some e)])
             (chrome w) (clock_reads w) (Some r) (trace w ++ [EvRespond r])).
Proof.
  intros Hd.
  unfold serve, list_reports, existsSync, readdirSync,
    mkdirSync, faulty, get_fs, set_fs, emit, console_log, console_error, modify,
    res_json, res_status_json, fresh, try_catch, when, ret, throw, bind.
  cbn [fs console chrome clock_reads sent trace fst snd].
  rewrite Hd. cbn [negb].
  destruct (io_fault E Fs.OpReaddir (reportsDir E));
    cbn [fs console chrome clock_reads sent trace fst snd];
    [|rewrite Hd]; eexists; reflexivity.
Qed.

(** *** [GET /reports/:filename] *)

Ltac finish_get :=
  do 3 eexists; split; [reflexivity|];
  cbn [fs console chrome clock_reads sent trace];
  split; [first [left; reflexivity | right; reflexivity]|];
  repeat (split; [reflexivity|]);
  first [ left; reflexivity
        | right; left; reflexivity
        | right; right; reflexivity ].

Lemma get_report_cases E name w :
  exists c w' r,
    serve (get_report E name) w = (c, w') /\
    (c = Normal tt \/ c = Return) /\
    fs w' = fs w /\ chrome w' = chrome w /\ clock_reads w' = clock_reads w /\
    sent w' = Some r /\ trace w' = trace w ++ [EvRespond r] /\
    (status r = 200%nat \/
     r = mkResponse 404 (VObj [("error", VStr "Report not found")]) \/
     r = mkResponse 500 (VObj [("error", VStr "Failed to read report")])).
Proof.
  unfold serve, get_report, existsSync, readFileSync, JSON_parse,
    faulty, get_fs, set_fs, emit, console_log, console_error, modify,
    res_json, res_status_json, return_, fresh, try_catch, when, ret, throw, bind.
  cbn [fs console chrome clock_reads sent trace fst snd].
  destruct (Fs.resolve (fs w) (Path.join (reportsDir E) name)) as [node|] eqn:Hd;
    cbn [negb fs console chrome clock_reads sent trace fst snd];
    [|finish_get].
  destruct (io_fault E Fs.OpRead (Path.join (reportsDir E) name));
    cbn [fs console chrome clock_reads sent trace fst snd];
    [finish_get|].
  rewrite Hd. destruct node as [text|];
    cbn [fs console chrome clock_reads sent trace fst snd];
    [|finish_get].
  destruct (Json.parse text);
    cbn [fs console chrome clock_reads sent trace fst snd]; finish_get.
Qed.

Lemma get_report_directory E w name :
  Fs.resolve (fs w) (Path.join (reportsDir E) name) = Some Fs.Dir ->
  answer (get_report E name) w =
  Some (mkResponse 500 (VObj [("error", VStr "Failed to read report")])).
Proof.
  intros Hd.
  unfold answer, serve, get_report, existsSync, readFileSync, JSON_parse,
    faulty, get_fs, set_fs, emit, console_log, console_error, modify,
    res_json, res_status_json, return_, fresh, try_catch, when, ret, throw, bind.
  cbn [fs console chrome clock_reads sent trace fst snd]. rewrite Hd.
  cbn [negb fs console chrome clock_reads sent trace fst snd].
  destruct (io_fault E Fs.OpRead (Path.join (reportsDir E) name));
    cbn [fs console chrome clock_reads sent trace fst snd]; [reflexivity|].
  rewrite Hd. reflexivity.
Qed.

Lemma get_report_unreadable E w name e :
  Fs.resolve (fs w) (Path.join (reportsDir E) name) <> None ->
  io_fault E Fs.OpRead (Path.join (reportsDir E) name) = Some e ->
  answer (get_report E name) w =
  Some (mkResponse 500 (VObj [("error", VStr "Failed to read report")])).
Proof.
  intros Hd Hf.
  unfold answer, serve, get_report, existsSync, readFileSync, JSON_parse,
    faulty, get_fs, set_fs, emit, console_log, console_error, modify,
    res_json, res_status_json, return_, fresh, try_catch, when, ret, throw, bind.
  cbn [fs console chrome clock_reads sent trace fst snd].
  destruct (Fs.resolve (fs w) (Path.join (reportsDir E) name)); [|congruence].
  cbn [negb fs console chrome clock_reads sent trace fst snd]. rewrite Hf.
  reflexivity.
Qed.


Lemma report_path_proper E name :
  Path.isAbsolute (cwd E) = true -> proper name = true ->
  Path.join (reportsDir E) name = (reportsDir E ++ "/" ++ name)%string /\
  (forall fs, Fs.resolve fs (reportsDir E ++ "/" ++ name)%string =
              assoc (reportsDir E ++ "/" ++ name)%string fs) /\
  Fs.dirname (reportsDir E ++ "/" ++ name) = reportsDir E /\
  Fs.has_trailing_slash (reportsDir E ++ "/" ++ name) = false.
Proof.
  intros Habs Hname.
  destruct (join_reports _ Habs) as (segs & Hp & Hdir).
  fold (reportsDir E) in Hdir.
  assert (Hn : segs ++ ["reports"%string] <> []) by (destruct segs; discriminate).
  assert (Hp' : forallb proper (segs ++ ["reports"%string]) = true)
    by (rewrite forallb_app, Hp; reflexivity).
  assert (Hn2 : (segs ++ ["reports"%string]) ++ [name] <> [])
    by (destruct segs; discriminate).
  assert (Hp2 : forallb proper ((segs ++ ["reports"%string]) ++ [name]) = true).
  { rewrite forallb_app, Hp'. cbn [forallb]. now rewrite Hname. }
  rewrite Hdir. split; [now apply join_proper|].
  rewrite <- absolute_snoc by assumption.
  split; [intros fs0; now apply resolve_absolute|].
  split; [|now apply has_trailing_slash_absolute].
  rewrite absolute_snoc by assumption. now apply dirname_absolute.
Qed.

End ReportFacts.

(* ------------------------------------------------------------------ *)
(** ** The audit route *)

Module AuditFacts.
Import Js Eff Server Spec Names Cover Scenario StrFacts PathFacts ServerFacts ListFacts ReportFacts.
Local Open Scope list_scope.

(** *** The timestamp in a report name *)

Lemma digit_kept n :
  Ascii.eqb (Date.digit n) ":" = false /\ Ascii.eqb (Date.digit n) "." = false /\
  Ascii.eqb "/" (Date.digit n) = false.
Proof.
  pose proof (digit_cases n) as H. cbn [In] in H.
  repeat (destruct H as [<-|H]; [repeat split|]). contradiction.
Qed.

Lemma replace_colon_dot_pad2 n : Str.replace_colon_dot (Date.pad2 n) = Date.pad2 n.
Proof.
  unfold Date.pad2. cbn [Str.replace_colon_dot].
  destruct (digit_kept (n / 10)) as (-> & -> & _).
  destruct (digit_kept n) as (-> & -> & _). reflexivity.
Qed.

Lemma replace_colon_dot_pad3' n : Str.replace_colon_dot (Date.pad3 n) = Date.pad3 n.
Proof.
  unfold Date.pad3. cbn [Str.replace_colon_dot]. rewrite replace_colon_dot_pad2.
  destruct (digit_kept (n / 100)) as (-> & -> & _). reflexivity.
Qed.

Lemma replace_colon_dot_pad4 n : Str.replace_colon_dot (Date.pad4 n) = Date.pad4 n.
Proof.
  unfold Date.pad4. cbn [Str.replace_colon_dot]. rewrite replace_colon_dot_pad3'.
  destruct (digit_kept (n / 1000)) as (-> & -> & _). reflexivity.
Qed.

(** The timestamp of a report name: the ISO instant with hyphens for its
    colons and its dot. *)
Lemma timestamp_of_fields d :
  timestamp_of d =
  (Date.pad4 (Date.year d) ++ "-" ++ Date.pad2 (Date.month d) ++ "-" ++
   Date.pad2 (Date.day d) ++ "T" ++ Date.pad2 (Date.hour d) ++ "-" ++
   Date.pad2 (Date.minute d) ++ "-" ++ Date.pad2 (Date.second d) ++ "-" ++
   Date.pad3 (Date.millisecond d) ++ "Z")%string.
Proof.
  unfold timestamp_of, Date.toISOString.
  rewrite !replace_colon_dot_app, replace_colon_dot_pad4, !replace_colon_dot_pad2,
    replace_colon_dot_pad3'.
  reflexivity.
Qed.

Lemma pad2_without n : Str.contains_char "/" (Date.pad2 n) = false.
Proof.
  unfold Date.pad2, Str.contains_char. cbn [list_ascii_of_string existsb].
  destruct (digit_kept (n / 10)) as (_ & _ & ->).
  destruct (digit_kept n) as (_ & _ & ->). reflexivity.
Qed.

Lemma pad3_without n : Str.contains_char "/" (Date.pad3 n) = false.
Proof.
  unfold Date.pad3.
  pose proof (pad2_without n) as H. unfold Str.contains_char in *.
  cbn [list_ascii_of_string existsb]. rewrite H.
  destruct (digit_kept (n / 100)) as (_ & _ & ->). reflexivity.
Qed.

Lemma pad4_without n : Str.contains_char "/" (Date.pad4 n) = false.
Proof.
  unfold Date.pad4. pose proof (pad3_without n) as H. unfold Str.contains_char in *.
  cbn [list_ascii_of_string existsb]. rewrite H.
  destruct (digit_kept (n / 1000)) as (_ & _ & ->). reflexivity.
Qed.

Lemma timestamp_without d : Str.contains_char "/" (timestamp_of d) = false.
Proof.
  rewrite timestamp_of_fields, !contains_char_app, pad4_without, !pad2_without,
    pad3_without.
  reflexivity.
Qed.

(** A report name is a proper file name that ends in [.json]. *)
Lemma report_name_proper d : proper (report_name d) = true.
Proof.
  unfold proper, report_name.
  rewrite !contains_char_app, timestamp_without. reflexivity.
Qed.

Lemma endsWith_app a b : Str.endsWith (a ++ b) b = true.
Proof.
  induction a as [|c a IH].
  - destruct b; cbn [append Str.endsWith]; rewrite String.eqb_refl; reflexivity.
  - change (String c a ++ b)%string with (String c (a ++ b)%string).
    cbn [Str.endsWith]. rewrite IH. apply orb_true_r.
Qed.

Lemma report_name_json d : Str.endsWith (report_name d) ".json" = true.
Proof.
  unfold report_name.
  rewrite <- (append_assoc "lighthouse-report-" (timestamp_of d) ".json").
  apply endsWith_app.
Qed.

(** Distinct instants give distinct names. *)

Lemma digit_inj a b :
  (a < 10)%nat -> (b < 10)%nat -> Date.digit a = Date.digit b -> a = b.
Proof.
  unfold Date.digit. intros Ha Hb H.
  rewrite !Nat.mod_small in H by assumption.
  apply (f_equal nat_of_ascii) in H.
  rewrite !nat_ascii_embedding in H by lia. lia.
Qed.

Lemma digit_mod n : Date.digit n = Date.digit (n mod 10).
Proof. unfold Date.digit. now rewrite Nat.Div0.mod_mod. Qed.

Lemma digit_eq_mod a b :
  Date.digit a = Date.digit b -> (a mod 10 = b mod 10)%nat.
Proof.
  rewrite (digit_mod a), (digit_mod b).
  apply digit_inj; apply Nat.mod_upper_bound; lia.
Qed.

Lemma string_cons_inj c s c' s' :
  String c s = String c' s' -> c = c' /\ s = s'.
Proof. intros H. injection H as -> ->. now split. Qed.

Lemma pad2_inj a b :
  (a < 100)%nat -> (b < 100)%nat -> Date.pad2 a = Date.pad2 b -> a = b.
Proof.
  unfold Date.pad2. intros Ha Hb H.
  apply string_cons_inj in H as [H1 H]. apply string_cons_inj in H as [H0 _].
  apply digit_eq_mod in H1, H0.
  assert (a / 10 < 10)%nat by (apply Nat.Div0.div_lt_upper_bound; lia).
  assert (b / 10 < 10)%nat by (apply Nat.Div0.div_lt_upper_bound; lia).
  rewrite !(Nat.mod_small (_ / 10)) in H1 by assumption.
  pose proof (Nat.div_mod_eq a 10). pose proof (Nat.div_mod_eq b 10). lia.
Qed.

Lemma pad3_inj a b :
  (a < 1000)%nat -> (b < 1000)%nat -> Date.pad3 a = Date.pad3 b -> a = b.
Proof.
  unfold Date.pad3, Date.pad2. intros Ha Hb H.
  apply string_cons_inj in H as [H2 H]. apply string_cons_inj in H as [H1 H].
  apply string_cons_inj in H as [H0 _].
  apply digit_eq_mod in H2, H1, H0.
  assert (a / 100 < 10)%nat by (apply Nat.Div0.div_lt_upper_bound; lia).
  assert (b / 100 < 10)%nat by (apply Nat.Div0.div_lt_upper_bound; lia).
  rewrite !(Nat.mod_small (_ / 100)) in H2 by assumption.
  pose proof (Nat.div_mod_eq a 10). pose proof (Nat.div_mod_eq b 10).
  pose proof (Nat.div_mod_eq (a / 10) 10) as Ea.
  pose proof (Nat.div_mod_eq (b / 10) 10) as Eb.
  rewrite Nat.Div0.div_div in Ea, Eb.
  change (10 * 10)%nat with 100%nat in Ea, Eb. lia.
Qed.

Lemma pad4_inj a b :
  (a / 1000 < 10)%nat -> (b / 1000 < 10)%nat -> Date.pad4 a = Date.pad4 b -> a = b.
Proof.
  unfold Date.pad4, Date.pad3, Date.pad2. intros Ha Hb H.
  apply string_cons_inj in H as [H3 H]. apply string_cons_inj in H as [H2 H].
  apply string_cons_inj in H as [H1 H]. apply string_cons_inj in H as [H0 _].
  apply digit_eq_mod in H3, H2, H1, H0.
  rewrite !(Nat.mod_small (_ / 1000)) in H3 by assumption.
  pose proof (Nat.div_mod_eq a 10). pose proof (Nat.div_mod_eq b 10).
  pose proof (Nat.div_mod_eq (a / 10) 10) as Ea.
  pose proof (Nat.div_mod_eq (b / 10) 10) as Eb.
  pose proof (Nat.div_mod_eq (a / 100) 10) as Fa.
  pose proof (Nat.div_mod_eq (b / 100) 10) as Fb.
  rewrite Nat.Div0.div_div in Ea, Eb, Fa, Fb.
  change (10 * 10)%nat with 100%nat in Ea, Eb.
  change (100 * 10)%nat with 1000%nat in Fa, Fb. lia.
Qed.

Lemma append_inj a a' b b' :
  String.length a = String.length a' ->
  (a ++ b)%string = (a' ++ b')%string -> a = a' /\ b = b'.
Proof.
  revert a'. induction a as [|x a IH]; intros [|x' a'] Hl H; try discriminate.
  - now split.
  - cbn [append] in H. injection H as -> H. injection Hl as Hl.
    destruct (IH _ Hl H) as [-> ->]. now split.
Qed.

Lemma valid_fields d :
  Date.valid d = true ->
  (Date.year d / 1000 < 10 /\ Date.month d < 100 /\ Date.day d < 100 /\
   Date.hour d < 100 /\ Date.minute d < 100 /\ Date.second d < 100 /\
   Date.millisecond d < 1000)%nat.
Proof.
  unfold Date.valid. intros H.
  repeat (apply andb_true_iff in H as [H ?]).
  repeat match goal with
         | H : (_ <=? _)%nat = true |- _ => apply Nat.leb_le in H
         end.
  assert (Date.year d / 1000 < 10)%nat.
  { change 1000%nat with (100 * 10)%nat. rewrite <- Nat.Div0.div_div.
    apply Nat.Div0.div_lt_upper_bound. lia. }
  lia.
Qed.

Lemma timestamp_of_inj d1 d2 :
  Date.valid d1 = true -> Date.valid d2 = true ->
  timestamp_of d1 = timestamp_of d2 -> d1 = d2.
Proof.
  intros V1 V2. apply valid_fields in V1, V2.
  rewrite !timestamp_of_fields. intros H.
  destruct d1 as [y1 m1 a1 h1 i1 s1 f1], d2 as [y2 m2 a2 h2 i2 s2 f2].
  cbn [Date.year Date.month Date.day Date.hour Date.minute Date.second
       Date.millisecond] in *.
  apply append_inj in H as [Hy H]; [|reflexivity].
  apply (append_inj "-" "-") in H as [_ H]; [|reflexivity].
  apply append_inj in H as [Hm H]; [|reflexivity].
  apply (append_inj "-" "-") in H as [_ H]; [|reflexivity].
  apply append_inj in H as [Ha H]; [|reflexivity].
  apply (append_inj "T" "T") in H as [_ H]; [|reflexivity].
  apply append_inj in H as [Hh H]; [|reflexivity].
  apply (append_inj "-" "-") in H as [_ H]; [|reflexivity].
  apply append_inj in H as [Hi H]; [|reflexivity].
  apply (append_inj "-" "-") in H as [_ H]; [|reflexivity].
  apply append_inj in H as [Hs H]; [|reflexivity].
  apply (append_inj "-" "-") in H as [_ H]; [|reflexivity].
  apply append_inj in H as [Hf _]; [|reflexivity].
  apply pad4_inj in Hy; [|lia..]. apply pad2_inj in Hm; [|lia..].
  apply pad2_inj in Ha; [|lia..]. apply pad2_inj in Hh; [|lia..].
  apply pad2_inj in Hi; [|lia..]. apply pad2_inj in Hs; [|lia..].
  apply pad3_inj in Hf; [|lia..]. congruence.
Qed.

(** *** [decodeURIComponent] without escapes *)

Lemma unescape_plain s :
  Str.contains_char "%" s = false ->
  Uri.unescape s = Some (map Uri.Raw (list_ascii_of_string s)).
Proof.
  unfold Str.contains_char. induction s as [|c s IH]; [reflexivity|].
  cbn [list_ascii_of_string existsb]. intros H.
  apply orb_false_iff in H as [Hc Hs].
  cbn [Uri.unescape]. rewrite Ascii.eqb_sym, Hc, (IH Hs). reflexivity.
Qed.

Lemma assemble_raw l :
  Uri.assemble (map Uri.Raw l) = Some (string_of_list_ascii l).
Proof.
  induction l as [|c l IH]; [reflexivity|].
  cbn [map Uri.assemble]. rewrite IH. reflexivity.
Qed.

Lemma decode_plain s :
  Str.contains_char "%" s = false -> Uri.decodeURIComponent s = Some s.
Proof.
  intros H. unfold Uri.decodeURIComponent.
  rewrite (unescape_plain _ H), assemble_raw, string_of_list_ascii_of_string.
  reflexivity.
Qed.

(** *** Saving the report *)

Lemma assoc_set_file_other p path text fs :
  p <> path -> assoc p (Fs.set_file path text fs) = assoc p fs.
Proof.
  intros Hp. induction fs as [|[q n] fs IH].
  - cbn [Fs.set_file assoc]. destruct (path =? p)%string eqn:He; [|reflexivity].
    apply String.eqb_eq in He. congruence.
  - cbn [Fs.set_file]. destruct (q =? path)%string eqn:Hq.
    + apply String.eqb_eq in Hq. subst q. cbn [assoc].
      destruct (path =? p)%string eqn:He; [|reflexivity].
      apply String.eqb_eq in He. congruence.
    + cbn [assoc]. now rewrite IH.
Qed.

Lemma entries_set_file_present dir path text fs node :
  assoc path fs = Some node ->
  Fs.entries dir (Fs.set_file path text fs) = Fs.entries dir fs.
Proof.
  induction fs as [|[p n] fs IH]; [discriminate|].
  cbn [assoc Fs.set_file]. destruct (p =? path)%string; [reflexivity|].
  intros H. cbn [Fs.entries]. now rewrite (IH H).
Qed.

(** The report is written when the directory is there or can be made, the
    inner report serializes, nothing is in the way and the disk takes it. *)
Lemma save_saved E timestamp lhr text w :
  Path.isAbsolute (cwd E) = true ->
  proper ("lighthouse-report-" ++ timestamp ++ ".json") = true ->
  directory_available E (fs w) = true ->
  Json.stringify lhr 2 = Some text ->
  io_fault E Fs.OpWrite (report_path E timestamp) = None ->
  write_fault E (report_path E timestamp) text = None ->
  Fs.resolve (fs w) (report_path E timestamp) <> Some Fs.Dir ->
  exists added,
    save E timestamp lhr w =
    (Normal tt,
     mkWorld (Fs.set_file (report_path E timestamp) text (fs w ++ directories added))
             (console w ++ [(Log, "Report saved successfully to:", None)])
             (chrome w) (clock_reads w) (sent w)
             (trace w ++ mkdir_actions E (fs w) ++ [EvWrite (report_path E timestamp)])) /\
    incl added (chain (reportsDir E)) /\
    (Fs.resolve (fs w) (reportsDir E) = Some Fs.Dir -> added = []) /\
    Fs.resolve (fs w ++ directories added) (reportsDir E) = Some Fs.Dir.
Proof.
  intros Habs Hname Hav Htext Hw Hwf Hnd.
  destruct (report_path_proper E _ Habs Hname) as (Hjoin & Hres & Hdn & Hts).
  destruct (proper_inv _ Hname) as (_ & _ & _ & Hc).
  unfold report_path in *. rewrite Hjoin in *.
  set (path := (reportsDir E ++ "/" ++
                "lighthouse-report-" ++ timestamp ++ ".json")%string) in *.
  unfold directory_available in Hav. unfold mkdir_actions.
  unfold save, existsSync, mkdirSync,
    writeFileSync, faulty, get_fs, set_fs, emit, modify, console_log,
    console_error, try_catch, when, throw, ret, bind.
  rewrite Hjoin. fold path.
  cbn [fs console chrome clock_reads sent trace fst snd].
  destruct (Fs.resolve (fs w) (reportsDir E)) as [[c|]|] eqn:Hd; [discriminate| |].
  - exists []. cbn [negb]. rewrite Htext, Hw.
    cbn [fs console chrome clock_reads sent trace fst snd].
    destruct (Fs.resolve (fs w) path) as [[c|]|] eqn:Hp; [|congruence|];
      rewrite Hts, Hdn, Hd, Hwf;
      cbn [fs console chrome clock_reads sent trace fst snd];
      unfold directories; cbn [map]; rewrite !app_nil_r;
      (split; [reflexivity|]); (split; [intros ? []|]);
      (split; [reflexivity | assumption]).
  - apply andb_true_iff in Hav as [Hu Hm].
    destruct (io_fault E Fs.OpMkdir (reportsDir E)) eqn:Hmf; [discriminate|].
    cbn [negb fs console chrome clock_reads sent trace fst snd].
    destruct (join_reports _ Habs) as (segs & Hp & Hdir).
    fold (reportsDir E) in Hdir.
    assert (Hn : segs ++ ["reports"%string] <> []) by (destruct segs; discriminate).
    assert (Hp' : forallb proper (segs ++ ["reports"%string]) = true)
      by (rewrite forallb_app, Hp; reflexivity).
    destruct (make_dirs_unobstructed _ _ Hu) as (fs1 & Hmk).
    fold (chain (reportsDir E)). rewrite Hmk.
    rewrite Hdir in Hmk.
    destruct (make_dirs_fresh _ _ _ Hn Hp' Hmk) as (Ha & _ & Hsame & added & -> & Hi).
    rewrite <- Hdir in Ha, Hsame, Hi.
    exists added.
    cbn [fs console chrome clock_reads sent trace fst snd].
    rewrite Htext, Hw.
    cbn [fs console chrome clock_reads sent trace fst snd].
    assert (Hp1 : Fs.resolve (fs w ++ map (fun d => (d, Fs.Dir)) added) path <> Some Fs.Dir).
    { rewrite Hres. unfold path. rewrite (Hsame _ Hc). fold path.
      now rewrite <- Hres. }
    assert (Hd1 : Fs.resolve (fs w ++ map (fun d => (d, Fs.Dir)) added) (reportsDir E)
                  = Some Fs.Dir) by now rewrite reportsDir_resolve.
    destruct (Fs.resolve (fs w ++ _) path) as [[c|]|] eqn:Hp2; [|congruence|];
      rewrite Hts, Hdn, Hd1, Hwf;
      cbn [fs console chrome clock_reads sent trace fst snd];
      rewrite <- !app_assoc; (split; [reflexivity|]);
      (split; [assumption|]); (split; [congruence | assumption]).
Qed.

(** The same, when the writing stops short: the file is left with what was
    written, and the error is wrapped. *)
Lemma save_truncated E timestamp lhr text w written e :
  Path.isAbsolute (cwd E) = true ->
  proper ("lighthouse-report-" ++ timestamp ++ ".json") = true ->
  directory_available E (fs w) = true ->
  Json.stringify lhr 2 = Some text ->
  io_fault E Fs.OpWrite (report_path E timestamp) = None ->
  write_fault E (report_path E timestamp) text = Some (written, e) ->
  Fs.resolve (fs w) (report_path E timestamp) <> Some Fs.Dir ->
  exists added,
    save E timestamp lhr w =
    (Throw (new_Error E ("Failed to save report: " ++ message_or e "Unknown error")),
     mkWorld (Fs.set_file (report_path E timestamp) (substring 0 written text)
                          (fs w ++ directories added))
             (console w ++ [(Err, "Error saving report:", Some e)])
             (chrome w) (clock_reads w) (sent w)
             (trace w ++ mkdir_actions E (fs w))) /\
    incl added (chain (reportsDir E)) /\
    (Fs.resolve (fs w) (reportsDir E) = Some Fs.Dir -> added = []) /\
    Fs.resolve (fs w ++ directories added) (reportsDir E) = Some Fs.Dir.
Proof.
  intros Habs Hname Hav Htext Hw Hwf Hnd.
  destruct (report_path_proper E _ Habs Hname) as (Hjoin & Hres & Hdn & Hts).
  destruct (proper_inv _ Hname) as (_ & _ & _ & Hc).
  unfold report_path in *. rewrite Hjoin in *.
  set (path := (reportsDir E ++ "/" ++
                "lighthouse-report-" ++ timestamp ++ ".json")%string) in *.
  unfold directory_available in Hav. unfold mkdir_actions.
  unfold save, existsSync, mkdirSync,
    writeFileSync, faulty, get_fs, set_fs, emit, modify, console_log,
    console_error, try_catch, when, throw, ret, bind.
  rewrite Hjoin. fold path.
  cbn [fs console chrome clock_reads sent trace fst snd].
  destruct (Fs.resolve (fs w) (reportsDir E)) as [[c|]|] eqn:Hd; [discriminate| |].
  - exists []. cbn [negb]. rewrite Htext, Hw.
    cbn [fs console chrome clock_reads sent trace fst snd].
    destruct (Fs.resolve (fs w) path) as [[c|]|] eqn:Hp; [|congruence|];
      rewrite Hts, Hdn, Hd, Hwf;
      cbn [fs console chrome clock_reads sent trace fst snd];
      unfold directories; cbn [map]; rewrite !app_nil_r;
      (split; [reflexivity|]); (split; [intros ? []|]);
      (split; [reflexivity | assumption]).
  - apply andb_true_iff in Hav as [Hu Hm].
    destruct (io_fault E Fs.OpMkdir (reportsDir E)) eqn:Hmf; [discriminate|].
    cbn [negb fs console chrome clock_reads sent trace fst snd].
    destruct (join_reports _ Habs) as (segs & Hp & Hdir).
    fold (reportsDir E) in Hdir.
    assert (Hn : segs ++ ["reports"%string] <> []) by (destruct segs; discriminate).
    assert (Hp' : forallb proper (segs ++ ["reports"%string]) = true)
      by (rewrite forallb_app, Hp; reflexivity).
    destruct (make_dirs_unobstructed _ _ Hu) as (fs1 & Hmk).
    fold (chain (reportsDir E)). rewrite Hmk.
    rewrite Hdir in Hmk.
    destruct (make_dirs_fresh _ _ _ Hn Hp' Hmk) as (Ha & _ & Hsame & added & -> & Hi).
    rewrite <- Hdir in Ha, Hsame, Hi.
    exists added.
    cbn [fs console chrome clock_reads sent trace fst snd].
    rewrite Htext, Hw.
    cbn [fs console chrome clock_reads sent trace fst snd].
    assert (Hp1 : Fs.resolve (fs w ++ map (fun d => (d, Fs.Dir)) added) path <> Some Fs.Dir).
    { rewrite Hres. unfold path. rewrite (Hsame _ Hc). fold path.
      now rewrite <- Hres. }
    assert (Hd1 : Fs.resolve (fs w ++ map (fun d => (d, Fs.Dir)) added) (reportsDir E)
                  = Some Fs.Dir) by now rewrite reportsDir_resolve.
    destruct (Fs.resolve (fs w ++ _) path) as [[c|]|] eqn:Hp2; [|congruence|];
      rewrite Hts, Hdn, Hd1, Hwf;
      cbn [fs console chrome clock_reads sent trace fst snd];
      rewrite <- ?app_assoc; (split; [reflexivity|]);
      (split; [assumption|]); (split; [congruence | assumption]).
Qed.

(** *** The audit when everything goes well *)

Lemma audit_completes E decoded locale port w results text :
  Path.isAbsolute (cwd E) = true ->
  sent w = None ->
  lighthouse_result E decoded port locale = Ok results ->
  verdict results = None ->
  directory_available E (fs w) = true ->
  Json.stringify (get results "lhr") 2 = Some text ->
  io_fault E Fs.OpWrite (report_path_at E w) = None ->
  write_fault E (report_path_at E w) text = None ->
  Fs.resolve (fs w) (report_path_at E w) <> Some Fs.Dir ->
  exists added,
    let r := mkResponse 200
               (VObj [("success", VBool true);
                      ("url", VStr decoded);
                      ("timestamp",
                       VStr (Date.toISOString (clock E (S (clock_reads w)))));
                      ("locale", locale);
                      ("lighthouseResult", get results "lhr");
                      ("reportPath",
                       VStr ("/reports/" ++ report_name (clock E (clock_reads w))))]) in
    audit E decoded locale port w =
    (Normal tt,
     mkWorld (Fs.set_file (report_path_at E w) text (fs w ++ directories added))
       (console w ++ [(Log, "Starting Lighthouse audit...", None);
                      (Log, "Lighthouse audit completed", None);
                      (Log, "Lighthouse results validation passed", None);
                      (Log, "Results structure:", None);
                      (Log, "Report saved successfully to:", None)])
       (chrome w) (S (S (clock_reads w))) (Some r)
       (trace w ++ [EvWait 10000; EvAudit decoded port] ++
        mkdir_actions E (fs w) ++ [EvWrite (report_path_at E w); EvRespond r])) /\
    incl added (chain (reportsDir E)) /\
    (Fs.resolve (fs w) (reportsDir E) = Some Fs.Dir -> added = []) /\
    Fs.resolve (fs w ++ directories added) (reportsDir E) = Some Fs.Dir.
Proof.
  intros Habs Hs Hl Hv Hav Htext Hw Hwf Hnd.
  unfold report_path_at in *.
  set (stamp := timestamp_of (clock E (clock_reads w))) in *.
  assert (Hname : proper ("lighthouse-report-" ++ stamp ++ ".json") = true)
    by apply report_name_proper.
  unfold audit, sleep, lighthouse, console_log, emit, modify,
    lift, now, res_json, res_status_json, throw, ret, bind.
  cbn [fs console chrome clock_reads sent trace fst snd].
  rewrite Hl. cbn [fs console chrome clock_reads sent trace fst snd].
  rewrite validate_spec, Hv.
  cbn [fs console chrome clock_reads sent trace fst snd].
  fold (timestamp_of (clock E (clock_reads w))). fold stamp.
  match goal with
  | |- context [save E stamp ?l ?w0] =>
      destruct (save_saved E stamp l text w0 Habs Hname Hav Htext Hw Hwf Hnd)
        as (added & Hsave & Hi & Hnil & Hdir)
  end.
  exists added. cbv zeta. split; [|repeat split; assumption].
  rewrite Hsave. cbn [fs console chrome clock_reads sent trace fst snd].
  rewrite Hs. unfold report_name. fold stamp.
  rewrite <- !app_assoc. reflexivity.
Qed.

(** *** The audit when the writing of the report stops short *)

Lemma audit_truncated E decoded locale port w results text written e :
  Path.isAbsolute (cwd E) = true ->
  lighthouse_result E decoded port locale = Ok results ->
  verdict results = None ->
  directory_available E (fs w) = true ->
  Json.stringify (get results "lhr") 2 = Some text ->
  io_fault E Fs.OpWrite (report_path_at E w) = None ->
  write_fault E (report_path_at E w) text = Some (written, e) ->
  Fs.resolve (fs w) (report_path_at E w) <> Some Fs.Dir ->
  exists added w',
    audit E decoded locale port w =
      (Throw (new_Error E ("Failed to save report: " ++
                           message_or e "Unknown error")), w') /\
    fs w' = Fs.set_file (report_path_at E w) (substring 0 written text)
                        (fs w ++ directories added) /\
    sent w' = sent w /\
    trace w' = trace w ++ [EvWait 10000; EvAudit decoded port] ++
               mkdir_actions E (fs w) /\
    incl added (chain (reportsDir E)) /\
    Fs.resolve (fs w ++ directories added) (reportsDir E) = Some Fs.Dir.
Proof.
  intros Habs Hl Hv Hav Htext Hw Hwf Hnd.
  unfold report_path_at in *.
  set (stamp := timestamp_of (clock E (clock_reads w))) in *.
  assert (Hname : proper ("lighthouse-report-" ++ stamp ++ ".json") = true)
    by apply report_name_proper.
  unfold audit, sleep, lighthouse, console_log, emit, modify,
    lift, now, res_json, res_status_json, throw, ret, bind.
  cbn [fs console chrome clock_reads sent trace fst snd].
  rewrite Hl. cbn [fs console chrome clock_reads sent trace fst snd].
  rewrite validate_spec, Hv.
  cbn [fs console chrome clock_reads sent trace fst snd].
  fold (timestamp_of (clock E (clock_reads w))). fold stamp.
  match goal with
  | |- context [save E stamp ?l ?w0] =>
      destruct (save_truncated E stamp l text w0 written e Habs Hname Hav Htext
                  Hw Hwf Hnd)
        as (added & Hsave & Hi & _ & Hdir)
  end.
  exists added. rewrite Hsave. eexists. split; [reflexivity|].
  cbn [fs console chrome clock_reads sent trace fst snd].
  rewrite <- !app_assoc. repeat split; assumption.
Qed.

(** *** What a request may change in the store *)

#[local] Arguments Path.join : simpl never.
#[local] Arguments Date.toISOString : simpl never.
#[local] Arguments Str.replace_colon_dot : simpl never.
#[local] Arguments Json.stringify : simpl never.
#[local] Arguments Json.parse : simpl never.
#[local] Arguments Uri.decodeURIComponent : simpl never.
#[local] Arguments Fs.resolve : simpl never.
#[local] Arguments Fs.make_dirs : simpl never.
#[local] Arguments Fs.set_file : simpl never.
#[local] Arguments Fs.dirname : simpl never.
#[local] Arguments Fs.has_trailing_slash : simpl never.
#[local] Arguments String.append : simpl never.
#[local] Arguments toString : simpl never.
#[local] Arguments truthy : simpl never.
#[local] Arguments audit : simpl never.
#[local] Arguments audit_failed : simpl never.
#[local] Arguments release : simpl never.
#[local] Arguments save : simpl never.
#[local] Arguments validate : simpl never.
#[local] Arguments outer_catch : simpl never.
#[local] Arguments chain : simpl never.
#[local] Arguments directories : simpl never.

Ltac finish_store :=
  subst; cbn [fs];
  first [ reflexivity
        | eexists; reflexivity
        | left; reflexivity
        | right; do 3 eexists;
          split; [first [eassumption | reflexivity]|];
          split; [eassumption|]; reflexivity ].

Lemma save_store E timestamp lhr w c w' :
  save E timestamp lhr w = (c, w') ->
  exists added,
    incl added (chain (reportsDir E)) /\
    match c with
    | Normal _ =>
        exists text, fs w' = Fs.set_file (report_path E timestamp) text
                                         (fs w ++ directories added)
    | _ =>
        fs w' = fs w ++ directories added \/
        exists text written e,
          Json.stringify lhr 2 = Some text /\
          write_fault E (report_path E timestamp) text = Some (written, e) /\
          fs w' = Fs.set_file (report_path E timestamp) (substring 0 written text)
                              (fs w ++ directories added)
    end.
Proof.
  assert (Hnil : forall fs0 : Fs.t, fs0 = fs0 ++ directories []).
  { intros fs0. unfold directories. cbn [map]. now rewrite app_nil_r. }
  unfold save, report_path, existsSync, mkdirSync,
    writeFileSync, faulty, get_fs, set_fs, emit, modify, console_log,
    console_error, try_catch, when, throw, ret, bind.
  fold (chain (reportsDir E)).
  cbn [fs console chrome clock_reads sent trace fst snd].
  destruct (Fs.resolve (fs w) (reportsDir E)) eqn:Hd; cbn [negb].
  - intros H. exists []. split; [intros ? []|].
    rewrite <- Hnil. break_in H; injection H as <- <-; finish_store.
  - destruct (io_fault E Fs.OpMkdir (reportsDir E)).
    { intros H. exists []. split; [intros ? []|]. rewrite <- Hnil.
      cbn [fs console chrome clock_reads sent trace fst snd] in H.
      break_in H; injection H as <- <-; finish_store. }
    cbn [fs console chrome clock_reads sent trace fst snd].
    destruct (Fs.make_dirs (chain (reportsDir E)) (fs w)) as [fs1|] eqn:Hmk.
    2:{ intros H. exists []. split; [intros ? []|]. rewrite <- Hnil.
        cbn [fs console chrome clock_reads sent trace fst snd] in H.
        break_in H; injection H as <- <-; finish_store. }
    destruct (make_dirs_appends _ _ _ Hmk) as (added & -> & Hi & _).
    intros H. exists added. split; [assumption|].
    cbn [fs console chrome clock_reads sent trace fst snd] in H.
    fold (directories added) in H |- *.
    break_in H; injection H as <- <-; finish_store.
Qed.

Lemma audit_store E decoded locale port w c w' :
  sent w = None ->
  audit E decoded locale port w = (c, w') ->
  exists added,
    incl added (chain (reportsDir E)) /\
    match c with
    | Normal _ =>
        exists text, fs w' = Fs.set_file (report_path_at E w) text
                                         (fs w ++ directories added)
    | _ =>
        fs w' = fs w ++ directories added \/
        exists text written e,
          write_fault E (report_path_at E w) text = Some (written, e) /\
          fs w' = Fs.set_file (report_path_at E w) (substring 0 written text)
                              (fs w ++ directories added)
    end.
Proof.
  intros Hs.
  assert (Hnil : fs w = fs w ++ directories []).
  { unfold directories. cbn [map]. now rewrite app_nil_r. }
  unfold audit, sleep, lighthouse, console_log, emit, modify,
    lift, now, res_json, res_status_json, throw, ret, bind.
  cbn [fs console chrome clock_reads sent trace fst snd].
  destruct (lighthouse_result E decoded port locale) as [results|e];
    cbn [fs console chrome clock_reads sent trace fst snd].
  2:{ intros H. injection H as <- <-. exists []. split; [intros ? []|]. now left. }
  rewrite validate_spec. destruct (verdict results) as [message|];
    cbn [fs console chrome clock_reads sent trace fst snd].
  { intros H. injection H as <- <-. exists []. split; [intros ? []|]. now left. }
  match goal with
  | |- context [save ?E ?t ?l ?w0] => destruct (save E t l w0) as [c1 w1] eqn:Es
  end.
  destruct (save_store _ _ _ _ _ _ Es) as (added & Hi & Hfs).
  apply save_spec in Es. destruct Es as (Hsent & _).
  cbn [fs sent] in Hfs, Hsent. intros H. exists added. split; [assumption|].
  assert (Hweak :
    (fs w1 = fs w ++ directories added \/
     exists text written e,
       Json.stringify (get results "lhr") 2 = Some text /\
       write_fault E (report_path E (timestamp_of (clock E (clock_reads w)))) text =
         Some (written, e) /\
       fs w1 = Fs.set_file (report_path E (timestamp_of (clock E (clock_reads w))))
                           (substring 0 written text) (fs w ++ directories added)) ->
    fs w1 = fs w ++ directories added \/
    exists text written e,
      write_fault E (report_path_at E w) text = Some (written, e) /\
      fs w1 = Fs.set_file (report_path_at E w) (substring 0 written text)
                          (fs w ++ directories added)).
  { intros [Hx|(text & written & e & _ & H1 & H2)]; [now left|].
    right. exists text, written, e. split; assumption. }
  destruct c1 as [[]| |e].
  - rewrite Hsent, Hs in H. injection H as <- <-. cbn [fs]. exact Hfs.
  - injection H as <- <-. now apply Hweak.
  - injection H as <- <-. now apply Hweak.
Qed.

(** A result that passes validation has an inner report, and that
    serializes. *)
Lemma verdict_none_lhr results :
  verdict results = None -> truthy (get results "lhr") = true.
Proof.
  unfold verdict. destruct (truthy results); [|discriminate]. cbn [negb].
  destruct (truthy (get results "lhr")); [reflexivity | discriminate].
Qed.

Lemma stringify_truthy v space :
  truthy v = true -> exists text, Json.stringify v space = Some text.
Proof.
  unfold Json.stringify. destruct v as [| |[]|[| |lit]| | |]; try discriminate;
    intros _; cbn [Json.serialize]; eexists; reflexivity.
Qed.

(** The whole run of a successful audit. *)
Lemma audit_success_run E req w decoded port results :
  Path.isAbsolute (cwd E) = true ->
  reaches_result E req decoded port results ->
  verdict results = None ->
  directory_available E (fs w) = true ->
  io_fault E Fs.OpWrite (report_path_at E w) = None ->
  written_in_full E (report_path_at E w) (get results "lhr") = true ->
  Fs.resolve (fs w) (report_path_at E w) <> Some Fs.Dir ->
  exists added text w3,
    let r := mkResponse 200
               (VObj [("success", VBool true);
                      ("url", VStr decoded);
                      ("timestamp",
                       VStr (Date.toISOString (clock E (S (clock_reads w)))));
                      ("locale", locale_of req);
                      ("lighthouseResult", get results "lhr");
                      ("reportPath",
                       VStr ("/reports/" ++ report_name (clock E (clock_reads w))))]) in
    serve (nsa_audit E req) w = (Normal tt, w3) /\
    Json.stringify (get results "lhr") 2 = Some text /\
    fs w3 = Fs.set_file (report_path_at E w) text (fs w ++ directories added) /\
    clock_reads w3 = S (S (clock_reads w)) /\
    sent w3 = Some r /\
    trace w3 = trace w ++ [EvLaunch port; EvWait 10000; EvAudit decoded port] ++
               mkdir_actions E (fs w) ++
               [EvWrite (report_path_at E w); EvRespond r; EvKill port] /\
    chrome w3 = chrome_after E port (port :: chrome w) /\
    incl added (chain (reportsDir E)) /\
    (Fs.resolve (fs w) (reportsDir E) = Some Fs.Dir -> added = []) /\
    Fs.resolve (fs w ++ directories added) (reportsDir E) = Some Fs.Dir.
Proof.
  intros Habs (Hreach & Hl & Hlh) Hv Hav Hw Hfull Hnd.
  destruct (stringify_truthy _ 2 (verdict_none_lhr _ Hv)) as (text & Htext).
  assert (Hwf : write_fault E (report_path_at E w) text = None).
  { unfold written_in_full in Hfull. rewrite Htext in Hfull.
    destruct (write_fault E (report_path_at E w) text); [discriminate | reflexivity]. }
  pose proof (serve_launched E req w decoded port Hreach Hl) as Hserve.
  destruct (audit_completes E decoded (locale_of req) port (launched_world w port)
              results text Habs eq_refl Hlh Hv Hav Htext Hw Hwf Hnd)
    as (added & Haudit & Hi & Hnil & Hdir).
  cbv zeta in Haudit.
  unfold guarded, try_catch, finally in Hserve. rewrite Haudit in Hserve.
  match type of Hserve with
  | context [release E port ?w2] =>
      destruct (release_spec E port w2) as (w3 & Hr & H1 & H2 & H3 & H4 & _ & H6)
  end.
  rewrite Hr in Hserve.
  cbn [fs sent trace chrome clock_reads] in H1, H2, H3, H4, H6.
  change (report_path_at E (launched_world w port)) with (report_path_at E w) in *.
  change (fs (launched_world w port)) with (fs w) in *.
  change (clock_reads (launched_world w port)) with (clock_reads w) in *.
  change (trace (launched_world w port)) with (trace w ++ [EvLaunch port]) in *.
  change (chrome (launched_world w port)) with (port :: chrome w) in *.
  exists added, text, w3. cbv zeta.
  split; [exact Hserve|]. split; [exact Htext|]. split; [exact H1|].
  split; [exact H3|]. split; [exact H2|].
  split; [rewrite H4, <- !app_assoc; reflexivity|].
  split; [exact H6|]. repeat split; assumption.
Qed.

(** *** A file where the reports directory should be *)

Lemma save_blocked E timestamp lhr text content w :
  Path.isAbsolute (cwd E) = true ->
  proper ("lighthouse-report-" ++ timestamp ++ ".json") = true ->
  Json.stringify lhr 2 = Some text ->
  Fs.resolve (fs w) (reportsDir E) = Some (Fs.File content) ->
  Fs.resolve (fs w) (report_path E timestamp) = None ->
  io_fault E Fs.OpWrite (report_path E timestamp) = None ->
  save E timestamp lhr w =
  (Throw (new_Error E ("Failed to save report: " ++
                       Fs.message_of Fs.ENOTDIR "open"
                                     (Some (report_path E timestamp)))),
   mkWorld (fs w)
     (console w ++ [(Err, "Error saving report:",
                     Some (fs_error E Fs.ENOTDIR "open"
                                    (Some (report_path E timestamp))))])
     (chrome w) (clock_reads w) (sent w) (trace w)).
Proof.
  intros Habs Hname Htext Hd Hnone Hw.
  destruct (report_path_proper E _ Habs Hname) as (Hjoin & Hres & Hdn & Hts).
  unfold report_path in *. rewrite Hjoin in *.
  set (path := (reportsDir E ++ "/" ++
                "lighthouse-report-" ++ timestamp ++ ".json")%string) in *.
  unfold save, existsSync, mkdirSync,
    writeFileSync, faulty, get_fs, set_fs, emit, modify, console_log,
    console_error, try_catch, when, throw, ret, bind.
  rewrite Hjoin. fold path.
  cbn [fs console chrome clock_reads sent trace fst snd].
  rewrite Hd. cbn [negb]. rewrite Htext, Hw.
  cbn [fs console chrome clock_reads sent trace fst snd].
  rewrite Hnone, Hts, Hdn, Hd. reflexivity.
Qed.

Lemma audit_blocked E decoded locale port w results text content :
  Path.isAbsolute (cwd E) = true ->
  lighthouse_result E decoded port locale = Ok results ->
  verdict results = None ->
  Json.stringify (get results "lhr") 2 = Some text ->
  Fs.resolve (fs w) (reportsDir E) = Some (Fs.File content) ->
  Fs.resolve (fs w) (report_path_at E w) = None ->
  io_fault E Fs.OpWrite (report_path_at E w) = None ->
  exists w',
    audit E decoded locale port w =
      (Throw (new_Error E ("Failed to save report: " ++
                           Fs.message_of Fs.ENOTDIR "open"
                                         (Some (report_path_at E w)))), w') /\
    fs w' = fs w /\ sent w' = sent w /\
    trace w' = trace w ++ [EvWait 10000; EvAudit decoded port].
Proof.
  intros Habs Hl Hv Htext Hd Hnone Hw.
  unfold report_path_at in *.
  set (stamp := timestamp_of (clock E (clock_reads w))) in *.
  assert (Hname : proper ("lighthouse-report-" ++ stamp ++ ".json") = true)
    by apply report_name_proper.
  unfold audit, sleep, lighthouse, console_log, emit, modify,
    lift, now, res_json, res_status_json, throw, ret, bind.
  cbn [fs console chrome clock_reads sent trace fst snd].
  rewrite Hl. cbn [fs console chrome clock_reads sent trace fst snd].
  rewrite validate_spec, Hv.
  cbn [fs console chrome clock_reads sent trace fst snd].
  fold (timestamp_of (clock E (clock_reads w))). fold stamp.
  match goal with
  | |- context [save E stamp ?l ?w0] =>
      pose proof (save_blocked E stamp l text content w0 Habs Hname Htext Hd Hnone Hw)
        as Hsave
  end.
  rewrite Hsave. eexists. split; [reflexivity|].
  cbn [fs sent trace]. rewrite <- app_assoc. repeat split.
Qed.

(** *** The first steps after the launch *)

Lemma audit_starts E decoded locale port w c w' :
  audit E decoded locale port w = (c, w') ->
  exists rest, trace w' = trace w ++ EvWait 10000 :: EvAudit decoded port :: rest.
Proof.
  unfold audit, sleep, lighthouse, console_log, emit, modify,
    lift, now, res_json, res_status_json, throw, ret, bind.
  cbn [fs console chrome clock_reads sent trace fst snd].
  destruct (lighthouse_result E decoded port locale) as [results|e];
    cbn [fs console chrome clock_reads sent trace fst snd].
  2:{ intros H. injection H as <- <-. exists []. cbn [trace].
      now rewrite <- app_assoc. }
  rewrite validate_spec. destruct (verdict results) as [message|];
    cbn [fs console chrome clock_reads sent trace fst snd].
  { intros H. injection H as <- <-. exists []. cbn [trace].
    now rewrite <- app_assoc. }
  match goal with
  | |- context [save ?E ?t ?l ?w0] => destruct (save E t l w0) as [c1 w1] eqn:Es
  end.
  apply save_spec in Es. destruct Es as (_ & _ & _ & (acts & Ht & _) & _).
  cbn [trace] in Ht. rewrite <- app_assoc in Ht. cbn [app] in Ht.
  intros H. destruct c1 as [[]| |e].
  - destruct (sent w1); injection H as <- <-; cbn [trace]; rewrite Ht.
    + exists acts. now rewrite <- !app_assoc.
    + eexists. rewrite <- !app_assoc. cbn [app]. reflexivity.
  - injection H as <- <-. exists acts. now rewrite Ht, <- !app_assoc.
  - injection H as <- <-. exists acts. now rewrite Ht, <- !app_assoc.
Qed.

(** *** Every way through the audit route *)

Lemma responses_app a b : responses (a ++ b) = responses a ++ responses b.
Proof.
  induction a as [|e a IH]; [reflexivity|].
  cbn [app responses]. destruct e; rewrite ?IH; reflexivity.
Qed.

Lemma responses_internal acts : forallb internal acts = true -> responses acts = [].
Proof.
  induction acts as [|e acts IH]; [reflexivity|]. cbn [forallb]. intros H.
  apply andb_true_iff in H as [He Ha]. destruct e; try discriminate; cbn; auto.
Qed.

Lemma skipn_extension {A} (l acts : list A) : skipn (length l) (l ++ acts) = acts.
Proof. induction l as [|x l IH]; [reflexivity | exact IH]. Qed.

Lemma directories_nil (fs0 : Fs.t) : fs0 = fs0 ++ directories [].
Proof. unfold directories. cbn [map]. now rewrite app_nil_r. Qed.

Lemma nsa_audit_cases E req w :
  exists c w' r added acts,
    serve (nsa_audit E req) w = (c, w') /\
    (forall e, c <> Throw e) /\
    sent w' = Some r /\
    trace w' = trace w ++ acts /\
    responses acts = [r] /\
    (acts = [EvRespond r] \/
     exists port inner,
       acts = EvLaunch port :: inner ++ [EvRespond r; EvKill port] /\
       forallb internal inner = true) /\
    incl added (chain (reportsDir E)) /\
    ((status r = 200%nat /\ get (body r) "success" = VBool true /\
      exists text, fs w' = Fs.set_file (report_path_at E w) text
                                       (fs w ++ directories added)) \/
     (status r = 400%nat /\ get (body r) "success" = VUndefined /\
      acts = [EvRespond r] /\ chrome w' = chrome w /\
      fs w' = fs w ++ directories added) \/
     (status r = 500%nat /\ get (body r) "success" = VBool false /\
      (fs w' = fs w ++ directories added \/
       exists text written e,
         write_fault E (report_path_at E w) text = Some (written, e) /\
         fs w' = Fs.set_file (report_path_at E w) (substring 0 written text)
                             (fs w ++ directories added)))).
Proof.
  destruct (truthy (query_url req)) eqn:Ht.
  2:{ rewrite (missing_url E req w Ht).
      do 2 eexists. exists (mkResponse 400 (VObj [("error", VStr missing_url_message)])), [].
      eexists. split; [reflexivity|]. split; [discriminate|].
      cbn [sent trace fs chrome]. split; [reflexivity|]. split; [reflexivity|].
      split; [reflexivity|]. split; [now left|]. split; [intros ? []|].
      right. left. repeat split. apply directories_nil. }
  destruct (toString (query_url req)) as [raw|] eqn:Hraw.
  2:{ rewrite (unconvertible_url E req w Ht Hraw).
      do 2 eexists.
      exists (crashed_response (new_Error E (toString_error (query_url req)))), [].
      eexists. split; [reflexivity|]. split; [discriminate|].
      cbn [sent trace fs chrome]. split; [reflexivity|]. split; [reflexivity|].
      split; [reflexivity|]. split; [now left|]. split; [intros ? []|].
      right. right. split; [reflexivity|]. split; [reflexivity|].
      left. apply directories_nil. }
  destruct (Uri.decodeURIComponent raw) as [decoded|] eqn:Hdec.
  2:{ rewrite (undecodable_url E req w raw Ht Hraw Hdec).
      do 2 eexists. exists (crashed_response (new_Error E "URI malformed")), [].
      eexists. split; [reflexivity|]. split; [discriminate|].
      cbn [sent trace fs chrome]. split; [reflexivity|]. split; [reflexivity|].
      split; [reflexivity|]. split; [now left|]. split; [intros ? []|].
      right. right. split; [reflexivity|]. split; [reflexivity|].
      left. apply directories_nil. }
  assert (Hurl : decoded_url (query_url req) = Some decoded)
    by (unfold decoded_url; now rewrite Hraw).
  destruct (URL_ok E decoded) eqn:Hok.
  2:{ rewrite (invalid_url E req w decoded Ht Hurl Hok).
      do 2 eexists. exists (mkResponse 400 (VObj [("error", VStr invalid_url_message)])), [].
      eexists. split; [reflexivity|]. split; [discriminate|].
      cbn [sent trace fs chrome]. split; [reflexivity|]. split; [reflexivity|].
      split; [reflexivity|]. split; [now left|]. split; [intros ? []|].
      right. left. repeat split. apply directories_nil. }
  assert (Hr : reaches_launch E req decoded) by (repeat split; assumption).
  destruct (launch_result E) as [port|e] eqn:Hl.
  2:{ rewrite (launch_failed E req w decoded e Hr Hl).
      do 2 eexists. exists (crashed_response e), [].
      eexists. split; [reflexivity|]. split; [discriminate|].
      cbn [sent trace fs chrome]. split; [reflexivity|]. split; [reflexivity|].
      split; [reflexivity|]. split; [now left|]. split; [intros ? []|].
      right. right. split; [reflexivity|]. split; [reflexivity|].
      left. apply directories_nil. }
  rewrite (serve_launched E req w decoded port Hr Hl).
  destruct (audit E decoded (locale_of req) port (launched_world w port))
    as [c2 w2] eqn:Ha.
  assert (Hs : sent (launched_world w port) = None) by reflexivity.
  destruct (audit_spec _ _ _ _ _ _ _ Hs Ha) as (_ & acts & Hint & Hshape).
  destruct (audit_store _ _ _ _ _ _ _ Hs Ha) as (added & Hi & Hfs).
  change (report_path_at E (launched_world w port)) with (report_path_at E w) in Hfs.
  change (fs (launched_world w port)) with (fs w) in Hfs.
  change (trace (launched_world w port)) with (trace w ++ [EvLaunch port]) in Hshape.
  destruct c2 as [[]| |e]; [| contradiction |].
  - destruct Hshape as (body & Hb & Hsent & Htr).
    destruct (guarded_normal _ _ _ _ _ _ Ha) as (w3 & Hrun & Hf3 & Hs3 & Ht3 & _).
    rewrite Hrun. exists (Normal tt), w3, (mkResponse 200 body), added.
    exists (EvLaunch port :: acts ++ [EvRespond (mkResponse 200 body); EvKill port]).
    split; [reflexivity|]. split; [discriminate|].
    split; [congruence|].
    split.
    { rewrite Ht3, Htr, <- !app_assoc. reflexivity. }
    split.
    { cbn [responses]. now rewrite responses_app, (responses_internal _ Hint). }
    split; [right; eauto|].
    split; [assumption|]. left.
    split; [reflexivity|]. split; [assumption|].
    destruct Hfs as (text & Hfs). exists text. congruence.
  - destruct Hshape as (Hsent & Htr & _).
    destruct (guarded_throw _ _ _ _ _ _ _ Ha Hsent) as (w3 & Hrun & Hf3 & Hs3 & Ht3 & _).
    rewrite Hrun. exists Return, w3, (failed_response e), added.
    exists (EvLaunch port :: acts ++ [EvRespond (failed_response e); EvKill port]).
    split; [reflexivity|]. split; [discriminate|].
    split; [assumption|].
    split.
    { rewrite Ht3, Htr, <- !app_assoc. reflexivity. }
    split.
    { cbn [responses]. now rewrite responses_app, (responses_internal _ Hint). }
    split; [right; eauto|].
    split; [assumption|]. right. right.
    split; [reflexivity|]. split; [reflexivity|]. rewrite Hf3. exact Hfs.
Qed.

Lemma assoc_directories p added node :
  assoc p (directories added) = Some node -> node = Fs.Dir.
Proof.
  unfold directories. induction added as [|d l IH]; [discriminate|].
  cbn [map assoc]. destruct (d =? p)%string; [congruence | exact IH].
Qed.

(** Adding directories keeps what was there and adds no file. *)
Lemma assoc_with_directories p fs added :
  (forall node, assoc p fs = Some node ->
                assoc p (fs ++ directories added) = Some node) /\
  (forall text, assoc p (fs ++ directories added) = Some (Fs.File text) ->
                assoc p fs = Some (Fs.File text)).
Proof.
  split.
  - intros node H. now rewrite assoc_app, H.
  - intros text. rewrite assoc_app. destruct (assoc p fs); [trivial|].
    intros H. apply assoc_directories in H. discriminate.
Qed.

(** *** The details of an [Error]: [JSON.stringify] with a replacer array *)

Lemma unique_NoDup names : Json.unique names = true <-> NoDup names.
Proof.
  induction names as [|k l IH]; [split; [constructor | reflexivity]|].
  cbn [Json.unique]. rewrite andb_true_iff, negb_true_iff, IH. split.
  - intros [Hk Hl]. constructor; [|assumption]. intros Hin.
    assert (Hex : existsb (String.eqb k) l = true)
      by (apply existsb_exists; exists k; split; [assumption | apply String.eqb_refl]).
    congruence.
  - intros H. inversion H as [|? ? Hk Hl]; subst. split; [|assumption].
    destruct (existsb (String.eqb k) l) eqn:He; [|reflexivity].
    apply existsb_exists in He as (x & Hx & Heq). apply String.eqb_eq in Heq.
    subst x. contradiction.
Qed.

Lemma well_formed_props props :
  Json.well_formed (VObj props) = true <->
  NoDup (map fst props) /\ Forall (fun p => Json.well_formed (snd p) = true) props.
Proof.
  cbn [Json.well_formed]. rewrite andb_true_iff, unique_NoDup.
  enough (H : forall ps,
             (fix each (ps : list (string * value)) : bool :=
                match ps with
                | [] => true
                | (_, x) :: ps' => Json.well_formed x && each ps'
                end) ps = true <->
             Forall (fun p => Json.well_formed (snd p) = true) ps)
    by (now rewrite H).
  induction ps as [|[k x] ps IH]; [split; [constructor | reflexivity]|].
  rewrite andb_true_iff, IH. split.
  - intros [Hx Hps]. now constructor.
  - intros H. inversion H; subst. now split.
Qed.

(** The entries that the replacer array picks from the properties. *)
Lemma project_obj allow props :
  Json.project allow (VObj props) =
  VObj (flat_map (fun k => match assoc k (map (fun p => (fst p, Json.project allow (snd p)))
                                              props) with
                           | Some x => [(k, x)]
                           | None => []
                           end)
                 (nodup string_dec allow)).
Proof.
  assert (H : forall ps,
             (fix each (ps : list (string * value)) : list (string * value) :=
                match ps with
                | [] => []
                | (k, x) :: ps' => (k, Json.project allow x) :: each ps'
                end) ps =
             map (fun p => (fst p, Json.project allow (snd p))) ps).
  { induction ps as [|[k x] ps IH]; [reflexivity|].
    cbn [map fst snd]. now rewrite IH. }
  cbn [Json.project]. now rewrite H.
Qed.

Lemma assoc_map_values {A B} (f : A -> B) k (props : list (string * A)) :
  assoc k (map (fun p => (fst p, f (snd p))) props) = option_map f (assoc k props).
Proof.
  induction props as [|[k' x] props IH]; [reflexivity|].
  cbn [map fst snd assoc]. destruct (k' =? k)%string; [reflexivity | exact IH].
Qed.

Lemma assoc_picked {A} k (P : list (string * A)) names :
  assoc k (flat_map (fun k' => match assoc k' P with
                               | Some x => [(k', x)]
                               | None => []
                               end) names) =
  if in_dec string_dec k names then assoc k P else None.
Proof.
  induction names as [|k' names IH]; [reflexivity|].
  cbn [flat_map]. rewrite assoc_app.
  destruct (String.eqb_spec k' k) as [->|Hne].
  - destruct (in_dec string_dec k (k :: names)) as [_|Hn]; [|exfalso; apply Hn; now left].
    destruct (assoc k P) as [x|] eqn:Hk.
    + cbn [assoc]. now rewrite String.eqb_refl.
    + cbn [assoc]. rewrite IH. now destruct (in_dec string_dec k names).
  - assert (Hhead : assoc k (match assoc k' P with
                             | Some x => [(k', x)]
                             | None => []
                             end) = None).
    { destruct (assoc k' P); [|reflexivity]. cbn [assoc].
      destruct (String.eqb_spec k' k); [contradiction | reflexivity]. }
    rewrite Hhead, IH.
    destruct (in_dec string_dec k names) as [Hi|Hn];
      destruct (in_dec string_dec k (k' :: names)) as [Hi'|Hn']; try reflexivity.
    + exfalso. apply Hn'. now right.
    + destruct Hi' as [->|Hi']; [contradiction | contradiction].
Qed.

Lemma picked_keys {A} (P : list (string * A)) names k :
  In k (map fst (flat_map (fun k' => match assoc k' P with
                                     | Some x => [(k', x)]
                                     | None => []
                                     end) names)) ->
  In k names.
Proof.
  induction names as [|k' names IH]; [intros []|].
  cbn [flat_map]. rewrite map_app, in_app_iff. intros [H|H].
  - destruct (assoc k' P); [|destruct H]. destruct H as [<-|[]]. now left.
  - right. now apply IH.
Qed.

Lemma picked_NoDup {A} (P : list (string * A)) names :
  NoDup names ->
  NoDup (map fst (flat_map (fun k' => match assoc k' P with
                                      | Some x => [(k', x)]
                                      | None => []
                                      end) names)).
Proof.
  induction 1 as [|k names Hk Hn IH]; [constructor|].
  cbn [flat_map]. rewrite map_app.
  destruct (assoc k P) as [x|]; [|exact IH].
  cbn [map fst app]. constructor; [|exact IH].
  intros Hin. apply Hk. now apply picked_keys in Hin.
Qed.

Lemma assoc_in {A} k (props : list (string * A)) x :
  assoc k props = Some x -> In (k, x) props.
Proof.
  induction props as [|[k' y] props IH]; [discriminate|].
  cbn [assoc]. destruct (String.eqb_spec k' k) as [->|_].
  - intros H. injection H as ->. now left.
  - intros H. right. now apply IH.
Qed.

(** What the replacer array leaves of a value is a value. *)
Lemma project_well_formed allow v :
  Json.well_formed v = true -> Json.well_formed (Json.project allow v) = true.
Proof.
  induction v as [| |b|n|s|elems IH|props IH] using JsonFacts.value_induction;
    try (intros H; exact H).
  - cbn [Json.well_formed Json.project]. rewrite !forallb_forall.
    intros H y Hy. apply in_map_iff in Hy as (x & <- & Hx).
    rewrite Forall_forall in IH. apply IH; [assumption|]. now apply H.
  - intros H. apply well_formed_props in H as [_ Hall].
    rewrite project_obj. apply well_formed_props. split.
    + apply picked_NoDup, NoDup_nodup.
    + apply Forall_forall. intros [k x] Hin.
      apply in_flat_map in Hin as (k' & _ & Hin).
      rewrite assoc_map_values in Hin.
      destruct (assoc k' props) as [y|] eqn:Hy; [|destruct Hin].
      cbn [option_map] in Hin. destruct Hin as [Heq|[]]. injection Heq as <- <-.
      apply assoc_in in Hy. rewrite Forall_forall in IH, Hall.
      cbn [snd]. apply (IH _ Hy). exact (Hall _ Hy).
Qed.

Lemma assoc_jsonified k props x :
  assoc k props = Some x -> scalar x = true ->
  get (Json.jsonify (VObj props)) k = x.
Proof.
  intros Hk Hx. cbn [Json.jsonify get].
  induction props as [|[k' y] props IH]; [discriminate|].
  cbn [assoc] in Hk. destruct (String.eqb_spec k' k) as [->|Hne].
  - injection Hk as ->. destruct x as [| |b|[| |lit]|s| |]; try discriminate Hx;
      cbn [Json.jsonify assoc]; now rewrite String.eqb_refl.
  - specialize (IH Hk).
    destruct y; try exact IH; cbn [assoc];
      (destruct (String.eqb_spec k' k); [contradiction | exact IH]).
Qed.

Lemma assoc_jsonified_none k props :
  assoc k props = None -> get (Json.jsonify (VObj props)) k = VUndefined.
Proof.
  intros Hk. cbn [Json.jsonify get].
  induction props as [|[k' y] props IH]; [reflexivity|].
  cbn [assoc] in Hk. destruct (String.eqb_spec k' k) as [->|Hne]; [discriminate|].
  specialize (IH Hk).
  destruct y; try exact IH; cbn [assoc];
    (destruct (String.eqb_spec k' k); [contradiction | exact IH]).
Qed.

Lemma scalar_project allow x : scalar x = true -> Json.project allow x = x.
Proof. destruct x; try discriminate; reflexivity. Qed.

Lemma in_keys {A} k (props : list (string * A)) :
  In k (map fst props) <-> assoc k props <> None.
Proof.
  induction props as [|[k' y] props IH];
    [split; [intros [] | intros H; now apply H]|].
  cbn [map fst assoc In]. destruct (String.eqb_spec k' k) as [->|Hne].
  - split; [discriminate | now left].
  - rewrite <- IH. split; [intros [?|?]; [contradiction | assumption] | now right].
Qed.

(** [details] for an instance of [Error] is text that parses to an object
    with the own properties of the error that hold scalars, and with no
    property that the error does not own. *)
Lemma error_details_text message stack own :
  Json.well_formed (VObj own) = true ->
  exists text v,
    error_details (Error message stack own) = VStr text /\
    Json.parse text = Some v /\
    (forall k x, assoc k own = Some x -> scalar x = true -> get v k = x) /\
    (forall k, assoc k own = None -> get v k = VUndefined).
Proof.
  intros Hw. cbn [error_details getOwnPropertyNames].
  set (kept := Json.project (map fst own) (VObj own)).
  destruct (Json.stringify kept 0) as [text|] eqn:Ht.
  2:{ unfold kept in Ht. rewrite project_obj in Ht. discriminate. }
  exists text, (Json.jsonify kept). split; [reflexivity|].
  split; [apply (JsonFacts.parse_stringify _ 0); [now apply project_well_formed | exact Ht]|].
  unfold kept. rewrite project_obj. split.
  - intros k x Hk Hx. apply assoc_jsonified; [|assumption].
    rewrite assoc_picked, assoc_map_values, Hk. cbn [option_map].
    rewrite (scalar_project _ _ Hx).
    destruct (in_dec string_dec k (nodup string_dec (map fst own))) as [_|Hn];
      [reflexivity|].
    exfalso. apply Hn. apply nodup_In, in_keys. rewrite Hk. discriminate.
  - intros k Hk. apply assoc_jsonified_none.
    rewrite assoc_picked, assoc_map_values, Hk.
    now destruct (in_dec string_dec k (nodup string_dec (map fst own))).
Qed.

End AuditFacts.

(* ------------------------------------------------------------------ *)
(** ** Start-up *)

Module BootFacts.
Import Js Eff Server Spec Names Cover Boot StrFacts PathFacts ReportFacts.
Local Open Scope list_scope.

(** *** [parseInt] on decimal numerals *)

Lemma to_uint_digits n :
  exists c rest,
    NilEmpty.string_of_uint (Nat.to_uint n) = String c rest /\
    In c ["0"; "1"; "2"; "3"; "4"; "5"; "6"; "7"; "8"; "9"]%char.
Proof.
  destruct (Nat.to_uint n) as [|d|d|d|d|d|d|d|d|d|d] eqn:Hd;
    cbn [NilEmpty.string_of_uint];
    try (do 2 eexists; split; [reflexivity|]; cbn [In]; tauto).
  exfalso. pose proof (Unsigned.of_to n) as H. rewrite Hd in H.
  cbn in H. subst n. discriminate.
Qed.

Lemma trim_start_digit c rest :
  In c ["0"; "1"; "2"; "3"; "4"; "5"; "6"; "7"; "8"; "9"]%char ->
  trim_start (String c rest) = String c rest.
Proof.
  intros H. cbn [In] in H.
  repeat (destruct H as [<-|H];
          [cbn [trim_start]; change (space1 _) with false; cbv iota;
           destruct rest as [|b [|c2 r]]; try reflexivity;
           unfold space2, space3; cbn [nat_of_ascii]; reflexivity|]).
  contradiction.
Qed.

Ltac read_digit :=
  cbn [leading_digits]; unfold digit_value;
  match goal with
  | |- context [is_digit ?c] => change (is_digit c) with true
  end;
  cbv iota;
  match goal with
  | |- context [(N_of_ascii ?c - 48)%N] =>
      let v := eval vm_compute in (N_of_ascii c - 48)%N in
      change (N_of_ascii c - 48)%N with v
  end.

Lemma leading_digits_uint_app d rest a :
  leading_digits (NilEmpty.string_of_uint d ++ rest) (Some (N.of_nat a)) =
  leading_digits rest (Some (N.of_nat (Nat.of_uint_acc d a))).
Proof.
  revert a. induction d; intros a; cbn [NilEmpty.string_of_uint Nat.of_uint_acc append];
    [reflexivity|..];
    read_digit; rewrite <- IHd; f_equal; f_equal;
    rewrite Nat.tail_mul_spec; lia.
Qed.

Lemma leading_digits_stop rest acc :
  match rest with
  | String c _ => is_digit c = false
  | EmptyString => True
  end ->
  leading_digits rest acc = acc.
Proof.
  destruct rest as [|c rest]; [reflexivity|]. intros H.
  cbn [leading_digits]. unfold digit_value. now rewrite H.
Qed.

(** The digits of a printed natural number are read as that number,
    whatever follows them that is not a digit. *)
Lemma leading_digits_string_of_nat n rest :
  match rest with
  | String c _ => is_digit c = false
  | EmptyString => True
  end ->
  leading_digits (string_of_nat n ++ rest) None = Some (N.of_nat n).
Proof.
  intros Hrest. unfold string_of_nat.
  destruct (to_uint_digits n) as (c & rest0 & Hs & Hc).
  destruct (Nat.to_uint n) as [|d|d|d|d|d|d|d|d|d|d] eqn:Hd;
    try discriminate Hs;
    pose proof (Unsigned.of_to n) as Hn; rewrite Hd in Hn;
    unfold Nat.of_uint in Hn; cbn [Nat.of_uint_acc] in Hn;
    cbn [NilEmpty.string_of_uint append]; read_digit;
    match goal with
    | |- leading_digits _ (Some ?x) = _ =>
        let k := eval vm_compute in (N.to_nat x) in
        change x with (N.of_nat k)
    end;
    rewrite leading_digits_uint_app, (leading_digits_stop _ _ Hrest);
    rewrite <- Hn; reflexivity.
Qed.

(** A natural number up to 2^53 is a Number. *)
Lemma nearest_double_small m :
  (m <= 9007199254740992)%N -> nearest_double m = Some m.
Proof.
  intros Hm. unfold nearest_double.
  destruct (N.size m <=? 53)%N eqn:Hs; [reflexivity|].
  apply N.leb_gt in Hs.
  assert (Hp : (2 ^ 54 <= 2 ^ N.size m)%N) by (apply N.pow_le_mono_r; lia).
  pose proof (N.size_le m) as Hle.
  assert (H54 : (2 ^ 54 = 18014398509481984)%N) by reflexivity.
  assert (Heq : m = 9007199254740992%N).
  { rewrite H54 in Hp. rewrite N.succ_double_spec in Hle.
    set (P := (2 ^ N.size m)%N) in *. clearbody P. lia. }
  subst m. reflexivity.
Qed.

Lemma parseInt_numeral n rest :
  match rest with
  | String c _ => is_digit c = false
  | EmptyString => True
  end ->
  parseInt (string_of_nat n ++ rest) = to_number false (Some (N.of_nat n)).
Proof.
  intros Hrest. unfold parseInt.
  pose proof (leading_digits_string_of_nat n rest Hrest) as Hv.
  unfold string_of_nat in *.
  destruct (to_uint_digits n) as (c & rest0 & Hs & Hc).
  rewrite Hs in *. cbn [append] in *. rewrite (trim_start_digit _ _ Hc).
  cbn [In] in Hc.
  repeat (destruct Hc as [<-|Hc]; [rewrite Hv; reflexivity|]).
  contradiction.
Qed.

(** Parsing a printed natural number up to 2^53 gives the number back,
    whatever follows it that is not a digit. *)
Lemma parseInt_string_of_nat n rest :
  (N.of_nat n <= 9007199254740992)%N ->
  match rest with
  | String c _ => is_digit c = false
  | EmptyString => True
  end ->
  parseInt (string_of_nat n ++ rest) = Integer false (N.of_nat n).
Proof.
  intros Hn Hrest. rewrite (parseInt_numeral n rest Hrest).
  unfold to_number. now rewrite nearest_double_small.
Qed.

Lemma string_of_nat_nonempty n : string_of_nat n <> ""%string.
Proof.
  unfold string_of_nat. destruct (to_uint_digits n) as (c & rest & -> & _).
  discriminate.
Qed.

(** *** The directory made at start-up *)

Lemma ensure_reports_present E w node :
  Fs.resolve (fs w) (reportsDir E) = Some node ->
  ensure_reports E w = (Normal tt, w).
Proof.
  intros Hd. unfold ensure_reports, existsSync, get_fs, when, ret, bind.
  rewrite Hd. reflexivity.
Qed.

Lemma ensure_reports_made E w :
  Fs.resolve (fs w) (reportsDir E) = None ->
  io_fault E Fs.OpMkdir (reportsDir E) = None ->
  Fs.resolve (fs w) (Fs.dirname (reportsDir E)) = Some Fs.Dir ->
  ensure_reports E w =
  (Normal tt,
   mkWorld (fs w ++ [(reportsDir E, Fs.Dir)]) (console w) (chrome w)
           (clock_reads w) (sent w) (trace w ++ [EvMkdir (reportsDir E)])).
Proof.
  intros Hd Hf Hp.
  unfold ensure_reports, mkdirSync_single, existsSync, faulty, get_fs, set_fs,
    emit, modify, when, throw, ret, bind.
  rewrite Hd. cbn [negb]. rewrite Hf. cbn [fs]. rewrite Hd, Hp. reflexivity.
Qed.

Lemma ensure_reports_orphan E w :
  Fs.resolve (fs w) (reportsDir E) = None ->
  io_fault E Fs.OpMkdir (reportsDir E) = None ->
  Fs.resolve (fs w) (Fs.dirname (reportsDir E)) = None ->
  ensure_reports E w =
  (Throw (fs_error E Fs.ENOENT "mkdir" (Some (reportsDir E))), w).
Proof.
  intros Hd Hf Hp.
  unfold ensure_reports, mkdirSync_single, existsSync, faulty, get_fs, set_fs,
    emit, modify, when, throw, ret, bind.
  rewrite Hd. cbn [negb]. rewrite Hf. cbn [fs]. rewrite Hd, Hp. reflexivity.
Qed.

Lemma entry_name_self dir :
  (dir =? "/")%string = false -> Fs.entry_name dir dir = None.
Proof.
  intros Hd. destruct (Fs.entry_name dir dir) as [name|] eqn:He; [|reflexivity].
  destruct (entry_name_some _ _ _ Hd He) as (H & _).
  apply (f_equal String.length) in H. rewrite !length_append in H.
  cbn [String.length] in H. lia.
Qed.

End BootFacts.

(* ------------------------------------------------------------------ *)
(** ** The test harness *)

Module HarnessFacts.
Import Js Eff Server Harness.
Local Open Scope list_scope.

(** *** [waitForServer] *)

Lemma attempts_unanswered fetch url remaining p :
  answered fetch url (fetches p) = false ->
  attempts fetch url (S remaining) p =
  attempts fetch url remaining (mkProgress (S (fetches p)) (slept p + 1000)%N).
Proof.
  unfold answered. cbn [attempts].
  destruct (fetch url (fetches p)) as [r|e]; [|reflexivity].
  now intros ->.
Qed.

Lemma attempts_first fetch url k :
  forall remaining p,
    (k < remaining)%nat ->
    answered fetch url (fetches p + k) = true ->
    (forall j, (j < k)%nat -> answered fetch url (fetches p + j) = false) ->
    attempts fetch url remaining p =
    (true, mkProgress (fetches p + k + 1) (slept p + 1000 * N.of_nat k)%N).
Proof.
  induction k as [|k IH]; intros remaining p Hlt Hk Hmin.
  - destruct remaining as [|r]; [lia|]. rewrite Nat.add_0_r in Hk.
    unfold answered in Hk. cbn [attempts].
    destruct (fetch url (fetches p)) as [resp|e]; [|discriminate].
    rewrite Hk. f_equal. f_equal; [lia|]. cbn. lia.
  - destruct remaining as [|r]; [lia|].
    rewrite attempts_unanswered.
    2:{ specialize (Hmin 0%nat ltac:(lia)). now rewrite Nat.add_0_r in Hmin. }
    rewrite IH; cbn [fetches slept].
    + f_equal. f_equal; lia.
    + lia.
    + now rewrite Nat.add_succ_comm.
    + intros j Hj. rewrite Nat.add_succ_comm. apply Hmin. lia.
Qed.

Lemma attempts_none fetch url remaining :
  forall p,
    (forall j, (j < remaining)%nat -> answered fetch url (fetches p + j) = false) ->
    attempts fetch url remaining p =
    (false, mkProgress (fetches p + remaining)
                       (slept p + 1000 * N.of_nat remaining)%N).
Proof.
  induction remaining as [|r IH]; intros p Hnone.
  - cbn [attempts]. f_equal. destruct p as [f s]. cbn [fetches slept].
    f_equal; [lia | cbn; lia].
  - rewrite attempts_unanswered.
    2:{ specialize (Hnone 0%nat ltac:(lia)). now rewrite Nat.add_0_r in Hnone. }
    rewrite IH; cbn [fetches slept].
    + f_equal. f_equal; lia.
    + intros j Hj. rewrite Nat.add_succ_comm. apply Hnone. lia.
Qed.

(** *** [findAvailablePort] *)

Lemma findAvailablePort_skips listen k :
  forall fuel start,
    (forall j, (j < k)%nat ->
               exists e, listen (start + j)%nat = Refused "EADDRINUSE" e) ->
    findAvailablePort listen (k + fuel) start =
    findAvailablePort listen fuel (start + k).
Proof.
  induction k as [|k IH]; intros fuel start Hbusy.
  - now rewrite Nat.add_0_r.
  - cbn [Nat.add findAvailablePort].
    destruct (Hbusy 0%nat ltac:(lia)) as (e & He). rewrite Nat.add_0_r in He.
    rewrite He. cbn [String.eqb Ascii.eqb Bool.eqb].
    rewrite IH.
    + f_equal. lia.
    + intros j Hj. destruct (Hbusy (S j) ltac:(lia)) as (e' & He').
      exists e'. rewrite <- He'. f_equal. lia.
Qed.

End HarnessFacts.

(* ------------------------------------------------------------------ *)
(** ** Further behaviour of the routes, the start-up and the harness *)

Module Behaviour.
Import Js Eff Server Spec Names Cover Boot Harness Scenario Cases.
Import StrFacts JsonFacts ServerFacts ListFacts PathFacts SortFacts.
Import ReportFacts AuditFacts BootFacts HarnessFacts.
Local Open Scope list_scope.

Lemma actions_extension handler w w' c acts :
  serve handler w = (c, w') -> trace w' = trace w ++ acts ->
  actions handler w = acts.
Proof.
  intros Hs Ht. unfold actions. rewrite Hs. cbn [snd]. rewrite Ht.
  apply skipn_extension.
Qed.


(** *** [GET /reports] *)

(** X1. With the reports directory in place and readable, [GET /reports]
    answers 200 with the names of the entries of that directory that end in
    [.json]: every such entry as often as the directory has it, and nothing
    else.  The request is answered once and leaves the store as it was. *)
Theorem list_answers_the_json_entries E w :
  Fs.resolve (fs w) (reportsDir E) = Some Fs.Dir ->
  io_fault E Fs.OpReaddir (reportsDir E) = None ->
  exists files,
    answer (list_reports E) w = Some (mkResponse 200 (VArr (map VStr files))) /\
    Permutation files
      (filter (fun file => Str.endsWith file ".json")
              (Fs.entries (reportsDir E) (fs w))) /\
    actions (list_reports E) w =
      [EvRespond (mkResponse 200 (VArr (map VStr files)))] /\
    fs (snd (serve (list_reports E) w)) = fs w.
Proof.
  intros Hd Hf. pose proof (list_reports_run E w Hd Hf) as Hrun. cbv zeta in Hrun.
  eexists. split; [unfold answer; rewrite Hrun; reflexivity|].
  split; [apply sort_permutation|].
  split; [|now rewrite Hrun].
  eapply actions_extension; [exact Hrun | reflexivity].
Qed.

Lemma list_answers_the_json_entries_witness :
  Fs.resolve (fs (after 3)) (reportsDir platform) = Some Fs.Dir /\
  io_fault platform Fs.OpReaddir (reportsDir platform) = None /\
  exists files,
    answer (list_reports platform) (after 3) =
      Some (mkResponse 200 (VArr (map VStr files))) /\
    Permutation files
      (filter (fun file => Str.endsWith file ".json")
              (Fs.entries (reportsDir platform) (fs (after 3)))) /\
    actions (list_reports platform) (after 3) =
      [EvRespond (mkResponse 200 (VArr (map VStr files)))] /\
    fs (snd (serve (list_reports platform) (after 3))) = fs (after 3).
Proof.
  split; [vm_compute; reflexivity|]. split; [reflexivity|].
  apply (list_answers_the_json_entries platform (after 3));
    [vm_compute; reflexivity | reflexivity].
Defined.

(** X2. The order of the list.  A name comes before another only if the text
    after its last hyphen, with the first [.json] removed, is not smaller;
    names that agree on that text keep the order in which the directory
    gives them.  (The texts are compared by code units, which is how
    [localeCompare] orders texts of digits and capital letters, as in the
    names of reports.) *)
Theorem list_is_ordered_by_the_last_segment E w :
  Fs.resolve (fs w) (reportsDir E) = Some Fs.Dir ->
  io_fault E Fs.OpReaddir (reportsDir E) = None ->
  forallb (fun file => collates_by_code_unit (time_of file))
          (filter (fun file => Str.endsWith file ".json")
                  (Fs.entries (reportsDir E) (fs w))) = true ->
  exists files,
    answer (list_reports E) w = Some (mkResponse 200 (VArr (map VStr files))) /\
    StronglySorted (fun a b => (time_of b ?= time_of a)%string <> Gt) files /\
    forall key,
      filter (fun file => (time_of file =? key)%string) files =
      filter (fun file => (time_of file =? key)%string)
        (filter (fun file => Str.endsWith file ".json")
                (Fs.entries (reportsDir E) (fs w))).
Proof.
  intros Hd Hf _. pose proof (list_reports_run E w Hd Hf) as Hrun. cbv zeta in Hrun.
  eexists. split; [unfold answer; rewrite Hrun; reflexivity|]. split.
  - apply newest_first_sorted.
  - intros key. apply (sort_stable newest_first newest_first_total newest_first_trans).
    intros a b. apply newest_first_tied.
Qed.

Lemma list_is_ordered_by_the_last_segment_witness :
  (Fs.resolve (fs (after 3)) (reportsDir platform) = Some Fs.Dir /\
   io_fault platform Fs.OpReaddir (reportsDir platform) = None /\
   forallb (fun file => collates_by_code_unit (time_of file))
           (filter (fun file => Str.endsWith file ".json")
                   (Fs.entries (reportsDir platform) (fs (after 3)))) = true) /\
  exists files,
    answer (list_reports platform) (after 3) =
      Some (mkResponse 200 (VArr (map VStr files))) /\
    StronglySorted (fun a b => (time_of b ?= time_of a)%string <> Gt) files /\
    forall key,
      filter (fun file => (time_of file =? key)%string) files =
      filter (fun file => (time_of file =? key)%string)
        (filter (fun file => Str.endsWith file ".json")
                (Fs.entries (reportsDir platform) (fs (after 3)))).
Proof.
  split; [split; [vm_compute; reflexivity|]; split; [reflexivity|];
          vm_compute; reflexivity|].
  apply (list_is_ordered_by_the_last_segment platform (after 3));
    [vm_compute; reflexivity | reflexivity | vm_compute; reflexivity].
Defined.

(** X3. When the reports directory is missing, [GET /reports] makes it, with
    the directories above it that are missing, and then lists it: on a store
    that has no entry below that path the answer is 200 with the empty
    array.  Nothing but directories is added to the store. *)
Theorem list_makes_the_missing_directory E w :
  Path.isAbsolute (cwd E) = true ->
  Fs.resolve (fs w) (reportsDir E) = None ->
  unobstructed (fs w) (reportsDir E) = true ->
  io_fault E Fs.OpMkdir (reportsDir E) = None ->
  io_fault E Fs.OpReaddir (reportsDir E) = None ->
  Fs.entries (reportsDir E) (fs w) = [] ->
  answer (list_reports E) w = Some (mkResponse 200 (VArr [])) /\
  actions (list_reports E) w =
    [EvMkdir (reportsDir E); EvRespond (mkResponse 200 (VArr []))] /\
  Fs.resolve (fs (snd (serve (list_reports E) w))) (reportsDir E) = Some Fs.Dir /\
  exists added,
    fs (snd (serve (list_reports E) w)) = fs w ++ directories added /\
    incl added (chain (reportsDir E)).
Proof.
  intros Habs Hd Hu Hm Hf He.
  destruct (list_reports_makes_directory E w Habs Hd Hu Hm Hf)
    as (fs' & Hrun & Hres & Hadd).
  cbv zeta in Hrun. rewrite He in Hrun. cbn [filter] in Hrun.
  change (JsArray.sort newest_first []) with (@nil string) in Hrun.
  cbn [map] in Hrun.
  split; [unfold answer; rewrite Hrun; reflexivity|].
  split; [eapply actions_extension; [exact Hrun | reflexivity]|].
  rewrite Hrun. cbn [snd fs]. split; assumption.
Qed.

Lemma list_makes_the_missing_directory_witness :
  (Path.isAbsolute (cwd platform) = true /\
   Fs.resolve (fs world0) (reportsDir platform) = None /\
   unobstructed (fs world0) (reportsDir platform) = true /\
   io_fault platform Fs.OpMkdir (reportsDir platform) = None /\
   io_fault platform Fs.OpReaddir (reportsDir platform) = None /\
   Fs.entries (reportsDir platform) (fs world0) = []) /\
  answer (list_reports platform) world0 = Some (mkResponse 200 (VArr [])) /\
  actions (list_reports platform) world0 =
    [EvMkdir (reportsDir platform); EvRespond (mkResponse 200 (VArr []))] /\
  Fs.resolve (fs (snd (serve (list_reports platform) world0))) (reportsDir platform)
    = Some Fs.Dir /\
  exists added,
    fs (snd (serve (list_reports platform) world0)) = fs world0 ++ directories added /\
    incl added (chain (reportsDir platform)).
Proof.
  split; [repeat split; vm_compute; reflexivity|].
  apply (list_makes_the_missing_directory platform world0);
    vm_compute; reflexivity.
Defined.

(** X4. Whatever the platform and the store, [GET /reports] ends normally
    and is answered exactly once: 200 with an array of strings, or 500 with
    [{error: 'Failed to list reports'}].  It adds at most directories on the
    way to the reports directory to the store, and leaves Chrome and
    the clock alone. *)
Theorem list_is_always_answered E w :
  exists r added,
    fst (serve (list_reports E) w) = Normal tt /\
    answer (list_reports E) w = Some r /\
    responses (actions (list_reports E) w) = [r] /\
    (r = mkResponse 500 (VObj [("error", VStr "Failed to list reports")]) \/
     exists files, r = mkResponse 200 (VArr (map VStr files))) /\
    fs (snd (serve (list_reports E) w)) = fs w ++ directories added /\
    incl added (chain (reportsDir E)) /\
    chrome (snd (serve (list_reports E) w)) = chrome w /\
    clock_reads (snd (serve (list_reports E) w)) = clock_reads w.
Proof.
  destruct (list_reports_cases E w)
    as (w' & r & Hrun & Hc & Hk & Hs & (added & Hfs & Hi) & Ht & Hr).
  exists r, added. unfold answer, actions. rewrite Hrun. cbn [snd].
  split; [reflexivity|]. split; [assumption|].
  split.
  { destruct Ht as [-> | ->]; rewrite skipn_extension; reflexivity. }
  split.
  { destruct Hr as [->|(-> & _)]; [now left | right; eexists; reflexivity]. }
  repeat split; assumption.
Qed.

(** X5. A regular file with the name of the reports directory is taken for
    the directory by the existence test: the directory is not made, the
    listing fails and the answer is 500 [{error: 'Failed to list reports'}],
    the store unchanged. *)
Theorem list_with_a_file_in_place E w content :
  Fs.resolve (fs w) (reportsDir E) = Some (Fs.File content) ->
  answer (list_reports E) w =
    Some (mkResponse 500 (VObj [("error", VStr "Failed to list reports")])) /\
  actions (list_reports E) w =
    [EvRespond (mkResponse 500 (VObj [("error", VStr "Failed to list reports")]))] /\
  fs (snd (serve (list_reports E) w)) = fs w.
Proof.
  intros Hd. destruct (list_reports_not_a_directory E w content Hd) as (e & Hrun).
  cbv zeta in Hrun.
  split; [unfold answer; rewrite Hrun; reflexivity|].
  split; [eapply actions_extension; [exact Hrun | reflexivity]|].
  now rewrite Hrun.
Qed.

Lemma list_with_a_file_in_place_witness :
  Fs.resolve (fs blocked_world) (reportsDir platform) = Some (Fs.File "not a directory") /\
  answer (list_reports platform) blocked_world =
    Some (mkResponse 500 (VObj [("error", VStr "Failed to list reports")])) /\
  actions (list_reports platform) blocked_world =
    [EvRespond (mkResponse 500 (VObj [("error", VStr "Failed to list reports")]))] /\
  fs (snd (serve (list_reports platform) blocked_world)) = fs blocked_world.
Proof.
  split; [vm_compute; reflexivity|].
  apply (list_with_a_file_in_place platform blocked_world "not a directory").
  vm_compute; reflexivity.
Defined.

(** *** [GET /reports/:filename] *)

(** X6. Whatever the platform, the store and the name, the get route never
    throws and is answered exactly once, with status 200, with 404
    [{error: 'Report not found'}] or with 500
    [{error: 'Failed to read report'}]; it changes neither the store nor
    the set of live Chrome processes, and does not read the clock. *)
Theorem get_is_always_answered_and_changes_nothing E name w :
  exists r,
    answer (get_report E name) w = Some r /\
    actions (get_report E name) w = [EvRespond r] /\
    (forall e, fst (serve (get_report E name) w) <> Throw e) /\
    (status r = 200%nat \/
     r = mkResponse 404 (VObj [("error", VStr "Report not found")]) \/
     r = mkResponse 500 (VObj [("error", VStr "Failed to read report")])) /\
    fs (snd (serve (get_report E name) w)) = fs w /\
    chrome (snd (serve (get_report E name) w)) = chrome w /\
    clock_reads (snd (serve (get_report E name) w)) = clock_reads w.
Proof.
  destruct (get_report_cases E name w)
    as (c & w' & r & Hrun & Hc & Hfs & Hch & Hk & Hs & Ht & Hr).
  exists r. unfold answer. rewrite (actions_extension _ _ _ _ _ Hrun Ht), Hrun.
  cbn [fst snd]. repeat split; try assumption.
  intros e. destruct Hc as [-> | ->]; discriminate.
Qed.





(** X9. Two more ways in which the get route fails with 500
    [{error: 'Failed to read report'}]: the path names a directory, or it
    names something that the platform then fails to read. *)
Theorem get_of_a_directory_is_a_read_failure E w name :
  Fs.resolve (fs w) (Path.join (reportsDir E) name) = Some Fs.Dir \/
  (Fs.resolve (fs w) (Path.join (reportsDir E) name) <> None /\
   exists e, io_fault E Fs.OpRead (Path.join (reportsDir E) name) = Some e) ->
  answer (get_report E name) w =
    Some (mkResponse 500 (VObj [("error", VStr "Failed to read report")])).
Proof.
  intros [Hd|(Hd & e & Hf)].
  - now apply get_report_directory.
  - now apply (get_report_unreadable E w name e).
Qed.

Lemma get_of_a_directory_is_a_read_failure_witness :
  Fs.resolve (fs nested_world) (Path.join (reportsDir platform) "old.json") = Some Fs.Dir /\
  answer (get_report platform "old.json") nested_world =
    Some (mkResponse 500 (VObj [("error", VStr "Failed to read report")])) /\
  answer (get_report platform ".") nested_world =
    Some (mkResponse 500 (VObj [("error", VStr "Failed to read report")])).
Proof.
  split; [vm_compute; reflexivity|].
  split; apply (get_of_a_directory_is_a_read_failure platform nested_world);
    left; vm_compute; reflexivity.
Defined.

(** *** [GET /nsa-audit] *)

(** X10. What is enough for an audit to succeed.  With an absolute working
    directory, a request that gets a result from lighthouse which passes
    validation is answered 200 when the reports directory is there or can be
    made, no directory has the name of the report and the write does not
    fail, neither at the opening of the file nor midway; the inner report
    always serializes.  The body echoes the decoded
    URL and the locale ([en] unless the query gives one), carries the inner
    report and the path of the report under [/reports/]; its [timestamp] is
    a second reading of the clock, the name of the report the first.  The
    actions are, in order: launch, a wait of ten seconds, lighthouse, the
    directory if it had to be made, the write, the response, the kill. *)
Theorem audit_succeeds E req w decoded port results :
  Path.isAbsolute (cwd E) = true ->
  reaches_result E req decoded port results ->
  verdict results = None ->
  directory_available E (fs w) = true ->
  io_fault E Fs.OpWrite (report_path_at E w) = None ->
  written_in_full E (report_path_at E w) (get results "lhr") = true ->
  Fs.resolve (fs w) (report_path_at E w) <> Some Fs.Dir ->
  let r := mkResponse 200
             (VObj [("success", VBool true);
                    ("url", VStr decoded);
                    ("timestamp",
                     VStr (Date.toISOString (clock E (S (clock_reads w)))));
                    ("locale", locale_of req);
                    ("lighthouseResult", get results "lhr");
                    ("reportPath",
                     VStr ("/reports/" ++ report_name (clock E (clock_reads w))))]) in
  answer (nsa_audit E req) w = Some r /\
  actions (nsa_audit E req) w =
    [EvLaunch port; EvWait 10000; EvAudit decoded port] ++
    mkdir_actions E (fs w) ++
    [EvWrite (report_path_at E w); EvRespond r; EvKill port] /\
  report_path_at E w =
    (reportsDir E ++ "/" ++ report_name (clock E (clock_reads w)))%string /\
  (exists text,
     Json.stringify (get results "lhr") 2 = Some text /\
     Fs.resolve (fs (snd (serve (nsa_audit E req) w))) (report_path_at E w) =
       Some (Fs.File text)) /\
  chrome (snd (serve (nsa_audit E req) w)) = chrome_after E port (port :: chrome w).
Proof.
  intros Habs Hreach Hv Hav Hw Hfull Hnd. cbv zeta.
  destruct (audit_success_run E req w decoded port results Habs Hreach Hv Hav Hw
              Hfull Hnd)
    as (added & text & w3 & Hrun & Htext & Hfs & _ & Hs & Ht & Hc & _).
  destruct (report_path_proper E _ Habs
              (report_name_proper (clock E (clock_reads w)))) as (Hjoin & Hres & _ & _).
  assert (Hpath : report_path_at E w =
                  (reportsDir E ++ "/" ++ report_name (clock E (clock_reads w)))%string)
    by exact Hjoin.
  split; [unfold answer; rewrite Hrun; exact Hs|].
  split; [eapply actions_extension; [exact Hrun | exact Ht]|].
  split; [exact Hpath|].
  rewrite Hrun. cbn [snd]. split; [|exact Hc].
  exists text. split; [exact Htext|].
  rewrite Hfs, Hpath, Hres. apply assoc_set_file.
Qed.

Lemma audit_succeeds_witness :
  (Path.isAbsolute (cwd platform) = true /\
   reaches_result platform plain_request "https://example.com/" 9222%N
                  (VObj [("lhr", lhr)]) /\
   verdict (VObj [("lhr", lhr)]) = None /\
   directory_available platform (fs world0) = true /\
   io_fault platform Fs.OpWrite (report_path_at platform world0) = None /\
   written_in_full platform (report_path_at platform world0)
                   (get (VObj [("lhr", lhr)]) "lhr") = true /\
   Fs.resolve (fs world0) (report_path_at platform world0) <> Some Fs.Dir) /\
  let r := mkResponse 200
             (VObj [("success", VBool true);
                    ("url", VStr "https://example.com/");
                    ("timestamp", VStr (Date.toISOString t1));
                    ("locale", VStr "de");
                    ("lighthouseResult", lhr);
                    ("reportPath", VStr ("/reports/" ++ report_name t1))]) in
  answer (nsa_audit platform plain_request) world0 = Some r /\
  actions (nsa_audit platform plain_request) world0 =
    [EvLaunch 9222; EvWait 10000; EvAudit "https://example.com/" 9222] ++
    mkdir_actions platform (fs world0) ++
    [EvWrite (report_path_at platform world0); EvRespond r; EvKill 9222] /\
  report_path_at platform world0 =
    (reportsDir platform ++ "/" ++ report_name t1)%string /\
  (exists text,
     Json.stringify lhr 2 = Some text /\
     Fs.resolve (fs (snd (serve (nsa_audit platform plain_request) world0)))
                (report_path_at platform world0) = Some (Fs.File text)) /\
  chrome (snd (serve (nsa_audit platform plain_request) world0)) =
    chrome_after platform 9222 (9222%N :: chrome world0).
Proof.
  split.
  { split; [reflexivity|]. split; [repeat split; vm_compute; reflexivity|].
    split; [reflexivity|]. split; [reflexivity|]. split; [reflexivity|].
    split; [reflexivity|]. vm_compute. discriminate. }
  apply (audit_succeeds platform plain_request world0 "https://example.com/"
           9222%N (VObj [("lhr", lhr)]));
    try (vm_compute; reflexivity).
  - repeat split; vm_compute; reflexivity.
  - vm_compute. discriminate.
Defined.

(** X11. Whatever the platform, the store and the request, the audit route
    does not throw and sends exactly one response: 200 with [success: true],
    400 with no [success] field (the two answers to bad input), or 500 with
    [success: false].  Either the response is all that happens, or Chrome is
    launched once and killed once, the kill after the response and of the
    port that was launched. *)
Theorem every_audit_request_is_answered_once E req w :
  exists r,
    answer (nsa_audit E req) w = Some r /\
    responses (actions (nsa_audit E req) w) = [r] /\
    (forall e, fst (serve (nsa_audit E req) w) <> Throw e) /\
    (actions (nsa_audit E req) w = [EvRespond r] \/
     exists port inner,
       actions (nsa_audit E req) w =
         EvLaunch port :: inner ++ [EvRespond r; EvKill port] /\
       forallb internal inner = true) /\
    ((status r = 200%nat /\ get (body r) "success" = VBool true) \/
     (status r = 400%nat /\ get (body r) "success" = VUndefined /\
      actions (nsa_audit E req) w = [EvRespond r] /\
      chrome (snd (serve (nsa_audit E req) w)) = chrome w) \/
     (status r = 500%nat /\ get (body r) "success" = VBool false)).
Proof.
  destruct (nsa_audit_cases E req w)
    as (c & w' & r & added & acts & Hrun & Hc & Hs & Ht & Hr & Hshape & _ & Hkind).
  exists r. unfold answer.
  rewrite (actions_extension _ _ _ _ _ Hrun Ht), Hrun. cbn [fst snd].
  split; [assumption|]. split; [assumption|]. split; [assumption|].
  split; [assumption|].
  destruct Hkind as [(H1 & H2 & _) | [(H1 & H2 & H3 & H4 & _) | (H1 & H2 & _)]];
    [left | right; left | right; right]; repeat split; assumption.
Qed.

(** X12. What an audit request may change in the store, whatever the platform
    and however the request ends: every entry other than the report of this
    request stays as it was, and no other file appears.  A request that is
    not answered 200 leaves every file as it was and adds none, with one
    exception: when the writing of the report stops short, the answer is 500
    and the report file is left with the bytes written before the
    failure. *)
Theorem audit_changes_only_its_report E req w :
  let w' := snd (serve (nsa_audit E req) w) in
  (forall p node, p <> report_path_at E w ->
     assoc p (fs w) = Some node -> assoc p (fs w') = Some node) /\
  (forall p text, p <> report_path_at E w ->
     assoc p (fs w') = Some (Fs.File text) -> assoc p (fs w) = Some (Fs.File text)) /\
  (forall r, answer (nsa_audit E req) w = Some r -> status r <> 200%nat ->
     (forall p text,
        assoc p (fs w') = Some (Fs.File text) <-> assoc p (fs w) = Some (Fs.File text)) \/
     (status r = 500%nat /\
      exists text written e,
        write_fault E (report_path_at E w) text = Some (written, e) /\
        assoc (report_path_at E w) (fs w') =
          Some (Fs.File (substring 0 written text)))).
Proof.
  cbv zeta.
  destruct (nsa_audit_cases E req w)
    as (c & w' & r & added & acts & Hrun & _ & Hs & _ & _ & _ & _ & Hkind).
  unfold answer. rewrite Hrun. cbn [snd]. rewrite Hs.
  assert (Hsame : fs w' = fs w ++ directories added ->
    (forall p node, assoc p (fs w) = Some node -> assoc p (fs w') = Some node) /\
    (forall p text, assoc p (fs w') = Some (Fs.File text) <->
                    assoc p (fs w) = Some (Fs.File text))).
  { intros ->. split.
    - intros p node. apply assoc_with_directories.
    - intros p text. split; apply assoc_with_directories. }
  assert (Hset : forall content,
    fs w' = Fs.set_file (report_path_at E w) content (fs w ++ directories added) ->
    (forall p node, p <> report_path_at E w ->
       assoc p (fs w) = Some node -> assoc p (fs w') = Some node) /\
    (forall p text, p <> report_path_at E w ->
       assoc p (fs w') = Some (Fs.File text) -> assoc p (fs w) = Some (Fs.File text))).
  { intros content ->. split.
    - intros p node Hp Hn. rewrite assoc_set_file_other by assumption.
      now apply assoc_with_directories.
    - intros p text Hp. rewrite assoc_set_file_other by assumption.
      apply assoc_with_directories. }
  destruct Hkind as [(H200 & _ & text0 & Hfs)
                    |[(H400 & _ & _ & _ & Hfs)
                     |(H500 & _ & [Hfs|(text & written & e & Hwf & Hfs)])]].
  - destruct (Hset _ Hfs) as [S1 S2]. split; [exact S1|]. split; [exact S2|].
    intros r' Hr' Hne. injection Hr' as <-. congruence.
  - destruct (Hsame Hfs) as [S1 S2].
    split; [intros p node _; apply S1|].
    split; [intros p text _; apply S2|].
    intros r' _ _. left. exact S2.
  - destruct (Hsame Hfs) as [S1 S2].
    split; [intros p node _; apply S1|].
    split; [intros p text _; apply S2|].
    intros r' _ _. left. exact S2.
  - destruct (Hset _ Hfs) as [S1 S2]. split; [exact S1|]. split; [exact S2|].
    intros r' Hr' _. injection Hr' as <-. right. split; [exact H500|].
    exists text, written, e. split; [exact Hwf|].
    rewrite Hfs. apply assoc_set_file.
Qed.

(** X13. Reports saved at different instants have different names, as long
    as the instants are ones that [toISOString] prints with a four-digit
    year; so only audits that read the same millisecond from the clock share
    a report file. *)
Theorem reports_of_different_instants_differ d1 d2 :
  Date.valid d1 = true -> Date.valid d2 = true -> d1 <> d2 ->
  report_name d1 <> report_name d2.
Proof.
  intros V1 V2 Hne He. apply Hne. unfold report_name in He.
  apply (append_inj "lighthouse-report-" "lighthouse-report-") in He as [_ He];
    [|reflexivity].
  apply (f_equal (fun s => String.length s)) in He as Hlen.
  rewrite !length_append in Hlen. cbn [String.length] in Hlen.
  apply append_inj in He as [He _]; [|lia].
  now apply timestamp_of_inj.
Qed.

Lemma reports_of_different_instants_differ_witness :
  (Date.valid t1 = true /\ Date.valid t2 = true /\ t1 <> t2) /\
  report_name t1 <> report_name t2.
Proof.
  assert (Hne : t1 <> t2) by discriminate.
  split; [split; [reflexivity|]; split; [reflexivity | exact Hne]|].
  exact (reports_of_different_instants_differ t1 t2 eq_refl eq_refl Hne).
Defined.

(** X14. Audit, then list: under the conditions of a successful audit, the
    name of the report that the audit wrote is in the array that
    [GET /reports] answers next, provided the directory can be read. *)
Theorem saved_report_is_listed E req w decoded port results :
  Path.isAbsolute (cwd E) = true ->
  reaches_result E req decoded port results ->
  verdict results = None ->
  directory_available E (fs w) = true ->
  io_fault E Fs.OpWrite (report_path_at E w) = None ->
  written_in_full E (report_path_at E w) (get results "lhr") = true ->
  Fs.resolve (fs w) (report_path_at E w) <> Some Fs.Dir ->
  io_fault E Fs.OpReaddir (reportsDir E) = None ->
  exists files,
    answer (list_reports E) (snd (serve (nsa_audit E req) w)) =
      Some (mkResponse 200 (VArr (map VStr files))) /\
    In (report_name (clock E (clock_reads w))) files.
Proof.
  intros Habs Hreach Hv Hav Hw Hfull Hnd Hrd.
  destruct (audit_success_run E req w decoded port results Habs Hreach Hv Hav Hw
              Hfull Hnd)
    as (added & text & w3 & Hrun & _ & Hf3 & _ & _ & _ & _ & _ & _ & Hdir).
  rewrite Hrun. cbn [snd].
  set (name := report_name (clock E (clock_reads w))).
  destruct (report_path_proper E name Habs (report_name_proper _))
    as (Hjoin & Hres & _ & _).
  assert (Hpath : report_path_at E w = (reportsDir E ++ "/" ++ name)%string)
    by exact Hjoin.
  destruct (reportsDir_plain E) as [_ Hroot].
  destruct (proper_inv _ (report_name_proper (clock E (clock_reads w))))
    as (Hne & _ & _ & Hc).
  apply String.eqb_neq in Hne.
  assert (Hd3 : Fs.resolve (fs w3) (reportsDir E) = Some Fs.Dir).
  { rewrite reportsDir_resolve, Hf3, assoc_set_file_other.
    - now rewrite <- reportsDir_resolve.
    - rewrite Hpath. intros He. apply (f_equal String.length) in He.
      rewrite !length_append in He. cbn [String.length] in He. lia. }
  pose proof (list_reports_run E w3 Hd3 Hrd) as Hlist. cbv zeta in Hlist.
  eexists. split; [unfold answer; rewrite Hlist; reflexivity|].
  apply (Permutation_in _ (Permutation_sym (sort_permutation _ _))).
  apply filter_In. split; [|apply report_name_json].
  apply (entries_in _ _ _ (Fs.File text) Hroot Hne Hc).
  fold name. rewrite Hf3, Hpath. apply assoc_set_file.
Qed.

Lemma saved_report_is_listed_witness :
  (Path.isAbsolute (cwd platform) = true /\
   reaches_result platform plain_request "https://example.com/" 9222%N
                  (VObj [("lhr", lhr)]) /\
   verdict (VObj [("lhr", lhr)]) = None /\
   directory_available platform (fs world0) = true /\
   io_fault platform Fs.OpWrite (report_path_at platform world0) = None /\
   written_in_full platform (report_path_at platform world0)
                   (get (VObj [("lhr", lhr)]) "lhr") = true /\
   Fs.resolve (fs world0) (report_path_at platform world0) <> Some Fs.Dir /\
   io_fault platform Fs.OpReaddir (reportsDir platform) = None) /\
  exists files,
    answer (list_reports platform)
           (snd (serve (nsa_audit platform plain_request) world0)) =
      Some (mkResponse 200 (VArr (map VStr files))) /\
    In (report_name (clock platform (clock_reads world0))) files.
Proof.
  split.
  { split; [reflexivity|]. split; [repeat split; vm_compute; reflexivity|].
    split; [reflexivity|]. split; [reflexivity|]. split; [reflexivity|].
    split; [reflexivity|].
    split; [vm_compute; discriminate | reflexivity]. }
  apply (saved_report_is_listed platform plain_request world0 "https://example.com/"
           9222%N (VObj [("lhr", lhr)]));
    try (vm_compute; reflexivity).
  - repeat split; vm_compute; reflexivity.
  - vm_compute. discriminate.
Defined.

(** X15. When lighthouse throws something that is not an [Error], the answer
    is 500 with the error text [Unknown error occurred]; a thrown value that
    is neither an object nor an array goes into [details] as it is, so
    [details] can be a string, a number, a boolean, [null] or [undefined]. *)
Theorem thrown_value_is_passed_on E req w decoded port v :
  reaches_launch E req decoded ->
  launch_result E = Ok port ->
  lighthouse_result E decoded port (locale_of req) = Raise (Thrown v) ->
  primitive v = true ->
  answer (nsa_audit E req) w =
    Some (mkResponse 500
            (VObj [("success", VBool false);
                   ("error", VStr "Unknown error occurred");
                   ("details", v)])).
Proof.
  intros Hreach Hl Hlh Hv.
  rewrite (serve_launched_answer E req w decoded port Hreach Hl).
  destruct (audit_engine_run E decoded (locale_of req) port (launched_world w port)
              (Thrown v) Hlh eq_refl) as (w3 & Hrun & Hs).
  rewrite Hrun. cbn [snd]. rewrite Hs. unfold failed_response.
  destruct v; try discriminate; reflexivity.
Qed.

Lemma thrown_value_is_passed_on_witness :
  (reaches_launch throws_text plain_request "https://example.com/" /\
   launch_result throws_text = Ok 9222%N /\
   lighthouse_result throws_text "https://example.com/" 9222%N
                     (locale_of plain_request)
     = Raise (Thrown (VStr "navigation timed out")) /\
   primitive (VStr "navigation timed out") = true) /\
  answer (nsa_audit throws_text plain_request) world0 =
    Some (mkResponse 500
            (VObj [("success", VBool false);
                   ("error", VStr "Unknown error occurred");
                   ("details", VStr "navigation timed out")])).
Proof.
  split.
  { split; [repeat split; vm_compute; reflexivity|]. repeat split. }
  apply (thrown_value_is_passed_on throws_text plain_request world0
           "https://example.com/" 9222%N (VStr "navigation timed out"));
    try reflexivity.
  repeat split; vm_compute; reflexivity.
Defined.

(** X16. A URL that holds no percent sign is audited as it is given: once
    it has passed the URL check and Chrome is up, the route waits ten seconds
    and then runs lighthouse on that very string and the port of the
    launch. *)
Theorem plain_url_is_audited_as_given E w url locale port :
  url <> ""%string ->
  Str.contains_char "%" url = false ->
  URL_ok E url = true ->
  launch_result E = Ok port ->
  exists rest,
    actions (nsa_audit E (mkRequest (VStr url) locale)) w =
      EvLaunch port :: EvWait 10000 :: EvAudit url port :: rest.
Proof.
  intros Hne Hplain Hok Hl.
  set (req := mkRequest (VStr url) locale).
  assert (Hreach : reaches_launch E req url).
  { split; [|split; [|assumption]].
    - cbn. apply String.eqb_neq in Hne. now rewrite Hne.
    - now apply decode_plain. }
  pose proof (serve_launched E req w url port Hreach Hl) as Hserve.
  destruct (audit E url (locale_of req) port (launched_world w port))
    as [c2 w2] eqn:Ha.
  destruct (audit_starts _ _ _ _ _ _ _ Ha) as (rest & Ht2).
  destruct (audit_spec _ _ _ _ _ _ _ (eq_refl : sent (launched_world w port) = None) Ha)
    as (_ & acts & _ & Hshape).
  change (trace (launched_world w port)) with (trace w ++ [EvLaunch port]) in Ht2.
  destruct c2 as [[]| |e]; [| contradiction |].
  - destruct (guarded_normal _ _ _ _ _ _ Ha) as (w3 & Hrun & _ & _ & Ht3 & _).
    rewrite Hrun in Hserve. exists (rest ++ [EvKill port]).
    eapply actions_extension; [exact Hserve|].
    rewrite Ht3, Ht2, <- !app_assoc. reflexivity.
  - destruct Hshape as (Hsent & _).
    destruct (guarded_throw _ _ _ _ _ _ _ Ha Hsent) as (w3 & Hrun & _ & _ & Ht3 & _).
    rewrite Hrun in Hserve.
    exists (rest ++ [EvRespond (failed_response e); EvKill port]).
    eapply actions_extension; [exact Hserve|].
    rewrite Ht3, Ht2, <- !app_assoc. reflexivity.
Qed.

Lemma plain_url_is_audited_as_given_witness :
  ("https://example.com/"%string <> ""%string /\
   Str.contains_char "%" "https://example.com/" = false /\
   URL_ok platform "https://example.com/" = true /\
   launch_result platform = Ok 9222%N) /\
  exists rest,
    actions (nsa_audit platform (mkRequest (VStr "https://example.com/") (VStr "de")))
            world0 =
      EvLaunch 9222 :: EvWait 10000 :: EvAudit "https://example.com/" 9222 :: rest.
Proof.
  assert (Hne : "https://example.com/"%string <> ""%string) by discriminate.
  split; [split; [exact Hne|]; repeat split|].
  exact (plain_url_is_audited_as_given platform world0 "https://example.com/"
           (VStr "de") 9222%N Hne eq_refl eq_refl eq_refl).
Defined.

(** X17. A regular file with the name of the reports directory makes every
    audit fail at the save, after lighthouse has run: the existence test
    takes the file for the directory, the write fails, and the answer is 500
    with an error text that starts with [Failed to save report: ].  The
    store is left as it was and Chrome is killed after the response. *)
Theorem audit_with_a_file_in_place E req w decoded port results content :
  Path.isAbsolute (cwd E) = true ->
  reaches_result E req decoded port results ->
  verdict results = None ->
  Fs.resolve (fs w) (reportsDir E) = Some (Fs.File content) ->
  Fs.resolve (fs w) (report_path_at E w) = None ->
  io_fault E Fs.OpWrite (report_path_at E w) = None ->
  exists r cause,
    answer (nsa_audit E req) w = Some r /\
    status r = 500%nat /\
    get (body r) "success" = VBool false /\
    get (body r) "error" = VStr ("Failed to save report: " ++ cause) /\
    actions (nsa_audit E req) w =
      [EvLaunch port; EvWait 10000; EvAudit decoded port; EvRespond r; EvKill port] /\
    fs (snd (serve (nsa_audit E req) w)) = fs w.
Proof.
  intros Habs (Hreach & Hl & Hlh) Hv Hd Hnone Hw.
  destruct (stringify_truthy _ 2 (verdict_none_lhr _ Hv)) as (text & Htext).
  pose proof (serve_launched E req w decoded port Hreach Hl) as Hserve.
  destruct (audit_blocked E decoded (locale_of req) port (launched_world w port)
              results text content Habs Hlh Hv Htext Hd Hnone Hw)
    as (w2 & Ha & Hf2 & Hs2 & Ht2).
  destruct (guarded_throw _ _ _ _ _ _ _ Ha Hs2) as (w3 & Hrun & Hf3 & Hs3 & Ht3 & _).
  rewrite Hrun in Hserve.
  eexists. exists (Fs.message_of Fs.ENOTDIR "open" (Some (report_path_at E w))).
  unfold answer. rewrite Hserve. cbn [snd].
  split; [exact Hs3|]. split; [reflexivity|]. split; [reflexivity|].
  split; [reflexivity|]. split; [|now rewrite Hf3, Hf2].
  eapply actions_extension; [exact Hserve|].
  rewrite Ht3, Ht2. cbn [trace launched_world]. now rewrite <- !app_assoc.
Qed.

Lemma audit_with_a_file_in_place_witness :
  (Path.isAbsolute (cwd platform) = true /\
   reaches_result platform plain_request "https://example.com/" 9222%N
                  (VObj [("lhr", lhr)]) /\
   verdict (VObj [("lhr", lhr)]) = None /\
   Fs.resolve (fs blocked_world) (reportsDir platform) =
     Some (Fs.File "not a directory") /\
   Fs.resolve (fs blocked_world) (report_path_at platform blocked_world) = None /\
   io_fault platform Fs.OpWrite (report_path_at platform blocked_world) = None) /\
  exists r cause,
    answer (nsa_audit platform plain_request) blocked_world = Some r /\
    status r = 500%nat /\
    get (body r) "success" = VBool false /\
    get (body r) "error" = VStr ("Failed to save report: " ++ cause) /\
    actions (nsa_audit platform plain_request) blocked_world =
      [EvLaunch 9222; EvWait 10000; EvAudit "https://example.com/" 9222;
       EvRespond r; EvKill 9222] /\
    fs (snd (serve (nsa_audit platform plain_request) blocked_world)) = fs blocked_world.
Proof.
  split.
  { split; [reflexivity|]. split; [repeat split; vm_compute; reflexivity|].
    split; [reflexivity|]. split; [vm_compute; reflexivity|].
    split; [vm_compute; reflexivity|]. reflexivity. }
  apply (audit_with_a_file_in_place platform plain_request blocked_world
           "https://example.com/" 9222%N (VObj [("lhr", lhr)])
           "not a directory");
    try (vm_compute; reflexivity).
  repeat split; vm_compute; reflexivity.
Defined.

(** X18. Two audits that read the same instant from the clock for the name
    of the report write the same file: when neither write fails, both
    succeed and answer the same [reportPath], the file then holds the report
    of the second audit, and the directory has no entry more than after the
    first. *)
Theorem audits_in_the_same_millisecond_share_a_report
        E req1 req2 w decoded1 decoded2 port results1 results2 :
  Path.isAbsolute (cwd E) = true ->
  reaches_result E req1 decoded1 port results1 ->
  verdict results1 = None ->
  reaches_result E req2 decoded2 port results2 ->
  verdict results2 = None ->
  directory_available E (fs w) = true ->
  io_fault E Fs.OpWrite (report_path_at E w) = None ->
  written_in_full E (report_path_at E w) (get results1 "lhr") = true ->
  written_in_full E (report_path_at E w) (get results2 "lhr") = true ->
  Fs.resolve (fs w) (report_path_at E w) <> Some Fs.Dir ->
  clock E (S (S (clock_reads w))) = clock E (clock_reads w) ->
  let w1 := snd (serve (nsa_audit E req1) w) in
  let w2 := snd (serve (nsa_audit E req2) w1) in
  exists r1 r2 text2,
    answer (nsa_audit E req1) w = Some r1 /\
    answer (nsa_audit E req2) w1 = Some r2 /\
    status r1 = 200%nat /\ status r2 = 200%nat /\
    get (body r2) "reportPath" = get (body r1) "reportPath" /\
    Json.stringify (get results2 "lhr") 2 = Some text2 /\
    Fs.resolve (fs w2) (report_path_at E w) = Some (Fs.File text2) /\
    Fs.entries (reportsDir E) (fs w2) = Fs.entries (reportsDir E) (fs w1).
Proof.
  intros Habs Hr1 Hv1 Hr2 Hv2 Hav Hw Hfull1 Hfull2 Hnd Hclock. cbv zeta.
  destruct (audit_success_run E req1 w decoded1 port results1 Habs Hr1 Hv1 Hav Hw
              Hfull1 Hnd)
    as (added & text1 & w1 & Hrun1 & _ & Hf1 & Hc1 & Hs1 & _ & _ & _ & _ & Hdir).
  rewrite Hrun1. cbn [snd].
  set (name := report_name (clock E (clock_reads w))).
  destruct (report_path_proper E name Habs (report_name_proper _))
    as (Hjoin & Hres & _ & _).
  assert (Hpath : report_path_at E w = (reportsDir E ++ "/" ++ name)%string)
    by exact Hjoin.
  assert (Hsame : report_path_at E w1 = report_path_at E w).
  { unfold report_path_at. now rewrite Hc1, Hclock. }
  assert (Hfile : assoc (report_path_at E w) (fs w1) = Some (Fs.File text1))
    by (rewrite Hf1; apply assoc_set_file).
  assert (Hd1 : Fs.resolve (fs w1) (reportsDir E) = Some Fs.Dir).
  { rewrite reportsDir_resolve, Hf1, assoc_set_file_other.
    - now rewrite <- reportsDir_resolve.
    - rewrite Hpath. intros He. apply (f_equal String.length) in He.
      rewrite !length_append in He. cbn [String.length] in He. lia. }
  assert (Hav1 : directory_available E (fs w1) = true)
    by (unfold directory_available; now rewrite Hd1).
  assert (Hw1 : io_fault E Fs.OpWrite (report_path_at E w1) = None)
    by now rewrite Hsame.
  assert (Hnd1 : Fs.resolve (fs w1) (report_path_at E w1) <> Some Fs.Dir).
  { rewrite Hsame, Hpath, Hres, <- Hpath, Hfile. discriminate. }
  assert (Hfull21 : written_in_full E (report_path_at E w1) (get results2 "lhr") = true)
    by now rewrite Hsame.
  destruct (audit_success_run E req2 w1 decoded2 port results2 Habs Hr2 Hv2 Hav1 Hw1
              Hfull21 Hnd1)
    as (added2 & text2 & w2 & Hrun2 & Htext2 & Hf2 & _ & Hs2 & _ & _ & _ & Hnil2 & _).
  rewrite (Hnil2 Hd1) in Hf2. unfold directories in Hf2. cbn [map] in Hf2.
  rewrite app_nil_r, Hsame in Hf2.
  rewrite Hrun2. cbn [snd]. cbv zeta in Hs1, Hs2.
  do 2 eexists. exists text2. unfold answer. rewrite Hrun1, Hrun2. cbn [snd].
  split; [exact Hs1|]. split; [exact Hs2|].
  split; [reflexivity|]. split; [reflexivity|].
  split; [cbn; now rewrite Hc1, Hclock|].
  split; [exact Htext2|].
  split.
  - rewrite Hf2, Hpath, Hres. apply assoc_set_file.
  - rewrite Hf2. now apply (entries_set_file_present _ _ _ _ (Fs.File text1)).
Qed.

Lemma audits_in_the_same_millisecond_share_a_report_witness :
  (Path.isAbsolute (cwd frozen) = true /\
   reaches_result frozen audit_request "https://example.com" 9222%N
                  (VObj [("lhr", lhr)]) /\
   verdict (VObj [("lhr", lhr)]) = None /\
   reaches_result frozen plain_request "https://example.com/" 9222%N
                  (VObj [("lhr", lhr)]) /\
   directory_available frozen (fs world0) = true /\
   io_fault frozen Fs.OpWrite (report_path_at frozen world0) = None /\
   written_in_full frozen (report_path_at frozen world0)
                   (get (VObj [("lhr", lhr)]) "lhr") = true /\
   Fs.resolve (fs world0) (report_path_at frozen world0) <> Some Fs.Dir /\
   clock frozen (S (S (clock_reads world0))) = clock frozen (clock_reads world0)) /\
  let w1 := snd (serve (nsa_audit frozen audit_request) world0) in
  let w2 := snd (serve (nsa_audit frozen plain_request) w1) in
  exists r1 r2 text2,
    answer (nsa_audit frozen audit_request) world0 = Some r1 /\
    answer (nsa_audit frozen plain_request) w1 = Some r2 /\
    status r1 = 200%nat /\ status r2 = 200%nat /\
    get (body r2) "reportPath" = get (body r1) "reportPath" /\
    Json.stringify (get (VObj [("lhr", lhr)]) "lhr") 2 = Some text2 /\
    Fs.resolve (fs w2) (report_path_at frozen world0) = Some (Fs.File text2) /\
    Fs.entries (reportsDir frozen) (fs w2) = Fs.entries (reportsDir frozen) (fs w1).
Proof.
  split.
  { split; [reflexivity|]. split; [repeat split; vm_compute; reflexivity|].
    split; [reflexivity|]. split; [repeat split; vm_compute; reflexivity|].
    split; [reflexivity|]. split; [reflexivity|]. split; [reflexivity|].
    split; [vm_compute; discriminate | reflexivity]. }
  apply (audits_in_the_same_millisecond_share_a_report frozen audit_request
           plain_request world0 "https://example.com" "https://example.com/"
           9222%N (VObj [("lhr", lhr)]) (VObj [("lhr", lhr)]));
    try (vm_compute; reflexivity).
  - repeat split; vm_compute; reflexivity.
  - repeat split; vm_compute; reflexivity.
  - vm_compute. discriminate.
Defined.

(** X26. A write that stops short.  When everything is as for a successful
    audit except that the writing of the report fails after some bytes, the
    request is answered 500 with the wrapped message of the error, no write
    has completed, and yet the report file is there, holding the bytes
    written before the failure: the next [GET /reports] lists its name among
    the reports. *)
Theorem interrupted_write_leaves_a_truncated_report
        E req w decoded port results text written e :
  Path.isAbsolute (cwd E) = true ->
  reaches_result E req decoded port results ->
  verdict results = None ->
  directory_available E (fs w) = true ->
  Json.stringify (get results "lhr") 2 = Some text ->
  io_fault E Fs.OpWrite (report_path_at E w) = None ->
  write_fault E (report_path_at E w) text = Some (written, e) ->
  Fs.resolve (fs w) (report_path_at E w) <> Some Fs.Dir ->
  let w' := snd (serve (nsa_audit E req) w) in
  (exists r,
     answer (nsa_audit E req) w = Some r /\
     status r = 500%nat /\
     get (body r) "success" = VBool false /\
     get (body r) "error" =
       VStr ("Failed to save report: " ++ message_or e "Unknown error")) /\
  existsb is_write (actions (nsa_audit E req) w) = false /\
  Fs.resolve (fs w') (report_path_at E w) =
    Some (Fs.File (substring 0 written text)) /\
  (io_fault E Fs.OpReaddir (reportsDir E) = None ->
   exists files,
     answer (list_reports E) w' = Some (mkResponse 200 (VArr (map VStr files))) /\
     In (report_name (clock E (clock_reads w))) files).
Proof.
  intros Habs (Hreach & Hl & Hlh) Hv Hav Htext Hw Hwf Hnd. cbv zeta.
  pose proof (serve_launched E req w decoded port Hreach Hl) as Hserve.
  destruct (audit_truncated E decoded (locale_of req) port (launched_world w port)
              results text written e Habs Hlh Hv Hav Htext Hw Hwf Hnd)
    as (added & w2 & Ha & Hf2 & Hs2 & Ht2 & Hi & Hdir).
  change (report_path_at E (launched_world w port)) with (report_path_at E w) in Hf2.
  change (fs (launched_world w port)) with (fs w) in Hf2, Hdir, Ht2.
  change (sent (launched_world w port)) with (@None response) in Hs2.
  change (trace (launched_world w port)) with (trace w ++ [EvLaunch port]) in Ht2.
  destruct (guarded_throw _ _ _ _ _ _ _ Ha Hs2) as (w3 & Hrun & Hf3 & Hs3 & Ht3 & _).
  rewrite Hrun in Hserve. unfold answer. rewrite Hserve. cbn [snd].
  set (name := report_name (clock E (clock_reads w))).
  destruct (report_path_proper E name Habs (report_name_proper _))
    as (Hjoin & Hres & _ & _).
  assert (Hpath : report_path_at E w = (reportsDir E ++ "/" ++ name)%string)
    by exact Hjoin.
  assert (Hfile : assoc (report_path_at E w) (fs w3) =
                  Some (Fs.File (substring 0 written text)))
    by (rewrite Hf3, Hf2; apply assoc_set_file).
  split; [eexists; split; [exact Hs3|]; repeat split|].
  split.
  { assert (Hacts : actions (nsa_audit E req) w =
                      [EvLaunch port; EvWait 10000; EvAudit decoded port] ++
                      mkdir_actions E (fs w) ++
                      [EvRespond (failed_response
                                    (new_Error E ("Failed to save report: " ++
                                                  message_or e "Unknown error")));
                       EvKill port]).
    { eapply actions_extension; [exact Hserve|].
      rewrite Ht3, Ht2, <- !app_assoc. reflexivity. }
    rewrite Hacts. unfold mkdir_actions.
    destruct (Fs.resolve (fs w) (reportsDir E)); reflexivity. }
  split; [rewrite Hpath, Hres, <- Hpath; exact Hfile|].
  intros Hrd.
  destruct (reportsDir_plain E) as [_ Hroot].
  destruct (proper_inv _ (report_name_proper (clock E (clock_reads w))))
    as (Hne & _ & _ & Hc).
  apply String.eqb_neq in Hne.
  assert (Hd3 : Fs.resolve (fs w3) (reportsDir E) = Some Fs.Dir).
  { rewrite reportsDir_resolve, Hf3, Hf2, assoc_set_file_other.
    - now rewrite <- reportsDir_resolve.
    - rewrite Hpath. intros He. apply (f_equal String.length) in He.
      rewrite !length_append in He. cbn [String.length] in He. lia. }
  pose proof (list_reports_run E w3 Hd3 Hrd) as Hlist. cbv zeta in Hlist.
  eexists. split; [rewrite Hlist; reflexivity|].
  apply (Permutation_in _ (Permutation_sym (sort_permutation _ _))).
  apply filter_In. split; [|apply report_name_json].
  apply (entries_in _ _ _ (Fs.File (substring 0 written text)) Hroot Hne Hc).
  fold name. rewrite <- Hpath. exact Hfile.
Qed.

Lemma interrupted_write_leaves_a_truncated_report_witness :
  (Path.isAbsolute (cwd disk_full) = true /\
   reaches_result disk_full audit_request "https://example.com" 9222%N
                  (VObj [("lhr", lhr)]) /\
   verdict (VObj [("lhr", lhr)]) = None /\
   directory_available disk_full (fs world0) = true /\
   Json.stringify (get (VObj [("lhr", lhr)]) "lhr") 2 = Some lhr_text /\
   io_fault disk_full Fs.OpWrite (report_path_at disk_full world0) = None /\
   write_fault disk_full (report_path_at disk_full world0) lhr_text =
     Some (64%nat, no_space) /\
   Fs.resolve (fs world0) (report_path_at disk_full world0) <> Some Fs.Dir) /\
  let w' := snd (serve (nsa_audit disk_full audit_request) world0) in
  (exists r,
     answer (nsa_audit disk_full audit_request) world0 = Some r /\
     status r = 500%nat /\
     get (body r) "success" = VBool false /\
     get (body r) "error" =
       VStr ("Failed to save report: " ++ message_or no_space "Unknown error")) /\
  existsb is_write (actions (nsa_audit disk_full audit_request) world0) = false /\
  Fs.resolve (fs w') (report_path_at disk_full world0) =
    Some (Fs.File (substring 0 64 lhr_text)) /\
  (io_fault disk_full Fs.OpReaddir (reportsDir disk_full) = None ->
   exists files,
     answer (list_reports disk_full) w' = Some (mkResponse 200 (VArr (map VStr files))) /\
     In (report_name (clock disk_full (clock_reads world0))) files).
Proof.
  split.
  { split; [reflexivity|]. split; [repeat split; vm_compute; reflexivity|].
    split; [reflexivity|]. split; [reflexivity|]. split; [vm_compute; reflexivity|].
    split; [reflexivity|]. split; [reflexivity|]. vm_compute. discriminate. }
  apply (interrupted_write_leaves_a_truncated_report disk_full audit_request world0
           "https://example.com" 9222%N (VObj [("lhr", lhr)]) lhr_text 64%nat no_space);
    try (vm_compute; reflexivity).
  - repeat split; vm_compute; reflexivity.
  - vm_compute. discriminate.
Defined.

(** X24. When Chrome does not start, the response is all that happens:
    500 with [success: false], the message of the error (or
    [Unknown error occurred]) and its stack as [details] ([undefined] for a
    thrown value that is not an [Error]).  Nothing is waited for, audited,
    written or killed, and the store and the live Chrome processes are as
    before. *)
Theorem launch_failure_is_answered_without_cleanup E req w decoded e :
  reaches_launch E req decoded ->
  launch_result E = Raise e ->
  let r := mkResponse 500
             (VObj [("success", VBool false);
                    ("error", VStr (message_or e "Unknown error occurred"));
                    ("details", error_stack e)]) in
  answer (nsa_audit E req) w = Some r /\
  actions (nsa_audit E req) w = [EvRespond r] /\
  fs (snd (serve (nsa_audit E req) w)) = fs w /\
  chrome (snd (serve (nsa_audit E req) w)) = chrome w /\
  (forall message stack own, e = Error message stack own ->
     get (body r) "error" = VStr message /\ get (body r) "details" = VStr stack).
Proof.
  intros Hreach Hl. cbv zeta.
  pose proof (launch_failed E req w decoded e Hreach Hl) as Hrun.
  split; [unfold answer; rewrite Hrun; reflexivity|].
  split; [eapply actions_extension; [exact Hrun | reflexivity]|].
  rewrite Hrun. cbn [snd fs chrome]. split; [reflexivity|]. split; [reflexivity|].
  intros message stack own ->. split; reflexivity.
Qed.

Lemma launch_failure_is_answered_without_cleanup_witness :
  (reaches_launch no_chrome plain_request "https://example.com/" /\
   launch_result no_chrome =
     Raise (Error "connect ECONNREFUSED 127.0.0.1:9222"
                  "Error: connect ECONNREFUSED 127.0.0.1:9222"
                  (plain_own "connect ECONNREFUSED 127.0.0.1:9222"
                             "Error: connect ECONNREFUSED 127.0.0.1:9222"))) /\
  answer (nsa_audit no_chrome plain_request) world0 =
    Some (mkResponse 500
            (VObj [("success", VBool false);
                   ("error", VStr "connect ECONNREFUSED 127.0.0.1:9222");
                   ("details", VStr "Error: connect ECONNREFUSED 127.0.0.1:9222")])) /\
  actions (nsa_audit no_chrome plain_request) world0 =
    [EvRespond
       (mkResponse 500
          (VObj [("success", VBool false);
                 ("error", VStr "connect ECONNREFUSED 127.0.0.1:9222");
                 ("details", VStr "Error: connect ECONNREFUSED 127.0.0.1:9222")]))] /\
  fs (snd (serve (nsa_audit no_chrome plain_request) world0)) = fs world0 /\
  chrome (snd (serve (nsa_audit no_chrome plain_request) world0)) = chrome world0.
Proof.
  split; [split; [repeat split; vm_compute; reflexivity | reflexivity]|].
  destruct (launch_failure_is_answered_without_cleanup no_chrome plain_request world0
              "https://example.com/"
              (Error "connect ECONNREFUSED 127.0.0.1:9222"
                     "Error: connect ECONNREFUSED 127.0.0.1:9222"
                     (plain_own "connect ECONNREFUSED 127.0.0.1:9222"
                                "Error: connect ECONNREFUSED 127.0.0.1:9222")))
    as (H1 & H2 & H3 & H4 & _);
    [repeat split; vm_compute; reflexivity | reflexivity |].
  repeat split; assumption.
Defined.

(** X25. When lighthouse throws an instance of [Error], the answer is 500
    with the message of the error as [error], and [details] is JSON text
    made from the own properties of the error, whatever they are: it parses
    to an object that has every own property holding null, a boolean, a
    finite number or a string, with that value, and that has no property the
    error does not own.  So [message] and [stack] are in it for an error made by
    [new Error(message)], and [message] is not for an error that inherits
    its message. *)
Theorem details_of_an_error_parse_back E req w decoded port message stack own :
  reaches_launch E req decoded ->
  launch_result E = Ok port ->
  lighthouse_result E decoded port (locale_of req) = Raise (Error message stack own) ->
  Json.well_formed (VObj own) = true ->
  exists r text v,
    answer (nsa_audit E req) w = Some r /\
    status r = 500%nat /\
    get (body r) "success" = VBool false /\
    get (body r) "error" = VStr message /\
    get (body r) "details" = VStr text /\
    Json.parse text = Some v /\
    (forall k x, assoc k own = Some x -> scalar x = true -> get v k = x) /\
    (forall k, assoc k own = None -> get v k = VUndefined).
Proof.
  intros Hreach Hl Hlh Hw.
  rewrite (serve_launched_answer E req w decoded port Hreach Hl).
  destruct (audit_engine_run E decoded (locale_of req) port (launched_world w port)
              (Error message stack own) Hlh eq_refl) as (w3 & Hrun & Hs).
  rewrite Hrun. cbn [snd]. rewrite Hs.
  destruct (error_details_text message stack own Hw) as (text & v & Hd & Hp & Hown & Hnot).
  exists (failed_response (Error message stack own)), text, v.
  split; [reflexivity|]. split; [reflexivity|]. split; [reflexivity|].
  split; [reflexivity|]. split; [|repeat split; assumption].
  unfold failed_response. cbn [body get assoc String.eqb Ascii.eqb Bool.eqb].
  exact Hd.
Qed.

Lemma details_of_an_error_parse_back_witness :
  (reaches_launch throws_error plain_request "https://example.com/" /\
   launch_result throws_error = Ok 9222%N /\
   lighthouse_result throws_error "https://example.com/" 9222%N
                     (locale_of plain_request)
     = Raise protocol_timeout /\
   Json.well_formed
     (VObj (plain_own "PROTOCOL_TIMEOUT" "LighthouseError: PROTOCOL_TIMEOUT" ++
            [("name", VStr "LighthouseError"); ("code", VStr "PROTOCOL_TIMEOUT");
             ("friendlyMessage",
              VStr "Waiting for DevTools protocol response has exceeded the allotted time.");
             ("lhrRuntimeError", VBool true)])) = true) /\
  exists r text v,
    answer (nsa_audit throws_error plain_request) world0 = Some r /\
    status r = 500%nat /\
    get (body r) "success" = VBool false /\
    get (body r) "error" = VStr "PROTOCOL_TIMEOUT" /\
    get (body r) "details" = VStr text /\
    Json.parse text = Some v /\
    get v "message" = VStr "PROTOCOL_TIMEOUT" /\
    get v "stack" = VStr "LighthouseError: PROTOCOL_TIMEOUT" /\
    get v "code" = VStr "PROTOCOL_TIMEOUT" /\
    get v "lhrRuntimeError" = VBool true /\
    get v "cause" = VUndefined.
Proof.
  split; [split; [repeat split; vm_compute; reflexivity|]; repeat split|].
  destruct (details_of_an_error_parse_back throws_error plain_request world0
              "https://example.com/" 9222%N
              "PROTOCOL_TIMEOUT" "LighthouseError: PROTOCOL_TIMEOUT"
              (plain_own "PROTOCOL_TIMEOUT" "LighthouseError: PROTOCOL_TIMEOUT" ++
               [("name", VStr "LighthouseError"); ("code", VStr "PROTOCOL_TIMEOUT");
                ("friendlyMessage",
                 VStr "Waiting for DevTools protocol response has exceeded the allotted time.");
                ("lhrRuntimeError", VBool true)]))
    as (r & text & v & H1 & H2 & H3 & H4 & H5 & H6 & Hown & Hnot);
    [repeat split; vm_compute; reflexivity | reflexivity | reflexivity | reflexivity |].
  exists r, text, v.
  split; [exact H1|]. split; [exact H2|]. split; [exact H3|]. split; [exact H4|].
  split; [exact H5|]. split; [exact H6|].
  split; [apply Hown; reflexivity|]. split; [apply Hown; reflexivity|].
  split; [apply Hown; reflexivity|]. split; [apply Hown; reflexivity|].
  apply Hnot. reflexivity.
Defined.

(** *** Start-up and the test harness *)

(** X19. The port.  With [PORT] unset or empty the server takes 3400.
    Otherwise [parseInt] reads the decimal numeral at the start of [PORT] and
    stops at what is not a digit; the port is the Number nearest to the
    numeral.  Up to 2^53 that is the very number, so the server reads back
    what the harness prints ([serverPort.toString()], a plain numeral for
    such a number); beyond, the number is rounded, 9007199254740993 to
    9007199254740992. *)
Theorem port_reads_back_a_printed_number n rest :
  match rest with
  | String c _ => is_digit c = false
  | EmptyString => True
  end ->
  port (Some (string_of_nat n ++ rest)%string) = to_number false (Some (N.of_nat n)) /\
  ((N.of_nat n <= 9007199254740992)%N ->
   port (Some (string_of_nat n ++ rest)%string) = Integer false (N.of_nat n) /\
   port (Some (string_of_nat n)) = Integer false (N.of_nat n)) /\
  port None = Integer false 3400 /\ port (Some "") = Integer false 3400 /\
  port (Some "9007199254740993") = Integer false 9007199254740992.
Proof.
  intros Hrest. unfold port.
  assert (Hne : forall r, ((string_of_nat n ++ r)%string =? "")%string = false).
  { intros r. apply String.eqb_neq. intros H.
    apply (string_of_nat_nonempty n). destruct (string_of_nat n); [reflexivity|].
    discriminate. }
  split; [rewrite Hne; now apply parseInt_numeral|].
  split; [|repeat split; vm_compute; reflexivity].
  intros Hn. split; [rewrite Hne; now apply parseInt_string_of_nat|].
  pose proof (Hne ""%string) as Hn0. rewrite append_nil_r in Hn0. rewrite Hn0.
  rewrite <- (append_nil_r (string_of_nat n)).
  now apply (parseInt_string_of_nat n "").
Qed.

Lemma port_reads_back_a_printed_number_witness :
  is_digit "a" = false /\
  port (Some (string_of_nat 3402 ++ "abc")%string) = Integer false 3402 /\
  port (Some (string_of_nat 3402)) = Integer false 3402 /\
  port None = Integer false 3400 /\ port (Some "") = Integer false 3400 /\
  port (Some "9007199254740993") = Integer false 9007199254740992.
Proof.
  split; [reflexivity|].
  destruct (port_reads_back_a_printed_number 3402 "abc" eq_refl)
    as (_ & Hexact & H0 & H1 & H2).
  destruct Hexact as [Ha Hb]; [vm_compute; discriminate|].
  repeat split; assumption.
Defined.

(** X20. Start-up, then list.  When the reports directory is missing and its
    parent is a directory, loading the module makes that one directory, and
    [GET /reports] then answers 200 with the empty array without making
    anything itself. *)
Theorem after_startup_the_list_is_served E w :
  Fs.resolve (fs w) (reportsDir E) = None ->
  Fs.resolve (fs w) (Fs.dirname (reportsDir E)) = Some Fs.Dir ->
  io_fault E Fs.OpMkdir (reportsDir E) = None ->
  io_fault E Fs.OpReaddir (reportsDir E) = None ->
  Fs.entries (reportsDir E) (fs w) = [] ->
  exists w1,
    ensure_reports E w = (Normal tt, w1) /\
    fs w1 = fs w ++ [(reportsDir E, Fs.Dir)] /\
    answer (list_reports E) w1 = Some (mkResponse 200 (VArr [])) /\
    actions (list_reports E) w1 = [EvRespond (mkResponse 200 (VArr []))].
Proof.
  intros Hd Hp Hm Hf He.
  rewrite (ensure_reports_made E w Hd Hm Hp). eexists. split; [reflexivity|].
  cbn [fs]. split; [reflexivity|].
  destruct (reportsDir_plain E) as [_ Hroot].
  match goal with |- context [answer _ ?x] => set (w1 := x) end.
  assert (Hd1 : Fs.resolve (fs w1) (reportsDir E) = Some Fs.Dir).
  { unfold w1. cbn [fs]. rewrite reportsDir_resolve, assoc_app.
    rewrite reportsDir_resolve in Hd. rewrite Hd. cbn [assoc].
    now rewrite String.eqb_refl. }
  pose proof (list_reports_run E w1 Hd1 Hf) as Hrun. cbv zeta in Hrun.
  assert (He1 : Fs.entries (reportsDir E) (fs w1) = []).
  { unfold w1. cbn [fs]. rewrite entries_app, He. cbn [Fs.entries app].
    now rewrite (entry_name_self _ Hroot). }
  rewrite He1 in Hrun. cbn [filter] in Hrun.
  change (JsArray.sort newest_first []) with (@nil string) in Hrun.
  cbn [map] in Hrun.
  split; [unfold answer; rewrite Hrun; reflexivity|].
  eapply actions_extension; [exact Hrun | reflexivity].
Qed.

Lemma after_startup_the_list_is_served_witness :
  (Fs.resolve (fs world0) (reportsDir platform) = None /\
   Fs.resolve (fs world0) (Fs.dirname (reportsDir platform)) = Some Fs.Dir /\
   io_fault platform Fs.OpMkdir (reportsDir platform) = None /\
   io_fault platform Fs.OpReaddir (reportsDir platform) = None /\
   Fs.entries (reportsDir platform) (fs world0) = []) /\
  exists w1,
    ensure_reports platform world0 = (Normal tt, w1) /\
    fs w1 = fs world0 ++ [(reportsDir platform, Fs.Dir)] /\
    answer (list_reports platform) w1 = Some (mkResponse 200 (VArr [])) /\
    actions (list_reports platform) w1 = [EvRespond (mkResponse 200 (VArr []))].
Proof.
  split; [repeat split; vm_compute; reflexivity|].
  apply (after_startup_the_list_is_served platform world0); vm_compute; reflexivity.
Defined.

(** X21. [waitForServer] returns [true] at the first request that is answered
    with a 2xx status, having made one request per attempt and slept one
    second after each attempt that failed; thirty attempts are allowed when
    the caller names no number. *)
Theorem waitForServer_stops_at_the_first_success fetch port maxAttempts k :
  (k < attempts_allowed maxAttempts)%nat ->
  answered fetch (health_url port) k = true ->
  (forall j, (j < k)%nat -> answered fetch (health_url port) j = false) ->
  waitForServer fetch port maxAttempts =
    (true, mkProgress (S k) (1000 * N.of_nat k)).
Proof.
  intros Hlt Hk Hmin. unfold waitForServer.
  rewrite (attempts_first fetch (health_url port) k (attempts_allowed maxAttempts)
             (mkProgress 0 0) Hlt Hk Hmin).
  cbn [fetches slept]. f_equal. f_equal; lia.
Qed.

Lemma waitForServer_stops_at_the_first_success_witness :
  ((2 < attempts_allowed None)%nat /\
   answered third_time (health_url 3402) 2 = true /\
   (forall j, (j < 2)%nat -> answered third_time (health_url 3402) j = false)) /\
  waitForServer third_time 3402 None = (true, mkProgress 3 2000).
Proof.
  assert (Hmin : forall j, (j < 2)%nat ->
                           answered third_time (health_url 3402) j = false).
  { intros [|[|j]] Hj; [reflexivity | reflexivity | lia]. }
  assert (Hlt : (2 < attempts_allowed None)%nat) by (cbn; lia).
  split; [split; [exact Hlt|]; split; [reflexivity | exact Hmin]|].
  exact (waitForServer_stops_at_the_first_success third_time 3402 None 2
           Hlt eq_refl Hmin).
Defined.

(** X22. When none of the requests it is allowed is answered with a 2xx
    status, [waitForServer] returns [false] after that many requests and
    that many seconds of sleep: by default after thirty requests and thirty
    seconds. *)
Theorem waitForServer_gives_up fetch port maxAttempts :
  (forall j, (j < attempts_allowed maxAttempts)%nat ->
             answered fetch (health_url port) j = false) ->
  waitForServer fetch port maxAttempts =
    (false, mkProgress (attempts_allowed maxAttempts)
                       (1000 * N.of_nat (attempts_allowed maxAttempts))).
Proof.
  intros Hnone. unfold waitForServer.
  rewrite (attempts_none fetch (health_url port) (attempts_allowed maxAttempts)
             (mkProgress 0 0) Hnone).
  reflexivity.
Qed.

Lemma waitForServer_gives_up_witness :
  (forall j, (j < attempts_allowed None)%nat ->
             answered never_up (health_url 3402) j = false) /\
  waitForServer never_up 3402 None = (false, mkProgress 30 30000).
Proof.
  assert (Hnone : forall j, (j < attempts_allowed None)%nat ->
                            answered never_up (health_url 3402) j = false)
    by reflexivity.
  split; [exact Hnone|].
  exact (waitForServer_gives_up never_up 3402 None Hnone).
Defined.

(** X23. [findAvailablePort] tries the ports from [startPort] upwards, one at
    a time, for as long as binding fails with [EADDRINUSE]: it resolves with
    the port of the first server that listens, and rejects with the first
    error of another kind without trying a further port. *)
Theorem findAvailablePort_stops_at_the_first_port_not_in_use listen start k fuel :
  (forall j, (j < k)%nat ->
             exists e, listen (start + j)%nat = Refused "EADDRINUSE" e) ->
  (k < fuel)%nat ->
  match listen (start + k)%nat with
  | Listening port => findAvailablePort listen fuel start = Some (Ok port)
  | Refused code e =>
      code <> "EADDRINUSE"%string ->
      findAvailablePort listen fuel start = Some (Raise e)
  end.
Proof.
  intros Hbusy Hlt.
  replace fuel with (k + S (fuel - S k))%nat by lia.
  rewrite (findAvailablePort_skips listen k _ start Hbusy).
  cbn [findAvailablePort]. destruct (listen (start + k)%nat) as [p|code e];
    [reflexivity|].
  intros Hcode. apply String.eqb_neq in Hcode. now rewrite Hcode.
Qed.

Lemma findAvailablePort_stops_at_the_first_port_not_in_use_witness :
  ((forall j, (j < 2)%nat ->
              exists e, two_taken (3400 + j)%nat = Refused "EADDRINUSE" e) /\
   (2 < 10)%nat) /\
  findAvailablePort two_taken 10 3400 = Some (Ok 3402%nat).
Proof.
  assert (Hbusy : forall j, (j < 2)%nat ->
                            exists e, two_taken (3400 + j)%nat = Refused "EADDRINUSE" e).
  { intros [|[|j]] Hj; [eexists; reflexivity | eexists; reflexivity | lia]. }
  split; [split; [exact Hbusy | lia]|].
  exact (findAvailablePort_stops_at_the_first_port_not_in_use two_taken 3400 2 10
           Hbusy ltac:(lia)).
Defined.

End Behaviour.
